(** * A shallow embedding of the WhatsApp support agent

  The development follows the service classes of the repository:
  [MessageFormatter], [MessageLocalizationService], [TicketService],
  [TicketMessageHandler], [NLPService], [KnowledgeBaseService],
  [IntentHandler] and [MessageProcessor].  Pure helpers become Rocq
  functions; asynchronous methods become programs over the external
  calls they make (cache, database, hosted model, clock), interpreted
  against an explicit world.

  Conventions.
  - A JavaScript string is the list of its UTF-16 code units
    ([jstring]); a literal ["..."] denotes the code units of its text.
    Lengths, [substring], [includes], [split], [trim] and [charCodeAt]
    are computed on code units, as the language defines them.
  - The parts of the language that rest on the Unicode tables or on the
    built-in objects ([toLowerCase], the case folding of a regular
    expression, the members of [Object.prototype]) are the methods of
    the class [Engine]; its laws state what the development uses of
    them.
  - JavaScript numbers that carry a score are rationals [Q]; the
    arithmetic of a computed score rounds each result to the nearest
    binary64 value ([JsNumber.double]).  Time stamps are integers [Z]
    in milliseconds.
  - A thrown exception is the [Throw] case of [Result]. *)

From stdpp Require Import base option list strings pretty gmap.
From Stdlib Require Import ZArith NArith QArith Qminmax Lia Ascii String.
From Stdlib Require Strings.Byte.

Local Open Scope list_scope.

(** ** JavaScript strings *)

Module JsString.

(** A string: its UTF-16 code units. *)
Abbreviation jstring := (list N).

(** *** Literals *)

(** The code units of a text given by its UTF-8 bytes; a code point
    above the basic plane gives a surrogate pair. *)
Fixpoint utf16 (bytes : list N) : list N :=
  match bytes with
  | [] => []
  | b :: r =>
      if (b <? 192)%N then b :: utf16 r
      else if (b <? 224)%N then
        match r with
        | c1 :: r1 => (N.shiftl (N.land b 31) 6 + N.land c1 63)%N :: utf16 r1
        | _ => b :: utf16 r
        end
      else if (b <? 240)%N then
        match r with
        | c1 :: c2 :: r2 =>
            (N.shiftl (N.land b 15) 12 + N.shiftl (N.land c1 63) 6 + N.land c2 63)%N :: utf16 r2
        | _ => b :: utf16 r
        end
      else
        match r with
        | c1 :: c2 :: c3 :: r3 =>
            let v := (N.shiftl (N.land b 7) 18 + N.shiftl (N.land c1 63) 12
                      + N.shiftl (N.land c2 63) 6 + N.land c3 63 - 65536)%N in
            (55296 + N.shiftr v 10)%N :: (56320 + N.land v 1023)%N :: utf16 r3
        | _ => b :: utf16 r
        end
  end.

(** The UTF-8 bytes of a list of code units, to display it. *)
Fixpoint utf8 (units : list N) : list N :=
  match units with
  | [] => []
  | c :: r =>
      if (c <? 128)%N then c :: utf8 r
      else if (c <? 2048)%N then (192 + N.shiftr c 6)%N :: (128 + N.land c 63)%N :: utf8 r
      else
        let three :=
          (224 + N.shiftr c 12)%N :: (128 + N.land (N.shiftr c 6) 63)%N
          :: (128 + N.land c 63)%N :: utf8 r in
        if (55296 <=? c)%N && (c <? 56320)%N then
          match r with
          | d :: r' =>
              if (56320 <=? d)%N && (d <? 57344)%N then
                let p := (65536 + N.shiftl (c - 55296) 10 + (d - 56320))%N in
                (240 + N.shiftr p 18)%N :: (128 + N.land (N.shiftr p 12) 63)%N
                :: (128 + N.land (N.shiftr p 6) 63)%N :: (128 + N.land p 63)%N :: utf8 r'
              else three
          | [] => three
          end
        else three
  end.

Inductive literal : Set :=
| lnil
| lcons (c : N) (l : literal).

Fixpoint to_literal (units : list N) : literal :=
  match units with
  | [] => lnil
  | c :: r => lcons c (to_literal r)
  end.

Fixpoint of_literal (l : literal) : list N :=
  match l with
  | lnil => []
  | lcons c r => c :: of_literal r
  end.

Definition parse (bytes : list Byte.byte) : literal :=
  to_literal (utf16 (List.map Byte.to_N bytes)).

Definition print (l : literal) : list Byte.byte :=
  List.map (fun n => match Byte.of_N n with Some b => b | None => Byte.x3f end)
    (utf8 (of_literal l)).

Declare Scope js_scope.
Delimit Scope js_scope with js.
#[warnings="-via-type-mismatch,-via-type-remapping"]
String Notation list parse print
  (via literal mapping [[nil] => lnil, [cons] => lcons]) : js_scope.
Notation "a +:+ b" := (@app N a b) (at level 60, right associativity) : js_scope.
Local Open Scope js_scope.

(** *** The primitives *)

(** [a === b] *)
Fixpoint eqb (a b : jstring) : bool :=
  match a, b with
  | [], [] => true
  | x :: a', y :: b' => (x =? y)%N && eqb a' b'
  | _, _ => false
  end.

(** [s.startsWith(p)] *)
Fixpoint startsWith (p s : jstring) : bool :=
  match p, s with
  | [], _ => true
  | _ :: _, [] => false
  | a :: p', b :: s' => if (a =? b)%N then startsWith p' s' else false
  end.

(** [s.includes(sub)] *)
Fixpoint includes (s sub : jstring) : bool :=
  startsWith sub s ||
  match s with
  | [] => false
  | _ :: r => includes r sub
  end.

(** White space as [\s] and [trim] see it: the white space and line
    terminator code points of the language. *)
Definition is_space (c : N) : bool :=
  ((9 <=? c)%N && (c <=? 13)%N) || (c =? 32)%N || (c =? 160)%N || (c =? 5760)%N
  || ((8192 <=? c)%N && (c <=? 8202)%N) || (c =? 8232)%N || (c =? 8233)%N
  || (c =? 8239)%N || (c =? 8287)%N || (c =? 12288)%N || (c =? 65279)%N.

Fixpoint trimStart (s : jstring) : jstring :=
  match s with
  | [] => []
  | c :: r => if is_space c then trimStart r else s
  end.

(** Drops trailing white space: a code unit is kept when it is not a
    space or when something is kept after it. *)
Fixpoint trimEnd (s : jstring) : jstring :=
  match s with
  | [] => []
  | c :: r =>
      match trimEnd r with
      | [] => if is_space c then [] else [c]
      | r' => c :: r'
      end
  end.

(** [s.trim()] *)
Definition trim (s : jstring) : jstring := trimEnd (trimStart s).

(** [s.replace(/\s+/g, ' ')]: every maximal run of white space becomes
    one space. *)
Fixpoint collapse_spaces (in_run : bool) (s : jstring) : jstring :=
  match s with
  | [] => []
  | c :: r =>
      if is_space c
      then if in_run then collapse_spaces true r
           else 32%N :: collapse_spaces true r
      else c :: collapse_spaces false r
  end.

(** [s.split(sep)] for a separator that is one code unit of the class
    [sep]; the pieces between separators, empty ones included. *)
Fixpoint split_acc (sep : N -> bool) (cur : jstring) (s : jstring) : list jstring :=
  match s with
  | [] => [List.rev cur]
  | c :: r =>
      if sep c then List.rev cur :: split_acc sep [] r
      else split_acc sep (c :: cur) r
  end.

Definition split (sep : N -> bool) (s : jstring) : list jstring :=
  split_acc sep [] s.

(** [parts.join(sep)] *)
Fixpoint join (sep : jstring) (parts : list jstring) : jstring :=
  match parts with
  | [] => []
  | [x] => x
  | x :: rest => x +:+ sep +:+ join sep rest
  end.

(** [s.substring(0, n)] *)
Definition take (n : nat) (s : jstring) : jstring := firstn n s.

(** [s.replace(/```json|```/g, '')]: the alternatives are tried in
    order at each position, case matters. *)
Fixpoint remove_fences (skip : nat) (s : jstring) : jstring :=
  match s with
  | [] => []
  | c :: r =>
      match skip with
      | S k => remove_fences k r
      | O =>
          if startsWith "```json" s then remove_fences 6 r
          else if startsWith "```" s then remove_fences 2 r
          else c :: remove_fences 0 r
      end
  end.

(** [`${n}`] for a natural number: its decimal digits. *)
Definition decimal (n : nat) : jstring :=
  List.map N_of_ascii (String.list_ascii_of_string (pretty n)).

(** The double quote and the line feed, for texts that contain them. *)
Definition dquote : jstring := [34%N].
Definition nl : jstring := [10%N].

(** The small letter of a capital of the Latin-1 range ([A] to [Z] and
    the accented capitals from U+00C0 to U+00DE, the multiplication
    sign apart); any other code unit is left as it is. *)
Definition lower_latin1 (c : N) : N :=
  if ((65 <=? c)%N && (c <=? 90)%N)
     || ((192 <=? c)%N && (c <=? 222)%N && negb (c =? 215)%N)
  then (c + 32)%N else c.

(** The texts of the Latin-1 range. *)
Definition latin1 (s : jstring) : bool := List.forallb (fun c => (c <? 256)%N) s.

End JsString.

Import JsString.
Local Open Scope js_scope.

(** ** JavaScript numbers *)

Module JsNumber.

(** [n / d] rounded to the nearest integer, ties to even, for
    [0 <= n] and [0 < d]. *)
Definition nearest_even (n d : Z) : Z :=
  let q := (n / d)%Z in
  let r := (n mod d)%Z in
  if (2 * r <? d)%Z then q
  else if (d <? 2 * r)%Z then (q + 1)%Z
  else if Z.even q then q else (q + 1)%Z.

(** The binary64 value nearest to [n / d], ties to even, for a
    positive rational in the range of the finite doubles: [e] is the
    exponent of [n / d], the significand has 53 bits and the quantum
    never goes under [2 ^ -1074]. *)
Definition double_pos (n d : positive) : Q :=
  let k := (Z.log2 (Zpos n) - Z.log2 (Zpos d))%Z in
  let below :=
    if (0 <=? k)%Z then (Zpos n <? Zpos d * 2 ^ k)%Z
    else (Zpos n * 2 ^ (- k) <? Zpos d)%Z in
  let e := if below then (k - 1)%Z else k in
  let s := Z.min (52 - e) 1074 in
  if (0 <=? s)%Z
  then Qmake (nearest_even (Zpos n * 2 ^ s) (Zpos d)) (Z.to_pos (2 ^ s))
  else inject_Z (nearest_even (Zpos n) (Zpos d * 2 ^ (- s)) * 2 ^ (- s)).

(** The rounding every arithmetic operation ends with. *)
Definition double (q : Q) : Q :=
  match Qnum q with
  | Z0 => 0%Q
  | Zpos n => double_pos n (Qden q)
  | Zneg n => Qopp (double_pos n (Qden q))
  end.

(** [a + b], [a * b] and [a / b] on numbers, the divisor not being
    zero. *)
Definition add (a b : Q) : Q := double (a + b).
Definition mul (a b : Q) : Q := double (a * b).
Definition div (a b : Q) : Q := double (a / b).

End JsNumber.
(** ** JavaScript values, exceptions and programs *)

Module Js.

(** The exceptions the services raise or receive.  [ExternalError] is a
    rejection coming from a client library (hosted model, Redis,
    Prisma); it carries the [code] property the callers inspect. *)
Inductive JsError : Type :=
| ValidationError (message : jstring)
| NotFoundError (message : jstring)
| OpenAIError (message : jstring) (statusCode : Z)
| TypeError (message : jstring)
| SyntaxError (message : jstring)
| PlainError (message : jstring)
| ExternalError (code : option jstring) (message : jstring).

(** [error.code] *)
Definition error_code (e : JsError) : option jstring :=
  match e with
  | ExternalError code _ => code
  | _ => None
  end.

Inductive Result (A : Type) : Type :=
| Ok (a : A)
| Throw (e : JsError).
Arguments Ok {A} a.
Arguments Throw {A} e.

(** What [table[name]] finds in an object literal with the two own
    properties [fr] and [en]: an own value, a member inherited from
    [Object.prototype], or nothing. *)
Inductive Property (A : Type) : Type :=
| Own (a : A)
| Inherited
| Missing.
Arguments Own {A} a.
Arguments Inherited {A}.
Arguments Missing {A}.

Definition object_prototype_names : list jstring :=
  [ "constructor"; "__proto__"; "hasOwnProperty"; "isPrototypeOf";
    "propertyIsEnumerable"; "toLocaleString"; "toString"; "valueOf";
    "__defineGetter__"; "__defineSetter__"; "__lookupGetter__";
    "__lookupSetter__" ].

Definition is_inherited (name : jstring) : bool :=
  List.existsb (JsString.eqb name) object_prototype_names.

Definition by_language {A} (fr en : A) (language : jstring) : Property A :=
  if JsString.eqb language "fr" then Own fr
  else if JsString.eqb language "en" then Own en
  else if is_inherited language then Inherited
  else Missing.

(** [table[language] || table.fr], then used as an array: an inherited
    member is truthy but has no array methods, so the first method call
    on it raises a [TypeError]. *)
Definition array_by_language {A} (fr en : list A) (language : jstring) : Result (list A) :=
  match by_language fr en language with
  | Own a => Ok a
  | Missing => Ok fr
  | Inherited => Throw (TypeError "is not a function")
  end.

(** Programs: a tree of external calls.  [Vis e k] performs the call
    [e] and continues with [k] on its answer. *)
Inductive Prog (E : Type -> Type) (R : Type) : Type :=
| Ret (r : R)
| Vis {X : Type} (e : E X) (k : X -> Prog E R).
Arguments Ret {E R} r.
Arguments Vis {E R X} e k.

Fixpoint bind {E R S} (p : Prog E R) (f : R -> Prog E S) : Prog E S :=
  match p with
  | Ret r => f r
  | Vis e k => Vis e (fun x => bind (k x) f)
  end.

(** One external call, returning its answer. *)
Definition call {E X} (e : E X) : Prog E X := Vis e Ret.

(** [await p] inside an [async] function: an exception of [p] leaves
    the function. *)
Definition await {E A B} (p : Prog E (Result A)) (f : A -> Prog E (Result B))
  : Prog E (Result B) :=
  bind p (fun r => match r with Ok a => f a | Throw e => Ret (Throw e) end).

(** [try { p } catch (error) { h error }] *)
Definition try_catch {E A} (p : Prog E (Result A)) (h : JsError -> Prog E (Result A))
  : Prog E (Result A) :=
  bind p (fun r => match r with Ok a => Ret (Ok a) | Throw e => h e end).

(** Running a program against a world [W] that answers every call. *)
Definition Handler (E : Type -> Type) (W : Type) : Type :=
  forall X, E X -> W -> X * W.

Fixpoint run {E R W} (h : Handler E W) (p : Prog E R) (w : W) : R * W :=
  match p with
  | Ret r => (r, w)
  | Vis e k => let '(x, w') := h _ e w in run h (k x) w'
  end.

(** The same run, also listing the calls made, in order. *)
Inductive Call (E : Type -> Type) : Type :=
| Called {X : Type} (e : E X).
Arguments Called {E X} e.

Fixpoint run_trace {E R W} (h : Handler E W) (p : Prog E R) (w : W)
  : R * W * list (Call E) :=
  match p with
  | Ret r => (r, w, [])
  | Vis e k =>
      let '(x, w') := h _ e w in
      let '(r, w'', calls) := run_trace h (k x) w' in
      (r, w'', Called e :: calls)
  end.

(** Two asynchronous calls under way at once.  An [async] function runs
    until its next awaited call; the event loop then resumes either
    function.  [schedule] tells, step by step, which one: [true] lets
    the first program make its next call and run on to the following
    one, [false] the second.  A program that has returned takes no
    step. *)
Fixpoint interleave {E A B W} (h : Handler E W) (schedule : list bool)
  (p : Prog E A) (q : Prog E B) (w : W) : Prog E A * Prog E B * W :=
  match schedule with
  | [] => (p, q, w)
  | true :: rest =>
      match p with
      | Ret _ => interleave h rest p q w
      | Vis e k => let '(x, w') := h _ e w in interleave h rest (k x) q w'
      end
  | false :: rest =>
      match q with
      | Ret _ => interleave h rest p q w
      | Vis e k => let '(x, w') := h _ e w in interleave h rest p (k x) w'
      end
  end.

(** The value of a property of a built-in object, as far as a lookup
    of messages tells values apart: a falsy value ([undefined], [null],
    [0], the empty text), a text that is not empty, or another truthy
    value (a function, an object, a number). *)
Inductive MemberValue : Type :=
| Falsy
| TextValue (s : jstring)
| OtherValue.

(** What rests on the engine's Unicode tables and built-in objects.
    - [toLowerCase s] is [s.toLowerCase()];
    - [canonicalize c] is the case folding of a regular expression with
      the [i] flag: a code unit of the pattern matches a code unit of
      the text when both have the same image;
    - [member_property name key] reads [Object.prototype[name][key]]
      for a member [name] of [Object.prototype]: the value found, or
      the exception the reading raises.
    The laws: on a text of the Latin-1 range, [toLowerCase] replaces
    each capital by its small letter; a text found inside a lower-cased
    text is in lower case; two code units of the Latin-1 range have the
    same image when they are the same letter; no built-in object has a
    member whose name holds a full stop. *)
Class Engine : Type := {
  toLowerCase : jstring -> jstring;
  canonicalize : N -> N;
  member_property : jstring -> jstring -> Result MemberValue;
  toLowerCase_latin1 :
    forall s, latin1 s = true -> toLowerCase s = List.map lower_latin1 s;
  toLowerCase_fixed :
    forall s k, includes (toLowerCase s) k = true -> toLowerCase k = k;
  canonicalize_latin1 :
    forall a b, (a <? 256)%N = true -> (b <? 256)%N = true ->
      (canonicalize a =? canonicalize b)%N = (lower_latin1 a =? lower_latin1 b)%N;
  member_property_dotted :
    forall name key, includes key "." = true -> member_property name key = Ok Falsy
}.

Section RegExp.
Context {EN : Engine}.

(** The pattern [kw], made of letters and spaces, matches at the head
    of [s] under the [i] flag. *)
Fixpoint starts_ci (kw s : jstring) : bool :=
  match kw, s with
  | [], _ => true
  | _ :: _, [] => false
  | a :: kw', b :: s' => (canonicalize a =? canonicalize b)%N && starts_ci kw' s'
  end.

(** [s.replace(new RegExp(kw, 'gi'), '')] for a keyword made of letters
    and spaces: the matches are found from left to right without
    overlap and removed.  [skip] counts the code units of the current
    match still to drop. *)
Fixpoint remove_all_ci (kw : jstring) (skip : nat) (s : jstring) : jstring :=
  match s with
  | [] => []
  | c :: r =>
      match skip with
      | S k => remove_all_ci kw k r
      | O =>
          if negb (JsString.eqb kw "") && starts_ci kw s
          then remove_all_ci kw (List.length kw - 1) r
          else c :: remove_all_ci kw 0 r
      end
  end.

End RegExp.

End Js.

Import Js.

Notation "'let*' x ':=' p 'in' k" := (bind p (fun x => k))
  (at level 10, x pattern, p at level 100, k at level 200, only parsing).
Notation "'await*' x ':=' p 'in' k" := (await p (fun x => k))
  (at level 10, x pattern, p at level 100, k at level 200, only parsing).

(** ** Message formatter ([src/services/messageFormatter.js]) *)

Module MessageFormatter.

(** [truncateText(text, maxLength)] *)
Definition truncateText (text : jstring) (maxLength : nat) : jstring :=
  if JsString.eqb text "" || (List.length text <=? maxLength)%nat
  then text
  else take (maxLength - 3) text +:+ "...".

(** [cleanText(text)] *)
Definition cleanText (text : jstring) : jstring :=
  if JsString.eqb text "" then ""
  else collapse_spaces false (trim text).

End MessageFormatter.

(** ** Ticket store ([TicketService]) : priorities *)

Module TicketPriority.

Inductive Priority : Type := LOW | NORMAL | HIGH | URGENT.

Definition urgentKeywords_fr : list jstring :=
  ["urgent"; "critique"; "bloqué"; "panne"; "ne fonctionne pas"; "cassé"; "erreur critique"].
Definition urgentKeywords_en : list jstring :=
  ["urgent"; "critical"; "blocked"; "down"; "not working"; "broken"; "critical error"].
Definition highPriorityKeywords_fr : list jstring :=
  ["important"; "rapidement"; "vite"; "problème"; "bug"; "dysfonctionnement"].
Definition highPriorityKeywords_en : list jstring :=
  ["important"; "quickly"; "fast"; "problem"; "bug"; "malfunction"].

(** [words.some(word => lowerText.includes(word))] *)
Definition some_included (lowerText : jstring) (words : list jstring) : bool :=
  List.existsb (fun word => includes lowerText word) words.

Section WithEngine.
Context {EN : Engine}.

(** [determinePriority(text, language)] *)
Definition determinePriority (text language : jstring) : Result Priority :=
  let lowerText := toLowerCase text in
  match array_by_language urgentKeywords_fr urgentKeywords_en language with
  | Throw e => Throw e
  | Ok urgentWords =>
      if some_included lowerText urgentWords then Ok URGENT
      else
        match array_by_language highPriorityKeywords_fr highPriorityKeywords_en language with
        | Throw e => Throw e
        | Ok highPriorityWords =>
            if some_included lowerText highPriorityWords then Ok HIGH
            else Ok NORMAL
        end
  end.

End WithEngine.

End TicketPriority.

(** ** Ticket intent extractor ([TicketMessageHandler]) *)

Module TicketMessageHandler.
Import MessageFormatter.

Record TicketInfo : Type := {
  title : jstring;
  description : jstring;
  category : option jstring
}.

Definition ticketKeywords_fr : list jstring :=
  ["créer un ticket"; "nouveau ticket"; "ouvrir un ticket"; "problème"; "bug"; "aide"].
Definition ticketKeywords_en : list jstring :=
  ["create ticket"; "new ticket"; "open ticket"; "problem"; "bug"; "help"].

(** The localized generic title. *)
Definition genericTitle (language : jstring) : jstring :=
  if JsString.eqb language "fr" then "Demande d'assistance" else "Support Request".

(** The separator of [split(' ')]. *)
Definition is_blank (c : N) : bool := (c =? 32)%N.

(** The separators of [/[:\n-]/]: colon, line feed, hyphen. *)
Definition is_separator (c : N) : bool :=
  (c =? 58)%N || (c =? 10)%N || (c =? 45)%N.

(** [generateTitleFromText(text, language)] *)
Definition generateTitleFromText (text language : jstring) : jstring :=
  if JsString.eqb text "" then genericTitle language
  else
    let words := firstn 8 (split is_blank text) in
    let title := join " " words in
    let title := if (50 <? List.length title)%nat then take 47 title +:+ "..." else title in
    if JsString.eqb title "" then genericTitle language else title.

Section WithEngine.
Context {EN : Engine}.

(** The [forEach] over the trigger keywords: each one is removed
    wherever it occurs and the text is trimmed after each removal. *)
Definition strip_keywords (keywords : list jstring) (cleanText : jstring) : jstring :=
  fold_left (fun content keyword => trim (remove_all_ci keyword 0 content)) keywords cleanText.

(** The text the title and description are taken from: the stripped
    text, or the whole cleaned message when fewer than 10 characters
    are left. *)
Definition ticket_content (keywords : list jstring) (cleanText : jstring) : jstring :=
  let content := strip_keywords keywords cleanText in
  if (List.length content <? 10)%nat then cleanText else content.

End WithEngine.

Definition has_separator (content : jstring) : bool :=
  includes content ":" || includes content "-" || includes content nl.

(** [content.split(/[:\n-]/).map(p => p.trim()).filter(p => p.length > 0)] *)
Definition separated_parts (content : jstring) : list jstring :=
  List.filter (fun p => (0 <? List.length p)%nat)
    (List.map trim (split is_separator content)).

(** [a || b] on strings *)
Definition or_else (a b : jstring) : jstring := if JsString.eqb a "" then b else a.

(** Title and description out of the content. *)
Definition title_and_description (content language : jstring) : TicketInfo :=
  let '(title, description) :=
    if has_separator content then
      match separated_parts content with
      | first :: rest =>
          if (2 <=? List.length (first :: rest))%nat
          then (truncateText first 100, join " " rest)
          else (generateTitleFromText content language, content)
      | [] => (generateTitleFromText content language, content)
      end
    else (generateTitleFromText content language, content) in
  {| title := or_else title (genericTitle language);
     description := or_else description content;
     category := None |}.

Section WithEngine.
Context {EN : Engine}.

(** [extractTicketInfo(text, language)] *)
Definition extractTicketInfo (text language : jstring) : Result TicketInfo :=
  let cleaned := cleanText text in
  match array_by_language ticketKeywords_fr ticketKeywords_en language with
  | Throw e => Throw e
  | Ok keywords => Ok (title_and_description (ticket_content keywords cleaned) language)
  end.

(** The reading of the specification: the keywords are stripped and the
    title and description are always taken from what is left. *)
Definition extractTicketInfo_as_specified (text language : jstring) : Result TicketInfo :=
  let cleaned := cleanText text in
  match array_by_language ticketKeywords_fr ticketKeywords_en language with
  | Throw e => Throw e
  | Ok keywords => Ok (title_and_description (strip_keywords keywords cleaned) language)
  end.

End WithEngine.

End TicketMessageHandler.


(** ** Localization provider ([src/services/messageLocalizationService.js]) *)

Module Localization.

(** The [params] object of [getLocalizedMessage]. *)
Record Params : Type := {
  p_name : option jstring;
  p_ticketId : option jstring;
  p_title : option jstring;
  p_priority : option jstring;
  p_address : option jstring
}.

Definition no_params : Params :=
  {| p_name := None; p_ticketId := None; p_title := None; p_priority := None; p_address := None |}.

(** [${v || d}] and [${v}] inside a template literal. *)
Definition or_default (v : option jstring) (d : jstring) : jstring :=
  match v with
  | Some s => if JsString.eqb s "" then d else s
  | None => d
  end.

Definition interpolate (v : option jstring) : jstring :=
  match v with Some s => s | None => "undefined" end.

Definition messages_fr (params : Params) : list (jstring * jstring) :=
  [
    ("greeting.morning", "Bonjour " +:+ or_default (p_name params) "cher client" +:+ " ! Comment puis-je vous aider aujourd'hui ?");
    ("greeting.afternoon", "Bon après-midi " +:+ or_default (p_name params) "cher client" +:+ " ! Comment puis-je vous aider ?");
    ("greeting.evening", "Bonsoir " +:+ or_default (p_name params) "cher client" +:+ " ! Comment puis-je vous aider ce soir ?");
    ("buttons.help", "Aide");
    ("buttons.faq", "FAQ");
    ("buttons.contact_agent", "Contacter un agent");
    ("help.main_text", "Voici comment je peux vous aider :");
    ("help.button_text", "Choisir une option");
    ("help.tickets.title", "Gestion des tickets");
    ("help.tickets.create", "Créer un ticket");
    ("help.tickets.create_desc", "Signaler un problème ou faire une demande");
    ("help.tickets.check", "Vérifier un ticket");
    ("help.tickets.check_desc", "Suivre l'état de votre demande");
    ("help.support.title", "Support client");
    ("help.support.faq", "Questions fréquentes");
    ("help.support.faq_desc", "Réponses aux questions courantes");
    ("help.support.agent", "Parler à un agent");
    ("help.support.agent_desc", "Être mis en relation avec un humain");
    ("faq.main_text", "Voici les questions fréquemment posées. Que souhaitez-vous savoir ?");
    ("faq.products", "Nos produits");
    ("faq.support", "Support technique");
    ("handoff.initiated", "Je vous mets en relation avec un agent humain. Veuillez patienter...");
    ("error.general", "Désolé, une erreur s'est produite. Veuillez réessayer.");
    ("error.unknown_response_type", "Type de réponse non reconnu.");
    ("error.ai_unavailable", "Le service IA est temporairement indisponible.");
    ("fallback.message", "Je n'ai pas bien compris votre demande. Pouvez-vous reformuler ou choisir une option ci-dessous ?");
    ("bot.introduction", "Je suis votre assistant virtuel. Je peux vous aider avec vos questions, créer des tickets de support, et vous mettre en relation avec nos agents si nécessaire.");
    ("bot.capabilities", "Je peux vous aider à :" +:+ nl +:+ "• Répondre à vos questions" +:+ nl +:+ "• Créer des tickets de support" +:+ nl +:+ "• Vous connecter avec un agent humain" +:+ nl +:+ "• Fournir des informations sur nos services");
    ("goodbye.message", "Merci d'avoir utilisé notre service. N'hésitez pas à revenir si vous avez d'autres questions. Bonne journée !");
    ("ticket.need_more_info", "Pour créer votre ticket, j'ai besoin de plus d'informations. Pouvez-vous décrire votre problème en détail ?");
    ("ticket.created_success", "✅ Votre ticket #" +:+ interpolate (p_ticketId params) +:+ " a été créé avec succès !" +:+ nl +:+ nl +:+ "📋 **Titre:** " +:+ interpolate (p_title params) +:+ nl +:+ "🔥 **Priorité:** " +:+ interpolate (p_priority params) +:+ nl +:+ nl +:+ "Nous traiterons votre demande dans les plus brefs délais. Vous pouvez vérifier le statut en tapant " +:+ dquote +:+ "statut ticket" +:+ dquote +:+ ".");
    ("ticket.creation_error", "Désolé, une erreur s'est produite lors de la création de votre ticket. Veuillez réessayer ou contacter un agent.");
    ("ticket.no_tickets", "Vous n'avez aucun ticket en cours. Tapez " +:+ dquote +:+ "créer un ticket" +:+ dquote +:+ " pour signaler un problème.");
    ("ticket.status_header", "📋 **Vos tickets de support**");
    ("ticket.priority", "Priorité");
    ("ticket.created", "Créé le");
    ("ticket.status_error", "Impossible de récupérer le statut de vos tickets. Veuillez réessayer plus tard.");
    ("media.image_received", "Image reçue. Comment puis-je vous aider avec cette image ?");
    ("media.audio_received", "Message audio reçu. Pouvez-vous reformuler par écrit ?");
    ("media.video_received", "Vidéo reçue. Comment puis-je vous aider ?");
    ("media.document_received", "Document reçu. Comment puis-je vous aider avec ce document ?");
    ("location.received", "📍 Position reçue: " +:+ interpolate (p_name params) +:+ nl +:+ "📍 Adresse: " +:+ interpolate (p_address params))
  ].

Definition messages_en (params : Params) : list (jstring * jstring) :=
  [
    ("greeting.morning", "Good morning " +:+ or_default (p_name params) "dear customer" +:+ "! How can I help you today?");
    ("greeting.afternoon", "Good afternoon " +:+ or_default (p_name params) "dear customer" +:+ "! How can I help you?");
    ("greeting.evening", "Good evening " +:+ or_default (p_name params) "dear customer" +:+ "! How can I help you tonight?");
    ("buttons.help", "Help");
    ("buttons.faq", "FAQ");
    ("buttons.contact_agent", "Contact agent");
    ("help.main_text", "Here's how I can help you:");
    ("help.button_text", "Choose an option");
    ("help.tickets.title", "Ticket Management");
    ("help.tickets.create", "Create a ticket");
    ("help.tickets.create_desc", "Report an issue or make a request");
    ("help.tickets.check", "Check a ticket");
    ("help.tickets.check_desc", "Track the status of your request");
    ("help.support.title", "Customer Support");
    ("help.support.faq", "Frequently Asked Questions");
    ("help.support.faq_desc", "Answers to common questions");
    ("help.support.agent", "Talk to an agent");
    ("help.support.agent_desc", "Connect with a human representative");
    ("faq.main_text", "Here are frequently asked questions. What would you like to know?");
    ("faq.products", "Our products");
    ("faq.support", "Technical support");
    ("handoff.initiated", "I'm connecting you with a human agent. Please wait...");
    ("error.general", "Sorry, an error occurred. Please try again.");
    ("error.unknown_response_type", "Unknown response type.");
    ("error.ai_unavailable", "AI service is temporarily unavailable.");
    ("fallback.message", "I didn't understand your request. Could you rephrase or choose an option below?");
    ("bot.introduction", "I am your virtual assistant. I can help you with your questions, create support tickets, and connect you with our agents when needed.");
    ("bot.capabilities", "I can help you with:" +:+ nl +:+ "• Answering your questions" +:+ nl +:+ "• Creating support tickets" +:+ nl +:+ "• Connecting you with human agents" +:+ nl +:+ "• Providing information about our services");
    ("goodbye.message", "Thank you for using our service. Feel free to come back if you have any other questions. Have a great day!");
    ("ticket.need_more_info", "To create your ticket, I need more information. Can you describe your problem in detail?");
    ("ticket.created_success", "✅ Your ticket #" +:+ interpolate (p_ticketId params) +:+ " has been created successfully!" +:+ nl +:+ nl +:+ "📋 **Title:** " +:+ interpolate (p_title params) +:+ nl +:+ "🔥 **Priority:** " +:+ interpolate (p_priority params) +:+ nl +:+ nl +:+ "We will process your request as soon as possible. You can check the status by typing " +:+ dquote +:+ "ticket status" +:+ dquote +:+ ".");
    ("ticket.creation_error", "Sorry, an error occurred while creating your ticket. Please try again or contact an agent.");
    ("ticket.no_tickets", "You have no tickets in progress. Type " +:+ dquote +:+ "create ticket" +:+ dquote +:+ " to report a problem.");
    ("ticket.status_header", "📋 **Your support tickets**");
    ("ticket.priority", "Priority");
    ("ticket.created", "Created on");
    ("ticket.status_error", "Unable to retrieve your ticket status. Please try again later.");
    ("media.image_received", "Image received. How can I help you with this image?");
    ("media.audio_received", "Audio message received. Could you please rephrase in text?");
    ("media.video_received", "Video received. How can I help you?");
    ("media.document_received", "Document received. How can I help you with this document?");
    ("location.received", "📍 Location received: " +:+ interpolate (p_name params) +:+ nl +:+ "📍 Address: " +:+ interpolate (p_address params))
  ].

Fixpoint assoc (key : jstring) (table : list (jstring * jstring)) : option jstring :=
  match table with
  | [] => None
  | (k, v) :: rest => if JsString.eqb k key then Some v else assoc key rest
  end.

(** What a lookup in the tables reaches: a text; the member
    [Object.prototype[name]] that a table inherits, which is a function
    ([Object.prototype] itself for [__proto__]); or the property [key]
    of such a member when that is a truthy value other than a text. *)
Inductive Localized : Type :=
| Text (s : jstring)
| Member (name : jstring)
| MemberProperty (name key : jstring).

Section WithEngine.
Context {EN : Engine}.

(** [messages[language]?.[key]], a falsy value counting as absent.  A
    table answers with its own text, or with the member of
    [Object.prototype] the key names; a language that names a member of
    [Object.prototype] selects that member in place of a table. *)
Definition message_in (language key : jstring) (params : Params) : Result (option Localized) :=
  match by_language (messages_fr params) (messages_en params) language with
  | Own table =>
      match assoc key table with
      | Some v => Ok (if JsString.eqb v "" then None else Some (Text v))
      | None => Ok (if is_inherited key then Some (Member key) else None)
      end
  | Inherited =>
      match member_property language key with
      | Ok Falsy => Ok None
      | Ok (TextValue s) => Ok (Some (Text s))
      | Ok OtherValue => Ok (Some (MemberProperty language key))
      | Throw e => Throw e
      end
  | Missing => Ok None
  end.

(** [getLocalizedMessage(key, language, params)]; [defaultLanguage] is the
    configured [DEFAULT_LANGUAGE]. *)
Definition getLocalizedMessage (defaultLanguage key language : jstring) (params : Params)
  : Result Localized :=
  match message_in language key params with
  | Throw e => Throw e
  | Ok (Some v) => Ok v
  | Ok None =>
      match message_in defaultLanguage key params with
      | Throw e => Throw e
      | Ok (Some v) => Ok v
      | Ok None => Ok (Text key)
      end
  end.

(** The text a handler receives.  Every key the handlers pass holds a
    full stop, and for such a key the lookup always ends in a text of
    the tables or in the key; [message] is used for such keys only. *)
Definition message (defaultLanguage key language : jstring) (params : Params) : jstring :=
  match getLocalizedMessage defaultLanguage key language params with
  | Ok (Text s) => s
  | _ => key
  end.

End WithEngine.

(** [getFallbackConversationalMessage(language)] *)
Definition getFallbackConversationalMessage (language : jstring) : jstring :=
  if JsString.eqb language "fr"
  then "Je comprends que vous cherchez de l'aide, mais je n'ai pas pu saisir exactement votre demande. Voici quelques suggestions :" +:+ nl +:+ nl +:+ "• Essayez de reformuler votre question plus simplement" +:+ nl +:+ "• Utilisez des mots-clés comme " +:+ dquote +:+ "aide" +:+ dquote +:+ ", " +:+ dquote +:+ "problème" +:+ dquote +:+ ", ou " +:+ dquote +:+ "information" +:+ dquote +:+ nl +:+ "• Ou choisissez une option ci-dessous pour que je puisse mieux vous aider"
  else "I understand you're looking for help, but I couldn't quite grasp your request. Here are some suggestions:" +:+ nl +:+ nl +:+ "• Try rephrasing your question more simply" +:+ nl +:+ "• Use keywords like " +:+ dquote +:+ "help" +:+ dquote +:+ ", " +:+ dquote +:+ "problem" +:+ dquote +:+ ", or " +:+ dquote +:+ "information" +:+ dquote +:+ nl +:+ "• Or choose an option below so I can better assist you".

End Localization.

(** ** Intent classifier ([NLPService]) *)

Module NLPService.

(** Parsed JSON. *)
#[local] Unset Elimination Schemes.
Inductive Json : Type :=
| JNull
| JBool (b : bool)
| JNum (q : Q)
| JStr (s : jstring)
| JArr (items : list Json)
| JObj (fields : list (jstring * Json)).
#[local] Set Elimination Schemes.

(** What the JavaScript runtime provides and the services rely on:
    [JSON.parse] ([None] where it raises its [SyntaxError]) and
    [parseFloat] applied to a property that may be absent ([None] for
    [NaN]). *)
Class Runtime : Type := {
  JSON_parse : jstring -> option Json;
  parseFloat : option Json -> option Q
}.

(** [result.name] on a parsed value: a [TypeError] on [null], the field
    of an object, [undefined] on anything else. *)
Fixpoint field (name : jstring) (fields : list (jstring * Json)) : option Json :=
  match fields with
  | [] => None
  | (k, v) :: rest =>
      (* a repeated key keeps its last value *)
      match field name rest with
      | Some v' => Some v'
      | None => if JsString.eqb k name then Some v else None
      end
  end.

Definition property (result : Json) (name : jstring) : Result (option Json) :=
  match result with
  | JNull => Throw (TypeError "Cannot read properties of null")
  | JObj fields => Ok (field name fields)
  | _ => Ok None
  end.

(** Truthiness of a property value. *)
Definition truthy (v : option Json) : bool :=
  match v with
  | None | Some JNull => false
  | Some (JBool b) => b
  | Some (JNum q) => negb (Qeq_bool q 0%Q)
  | Some (JStr s) => negb (JsString.eqb s "")
  | Some (JArr _) | Some (JObj _) => true
  end.

Record IntentResult : Type := {
  intent : jstring;
  confidence : Q;
  entities : Json;
  sentiment : Json;
  originalText : jstring;
  language : jstring;
  timestamp : Z;
  fallback : bool
}.

Definition supportedIntents : list jstring :=
  [ "greeting"; "help"; "create_ticket"; "check_ticket_status"; "faq";
    "contact_agent"; "goodbye"; "complaint"; "compliment"; "product_inquiry";
    "order_status"; "refund_request"; "technical_support"; "billing_inquiry" ].

(** Cache TTL for the analyses, in seconds. *)
Definition cacheTTL : Z := 1800%Z.

(** *** [hashText] *)

(** [ToInt32] *)
Definition toInt32 (z : Z) : Z :=
  let m := (z mod 2 ^ 32)%Z in
  if (m <? 2 ^ 31)%Z then m else (m - 2 ^ 32)%Z.

(** One turn of the loop: [hash = ((hash << 5) - hash) + char; hash = hash & hash]. *)
Definition hash_step (hash : Z) (c : N) : Z :=
  let char := Z.of_N c in
  let hash := ((toInt32 (Z.shiftl (toInt32 hash) 5) - hash) + char)%Z in
  toInt32 (Z.land (toInt32 hash) (toInt32 hash)).

Fixpoint hash_loop (hash : Z) (text : jstring) : Z :=
  match text with
  | [] => hash
  | c :: rest => hash_loop (hash_step hash c) rest
  end.

Definition digit36 (d : Z) : N :=
  if (d <? 10)%Z then (48 + Z.to_N d)%N else (87 + Z.to_N d)%N.

(** [n.toString(36)] for an integer [0 <= n < 36 ^ fuel]. *)
Fixpoint toString36_acc (fuel : nat) (n : Z) (acc : jstring) : jstring :=
  match fuel with
  | O => acc
  | S fuel' =>
      let acc' := digit36 (n mod 36)%Z :: acc in
      if (n / 36 =? 0)%Z then acc' else toString36_acc fuel' (n / 36)%Z acc'
  end.

Definition toString36 (n : Z) : jstring := toString36_acc 8 n [].

(** [hashText(text)] *)
Definition hashText (text : jstring) : jstring :=
  toString36 (Z.abs (hash_loop 0%Z text)).

(** *** The keyword fallback *)

Definition keywordMap : list (jstring * list jstring) :=
  [ ("greeting", ["bonjour"; "bonsoir"; "salut"; "hello"; "hi"; "good morning"; "good evening"]);
    ("help", ["aide"; "aider"; "help"; "assistance"; "support"]);
    ("create_ticket", ["problème"; "bug"; "erreur"; "problem"; "issue"; "error"]);
    ("contact_agent", ["agent"; "humain"; "personne"; "human"; "person"; "representative"]);
    ("goodbye", ["au revoir"; "bye"; "goodbye"; "merci"; "thank you"]);
    ("complaint", ["mécontent"; "insatisfait"; "nul"; "mauvais"; "unhappy"; "bad"; "terrible"]) ].

(** The two nested loops: the first intent, in table order, one of whose
    keywords occurs in the text. *)
Fixpoint first_keyword_intent (lowerText : jstring) (entries : list (jstring * list jstring))
  : option jstring :=
  match entries with
  | [] => None
  | (intent, keywords) :: rest =>
      if List.existsb (fun keyword => includes lowerText keyword) keywords
      then Some intent
      else first_keyword_intent lowerText rest
  end.

Section WithEngine.
Context {EN : Engine}.

(** [fallbackIntentAnalysis(text, language)], at the instant [now]. *)
Definition fallbackIntentAnalysis (text language : jstring) (now : Z) : IntentResult :=
  let lowerText := toLowerCase text in
  match first_keyword_intent lowerText keywordMap with
  | Some intent =>
      {| intent := intent; confidence := (6 # 10)%Q; entities := JObj [];
         sentiment := JStr "neutral"; originalText := take 200 text;
         language := language; timestamp := now; fallback := true |}
  | None =>
      {| intent := "unknown"; confidence := (1 # 10)%Q; entities := JObj [];
         sentiment := JStr "neutral"; originalText := take 200 text;
         language := language; timestamp := now; fallback := true |}
  end.

End WithEngine.

(** *** Normalization of the model's answer *)

(** [Math.max(0, Math.min(1, x))] *)
Definition clamp01 (x : Q) : Q := Qmax 0%Q (Qmin 1%Q x).

Section WithRuntime.
Context {RT : Runtime} {EN : Engine}.

(** [normalizeIntentResult(result, originalText, language)], at [now]. *)
Definition normalizeIntentResult (result : Json) (text language : jstring) (now : Z)
  : Result IntentResult :=
  match property result "intent" with
  | Throw e => Throw e
  | Ok intent_v =>
      match property result "confidence", property result "entities", property result "sentiment" with
      | Ok confidence_v, Ok entities_v, Ok sentiment_v =>
          Ok {| intent :=
                  match intent_v with
                  | Some (JStr s) => if List.existsb (JsString.eqb s) supportedIntents then s else "unknown"
                  | _ => "unknown"
                  end;
                confidence :=
                  clamp01 (match parseFloat confidence_v with
                           | Some q => if Qeq_bool q 0%Q then 0%Q else q
                           | None => 0%Q
                           end);
                entities := if truthy entities_v then default (JObj []) entities_v else JObj [];
                sentiment := if truthy sentiment_v then default (JStr "neutral") sentiment_v else JStr "neutral";
                originalText := take 200 text;
                language := language;
                timestamp := now;
                fallback := false |}
      | Throw e, _, _ | _, Throw e, _ | _, _, Throw e => Throw e
      end
  end.

(** *** The external calls of [analyzeIntent] *)

Record ChatRequest : Type := {
  model : jstring;
  prompt_text : jstring;       (* the text placed in the prompt *)
  prompt_language : jstring;   (* selects the French or English prompt *)
  max_tokens : Z;
  temperature : Q
}.

(** The answer of [chat.completions.create]: the [message.content] of
    each choice ([None] for a [null] content). *)
Record ChatResponse : Type := {
  choices : list (option jstring)
}.

Inductive NlpE : Type -> Type :=
| CacheGet (key : jstring) : NlpE (option IntentResult)
| CacheSet (key : jstring) (value : IntentResult) (ttl : Z) : NlpE (Result unit)
| ChatCompletion (request : ChatRequest) : NlpE (Result ChatResponse)
| DateNow : NlpE Z.

Definition intentCacheKey (text language : jstring) : jstring :=
  "nlp:intent:" +:+ hashText text +:+ ":" +:+ language.

(** [response.choices[0].message.content] *)
Definition first_content (response : ChatResponse) : Result jstring :=
  match choices response with
  | Some content :: _ => Ok content
  | None :: _ => Throw (TypeError "Cannot read properties of null")
  | [] => Throw (TypeError "Cannot read properties of undefined")
  end.

Definition quota_or_rate_limit (error : JsError) : bool :=
  match error_code error with
  | Some code => JsString.eqb code "insufficient_quota" || JsString.eqb code "rate_limit_exceeded"
  | None => false
  end.

(** The request of [analyzeIntent] to the hosted model. *)
Definition intent_request (modelName text language : jstring) : ChatRequest :=
  {| model := modelName; prompt_text := text; prompt_language := language;
     max_tokens := 500%Z; temperature := (3 # 10)%Q |}.

(** [JSON.parse(responseText.replace(/```json|```/g, '').trim())] *)
Definition parse_answer (responseText : jstring) : Result Json :=
  match JSON_parse (trim (remove_fences 0 responseText)) with
  | Some result => Ok result
  | None => Throw (SyntaxError "Unexpected token")
  end.

(** The body of the [try] block once the cache has missed. *)
Definition analyzeIntent_miss (modelName cacheKey text language : jstring)
  : Prog NlpE (Result IntentResult) :=
  await* response := call (ChatCompletion (intent_request modelName text language)) in
  match first_content response with
  | Throw e => Ret (Throw e)
  | Ok responseText =>
      match parse_answer responseText with
      | Throw e => Ret (Throw e)
      | Ok result =>
          let* now := call DateNow in
          match normalizeIntentResult result text language now with
          | Throw e => Ret (Throw e)
          | Ok normalizedResult =>
              await* _ := call (CacheSet cacheKey normalizedResult cacheTTL) in
              Ret (Ok normalizedResult)
          end
      end
  end.

(** [analyzeIntent(text, language)] *)
Definition analyzeIntent (modelName text language : jstring) : Prog NlpE (Result IntentResult) :=
  try_catch
    (let cacheKey := intentCacheKey text language in
     let* cachedResult := call (CacheGet cacheKey) in
     match cachedResult with
     | Some cached => Ret (Ok cached)
     | None => analyzeIntent_miss modelName cacheKey text language
     end)
    (fun error =>
       if quota_or_rate_limit error
       then Ret (Throw (OpenAIError "Service IA temporairement indisponible" 503%Z))
       else
         let* now := call DateNow in
         Ret (Ok (fallbackIntentAnalysis text language now))).

End WithRuntime.

(** *** The world [analyzeIntent] runs in *)

(** The Redis entries under the [nlp:intent:] prefix with their expiry
    instants, the clock, and the hosted model: [hosted n request] is the
    outcome of the call made when [n] calls have been made before. *)
Record World : Type := {
  redis_up : bool;
  entries : gmap jstring (Z * IntentResult);
  clock : Z;
  hosted : nat -> ChatRequest -> Result ChatResponse;
  model_calls : nat
}.

(** [CacheService.get]: the value if present and not expired; [null] on a
    miss and on any Redis error. *)
Definition cache_get (w : World) (key : jstring) : option IntentResult :=
  if redis_up w then
    match entries w !! key with
    | Some (expiry, value) => if (clock w <? expiry)%Z then Some value else None
    | None => None
    end
  else None.

(** [CacheService.set]: [SETEX key ttl value]; a Redis error is rethrown. *)
Definition cache_set (w : World) (key : jstring) (value : IntentResult) (ttl : Z)
  : Result unit * World :=
  if redis_up w then
    (Ok tt,
     {| redis_up := redis_up w;
        entries := <[ key := ((clock w + ttl * 1000)%Z, value) ]> (entries w);
        clock := clock w; hosted := hosted w; model_calls := model_calls w |})
  else (Throw (ExternalError None "Redis"), w).

Definition handle : Handler NlpE World :=
  fun X e =>
    match e in NlpE X return World -> X * World with
    | CacheGet key => fun w => (cache_get w key, w)
    | CacheSet key value ttl => fun w => cache_set w key value ttl
    | ChatCompletion request => fun w =>
        (hosted w (model_calls w) request,
         {| redis_up := redis_up w; entries := entries w; clock := clock w;
            hosted := hosted w; model_calls := S (model_calls w) |})
    | DateNow => fun w => (clock w, w)
    end.

(** The same world at a later instant. *)
Definition at_time (t : Z) (w : World) : World :=
  {| redis_up := redis_up w; entries := entries w; clock := t;
     hosted := hosted w; model_calls := model_calls w |}.

End NLPService.

(** ** Knowledge base search ([KnowledgeBaseService]) *)

Module KnowledgeBaseService.

(** Modelled from the spec: the database schema is not among the
    sources; a knowledge base entry has the fields the specification
    lists and the code reads. *)
Record KBEntry : Type := {
  id : jstring;
  question : jstring;
  answer : jstring;
  category : jstring;
  language : jstring;
  keywords : list jstring;
  usageCount : Z;
  isActive : bool
}.

Inductive Source : Type := keyword | semantic.

Record SearchResult : Type := {
  r_id : jstring;
  r_question : jstring;
  r_answer : jstring;
  r_category : jstring;
  r_confidence : Q;
  r_source : Source
}.

Definition searchCacheTTL : Z := 1800%Z.
Definition similarityThreshold : Q := JsNumber.double (6 # 10).

(** The separator of [split(' ')]. *)
Definition is_blank (c : N) : bool := (c =? 32)%N.

(** [a > b] on scores *)
Definition Qgt_bool (a b : Q) : bool := negb (Qle_bool a b).

Section WithEngine.
Context {EN : Engine}.

(** The four contributions to the raw score of
    [calculateKeywordConfidence]. *)
Definition exact_score (query : jstring) (entry : KBEntry) : Q :=
  if includes (toLowerCase (question entry)) query then 2%Q else 0%Q.

Definition matchingKeywords (queryWords : list jstring) (entry : KBEntry) : list jstring :=
  List.filter
    (fun word => List.existsb (fun keyword => includes (toLowerCase keyword) word) (keywords entry))
    queryWords.

Definition matchingWords (queryWords : list jstring) (entry : KBEntry) : list jstring :=
  let questionWords := split is_blank (toLowerCase (question entry)) in
  List.filter
    (fun word => List.existsb (fun qWord => includes qWord word) questionWords)
    queryWords.

(** The literal [0.2] is the double nearest to it. *)
Definition usage_bonus (entry : KBEntry) : Q :=
  if (10 <? usageCount entry)%Z then JsNumber.double (2 # 10) else 0%Q.

(** [l.length] *)
Definition count (l : list jstring) : Q := inject_Z (Z.of_nat (List.length l)).

(** The value of [score] after the four [+=], each a binary64
    addition. *)
Definition raw_score (query : jstring) (queryWords : list jstring) (entry : KBEntry) : Q :=
  JsNumber.add
    (JsNumber.add
       (JsNumber.add
          (JsNumber.add 0 (exact_score query entry))
          (count (matchingKeywords queryWords entry)))
       (JsNumber.mul (count (matchingWords queryWords entry)) (1 # 2)))
    (usage_bonus entry).

Definition maxScore (queryWords : list jstring) : Q := JsNumber.add (count queryWords) 2.

(** [calculateKeywordConfidence(query, queryWords, entry)] *)
Definition calculateKeywordConfidence (query : jstring) (queryWords : list jstring)
  (entry : KBEntry) : Q :=
  Qmin (JsNumber.div (raw_score query queryWords entry) (maxScore queryWords)) 1%Q.

End WithEngine.

(** [list.sort((a, b) => key(b) - key(a))]: a stable sort into
    descending order; [ge a b] tells that [a] may stay before [b]. *)
Fixpoint insert_desc {A} (ge : A -> A -> bool) (x : A) (l : list A) : list A :=
  match l with
  | [] => [x]
  | y :: rest => if ge x y then x :: y :: rest else y :: insert_desc ge x rest
  end.

Definition sort_desc {A} (ge : A -> A -> bool) (l : list A) : list A :=
  List.fold_right (insert_desc ge) [] l.

Definition by_confidence (a b : SearchResult) : bool :=
  Qle_bool (r_confidence b) (r_confidence a).

Definition by_usage (a b : KBEntry) : bool := (usageCount b <=? usageCount a)%Z.

Definition to_result (source : Source) (confidence : Q) (entry : KBEntry) : SearchResult :=
  {| r_id := id entry; r_question := question entry; r_answer := answer entry;
     r_category := category entry; r_confidence := confidence; r_source := source |}.

(** The external calls of the search. *)
Inductive KbE : Type -> Type :=
| Initialize : KbE (Result unit)
| CacheGet (key : jstring) : KbE (option (list SearchResult))
| CacheSet (key : jstring) (value : list SearchResult) (ttl : Z) : KbE (Result unit)
| FindByKeywords (query : jstring) (queryWords : list jstring) (language : jstring) (rows : nat)
    : KbE (Result (list KBEntry))
| FindMostUsed (language : jstring) (rows : nat) : KbE (Result (list KBEntry))
| AnalyzeIntent (query language : jstring) : KbE (Result NLPService.IntentResult)
| ScoreRelevance (query : jstring) (entries : list KBEntry) (language : jstring)
    : KbE (Result (list Q)).

Section WithEngine.
Context {EN : Engine}.

(** [searchByKeywords(query, language, limit)] *)
Definition searchByKeywords (query language : jstring) (limit : nat)
  : Prog KbE (list SearchResult) :=
  let queryWords := List.filter (fun word => (2 <? List.length word)%nat) (split is_blank query) in
  match queryWords with
  | [] => Ret []
  | _ =>
      let* found := call (FindByKeywords query queryWords language (limit * 2)) in
      match found with
      | Throw _ => Ret []
      | Ok entries =>
          Ret (firstn limit
                 (sort_desc by_confidence
                    (List.filter (fun result => Qgt_bool (r_confidence result) (JsNumber.double (3 # 10)))
                       (List.map (fun entry =>
                                    to_result keyword
                                      (calculateKeywordConfidence query queryWords entry) entry)
                                 entries))))
      end
  end.

(** [evaluateSemanticRelevance(query, entries, language)]: the scores of
    the hosted model, and zeros when the call or the parsing fails. *)
Definition evaluateSemanticRelevance (query : jstring) (entries : list KBEntry) (language : jstring)
  : Prog KbE (list Q) :=
  match entries with
  | [] => Ret []
  | _ =>
      let* scored := call (ScoreRelevance query entries language) in
      match scored with
      | Ok scores => Ret scores
      | Throw _ => Ret (List.map (fun _ => 0%Q) entries)
      end
  end.

(** [entries.map((entry, index) => ... semanticScores[index] || 0 ...)] *)
Fixpoint with_scores (entries : list KBEntry) (scores : list Q) : list SearchResult :=
  match entries with
  | [] => []
  | entry :: entries' =>
      to_result semantic (match scores with s :: _ => s | [] => 0%Q end) entry
      :: with_scores entries' (List.tl scores)
  end.

(** [searchSemantic(query, language, limit)] *)
Definition searchSemantic (query language : jstring) (limit : nat)
  : Prog KbE (list SearchResult) :=
  let* nlpResult := call (AnalyzeIntent query language) in
  match nlpResult with
  | Throw _ => Ret []
  | Ok _ =>
      let* found := call (FindMostUsed language 20) in
      match found with
      | Throw _ => Ret []
      | Ok entries =>
          let* semanticScores := evaluateSemanticRelevance query entries language in
          Ret (firstn limit
                 (sort_desc by_confidence
                    (List.filter (fun result => Qgt_bool (r_confidence result) similarityThreshold)
                       (with_scores entries semanticScores))))
      end
  end.

Definition searchCacheKey (normalizedQuery language : jstring) (limit : nat) : jstring :=
  "kb:search:" +:+ NLPService.hashText normalizedQuery +:+ ":" +:+ language +:+ ":" +:+ decimal limit.

(** The [try] block of [search]. *)
Definition search_body (query language : jstring) (limit : nat)
  : Prog KbE (Result (option SearchResult)) :=
  await* _ := call Initialize in
  if JsString.eqb query "" || (List.length (trim query) =? 0)%nat
  then Ret (Throw (ValidationError "La requête de recherche est requise"))
  else
    let normalizedQuery := toLowerCase (trim query) in
    let cacheKey := searchCacheKey normalizedQuery language limit in
    let* cached := call (CacheGet cacheKey) in
    match cached with
    | Some results => Ret (Ok (head results))
    | None =>
        let* keywordResults := searchByKeywords normalizedQuery language limit in
        let shortcut :=
          match keywordResults with
          | best :: _ =>
              if Qgt_bool (r_confidence best) (JsNumber.double (8 # 10)) then Some best else None
          | [] => None
          end in
        match shortcut with
        | Some best =>
            await* _ := call (CacheSet cacheKey keywordResults searchCacheTTL) in
            Ret (Ok (Some best))
        | None =>
            let* semanticResults := searchSemantic normalizedQuery language limit in
            let allResults :=
              firstn limit (sort_desc by_confidence (keywordResults ++ semanticResults)) in
            await* _ := call (CacheSet cacheKey allResults searchCacheTTL) in
            Ret (Ok (head allResults))
        end
    end.

(** [search(query, language, limit)]: any exception becomes [null]. *)
Definition search (query language : jstring) (limit : nat) : Prog KbE (option SearchResult) :=
  let* outcome := search_body query language limit in
  match outcome with
  | Ok best => Ret best
  | Throw _ => Ret None
  end.

End WithEngine.

(** *** The world the search runs in *)

(** The knowledge base table, the cached result lists with their expiry
    instants, and the collaborators: [nlp] answers [analyzeIntent],
    [scorer] is the hosted model's relevance scoring ([Throw] for a failed
    call or an answer that does not parse; since [nlpService.model] holds
    the model's name, a text, the call [model.generateContent] of
    [evaluateSemanticRelevance] cannot succeed, which is the scorer that
    always answers [Throw]).  [db_fails n] tells that the [n]-th database
    query fails. *)
Record World : Type := {
  prisma_ready : bool;
  table : list KBEntry;
  db_fails : nat -> bool;
  db_queries : nat;
  redis_up : bool;
  cached : gmap jstring (Z * list SearchResult);
  clock : Z;
  nlp : jstring -> jstring -> Result NLPService.IntentResult;
  scorer : jstring -> list KBEntry -> jstring -> Result (list Q)
}.

(** [where: { language, isActive: true }] *)
Definition active_in (lang : jstring) (entry : KBEntry) : bool :=
  JsString.eqb (language entry) lang && isActive entry.

Section WithEngine.
Context {EN : Engine}.

(** The [OR] of the keyword query: the question contains the query
    (case-insensitively) or a keyword equals one of the query words. *)
Definition keyword_match (query : jstring) (queryWords : list jstring) (entry : KBEntry) : bool :=
  includes (toLowerCase (question entry)) (toLowerCase query)
  || List.existsb (fun k => List.existsb (JsString.eqb k) queryWords) (keywords entry).

Definition find_by_keywords (t : list KBEntry) (query : jstring) (queryWords : list jstring)
  (lang : jstring) (n : nat) : list KBEntry :=
  firstn n (sort_desc by_usage
    (List.filter (fun entry => active_in lang entry && keyword_match query queryWords entry) t)).

End WithEngine.

Definition find_most_used (t : list KBEntry) (lang : jstring) (n : nat) : list KBEntry :=
  firstn n (sort_desc by_usage (List.filter (active_in lang) t)).

Definition after_query (w : World) : World :=
  {| prisma_ready := prisma_ready w; table := table w; db_fails := db_fails w;
     db_queries := S (db_queries w); redis_up := redis_up w; cached := cached w;
     clock := clock w; nlp := nlp w; scorer := scorer w |}.

Definition query_db {A} (w : World) (answer : A) : Result A * World :=
  (if db_fails w (db_queries w) then Throw (ExternalError (Some "P1001") "database") else Ok answer,
   after_query w).

Definition cache_get (w : World) (key : jstring) : option (list SearchResult) :=
  if redis_up w then
    match cached w !! key with
    | Some (expiry, value) => if (clock w <? expiry)%Z then Some value else None
    | None => None
    end
  else None.

Definition cache_set (w : World) (key : jstring) (value : list SearchResult) (ttl : Z)
  : Result unit * World :=
  if redis_up w then
    (Ok tt,
     {| prisma_ready := prisma_ready w; table := table w; db_fails := db_fails w;
        db_queries := db_queries w; redis_up := redis_up w;
        cached := <[ key := ((clock w + ttl * 1000)%Z, value) ]> (cached w);
        clock := clock w; nlp := nlp w; scorer := scorer w |})
  else (Throw (ExternalError None "Redis"), w).

Section WithEngine.
Context {EN : Engine}.

Definition handle : Handler KbE World :=
  fun X e =>
    match e in KbE X return World -> X * World with
    | Initialize => fun w =>
        (if prisma_ready w then Ok tt else Throw (PlainError "Base de données non initialisée"), w)
    | CacheGet key => fun w => (cache_get w key, w)
    | CacheSet key value ttl => fun w => cache_set w key value ttl
    | FindByKeywords query queryWords lang n => fun w =>
        query_db w (find_by_keywords (table w) query queryWords lang n)
    | FindMostUsed lang n => fun w => query_db w (find_most_used (table w) lang n)
    | AnalyzeIntent query lang => fun w => (nlp w query lang, w)
    | ScoreRelevance query entries lang => fun w => (scorer w query entries lang, w)
    end.

End WithEngine.

End KnowledgeBaseService.

(** ** Knowledge base writes ([KnowledgeBaseService], continued) *)

Module KnowledgeBaseWrites.
Import KnowledgeBaseService.

(** The [updates] object of [updateEntry]: the fields given. *)
Record Updates : Type := {
  u_question : option jstring;
  u_answer : option jstring;
  u_category : option jstring;
  u_language : option jstring;
  u_keywords : option (list jstring);
  u_isActive : option bool
}.

(** The external calls of the writers.  [CacheDeletePattern prefix] is
    [cacheService.deletePattern(prefix + '*')]; it answers with the
    number of keys deleted. *)
Inductive KbWriteE : Type -> Type :=
| Initialize : KbWriteE (Result unit)
| DateNow : KbWriteE Z
| EntryUpdate (id : jstring) (updates : Updates) (updatedAt : Z) : KbWriteE (Result KBEntry)
| EntryDelete (id : jstring) : KbWriteE (Result KBEntry)
| CacheDeletePattern (prefix : jstring) : KbWriteE (Result nat)
| CacheDel (key : jstring) : KbWriteE (Result unit).

(** [updateEntry(id, updates)] *)
Definition updateEntry (id : jstring) (updates : Updates) : Prog KbWriteE (Result KBEntry) :=
  await* _ := call Initialize in
  let* updatedAt := call DateNow in
  await* entry := call (EntryUpdate id updates updatedAt) in
  await* _ := call (CacheDeletePattern "kb:search:") in
  await* _ := call (CacheDel ("kb:entry:" +:+ id)) in
  Ret (Ok entry).

(** [deleteEntry(id)] *)
Definition deleteEntry (id : jstring) : Prog KbWriteE (Result unit) :=
  await* _ := call Initialize in
  await* _ := call (EntryDelete id) in
  await* _ := call (CacheDeletePattern "kb:search:") in
  await* _ := call (CacheDel ("kb:entry:" +:+ id)) in
  Ret (Ok tt).

(** *** The writers in the world of the search *)

Definition with_table (w : World) (t : list KBEntry) : World :=
  {| prisma_ready := prisma_ready w; table := t; db_fails := db_fails w;
     db_queries := S (db_queries w); redis_up := redis_up w; cached := cached w;
     clock := clock w; nlp := nlp w; scorer := scorer w |}.

Definition with_cache (w : World) (c : gmap jstring (Z * list SearchResult)) : World :=
  {| prisma_ready := prisma_ready w; table := table w; db_fails := db_fails w;
     db_queries := db_queries w; redis_up := redis_up w; cached := c;
     clock := clock w; nlp := nlp w; scorer := scorer w |}.

(** The same world with Redis reachable or not. *)
Definition with_redis (up : bool) (w : World) : World :=
  {| prisma_ready := prisma_ready w; table := table w; db_fails := db_fails w;
     db_queries := db_queries w; redis_up := up; cached := cached w;
     clock := clock w; nlp := nlp w; scorer := scorer w |}.

Definition apply_updates (updates : Updates) (entry : KBEntry) : KBEntry :=
  {| id := id entry;
     question := default (question entry) (u_question updates);
     answer := default (answer entry) (u_answer updates);
     category := default (category entry) (u_category updates);
     language := default (language entry) (u_language updates);
     keywords := default (keywords entry) (u_keywords updates);
     usageCount := usageCount entry;
     isActive := default (isActive entry) (u_isActive updates) |}.

Definition has_id (target : jstring) (entry : KBEntry) : bool := JsString.eqb (id entry) target.

Definition not_found {A} : Result A :=
  Throw (ExternalError (Some "P2025") "Record to update or delete does not exist").

(** [prisma.knowledgeBase.update({ where: { id }, data })] *)
Definition entry_update (w : World) (target : jstring) (updates : Updates)
  : Result KBEntry * World :=
  if db_fails w (db_queries w)
  then (Throw (ExternalError (Some "P1001") "database"), with_table w (table w))
  else
    match List.find (has_id target) (table w) with
    | Some entry =>
        (Ok (apply_updates updates entry),
         with_table w (List.map (fun e => if has_id target e then apply_updates updates e else e)
                         (table w)))
    | None => (not_found, with_table w (table w))
    end.

(** [prisma.knowledgeBase.delete({ where: { id } })] *)
Definition entry_delete (w : World) (target : jstring) : Result KBEntry * World :=
  if db_fails w (db_queries w)
  then (Throw (ExternalError (Some "P1001") "database"), with_table w (table w))
  else
    match List.find (has_id target) (table w) with
    | Some entry =>
        (Ok entry, with_table w (List.filter (fun e => negb (has_id target e)) (table w)))
    | None => (not_found, with_table w (table w))
    end.

(** [deletePattern]: every key under the prefix goes; a Redis error is
    rethrown. *)
Definition cache_delete_pattern (w : World) (prefix : jstring) : Result nat * World :=
  if redis_up w then
    (Ok (size (filter (fun kv => startsWith prefix (fst kv) = true) (cached w))),
     with_cache w (filter (fun kv => startsWith prefix (fst kv) = false) (cached w)))
  else (Throw (ExternalError None "Redis"), w).

Definition cache_del (w : World) (key : jstring) : Result unit * World :=
  if redis_up w then (Ok tt, with_cache w (delete key (cached w)))
  else (Throw (ExternalError None "Redis"), w).

Definition handle : Handler KbWriteE World :=
  fun X e =>
    match e in KbWriteE X return World -> X * World with
    | Initialize => fun w =>
        (if prisma_ready w then Ok tt else Throw (PlainError "Base de données non initialisée"), w)
    | DateNow => fun w => (clock w, w)
    | EntryUpdate target updates _ => fun w => entry_update w target updates
    | EntryDelete target => fun w => entry_delete w target
    | CacheDeletePattern prefix => fun w => cache_delete_pattern w prefix
    | CacheDel key => fun w => cache_del w key
    end.

End KnowledgeBaseWrites.

(** ** Conversation orchestrator ([IntentHandler], [MessageProcessor]) *)

Module Orchestrator.
Import Localization.
Import NLPService (Json, JNull, JBool, JNum, JStr, JArr, JObj, IntentResult,
  ChatRequest, ChatResponse, Build_ChatRequest, first_content).

(** *** Data *)

Inductive ConversationStatus : Type := ACTIVE | ENDED.

(** Modelled from the spec: the database schema is not among the
    sources; a conversation has an owning user, a status and start and
    end time stamps, the start being set when the row is created. *)
Record Conversation : Type := {
  id : nat;
  userId : nat;
  status : ConversationStatus;
  startedAt : Z;
  endedAt : option Z
}.

Record User : Type := {
  user_id : nat;
  phoneNumber : jstring;
  name : option jstring;
  user_language : jstring
}.

(** The session object: the fields it is created with, and [session_status],
    the [status] property that is absent until a handler sets it. *)
Record Session : Type := {
  conversationId : nat;
  session_language : jstring;
  context : gmap jstring Json;
  lastActivity : Z;
  session_status : option jstring
}.

Record Button : Type := { button_id : jstring; button_title : jstring }.
Record Row : Type := { row_id : jstring; row_title : jstring; row_description : jstring }.
Record ListSection : Type := { section_title : jstring; rows : list Row }.

Inductive Response : Type :=
| TextResponse (content : jstring)
| InteractiveResponse (text : jstring) (buttons : list Button)
| ListResponse (text buttonText : jstring) (sections : list ListSection).

(** The configuration read from the environment. *)
Record Config : Type := {
  maxConversationDuration : Z;
  confidenceThreshold : Q;
  knowledgeBaseThreshold : Q;
  defaultLanguage : jstring;
  supportedLanguages : list jstring;
  handoffKeywords : list jstring;
  modelName : jstring
}.

Definition default_config : Config :=
  {| maxConversationDuration := 3600%Z;
     confidenceThreshold := (5 # 10)%Q;
     knowledgeBaseThreshold := (4 # 10)%Q;
     defaultLanguage := "fr";
     supportedLanguages := ["fr"; "en"];
     handoffKeywords := ["agent"; "humain"; "personne"; "help"; "aide"];
     modelName := "openai/gpt-3.5-turbo" |}.

(** *** External calls *)

Inductive OrchE : Type -> Type :=
| DateNow : OrchE Z
| GetHours : OrchE Z
| DetectLanguage (text : jstring) : OrchE (option jstring)
| UserUpdateLanguage (user : nat) (language : jstring) : OrchE (Result unit)
| AnalyzeIntent (text language : jstring) : OrchE (Result IntentResult)
| KbSearch (text language : jstring) : OrchE (option KnowledgeBaseService.SearchResult)
| ChatCompletion (request : ChatRequest) : OrchE (Result ChatResponse)
| HandleCreateTicket (user : User) (entities : Json) (text : jstring) : OrchE Response
| HandleCheckTicketStatus (user : User) : OrchE Response
| ConversationFindFirstActive (user : nat) : OrchE (Result (option Conversation))
| ConversationEnd (conversation : nat) (endedAt : Z) : OrchE (Result Conversation)
| ConversationCreate (user : nat) : OrchE (Result Conversation).

Section WithConfig.
Context {EN : Engine}.
Variable cfg : Config.

Definition localized (key language : jstring) : jstring :=
  message (defaultLanguage cfg) key language no_params.

(** *** [IntentHandler] *)

(** [shouldTransferToHuman(text, language)] *)
Definition shouldTransferToHuman (text language : jstring) : bool :=
  let lowerText := toLowerCase text in
  List.existsb (fun keyword => includes lowerText (toLowerCase keyword)) (handoffKeywords cfg).

(** [initiateHumanHandoff(user, session, originalText)] *)
Definition initiateHumanHandoff (user : User) (session : Session) (originalText : jstring)
  : Prog OrchE (Session * Response) :=
  let* now := call DateNow in
  let context' :=
    <[ "handoffTimestamp" := JNum (inject_Z now) ]>
      (<[ "handoffReason" := JStr originalText ]>
         (<[ "pendingHandoff" := JBool true ]> (context session))) in
  Ret ({| conversationId := conversationId session;
          session_language := session_language session;
          context := context';
          lastActivity := lastActivity session;
          session_status := session_status session |},
       TextResponse (localized "handoff.initiated" (user_language user))).

(** [handleGoodbye(user, session)] *)
Definition handleGoodbye (user : User) (session : Session) : Prog OrchE (Session * Response) :=
  let* now := call DateNow in
  Ret ({| conversationId := conversationId session;
          session_language := session_language session;
          context := <[ "endedAt" := JNum (inject_Z now) ]> (context session);
          lastActivity := lastActivity session;
          session_status := Some "ENDED" |},
       TextResponse (localized "goodbye.message" (user_language user))).

(** [getTimeOfDay()] *)
Definition getTimeOfDay : Prog OrchE jstring :=
  let* hour := call GetHours in
  Ret (if (hour <? 12)%Z then "morning" else if (hour <? 18)%Z then "afternoon" else "evening").

Definition main_buttons (language : jstring) : list Button :=
  [ {| button_id := "help"; button_title := localized "buttons.help" language |};
    {| button_id := "faq"; button_title := localized "buttons.faq" language |};
    {| button_id := "contact_agent"; button_title := localized "buttons.contact_agent" language |} ].

(** [handleGreeting(user, session)] *)
Definition handleGreeting (user : User) (session : Session) : Prog OrchE (Session * Response) :=
  let* timeOfDay := getTimeOfDay in
  let greeting :=
    message (defaultLanguage cfg) ("greeting." +:+ timeOfDay) (user_language user)
      {| p_name := Some (or_default (name user) "cher client"); p_ticketId := None;
         p_title := None; p_priority := None; p_address := None |} in
  Ret (session, InteractiveResponse greeting (main_buttons (user_language user))).

(** [handleHelp(user, session)] *)
Definition handleHelp (user : User) (session : Session) : Prog OrchE (Session * Response) :=
  let l := user_language user in
  Ret (session,
       ListResponse (localized "help.main_text" l) (localized "help.button_text" l)
         [ {| section_title := localized "help.tickets.title" l;
              rows := [ {| row_id := "create_ticket";
                           row_title := localized "help.tickets.create" l;
                           row_description := localized "help.tickets.create_desc" l |};
                        {| row_id := "check_ticket";
                           row_title := localized "help.tickets.check" l;
                           row_description := localized "help.tickets.check_desc" l |} ] |};
           {| section_title := localized "help.support.title" l;
              rows := [ {| row_id := "faq";
                           row_title := localized "help.support.faq" l;
                           row_description := localized "help.support.faq_desc" l |};
                        {| row_id := "contact_agent";
                           row_title := localized "help.support.agent" l;
                           row_description := localized "help.support.agent_desc" l |} ] |} ]).

(** [handleFAQ(user, session, entities, originalText)] *)
Definition handleFAQ (user : User) (session : Session) (originalText : jstring)
  : Prog OrchE (Session * Response) :=
  let l := user_language user in
  let menu :=
    InteractiveResponse (localized "faq.main_text" l)
      [ {| button_id := "faq_products"; button_title := localized "faq.products" l |};
        {| button_id := "faq_support"; button_title := localized "faq.support" l |};
        {| button_id := "contact_agent"; button_title := localized "buttons.contact_agent" l |} ] in
  if JsString.eqb originalText "" then Ret (session, menu)
  else
    let* kbResult := call (KbSearch originalText l) in
    match kbResult with
    | Some found =>
        if KnowledgeBaseService.Qgt_bool (KnowledgeBaseService.r_confidence found) (5 # 10)
        then Ret (session, TextResponse (KnowledgeBaseService.r_answer found))
        else Ret (session, menu)
    | None => Ret (session, menu)
    end.

(** [getFallbackResponse(user, session, text)] *)
Definition getFallbackResponse (user : User) (session : Session) : Prog OrchE (Session * Response) :=
  Ret (session,
       InteractiveResponse (getFallbackConversationalMessage (user_language user))
         (main_buttons (user_language user))).

Definition veryUnhelpfulPhrases : list jstring :=
  [ "je ne peux pas vous aider"; "i cannot help you";
    "je ne sais pas du tout"; "i have no idea";
    "je ne comprends pas votre question"; "i don't understand your question" ].

(** [generateAIResponse(text, language)]: [null] on any failure, on an
    unhelpful answer and on an answer shorter than 15 characters. *)
Definition generateAIResponse (text language : jstring) : Prog OrchE (option jstring) :=
  let* response := call (ChatCompletion
    (Build_ChatRequest (modelName cfg) text language 200%Z (7 # 10)%Q)) in
  match response with
  | Throw _ => Ret None
  | Ok response =>
      match first_content response with
      | Throw _ => Ret None
      | Ok content =>
          let aiResponse := trim content in
          let isVeryUnhelpful :=
            List.existsb (fun phrase => includes (toLowerCase aiResponse) (toLowerCase phrase))
              veryUnhelpfulPhrases in
          if isVeryUnhelpful || (List.length aiResponse <? 15)%nat
          then Ret None
          else Ret (Some aiResponse)
      end
  end.

(** The repeated block: a generated answer longer than 10 characters is
    sent as a text, anything else falls through to [otherwise]. *)
Definition ai_or (text : jstring) (user : User) (session : Session)
  (otherwise : Prog OrchE (Session * Response)) : Prog OrchE (Session * Response) :=
  let* aiResponse := generateAIResponse text (user_language user) in
  match aiResponse with
  | Some answer =>
      if (10 <? List.length answer)%nat then Ret (session, TextResponse answer)
      else otherwise
  | None => otherwise
  end.

Definition asks_who (originalText : jstring) : bool :=
  let t := toLowerCase originalText in
  includes t "qui tu es" || includes t "qui es-tu"
  || includes t "who are you" || includes t "what are you".

Definition asks_capabilities (originalText : jstring) : bool :=
  let t := toLowerCase originalText in
  includes t "que peux-tu faire" || includes t "tes capacités"
  || includes t "what can you do" || includes t "capabilities".

(** [handleIntent(nlpResult, user, session, originalText)] *)
Definition handleIntent (nlpResult : IntentResult) (user : User) (session : Session)
  (originalText : jstring) : Prog OrchE (Session * Response) :=
  let intent := NLPService.intent nlpResult in
  let entities := NLPService.entities nlpResult in
  if JsString.eqb intent "greeting" then handleGreeting user session
  else if JsString.eqb intent "help" then
    if asks_who originalText
    then Ret (session, TextResponse (localized "bot.introduction" (user_language user)))
    else ai_or originalText user session (handleHelp user session)
  else if JsString.eqb intent "create_ticket" then
    let* response := call (HandleCreateTicket user entities originalText) in
    Ret (session, response)
  else if JsString.eqb intent "check_ticket_status" then
    let* response := call (HandleCheckTicketStatus user) in
    Ret (session, response)
  else if JsString.eqb intent "faq" then handleFAQ user session originalText
  else if JsString.eqb intent "contact_agent" then initiateHumanHandoff user session originalText
  else if JsString.eqb intent "goodbye" then handleGoodbye user session
  else if JsString.eqb intent "technical_support" then
    ai_or originalText user session (getFallbackResponse user session)
  else if JsString.eqb intent "product_inquiry" then
    if asks_capabilities originalText
    then Ret (session, TextResponse (localized "bot.capabilities" (user_language user)))
    else ai_or originalText user session (getFallbackResponse user session)
  else ai_or originalText user session (getFallbackResponse user session).

(** *** [MessageProcessor] *)

Definition with_language (user : User) (language : jstring) : User :=
  {| user_id := user_id user; phoneNumber := phoneNumber user; name := name user;
     user_language := language |}.

(** The language switch at the head of [processTextMessage];
    [updateUserLanguage] logs a failed update and goes on. *)
Definition switch_language (text : jstring) (user : User) : Prog OrchE User :=
  let* detectedLanguage := call (DetectLanguage text) in
  match detectedLanguage with
  | Some detected =>
      if negb (JsString.eqb detected "")
         && List.existsb (JsString.eqb detected) (supportedLanguages cfg)
         && negb (JsString.eqb detected (user_language user))
      then
        let* _ := call (UserUpdateLanguage (user_id user) detected) in
        Ret (with_language user detected)
      else Ret user
  | None => Ret user
  end.

(** [processTextMessage(messageData, user, session)] with
    [text = messageData.content.text].  The user and the session are
    objects the callee changes in place: they are returned with the
    response. *)
Definition processTextMessage (text : jstring) (user : User) (session : Session)
  : Prog OrchE (User * Session * Result Response) :=
  let* user := switch_language text user in
  if shouldTransferToHuman text (user_language user) then
    let* (session, response) := initiateHumanHandoff user session text in
    Ret (user, session, Ok response)
  else
    let* analysed := call (AnalyzeIntent text (user_language user)) in
    match analysed with
    | Throw e => Ret (user, session, Throw e)
    | Ok nlpResult =>
        if Qle_bool (confidenceThreshold cfg) (NLPService.confidence nlpResult) then
          let* (session, response) := handleIntent nlpResult user session text in
          Ret (user, session, Ok response)
        else
          let* kbResult := call (KbSearch text (user_language user)) in
          let answer :=
            match kbResult with
            | Some found =>
                if KnowledgeBaseService.Qgt_bool (KnowledgeBaseService.r_confidence found)
                     (knowledgeBaseThreshold cfg)
                then Some (KnowledgeBaseService.r_answer found) else None
            | None => None
            end in
          match answer with
          | Some content => Ret (user, session, Ok (TextResponse content))
          | None =>
              let* (session, response) :=
                ai_or text user session (getFallbackResponse user session) in
              Ret (user, session, Ok response)
          end
    end.

(** [getOrCreateConversation(userId)] *)
Definition getOrCreateConversation (user : nat) : Prog OrchE (Result Conversation) :=
  await* found := call (ConversationFindFirstActive user) in
  match found with
  | Some conversation =>
      let* now := call DateNow in
      let conversationAge := (now - startedAt conversation)%Z in
      if (maxConversationDuration cfg * 1000 <? conversationAge)%Z then
        await* _ := call (ConversationEnd (id conversation) now) in
        call (ConversationCreate user)
      else Ret (Ok conversation)
  | None => call (ConversationCreate user)
  end.

End WithConfig.

(** *** The world of the orchestrator *)

(** What a database write did, in the order the writes happened. *)
Inductive DbWrite : Type :=
| Ended (conversation : nat) (endedAt : Z)
| Created (conversation : nat) (user : nat)
| LanguageSet (user : nat) (language : jstring).

(** The conversation table and the collaborators, each answering as a
    function of its arguments.  [db_fails n] tells that the [n]-th
    database operation fails. *)
Record World : Type := {
  conversations : list Conversation;
  next_id : nat;
  journal : list DbWrite;
  db_fails : nat -> bool;
  db_ops : nat;
  clock : Z;
  hours : Z;
  detect : jstring -> option jstring;
  classify : jstring -> jstring -> Result IntentResult;
  kb : jstring -> jstring -> option KnowledgeBaseService.SearchResult;
  chat : ChatRequest -> Result ChatResponse;
  create_ticket : User -> jstring -> Response;
  ticket_status : User -> Response
}.

Definition is_active (c : Conversation) : bool :=
  match status c with ACTIVE => true | ENDED => false end.

Definition active_of (user : nat) (c : Conversation) : bool :=
  (userId c =? user)%nat && is_active c.

(** [orderBy: { startedAt: 'desc' }] then the first row. *)
Fixpoint newest (l : list Conversation) : option Conversation :=
  match l with
  | [] => None
  | c :: rest =>
      match newest rest with
      | Some d => if (startedAt c <? startedAt d)%Z then Some d else Some c
      | None => Some c
      end
  end.

Definition find_first_active (user : nat) (table : list Conversation) : option Conversation :=
  newest (List.filter (active_of user) table).

Definition end_conversation (target : nat) (t : Z) (c : Conversation) : Conversation :=
  if (id c =? target)%nat
  then {| id := id c; userId := userId c; status := ENDED;
          startedAt := startedAt c; endedAt := Some t |}
  else c.

Definition set_table (w : World) (table : list Conversation) (next : nat)
  (written : list DbWrite) : World :=
  {| conversations := table; next_id := next; journal := journal w ++ written;
     db_fails := db_fails w; db_ops := S (db_ops w); clock := clock w; hours := hours w;
     detect := detect w; classify := classify w; kb := kb w; chat := chat w;
     create_ticket := create_ticket w; ticket_status := ticket_status w |}.

Definition db_error {A} : Result A := Throw (ExternalError (Some "P1001") "database").

Definition find_op (w : World) (user : nat) : Result (option Conversation) * World :=
  if db_fails w (db_ops w) then (db_error, set_table w (conversations w) (next_id w) [])
  else (Ok (find_first_active user (conversations w)),
        set_table w (conversations w) (next_id w) []).

Definition end_op (w : World) (target : nat) (t : Z) : Result Conversation * World :=
  if db_fails w (db_ops w) then (db_error, set_table w (conversations w) (next_id w) [])
  else
    match List.find (fun c => (id c =? target)%nat) (conversations w) with
    | Some c =>
        (Ok (end_conversation target t c),
         set_table w (List.map (end_conversation target t) (conversations w)) (next_id w)
           [Ended target t])
    | None =>
        (Throw (ExternalError (Some "P2025") "Record to update not found"),
         set_table w (conversations w) (next_id w) [])
    end.

Definition create_op (w : World) (user : nat) : Result Conversation * World :=
  if db_fails w (db_ops w) then (db_error, set_table w (conversations w) (next_id w) [])
  else
    let c := {| id := next_id w; userId := user; status := ACTIVE;
                startedAt := clock w; endedAt := None |} in
    (Ok c, set_table w (conversations w ++ [c]) (S (next_id w)) [Created (next_id w) user]).

Definition language_op (w : World) (user : nat) (language : jstring) : Result unit * World :=
  if db_fails w (db_ops w) then (db_error, set_table w (conversations w) (next_id w) [])
  else (Ok tt, set_table w (conversations w) (next_id w) [LanguageSet user language]).

Definition handle : Handler OrchE World :=
  fun X e =>
    match e in OrchE X return World -> X * World with
    | DateNow => fun w => (clock w, w)
    | GetHours => fun w => (hours w, w)
    | DetectLanguage text => fun w => (detect w text, w)
    | UserUpdateLanguage user language => fun w => language_op w user language
    | AnalyzeIntent text language => fun w => (classify w text language, w)
    | KbSearch text language => fun w => (kb w text language, w)
    | ChatCompletion request => fun w => (chat w request, w)
    | HandleCreateTicket user _ text => fun w => (create_ticket w user text, w)
    | HandleCheckTicketStatus user => fun w => (ticket_status w user, w)
    | ConversationFindFirstActive user => fun w => find_op w user
    | ConversationEnd target t => fun w => end_op w target t
    | ConversationCreate user => fun w => create_op w user
    end.

(** The invariant of the conversation table. *)
Definition at_most_one_active (table : list Conversation) : Prop :=
  forall user, (List.length (List.filter (active_of user) table) <= 1)%nat.

End Orchestrator.

(** ** Ticket store ([TicketService]) : status updates *)

Module TicketStore.

Inductive TicketStatus : Type := OPEN | IN_PROGRESS | WAITING_CUSTOMER | RESOLVED | CLOSED.

(** Modelled from the spec: the database schema is not among the
    sources; a ticket has the attributes of the specification's data
    model. *)
Record Ticket : Type := {
  id : jstring;
  userId : nat;
  title : jstring;
  description : jstring;
  category : option jstring;
  priority : TicketPriority.Priority;
  status : TicketStatus;
  assignedAgent : option jstring;
  resolution : option jstring;
  createdAt : Z;
  resolvedAt : option Z;
  updatedAt : Z
}.

Definition validStatuses : list jstring :=
  ["OPEN"; "IN_PROGRESS"; "WAITING_CUSTOMER"; "RESOLVED"; "CLOSED"].

(** The enum value a status text denotes, as the database reads it. *)
Definition status_of_string (s : jstring) : option TicketStatus :=
  if JsString.eqb s "OPEN" then Some OPEN
  else if JsString.eqb s "IN_PROGRESS" then Some IN_PROGRESS
  else if JsString.eqb s "WAITING_CUSTOMER" then Some WAITING_CUSTOMER
  else if JsString.eqb s "RESOLVED" then Some RESOLVED
  else if JsString.eqb s "CLOSED" then Some CLOSED
  else None.

(** The [updateData] object; an absent property is [None]. *)
Record UpdateData : Type := {
  data_status : jstring;
  data_updatedAt : Z;
  data_resolution : option jstring;
  data_assignedAgent : option jstring;
  data_resolvedAt : option Z
}.

Inductive TicketE : Type -> Type :=
| Initialize : TicketE (Result unit)
| DateNow : TicketE Z
| TicketUpdate (ticketId : jstring) (data : UpdateData) : TicketE (Result Ticket)
| CacheDel (key : jstring) : TicketE (Result unit).

(** [if (value) ...] on an optional text: [null] and the empty text are falsy. *)
Definition if_given (value : option jstring) : option jstring :=
  match value with
  | Some s => if JsString.eqb s "" then None else Some s
  | None => None
  end.

(** [updateTicketStatus(ticketId, newStatus, resolution, agentId)] *)
Definition updateTicketStatus (ticketId newStatus : jstring) (resolution agentId : option jstring)
  : Prog TicketE (Result Ticket) :=
  await* _ := call Initialize in
  if negb (List.existsb (JsString.eqb newStatus) validStatuses)
  then Ret (Throw (ValidationError ("Statut invalide: " +:+ newStatus)))
  else
    let* updatedAt := call DateNow in
    let* resolvedAt :=
      (if JsString.eqb newStatus "RESOLVED" || JsString.eqb newStatus "CLOSED"
       then (let* t := call DateNow in Ret (Some t))
       else Ret None) in
    await* ticket := call (TicketUpdate ticketId
      {| data_status := newStatus; data_updatedAt := updatedAt;
         data_resolution := if_given resolution; data_assignedAgent := if_given agentId;
         data_resolvedAt := resolvedAt |}) in
    await* _ := call (CacheDel ("ticket:" +:+ ticketId)) in
    await* _ := call (CacheDel ("tickets:user:" +:+ decimal (userId ticket))) in
    Ret (Ok ticket).

(** *** The world of the ticket store *)

Record World : Type := {
  prisma_ready : bool;
  db_up : bool;
  tickets : gmap jstring Ticket;
  redis_up : bool;
  cached : gmap jstring jstring;
  clock : Z
}.

Definition apply_update (st : TicketStatus) (data : UpdateData) (t : Ticket) : Ticket :=
  {| id := id t; userId := userId t; title := title t; description := description t;
     category := category t; priority := priority t;
     status := st;
     assignedAgent := match data_assignedAgent data with Some a => Some a | None => assignedAgent t end;
     resolution := match data_resolution data with Some r => Some r | None => resolution t end;
     createdAt := createdAt t;
     resolvedAt := match data_resolvedAt data with Some r => Some r | None => resolvedAt t end;
     updatedAt := data_updatedAt data |}.

(** [prisma.ticket.update({ where: { id }, data })] *)
Definition ticket_update (w : World) (ticketId : jstring) (data : UpdateData)
  : Result Ticket * World :=
  if db_up w then
    match tickets w !! ticketId, status_of_string (data_status data) with
    | Some t, Some st =>
        let t' := apply_update st data t in
        (Ok t',
         {| prisma_ready := prisma_ready w; db_up := db_up w;
            tickets := <[ ticketId := t' ]> (tickets w);
            redis_up := redis_up w; cached := cached w; clock := clock w |})
    | None, _ => (Throw (ExternalError (Some "P2025") "Record to update not found"), w)
    | Some _, None => (Throw (ExternalError None "Invalid value for argument status"), w)
    end
  else (Throw (ExternalError (Some "P1001") "database"), w).

(** [CacheService.del(key)]: a Redis error is rethrown. *)
Definition cache_del (w : World) (key : jstring) : Result unit * World :=
  if redis_up w then
    (Ok tt,
     {| prisma_ready := prisma_ready w; db_up := db_up w; tickets := tickets w;
        redis_up := redis_up w; cached := delete key (cached w); clock := clock w |})
  else (Throw (ExternalError None "Redis"), w).

Definition handle : Handler TicketE World :=
  fun X e =>
    match e in TicketE X return World -> X * World with
    | Initialize => fun w =>
        (if prisma_ready w then Ok tt else Throw (PlainError "Base de données non initialisée"), w)
    | DateNow => fun w => (clock w, w)
    | TicketUpdate ticketId data => fun w => ticket_update w ticketId data
    | CacheDel key => fun w => cache_del w key
    end.

End TicketStore.

(** ** Ticket requests in free text ([TicketMessageHandler], continued) *)

Module TicketRequests.
Import TicketMessageHandler.

Definition creationKeywords_fr : list jstring :=
  ["créer un ticket"; "nouveau ticket"; "ouvrir un ticket"; "créer ticket"; "ticket"].
Definition creationKeywords_en : list jstring :=
  ["create ticket"; "new ticket"; "open ticket"; "ticket"].
Definition statusKeywords_fr : list jstring :=
  ["statut ticket"; "état ticket"; "vérifier ticket"; "mes tickets"; "ticket status"].
Definition statusKeywords_en : list jstring :=
  ["ticket status"; "check ticket"; "my tickets"; "ticket state"].

Section WithEngine.
Context {EN : Engine}.

(** [keywords.some(keyword => lowerText.includes(keyword.toLowerCase()))] *)
Definition some_keyword (text : jstring) (keywords : list jstring) : bool :=
  let lowerText := toLowerCase text in
  List.existsb (fun keyword => includes lowerText (toLowerCase keyword)) keywords.

(** [isTicketCreationRequest(text, language)] *)
Definition isTicketCreationRequest (text language : jstring) : Result bool :=
  match array_by_language creationKeywords_fr creationKeywords_en language with
  | Throw e => Throw e
  | Ok keywords => Ok (some_keyword text keywords)
  end.

(** [isTicketStatusRequest(text, language)] *)
Definition isTicketStatusRequest (text language : jstring) : Result bool :=
  match array_by_language statusKeywords_fr statusKeywords_en language with
  | Throw e => Throw e
  | Ok keywords => Ok (some_keyword text keywords)
  end.

(** The object [analyzeTicketIntent] returns; [entities] is the extracted
    ticket information for a creation request and the empty object
    ([None]) for a status request. *)
Record TicketIntent : Type := {
  intent : jstring;
  confidence : Q;
  entities : option TicketInfo
}.

(** [analyzeTicketIntent(text, language)] *)
Definition analyzeTicketIntent (text language : jstring) : Result (option TicketIntent) :=
  match isTicketCreationRequest text language with
  | Throw e => Throw e
  | Ok true =>
      match extractTicketInfo text language with
      | Throw e => Throw e
      | Ok info =>
          Ok (Some {| intent := "create_ticket"; confidence := (8 # 10)%Q; entities := Some info |})
      end
  | Ok false =>
      match isTicketStatusRequest text language with
      | Throw e => Throw e
      | Ok true =>
          Ok (Some {| intent := "check_ticket_status"; confidence := (8 # 10)%Q;
                      entities := None |})
      | Ok false => Ok None
      end
  end.

End WithEngine.

(** [!s || s.trim().length === 0] *)
Definition blank (s : jstring) : bool :=
  JsString.eqb s "" || (List.length (trim s) =? 0)%nat.

(** [validateTicketInfo(ticketInfo)]: the list of error messages;
    [isValid] is its emptiness. *)
Definition validateTicketInfo (info : TicketInfo) : list jstring :=
  (if blank (title info) then ["Title is required"] else [])
  ++ (if blank (description info) then ["Description is required"] else [])
  ++ (if negb (JsString.eqb (title info) "") && (200 <? List.length (title info))%nat
      then ["Title is too long (max 200 characters)"] else [])
  ++ (if negb (JsString.eqb (description info) "") && (2000 <? List.length (description info))%nat
      then ["Description is too long (max 2000 characters)"] else []).

Definition isValid (info : TicketInfo) : bool :=
  match validateTicketInfo info with [] => true | _ => false end.

(** *** [handleCreateTicket] and [handleCheckTicketStatus] *)

(** What the handlers read of a ticket returned by the ticket service. *)
Record TicketView : Type := {
  ticket_id : jstring;
  ticket_title : jstring;
  ticket_priority : jstring
}.

Inductive HandlerE : Type -> Type :=
| CreateTicket (user : nat) (title description : jstring) (category : option jstring)
    (language : jstring) : HandlerE (Result TicketView)
| GetUserTickets (user : nat) (limit : nat) : HandlerE (Result (list TicketView))
| FormatTicketList (tickets : list TicketView) (language : jstring) : HandlerE jstring.

Section WithDefaultLanguage.
Context {EN : Engine}.
Variable defaultLanguage : jstring.

Definition message (key language : jstring) : jstring :=
  Localization.message defaultLanguage key language Localization.no_params.

(** [formatTicketConfirmation(ticket, language, localizationService)] *)
Definition formatTicketConfirmation (ticket : TicketView) (language : jstring) : jstring :=
  Localization.message defaultLanguage "ticket.created_success" language
    {| Localization.p_name := None;
       Localization.p_ticketId := Some (ticket_id ticket);
       Localization.p_title := Some (ticket_title ticket);
       Localization.p_priority := Some (ticket_priority ticket);
       Localization.p_address := None |}.

(** [handleCreateTicket(user, session, entities, originalText)]: the text
    of the answer.  Every exception of the [try] block ends in the
    creation-error message. *)
Definition handleCreateTicket (user : nat) (language originalText : jstring)
  : Prog HandlerE jstring :=
  match extractTicketInfo originalText language with
  | Throw _ => Ret (message "ticket.creation_error" language)
  | Ok ticketInfo =>
      if JsString.eqb (title ticketInfo) "" || JsString.eqb (description ticketInfo) ""
      then Ret (message "ticket.need_more_info" language)
      else
        let* created := call (CreateTicket user (title ticketInfo) (description ticketInfo)
                                (category ticketInfo) language) in
        match created with
        | Ok ticket => Ret (formatTicketConfirmation ticket language)
        | Throw _ => Ret (message "ticket.creation_error" language)
        end
  end.

(** [handleCheckTicketStatus(user, session, entities)] *)
Definition handleCheckTicketStatus (user : nat) (language : jstring) : Prog HandlerE jstring :=
  let* listed := call (GetUserTickets user 5) in
  match listed with
  | Throw _ => Ret (message "ticket.status_error" language)
  | Ok [] => Ret (message "ticket.no_tickets" language)
  | Ok tickets => call (FormatTicketList tickets language)
  end.

End WithDefaultLanguage.

End TicketRequests.

(** ** Ticket store ([TicketService]) : categories *)

Module TicketCategory.

Definition categoryKeywords_fr : list (jstring * list jstring) :=
  [ ("technique", ["bug"; "erreur"; "ne fonctionne pas"; "plantage"; "lent"; "connexion"]);
    ("facturation", ["facture"; "paiement"; "prix"; "coût"; "remboursement"; "abonnement"]);
    ("commande", ["commande"; "livraison"; "expédition"; "reçu"; "produit"]);
    ("compte", ["compte"; "profil"; "mot de passe"; "connexion"; "accès"]);
    ("général", ["information"; "question"; "aide"; "comment"]) ].

Definition categoryKeywords_en : list (jstring * list jstring) :=
  [ ("technical", ["bug"; "error"; "not working"; "crash"; "slow"; "connection"]);
    ("billing", ["invoice"; "payment"; "price"; "cost"; "refund"; "subscription"]);
    ("order", ["order"; "delivery"; "shipping"; "received"; "product"]);
    ("account", ["account"; "profile"; "password"; "login"; "access"]);
    ("general", ["information"; "question"; "help"; "how"]) ].

(** [Object.entries(categoryKeywords[language] || categoryKeywords.fr)]:
    a member inherited from [Object.prototype] is truthy and has no own
    enumerable property, so it lists nothing. *)
Definition category_entries (language : jstring) : list (jstring * list jstring) :=
  match by_language categoryKeywords_fr categoryKeywords_en language with
  | Own table => table
  | Missing => categoryKeywords_fr
  | Inherited => []
  end.

Fixpoint first_category (lowerText : jstring) (entries : list (jstring * list jstring))
  : option jstring :=
  match entries with
  | [] => None
  | (category, words) :: rest =>
      if List.existsb (fun word => includes lowerText word) words
      then Some category
      else first_category lowerText rest
  end.

Section WithEngine.
Context {EN : Engine}.

(** [determineCategory(text, language)] *)
Definition determineCategory (text language : jstring) : jstring :=
  let lowerText := toLowerCase text in
  match first_category lowerText (category_entries language) with
  | Some category => category
  | None => "général"
  end.

End WithEngine.

End TicketCategory.

(** ** Language detection ([NLPService], continued) *)

Module LanguageDetection.
Import NLPService.

Definition frenchWords : list jstring :=
  ["bonjour"; "merci"; "problème"; "aide"; "comment"; "pourquoi"; "quand"].
Definition englishWords : list jstring :=
  ["hello"; "thank"; "problem"; "help"; "how"; "why"; "when"].

Definition occurring (lowerText : jstring) (words : list jstring) : nat :=
  List.length (List.filter (fun word => includes lowerText word) words).

Section WithEngine.
Context {EN : Engine}.

(** [quickLanguageDetection(text)] *)
Definition quickLanguageDetection (text : jstring) : option jstring :=
  let lowerText := toLowerCase text in
  let frenchCount := occurring lowerText frenchWords in
  let englishCount := occurring lowerText englishWords in
  if (englishCount <? frenchCount)%nat && (0 <? frenchCount)%nat then Some "fr"
  else if (frenchCount <? englishCount)%nat && (0 <? englishCount)%nat then Some "en"
  else None.

End WithEngine.

Definition supportedLanguages : list jstring := ["fr"; "en"].

Inductive LangE : Type -> Type :=
| CacheGet (key : jstring) : LangE (option jstring)
| CacheSet (key : jstring) (value : option jstring) (ttl : Z) : LangE (Result unit)
| ChatCompletion (request : ChatRequest) : LangE (Result ChatResponse).

Definition languageCacheKey (text : jstring) : jstring := "nlp:lang:" +:+ hashText text.

Definition language_request (modelName text : jstring) : ChatRequest :=
  {| model := modelName; prompt_text := text; prompt_language := "fr";
     max_tokens := 10%Z; temperature := (1 # 10)%Q |}.

Section WithEngine.
Context {EN : Engine}.

(** The [try] block of [detectLanguage]. *)
Definition detectLanguage_body (modelName text : jstring) : Prog LangE (Result (option jstring)) :=
  let cacheKey := languageCacheKey text in
  let* cachedResult := call (CacheGet cacheKey) in
  match cachedResult with
  | Some cached => Ret (Ok (Some cached))
  | None =>
      match quickLanguageDetection text with
      | Some quickDetection =>
          await* _ := call (CacheSet cacheKey (Some quickDetection) cacheTTL) in
          Ret (Ok (Some quickDetection))
      | None =>
          await* response := call (ChatCompletion (language_request modelName text)) in
          match first_content response with
          | Throw e => Ret (Throw e)
          | Ok content =>
              let detectedLanguage := toLowerCase (trim content) in
              let finalLanguage :=
                if List.existsb (JsString.eqb detectedLanguage) supportedLanguages
                then Some detectedLanguage else None in
              await* _ := call (CacheSet cacheKey finalLanguage cacheTTL) in
              Ret (Ok finalLanguage)
          end
      end
  end.

(** [detectLanguage(text)]: any exception becomes [null]. *)
Definition detectLanguage (modelName text : jstring) : Prog LangE (option jstring) :=
  let* outcome := detectLanguage_body modelName text in
  match outcome with
  | Ok detected => Ret detected
  | Throw _ => Ret None
  end.

End WithEngine.

(** The world of the detection: the cached languages ([None] for a
    cached [null]), the clock and the hosted model. *)
Record World : Type := {
  redis_up : bool;
  languages : gmap jstring (Z * option jstring);
  clock : Z;
  hosted : ChatRequest -> Result ChatResponse
}.

(** [CacheService.get]: a stored [null] or empty text is falsy for the
    caller, like a miss. *)
Definition cache_get (w : World) (key : jstring) : option jstring :=
  if redis_up w then
    match languages w !! key with
    | Some (expiry, Some value) =>
        if (clock w <? expiry)%Z && negb (JsString.eqb value "") then Some value else None
    | _ => None
    end
  else None.

Definition cache_set (w : World) (key : jstring) (value : option jstring) (ttl : Z)
  : Result unit * World :=
  if redis_up w then
    (Ok tt,
     {| redis_up := redis_up w;
        languages := <[ key := ((clock w + ttl * 1000)%Z, value) ]> (languages w);
        clock := clock w; hosted := hosted w |})
  else (Throw (ExternalError None "Redis"), w).

Definition handle : Handler LangE World :=
  fun X e =>
    match e in LangE X return World -> X * World with
    | CacheGet key => fun w => (cache_get w key, w)
    | CacheSet key value ttl => fun w => cache_set w key value ttl
    | ChatCompletion request => fun w => (hosted w request, w)
    end.

End LanguageDetection.

(** ** Ticket service, continued ([TicketService]) *)

(** [assignTicket] runs against the same database and cache calls as
    [updateTicketStatus]. *)
Module TicketAssignment.
Import TicketStore.

(** [assignTicket(ticketId, agentId)] for an agent id that is a text:
    the update always carries the agent and the status [IN_PROGRESS]. *)
Definition assignTicket (ticketId agentId : jstring) : Prog TicketE (Result Ticket) :=
  await* _ := call Initialize in
  let* updatedAt := call DateNow in
  await* ticket := call (TicketUpdate ticketId
    {| data_status := "IN_PROGRESS"; data_updatedAt := updatedAt;
       data_resolution := None; data_assignedAgent := Some agentId;
       data_resolvedAt := None |}) in
  await* _ := call (CacheDel ("ticket:" +:+ ticketId)) in
  await* _ := call (CacheDel ("tickets:user:" +:+ decimal (userId ticket))) in
  Ret (Ok ticket).

End TicketAssignment.

Module TicketService.
Import TicketPriority TicketCategory.
Import TicketStore (Ticket, Build_Ticket, TicketStatus, OPEN, IN_PROGRESS, WAITING_CUSTOMER,
  RESOLVED, CLOSED, id, userId, title, description, category, priority, status,
  assignedAgent, resolution, createdAt, resolvedAt, updatedAt, status_of_string, if_given).

(** Cache TTL of the tickets and ticket lists, in seconds. *)
Definition cacheTTL : Z := 300%Z.

(** The [data] of [prisma.ticket.create]. *)
Record NewTicket : Type := {
  new_userId : nat;
  new_title : jstring;
  new_description : jstring;
  new_category : jstring;
  new_priority : Priority;
  new_status : TicketStatus
}.

Inductive SvcE : Type -> Type :=
| Initialize : SvcE (Result unit)
| DateNow : SvcE Z
| TicketCreate (data : NewTicket) : SvcE (Result Ticket)
| TicketFindUnique (ticketId : jstring) (owner : option nat) : SvcE (Result (option Ticket))
| TicketFindMany (owner : nat) (status : option jstring) (take skip : nat)
    : SvcE (Result (list Ticket))
| TicketCloseResolved (cutoff now : Z) : SvcE (Result nat)
| CacheGetTicket (key : jstring) : SvcE (option Ticket)
| CacheSetTicket (key : jstring) (value : Ticket) (ttl : Z) : SvcE (Result unit)
| CacheGetList (key : jstring) : SvcE (option (list Ticket))
| CacheSetList (key : jstring) (value : list Ticket) (ttl : Z) : SvcE (Result unit)
| CacheDel (key : jstring) : SvcE (Result unit).

(** [!text || text.trim().length === 0] *)
Definition blank (text : jstring) : bool :=
  JsString.eqb text "" || (List.length (trim text) =? 0)%nat.

Section WithEngine.
Context {EN : Engine}.

(** [createTicket(userId, title, description, category, language)].
    [autoAssignTicket] only writes to the log. *)
Definition createTicket (user : nat) (title description : jstring) (category : option jstring)
  (language : jstring) : Prog SvcE (Result Ticket) :=
  await* _ := call Initialize in
  if blank title then Ret (Throw (ValidationError "Le titre du ticket est requis"))
  else if blank description
  then Ret (Throw (ValidationError "La description du ticket est requise"))
  else
    match determinePriority (title +:+ " " +:+ description) language with
    | Throw e => Ret (Throw e)
    | Ok priority =>
        let category :=
          match if_given category with
          | Some given => given
          | None => determineCategory (title +:+ " " +:+ description) language
          end in
        await* ticket := call (TicketCreate
          {| new_userId := user; new_title := trim title;
             new_description := trim description; new_category := category;
             new_priority := priority; new_status := OPEN |}) in
        await* _ := call (CacheDel ("tickets:user:" +:+ decimal user)) in
        Ret (Ok ticket)
    end.

End WithEngine.

(** [if (userId)] on an optional numeric id: [null] and [0] are falsy. *)
Definition owner_filter (user : option nat) : option nat :=
  match user with
  | Some O => None
  | other => other
  end.

(** [getTicketById(ticketId, userId)] *)
Definition getTicketById (ticketId : jstring) (user : option nat) : Prog SvcE (Result Ticket) :=
  await* _ := call Initialize in
  let cacheKey := "ticket:" +:+ ticketId in
  let* cached := call (CacheGetTicket cacheKey) in
  match cached with
  | Some ticket => Ret (Ok ticket)
  | None =>
      await* found := call (TicketFindUnique ticketId (owner_filter user)) in
      match found with
      | None => Ret (Throw (NotFoundError "Ticket non trouvé"))
      | Some ticket =>
          await* _ := call (CacheSetTicket cacheKey ticket cacheTTL) in
          Ret (Ok ticket)
      end
  end.

Definition userTicketsKey (user : nat) (status : option jstring) (limit offset : nat) : jstring :=
  "tickets:user:" +:+ decimal user +:+ ":" +:+ default "all" (if_given status)
  +:+ ":" +:+ decimal limit +:+ ":" +:+ decimal offset.

(** [getUserTickets(userId, status, limit, offset)] *)
Definition getUserTickets (user : nat) (status : option jstring) (limit offset : nat)
  : Prog SvcE (Result (list Ticket)) :=
  await* _ := call Initialize in
  let cacheKey := userTicketsKey user status limit offset in
  let* cached := call (CacheGetList cacheKey) in
  match cached with
  | Some tickets => Ret (Ok tickets)
  | None =>
      await* tickets := call (TicketFindMany user (if_given status) limit offset) in
      await* _ := call (CacheSetList cacheKey tickets cacheTTL) in
      Ret (Ok tickets)
  end.

(** Seven days, in milliseconds. *)
Definition autoCloseDelay : Z := (7 * 24 * 60 * 60 * 1000)%Z.

(** [autoCloseResolvedTickets()]: the number of tickets closed, [0]
    on any failure. *)
Definition autoCloseResolvedTickets : Prog SvcE nat :=
  let* outcome :=
    (await* _ := call Initialize in
     let* now := call DateNow in
     let cutoffTime := (now - autoCloseDelay)%Z in
     let* updatedAt := call DateNow in
     call (TicketCloseResolved cutoffTime updatedAt)) in
  match outcome with
  | Ok count => Ret count
  | Throw _ => Ret 0%nat
  end.

(** *** The world of the ticket service *)

(** Modelled from the spec: the ticket table in creation order; the
    database gives the [n]-th row the id [ids n] and stamps a new row
    with the current time.  The two maps are the Redis entries under the
    prefixes [ticket:] and [tickets:user:], which no key shares. *)
Record World : Type := {
  prisma_ready : bool;
  db_up : bool;
  table : list Ticket;
  ids : nat -> jstring;
  redis_up : bool;
  ticket_cache : gmap jstring (Z * Ticket);
  list_cache : gmap jstring (Z * list Ticket);
  clock : Z
}.

Definition with_table (w : World) (t : list Ticket) : World :=
  {| prisma_ready := prisma_ready w; db_up := db_up w; table := t; ids := ids w;
     redis_up := redis_up w; ticket_cache := ticket_cache w; list_cache := list_cache w;
     clock := clock w |}.

Definition with_caches (w : World) (tc : gmap jstring (Z * Ticket))
  (lc : gmap jstring (Z * list Ticket)) : World :=
  {| prisma_ready := prisma_ready w; db_up := db_up w; table := table w; ids := ids w;
     redis_up := redis_up w; ticket_cache := tc; list_cache := lc; clock := clock w |}.

Definition at_time (t : Z) (w : World) : World :=
  {| prisma_ready := prisma_ready w; db_up := db_up w; table := table w; ids := ids w;
     redis_up := redis_up w; ticket_cache := ticket_cache w; list_cache := list_cache w;
     clock := t |}.

Definition db_error {A} : Result A := Throw (ExternalError (Some "P1001") "database").

Definition new_row (w : World) (data : NewTicket) : Ticket :=
  {| id := ids w (List.length (table w)); userId := new_userId data;
     title := new_title data; description := new_description data;
     category := Some (new_category data); priority := new_priority data;
     status := new_status data; assignedAgent := None; resolution := None;
     createdAt := clock w; resolvedAt := None; updatedAt := clock w |}.

Definition create_row (w : World) (data : NewTicket) : Result Ticket * World :=
  if db_up w then (Ok (new_row w data), with_table w (table w ++ [new_row w data]))
  else (db_error, w).

Definition owned_by (owner : option nat) (t : Ticket) : bool :=
  match owner with
  | Some user => (userId t =? user)%nat
  | None => true
  end.

Definition find_unique (w : World) (ticketId : jstring) (owner : option nat)
  : Result (option Ticket) * World :=
  if db_up w
  then (Ok (List.find (fun t => JsString.eqb (id t) ticketId && owned_by owner t) (table w)), w)
  else (db_error, w).

Definition status_eqb (a b : TicketStatus) : bool :=
  match a, b with
  | OPEN, OPEN | IN_PROGRESS, IN_PROGRESS | WAITING_CUSTOMER, WAITING_CUSTOMER
  | RESOLVED, RESOLVED | CLOSED, CLOSED => true
  | _, _ => false
  end.

Definition newer_first (a b : Ticket) : bool := (createdAt b <=? createdAt a)%Z.

(** [findMany({ where: { userId, status }, orderBy: { createdAt: 'desc' }, take, skip })] *)
Definition find_many (w : World) (owner : nat) (wanted : option jstring) (take skip : nat)
  : Result (list Ticket) * World :=
  if db_up w then
    match wanted with
    | None =>
        (Ok (firstn take (skipn skip
               (KnowledgeBaseService.sort_desc newer_first
                  (List.filter (fun t => (userId t =? owner)%nat) (table w))))), w)
    | Some name =>
        match status_of_string name with
        | Some st =>
            (Ok (firstn take (skipn skip
                   (KnowledgeBaseService.sort_desc newer_first
                      (List.filter (fun t => (userId t =? owner)%nat && status_eqb (status t) st)
                         (table w))))), w)
        | None => (Throw (ExternalError None "Invalid value for argument status"), w)
        end
    end
  else (db_error, w).

(** [where: { status: 'RESOLVED', resolvedAt: { lt: cutoffTime } }] *)
Definition resolved_before (cutoff : Z) (t : Ticket) : bool :=
  status_eqb (status t) RESOLVED
  && match resolvedAt t with
     | Some at_ => (at_ <? cutoff)%Z
     | None => false
     end.

Definition close (now : Z) (t : Ticket) : Ticket :=
  {| id := id t; userId := userId t; title := title t; description := description t;
     category := category t; priority := priority t; status := CLOSED;
     assignedAgent := assignedAgent t; resolution := resolution t;
     createdAt := createdAt t; resolvedAt := resolvedAt t; updatedAt := now |}.

(** [updateMany({ where, data: { status: 'CLOSED', updatedAt } })] *)
Definition close_resolved (w : World) (cutoff now : Z) : Result nat * World :=
  if db_up w then
    (Ok (List.length (List.filter (resolved_before cutoff) (table w))),
     with_table w (List.map (fun t => if resolved_before cutoff t then close now t else t)
                     (table w)))
  else (db_error, w).

Definition fresh {A} (w : World) (m : gmap jstring (Z * A)) (key : jstring) : option A :=
  if redis_up w then
    match m !! key with
    | Some (expiry, value) => if (clock w <? expiry)%Z then Some value else None
    | None => None
    end
  else None.

Definition redis_error {A} : Result A := Throw (ExternalError None "Redis").

Definition handle : Handler SvcE World :=
  fun X e =>
    match e in SvcE X return World -> X * World with
    | Initialize => fun w =>
        (if prisma_ready w then Ok tt else Throw (PlainError "Base de données non initialisée"), w)
    | DateNow => fun w => (clock w, w)
    | TicketCreate data => fun w => create_row w data
    | TicketFindUnique ticketId owner => fun w => find_unique w ticketId owner
    | TicketFindMany owner wanted take skip => fun w => find_many w owner wanted take skip
    | TicketCloseResolved cutoff now => fun w => close_resolved w cutoff now
    | CacheGetTicket key => fun w => (fresh w (ticket_cache w) key, w)
    | CacheSetTicket key value ttl => fun w =>
        if redis_up w
        then (Ok tt, with_caches w (<[ key := ((clock w + ttl * 1000)%Z, value) ]> (ticket_cache w))
                       (list_cache w))
        else (redis_error, w)
    | CacheGetList key => fun w => (fresh w (list_cache w) key, w)
    | CacheSetList key value ttl => fun w =>
        if redis_up w
        then (Ok tt, with_caches w (ticket_cache w)
                       (<[ key := ((clock w + ttl * 1000)%Z, value) ]> (list_cache w)))
        else (redis_error, w)
    | CacheDel key => fun w =>
        if redis_up w
        then (Ok tt, with_caches w (delete key (ticket_cache w)) (delete key (list_cache w)))
        else (redis_error, w)
    end.

End TicketService.

(** ** Buttons, lists and free text ([IntentHandler], continued) *)

Module Interactive.
Import Localization Orchestrator.
Import NLPService (Json, JNull, JStr, JObj).

(** The [entities] object handed to the ticket handler. *)
Definition entities_of (found : TicketRequests.TicketIntent) : Json :=
  match TicketRequests.entities found with
  | Some info =>
      JObj [ ("title", JStr (TicketMessageHandler.title info));
             ("description", JStr (TicketMessageHandler.description info));
             ("category", match TicketMessageHandler.category info with
                          | Some c => JStr c
                          | None => JNull
                          end) ]
  | None => JObj []
  end.

Section WithConfig.
Context {EN : Engine}.
Variable cfg : Config.

(** [handleTextInput(text, user, session)]; the ticket analysis is made
    outside any [try] block. *)
Definition handleTextInput (text : jstring) (user : User) (session : Session)
  : Prog OrchE (Result (Session * Response)) :=
  match TicketRequests.analyzeTicketIntent text (user_language user) with
  | Throw e => Ret (Throw e)
  | Ok ticketIntent =>
      let routed : option (Prog OrchE Response) :=
        match ticketIntent with
        | Some found =>
            if KnowledgeBaseService.Qgt_bool (TicketRequests.confidence found) (7 # 10)
            then
              if JsString.eqb (TicketRequests.intent found) "create_ticket"
              then Some (call (HandleCreateTicket user (entities_of found) text))
              else if JsString.eqb (TicketRequests.intent found) "check_ticket_status"
              then Some (call (HandleCheckTicketStatus user))
              else None
            else None
        | None => None
        end in
      match routed with
      | Some handler => let* response := handler in Ret (Ok (session, response))
      | None =>
          let* reply := ai_or cfg text user session (getFallbackResponse cfg user session) in
          Ret (Ok reply)
      end
  end.

(** [handleButtonClick(buttonId, buttonTitle, user, session)] *)
Definition handleButtonClick (buttonId buttonTitle : jstring) (user : User) (session : Session)
  : Prog OrchE (Result (Session * Response)) :=
  if JsString.eqb buttonId "help" || JsString.eqb buttonId "aide"
  then let* reply := handleHelp cfg user session in Ret (Ok reply)
  else if JsString.eqb buttonId "faq"
  then let* reply := handleFAQ cfg user session buttonTitle in Ret (Ok reply)
  else if JsString.eqb buttonId "contact_agent" || JsString.eqb buttonId "contacter_agent"
  then let* reply := initiateHumanHandoff cfg user session buttonTitle in Ret (Ok reply)
  else if JsString.eqb buttonId "greeting" || JsString.eqb buttonId "salutation"
  then let* reply := handleGreeting cfg user session in Ret (Ok reply)
  else if JsString.eqb buttonId "create_ticket"
  then Ret (Ok (session, TextResponse (localized cfg "ticket.need_more_info" (user_language user))))
  else if JsString.eqb buttonId "check_ticket"
  then let* response := call (HandleCheckTicketStatus user) in Ret (Ok (session, response))
  else handleTextInput buttonTitle user session.

(** [handleListSelection(listId, listTitle, user, session)] *)
Definition handleListSelection (listId listTitle : jstring) (user : User) (session : Session)
  : Prog OrchE (Result (Session * Response)) :=
  handleButtonClick listId listTitle user session.

End WithConfig.

End Interactive.

(** ** Incoming messages ([MessageProcessor], continued) *)

Module Incoming.
Import Localization Orchestrator Interactive.

(** The [content] of a message: the properties the processor reads.  An
    absent id or caption is [None]; the text and the titles are taken
    as present. *)
Record Content : Type := {
  c_text : jstring;
  c_buttonId : option jstring;
  c_buttonTitle : jstring;
  c_listId : option jstring;
  c_listTitle : jstring;
  c_caption : option jstring;
  c_name : option jstring;
  c_address : option jstring
}.

Record MessageData : Type := {
  messageId : jstring;
  from : jstring;
  timestamp : jstring;
  messageType : jstring;
  content : Content;
  contact_name : option jstring;
  contact_phoneNumber : jstring
}.

Inductive MsgE : Type -> Type :=
| Orch {X : Type} (e : OrchE X) : MsgE X
| Initialize : MsgE (Result unit)
| UserFindUnique (phoneNumber : jstring) : MsgE (Result (option User))
| UserCreate (phoneNumber : jstring) (name : option jstring) (language : jstring)
    : MsgE (Result User)
| UserUpdateName (user : nat) (name : jstring) : MsgE (Result User)
| MessageCreate (conversation : nat) (message : MessageData) : MsgE (Result nat)
| MessageMarkProcessed (message : nat) : MsgE (Result unit)
| SessionGet (user : nat) : MsgE (option Session)
| SessionSet (user : nat) (session : Session) : MsgE (Result unit)
| SendText (phoneNumber text : jstring) : MsgE (Result unit)
| SendInteractive (phoneNumber text : jstring) (buttons : list Button) : MsgE (Result unit)
| SendList (phoneNumber text buttonText : jstring) (sections : list ListSection)
    : MsgE (Result unit).

(** A program of the orchestrator, run among the calls of the processor. *)
Fixpoint lift {R} (p : Prog OrchE R) : Prog MsgE R :=
  match p with
  | Ret r => Ret r
  | Vis e k => Vis (Orch e) (fun x => lift (k x))
  end.

Section WithConfig.
Context {EN : Engine}.
Variable cfg : Config.

(** [getOrCreateUser(contact)] *)
Definition getOrCreateUser (m : MessageData) : Prog MsgE (Result User) :=
  await* found := call (UserFindUnique (contact_phoneNumber m)) in
  match found with
  | None => call (UserCreate (contact_phoneNumber m) (contact_name m) (defaultLanguage cfg))
  | Some user =>
      match TicketStore.if_given (contact_name m) with
      | Some given =>
          if negb (bool_decide (Orchestrator.name user = Some given))
          then call (UserUpdateName (user_id user) given)
          else Ret (Ok user)
      | None => Ret (Ok user)
      end
  end.

(** [saveMessage(messageData, conversationId)] *)
Definition saveMessage (m : MessageData) (conversation : nat) : Prog MsgE (Result nat) :=
  await* message := call (MessageCreate conversation m) in
  await* _ := call (MessageMarkProcessed message) in
  Ret (Ok message).

(** [sendResponse(phoneNumber, response, language)] *)
Definition sendResponse (phoneNumber : jstring) (response : Response) : Prog MsgE (Result unit) :=
  match response with
  | TextResponse content => call (SendText phoneNumber content)
  | InteractiveResponse text buttons => call (SendInteractive phoneNumber text buttons)
  | ListResponse text buttonText sections => call (SendList phoneNumber text buttonText sections)
  end.

(** [getDefaultResponse(language)] *)
Definition getDefaultResponse (language : jstring) : Response :=
  TextResponse (localized cfg "fallback.message" language).

Definition with_reply (user : User) (session : Session)
  (outcome : Result (Session * Response)) : User * Session * Result Response :=
  match outcome with
  | Ok (session', response) => (user, session', Ok response)
  | Throw e => (user, session, Throw e)
  end.

(** [processInteractiveMessage(messageData, user, session)] *)
Definition processInteractiveMessage (m : MessageData) (user : User) (session : Session)
  : Prog OrchE (User * Session * Result Response) :=
  match TicketStore.if_given (c_buttonId (content m)) with
  | Some buttonId =>
      let* outcome := handleButtonClick cfg buttonId (c_buttonTitle (content m)) user session in
      Ret (with_reply user session outcome)
  | None =>
      match TicketStore.if_given (c_listId (content m)) with
      | Some listId =>
          let* outcome := handleListSelection cfg listId (c_listTitle (content m)) user session in
          Ret (with_reply user session outcome)
      | None => Ret (user, session, Ok (getDefaultResponse (user_language user)))
      end
  end.

(** [processMediaMessage(messageData, user, session)] *)
Definition processMediaMessage (m : MessageData) (user : User) (session : Session)
  : Prog OrchE (User * Session * Result Response) :=
  match TicketStore.if_given (c_caption (content m)) with
  | Some caption => processTextMessage cfg caption user session
  | None =>
      Ret (user, session,
           Ok (TextResponse (localized cfg ("media." +:+ messageType m +:+ "_received")
                               (user_language user))))
  end.

(** [processLocationMessage(messageData, user, session)] *)
Definition processLocationMessage (m : MessageData) (user : User) (session : Session)
  : Response :=
  TextResponse
    (message (defaultLanguage cfg) "location.received" (user_language user)
       {| p_name := Some (or_default (c_name (content m)) "Position");
          p_ticketId := None; p_title := None; p_priority := None;
          p_address := Some (or_default (c_address (content m))
                               (if JsString.eqb (user_language user) "fr"
                                then "Adresse non disponible" else "Address not available")) |}).

Definition is_media (messageType : jstring) : bool :=
  JsString.eqb messageType "image" || JsString.eqb messageType "audio"
  || JsString.eqb messageType "video" || JsString.eqb messageType "document".

(** The [switch] on the message type. *)
Definition respond (m : MessageData) (user : User) (session : Session)
  : Prog OrchE (User * Session * Result Response) :=
  if JsString.eqb (messageType m) "text"
  then processTextMessage cfg (c_text (content m)) user session
  else if JsString.eqb (messageType m) "interactive"
  then processInteractiveMessage m user session
  else if is_media (messageType m) then processMediaMessage m user session
  else if JsString.eqb (messageType m) "location"
  then Ret (user, session, Ok (processLocationMessage m user session))
  else Ret (user, session, Ok (getDefaultResponse (user_language user))).

Definition touch (session : Session) (now : Z) : Session :=
  {| conversationId := conversationId session; session_language := session_language session;
     context := context session; lastActivity := now;
     session_status := session_status session |}.

(** The session of the message: the stored one, or a new one. *)
Definition session_or_new (stored : option Session) (conversation : Conversation) (user : User)
  : Prog MsgE Session :=
  match stored with
  | Some session => Ret session
  | None =>
      let* now := call (Orch DateNow) in
      Ret {| conversationId := id conversation; session_language := user_language user;
             context := ∅; lastActivity := now; session_status := None |}
  end.

(** Steps 6 to 8: the reply is sent, then the session is saved. *)
Definition reply_steps (user : User) (session : Session) (response : Response)
  : Prog MsgE (Result unit) :=
  await* _ := sendResponse (phoneNumber user) response in
  let* now := call (Orch DateNow) in
  await* _ := call (SessionSet (user_id user) (touch session now)) in
  let* _ := call (Orch DateNow) in
  Ret (Ok tt).

(** The [try] block of [processIncomingMessage]. *)
Definition process_steps (m : MessageData) : Prog MsgE (Result unit) :=
  await* _ := call Initialize in
  let* startTime := call (Orch DateNow) in
  await* user := getOrCreateUser m in
  await* conversation := lift (getOrCreateConversation cfg (user_id user)) in
  await* savedMessage := saveMessage m (id conversation) in
  let* stored := call (SessionGet (user_id user)) in
  let* session := session_or_new stored conversation user in
  let* (user, session, response) := lift (respond m user session) in
  await* response := Ret response in
  reply_steps user session response.

(** The generic error message, in the default language. *)
Definition error_notice (m : MessageData) : MsgE (Result unit) :=
  SendText (from m) (localized cfg "error.general" (defaultLanguage cfg)).

(** [processIncomingMessage(messageData)] *)
Definition processIncomingMessage (m : MessageData) : Prog MsgE unit :=
  let* outcome := process_steps m in
  match outcome with
  | Ok _ => Ret tt
  | Throw _ =>
      let* _ := call (error_notice m) in
      Ret tt
  end.

End WithConfig.

End Incoming.

(** * Properties *)

(** Lower-cases the literal texts of the goal by the law of the Latin-1
    range. *)
Ltac lower_literals := repeat (rewrite toLowerCase_latin1 by reflexivity).

(** ** Facts about strings *)

Module StringFacts.

Lemma eqb_spec (a b : jstring) : reflect (a = b) (JsString.eqb a b).
Proof.
  revert b. induction a as [|x a IH]; intros [|y b]; simpl; try (constructor; congruence).
  destruct (N.eqb_spec x y) as [-> | Hxy]; simpl.
  - destruct (IH b) as [-> | Hab]; constructor; congruence.
  - constructor. congruence.
Qed.

Lemma eqb_eq (a b : jstring) : JsString.eqb a b = true <-> a = b.
Proof. destruct (eqb_spec a b); split; congruence. Qed.

Lemma eqb_neq (a b : jstring) : JsString.eqb a b = false <-> a <> b.
Proof. destruct (eqb_spec a b); split; congruence. Qed.

Lemma eqb_refl (a : jstring) : JsString.eqb a a = true.
Proof. now apply eqb_eq. Qed.

Lemma length_take (n : nat) (s : jstring) :
  List.length (take n s) = Nat.min n (List.length s).
Proof. apply List.length_firstn. Qed.

Lemma eqb_empty_length (s : jstring) :
  JsString.eqb s "" = false <-> (0 < List.length s)%nat.
Proof. destruct s; simpl; split; intros; try lia; try discriminate; reflexivity. Qed.

(** [truncateText] never returns more than [maxLength] code units once
    there is room for the ellipsis. *)
Lemma length_truncateText (text : jstring) (maxLength : nat) :
  (3 <= maxLength)%nat ->
  (List.length (MessageFormatter.truncateText text maxLength) <= maxLength)%nat.
Proof.
  intros Hmax. unfold MessageFormatter.truncateText.
  destruct (JsString.eqb text "") eqn:He.
  - apply eqb_eq in He. subst text. simpl. lia.
  - simpl. destruct (List.length text <=? maxLength)%nat eqn:Hl.
    + apply Nat.leb_le in Hl. exact Hl.
    + rewrite List.length_app, length_take. simpl. lia.
Qed.

Lemma truncateText_nonempty (text : jstring) (maxLength : nat) :
  JsString.eqb text "" = false ->
  JsString.eqb (MessageFormatter.truncateText text maxLength) "" = false.
Proof.
  intros He. unfold MessageFormatter.truncateText. rewrite He. simpl.
  destruct (List.length text <=? maxLength)%nat; [exact He|].
  apply eqb_empty_length. rewrite List.length_app. simpl. lia.
Qed.

End StringFacts.

(** ** An engine for the Latin-1 range *)

Module EngineFacts.

Lemma lower_latin1_idempotent (c : N) : lower_latin1 (lower_latin1 c) = lower_latin1 c.
Proof.
  unfold lower_latin1.
  destruct ((65 <=? c)%N && (c <=? 90)%N || (192 <=? c)%N && (c <=? 222)%N && negb (c =? 215)%N)
    eqn:E; [|now rewrite E].
  assert (((65 <=? c + 32)%N && (c + 32 <=? 90)%N
           || (192 <=? c + 32)%N && (c + 32 <=? 222)%N && negb (c + 32 =? 215)%N) = false) as ->;
    [|reflexivity].
  apply orb_true_iff in E. apply orb_false_iff.
  destruct E as [E | E].
  - apply andb_true_iff in E as [E1 E2]. apply N.leb_le in E1, E2.
    split; apply andb_false_iff.
    + right. apply N.leb_gt. lia.
    + left. apply andb_false_iff. left. apply N.leb_gt. lia.
  - apply andb_true_iff in E as [E _]. apply andb_true_iff in E as [E1 E2].
    apply N.leb_le in E1, E2.
    split; apply andb_false_iff.
    + right. apply N.leb_gt. lia.
    + left. apply andb_false_iff. right. apply N.leb_gt. lia.
Qed.

Lemma startsWith_lower_fixed (k s : jstring) :
  startsWith k (List.map lower_latin1 s) = true -> List.map lower_latin1 k = k.
Proof.
  revert s. induction k as [|a k IH]; intros s H; [reflexivity|].
  destruct s as [|b s]; simpl in H; [discriminate|].
  destruct (N.eqb_spec a (lower_latin1 b)) as [-> | _]; [|discriminate].
  simpl. rewrite lower_latin1_idempotent. f_equal. exact (IH s H).
Qed.

Lemma includes_lower_fixed (s k : jstring) :
  includes (List.map lower_latin1 s) k = true -> List.map lower_latin1 k = k.
Proof.
  induction s as [|c s IH]; simpl; intros H.
  - destruct k; [reflexivity|discriminate].
  - apply orb_true_iff in H as [H | H].
    + exact (startsWith_lower_fixed k (c :: s) H).
    + exact (IH H).
Qed.

Lemma dotted_is_not_inherited (key : jstring) :
  includes key "." = true -> is_inherited key = false.
Proof.
  intros H. unfold is_inherited, object_prototype_names.
  cbn [List.existsb].
  repeat match goal with
         | |- context [JsString.eqb key ?name] =>
             destruct (StringFacts.eqb_spec key name) as [E | _];
             [rewrite E in H; vm_compute in H; discriminate H|]
         end.
  reflexivity.
Qed.

(** The members of [Object.prototype] seen through their properties, as
    the Node 18 of the Dockerfile has them.  [Object.prototype] itself,
    reached as [__proto__], has its own members and a null prototype.
    Every other member is a built-in function: it has its [name], a
    text, a [length] (zero, hence falsy, for three of them), the members
    of [Function.prototype] and of [Object.prototype], and raises on
    [caller] and [arguments]; [constructor] is the function [Object],
    with its [prototype] and its static methods. *)
Definition function_prototype_names : list jstring := ["apply"; "bind"; "call"].

Definition object_static_names : list jstring :=
  [ "prototype"; "assign"; "getOwnPropertyDescriptor"; "getOwnPropertyDescriptors";
    "getOwnPropertyNames"; "getOwnPropertySymbols"; "hasOwn"; "is"; "preventExtensions";
    "seal"; "create"; "defineProperties"; "defineProperty"; "freeze"; "getPrototypeOf";
    "setPrototypeOf"; "isExtensible"; "isFrozen"; "isSealed"; "keys"; "entries";
    "fromEntries"; "values" ].

Definition without_parameters : list jstring := ["toLocaleString"; "toString"; "valueOf"].

Definition truthy (b : bool) : MemberValue := if b then OtherValue else Falsy.

Definition latin1_member_property (name key : jstring) : Result MemberValue :=
  if JsString.eqb name "__proto__"
  then Ok (truthy (is_inherited key && negb (JsString.eqb key "__proto__")))
  else if JsString.eqb key "caller" || JsString.eqb key "arguments"
  then Throw (TypeError ("'caller', 'callee', and 'arguments' properties may not be accessed"
                         +:+ " on strict mode functions or the arguments objects for calls"
                         +:+ " to them"))
  else if JsString.eqb key "name"
  then Ok (TextValue (if JsString.eqb name "constructor" then "Object" else name))
  else Ok (truthy
             (is_inherited key
              || List.existsb (JsString.eqb key) function_prototype_names
              || JsString.eqb key "length"
                 && negb (List.existsb (JsString.eqb name) without_parameters)
              || JsString.eqb name "constructor"
                 && List.existsb (JsString.eqb key) object_static_names)).

Lemma latin1_member_property_dotted (name key : jstring) :
  includes key "." = true -> latin1_member_property name key = Ok Falsy.
Proof.
  intros H. unfold latin1_member_property.
  rewrite (dotted_is_not_inherited key H).
  unfold function_prototype_names, object_static_names. cbn [List.existsb].
  repeat match goal with
         | |- context [JsString.eqb key ?name] =>
             destruct (StringFacts.eqb_spec key name) as [E | _];
             [rewrite E in H; vm_compute in H; discriminate H|]
         end.
  cbn [orb andb]. rewrite !andb_false_r.
  destruct (JsString.eqb name "__proto__"); reflexivity.
Qed.

(** The engine restricted to the Latin-1 part of the Unicode tables:
    enough to run the definitions on French and English text. *)
Definition latin1_engine : Engine :=
  {| toLowerCase := List.map lower_latin1;
     canonicalize := lower_latin1;
     member_property := latin1_member_property;
     toLowerCase_latin1 := fun s _ => eq_refl;
     toLowerCase_fixed := includes_lower_fixed;
     canonicalize_latin1 := fun a b _ _ => eq_refl;
     member_property_dotted := latin1_member_property_dotted |}.

End EngineFacts.

(** ** The string primitives on small inputs *)

Module Examples.
Import TicketPriority TicketMessageHandler EngineFacts.

Example literal_ex : "é€" = [233; 8364]%N /\ "😀" = [55357; 56832]%N.
Proof. split; reflexivity. Qed.
Example toLowerCase_ex :
  toLowerCase (Engine := latin1_engine) "Urgent: Site DOWN, ÉTÉ" = "urgent: site down, été".
Proof. reflexivity. Qed.
Example trim_ex : trim "  a b  " = "a b".
Proof. reflexivity. Qed.
Example split_ex : split (fun c => (c =? 58)%N) "a:b::c" = ["a"; "b"; ""; "c"].
Proof. reflexivity. Qed.
Example remove_ex :
  remove_all_ci (EN := latin1_engine) "bug" 0 "a BUG and a bug." = "a  and a .".
Proof. reflexivity. Qed.
Example collapse_ex : collapse_spaces false ("a   b" +:+ nl +:+ "c") = "a b c".
Proof. reflexivity. Qed.

Example dp1 : determinePriority (EN := latin1_engine) "urgent: site is down" "en" = Ok URGENT.
Proof. reflexivity. Qed.
Example dp2 : determinePriority (EN := latin1_engine) "just wondering" "en" = Ok NORMAL.
Proof. reflexivity. Qed.
Example dp3 :
  determinePriority (EN := latin1_engine) "just wondering" "toString"
  = Throw (TypeError "is not a function").
Proof. reflexivity. Qed.
Example eti1 :
  extractTicketInfo (EN := latin1_engine) "Login broken: cannot sign in since yesterday" "en"
  = Ok {| title := "Login broken"; description := "cannot sign in since yesterday";
          category := None |}.
Proof. reflexivity. Qed.
Example eti2 :
  extractTicketInfo (EN := latin1_engine) "bug: x-y" "en"
  = Ok {| title := "bug"; description := "x y"; category := None |}.
Proof. reflexivity. Qed.
Example eti3 :
  extractTicketInfo_as_specified (EN := latin1_engine) "bug: x-y" "en"
  = Ok {| title := "x"; description := "y"; category := None |}.
Proof. reflexivity. Qed.
Example eti4 :
  extractTicketInfo (EN := latin1_engine) "   " "en"
  = Ok {| title := "Support Request"; description := ""; category := None |}.
Proof. reflexivity. Qed.

End Examples.
(** ** Ticket priorities *)

Module PriorityFacts.
Import TicketPriority.

Section WithEngine.
Context {EN : Engine}.

(** The keyword list [table[language] || table.fr] for a language code
    that names no inherited member. *)
Definition words_for (fr en : list jstring) (language : jstring) : list jstring :=
  match by_language fr en language with
  | Own words => words
  | _ => fr
  end.

Lemma array_by_language_words (fr en : list jstring) (language : jstring) :
  is_inherited language = false ->
  array_by_language fr en language = Ok (words_for fr en language).
Proof.
  intros Hn. unfold array_by_language, words_for, by_language.
  destruct (JsString.eqb language "fr"); [reflexivity|].
  destruct (JsString.eqb language "en"); [reflexivity|].
  now rewrite Hn.
Qed.

Lemma some_included_true (lowerText : jstring) (words : list jstring) :
  some_included lowerText words = true <->
  exists word, List.In word words /\ includes lowerText word = true.
Proof. unfold some_included. apply List.existsb_exists. Qed.

Lemma some_included_false (lowerText : jstring) (words : list jstring) :
  some_included lowerText words = false <->
  forall word, List.In word words -> includes lowerText word = false.
Proof.
  unfold some_included. split.
  - intros H word Hin. destruct (includes lowerText word) eqn:E; [|reflexivity].
    assert (List.existsb (fun w => includes lowerText w) words = true)
      by (apply List.existsb_exists; eauto).
    congruence.
  - intros H. destruct (List.existsb _ words) eqn:E; [|reflexivity].
    apply List.existsb_exists in E as (word & Hin & Hw). rewrite (H word Hin) in Hw. discriminate.
Qed.

(** C7: [determinePriority] scans the lower-cased text against the
    keyword lists of the language: any urgent keyword gives URGENT whether
    or not a high-priority keyword occurs too, otherwise any high-priority
    keyword gives HIGH, otherwise the result is NORMAL; and
    [determinePriority("urgent: site is down", "en")] is URGENT,
    [determinePriority("just wondering", "en")] is NORMAL. *)
Theorem C7_determinePriority_urgent_before_high :
  (forall text language word,
      is_inherited language = false ->
      List.In word (words_for urgentKeywords_fr urgentKeywords_en language) ->
      includes (toLowerCase text) word = true ->
      determinePriority text language = Ok URGENT)
  /\ (forall text language word,
      is_inherited language = false ->
      (forall u, List.In u (words_for urgentKeywords_fr urgentKeywords_en language) ->
                 includes (toLowerCase text) u = false) ->
      List.In word (words_for highPriorityKeywords_fr highPriorityKeywords_en language) ->
      includes (toLowerCase text) word = true ->
      determinePriority text language = Ok HIGH)
  /\ (forall text language,
      is_inherited language = false ->
      (forall u, List.In u (words_for urgentKeywords_fr urgentKeywords_en language) ->
                 includes (toLowerCase text) u = false) ->
      (forall h, List.In h (words_for highPriorityKeywords_fr highPriorityKeywords_en language) ->
                 includes (toLowerCase text) h = false) ->
      determinePriority text language = Ok NORMAL)
  /\ determinePriority "urgent: site is down" "en" = Ok URGENT
  /\ determinePriority "just wondering" "en" = Ok NORMAL.
Proof.
  repeat split.
  - intros text language word Hn Hin Hinc. unfold determinePriority.
    rewrite (array_by_language_words _ _ _ Hn).
    assert (some_included (toLowerCase text)
              (words_for urgentKeywords_fr urgentKeywords_en language) = true) as ->
      by (apply some_included_true; eauto).
    reflexivity.
  - intros text language word Hn Hu Hin Hinc. unfold determinePriority.
    rewrite !(array_by_language_words _ _ _ Hn).
    apply some_included_false in Hu. rewrite Hu.
    assert (some_included (toLowerCase text)
              (words_for highPriorityKeywords_fr highPriorityKeywords_en language) = true) as ->
      by (apply some_included_true; eauto).
    reflexivity.
  - intros text language Hn Hu Hh. unfold determinePriority.
    rewrite !(array_by_language_words _ _ _ Hn).
    apply some_included_false in Hu, Hh. now rewrite Hu, Hh.
  - unfold determinePriority. now lower_literals.
  - unfold determinePriority. now lower_literals.
Qed.

(** A text with both kinds of keyword: the urgent one decides. *)
Example determinePriority_both :
  determinePriority "Important bug, the site is DOWN" "en" = Ok URGENT.
Proof. unfold determinePriority. now lower_literals. Qed.

(** A capital with an accent is lower-cased like any other. *)
Example determinePriority_accented_capital :
  determinePriority "Mon compte est BLOQUÉ" "fr" = Ok URGENT.
Proof. unfold determinePriority. now lower_literals. Qed.

(** An unknown language code falls back to the French lists. *)
Example determinePriority_fallback_fr :
  determinePriority "c'est critique" "es" = Ok URGENT.
Proof. unfold determinePriority. now lower_literals. Qed.

End WithEngine.

End PriorityFacts.

(** ** Binary64 rounding *)

Module NumberFacts.
Import JsNumber.

Lemma nearest_even_nonneg (n d : Z) : (0 <= n)%Z -> (0 < d)%Z -> (0 <= nearest_even n d)%Z.
Proof.
  intros Hn Hd. unfold nearest_even.
  assert (0 <= n / d)%Z by (apply Z.div_pos; lia).
  destruct (2 * (n mod d) <? d)%Z; [assumption|].
  destruct (d <? 2 * (n mod d))%Z; [lia|].
  destruct (Z.even (n / d)); lia.
Qed.

Lemma double_pos_nonneg (n d : positive) : (0 <= double_pos n d)%Q.
Proof.
  unfold double_pos.
  match goal with |- context [Z.min (52 - ?x) 1074] => generalize x end.
  intros e. cbv zeta.
  destruct (0 <=? Z.min (52 - e) 1074)%Z eqn:Hs.
  - apply Z.leb_le in Hs. unfold Qle. simpl. rewrite Z.mul_1_r.
    apply nearest_even_nonneg; [|lia].
    apply Z.mul_nonneg_nonneg; [lia|]. apply Z.pow_nonneg. lia.
  - apply Z.leb_gt in Hs. unfold Qle, inject_Z. simpl. rewrite ?Z.mul_1_r.
    apply Z.mul_nonneg_nonneg.
    + apply nearest_even_nonneg; [lia|].
      apply Z.mul_pos_pos; [lia|]. apply Z.pow_pos_nonneg; lia.
    + apply Z.pow_nonneg. lia.
Qed.

(** Rounding keeps the sign of a number that is not negative. *)
Lemma double_nonneg (q : Q) : (0 <= q)%Q -> (0 <= double q)%Q.
Proof.
  intros Hq. unfold double. destruct q as [[|n|n] d]; simpl.
  - apply Qle_refl.
  - apply double_pos_nonneg.
  - unfold Qle in Hq. simpl in Hq. lia.
Qed.

Lemma add_nonneg (a b : Q) : (0 <= a)%Q -> (0 <= b)%Q -> (0 <= add a b)%Q.
Proof.
  intros Ha Hb. apply double_nonneg.
  apply (Qle_trans _ (0 + 0)); [apply Qle_refl|]. now apply Qplus_le_compat.
Qed.

Lemma mul_nonneg (a b : Q) : (0 <= a)%Q -> (0 <= b)%Q -> (0 <= mul a b)%Q.
Proof. intros Ha Hb. apply double_nonneg. now apply Qmult_le_0_compat. Qed.

Lemma div_nonneg (a b : Q) : (0 <= a)%Q -> (0 <= b)%Q -> (0 <= div a b)%Q.
Proof.
  intros Ha Hb. apply double_nonneg. unfold Qdiv.
  apply Qmult_le_0_compat; [assumption | now apply Qinv_le_0_compat].
Qed.

(** The doubles of the literals the services compare scores with, and
    the sum and quotient that separate binary64 from exact arithmetic:
    [2.5 + 0.2] is above [2.7], and [(2.5 + 0.2) / 9] is above [0.3]. *)
Example double_of_literals :
  double (3 # 10) == 5404319552844595 # 18014398509481984
  /\ double (1 # 2) == 1 # 2
  /\ double 2 == 2
  /\ (27 # 10 < add (5 # 2) (double (2 # 10)))%Q
  /\ (double (3 # 10) < div (add (5 # 2) (double (2 # 10))) 9)%Q
  /\ (double (3 # 10) < 3 # 10)%Q.
Proof. repeat split; vm_compute; reflexivity. Qed.

End NumberFacts.

(** ** Case-insensitive removal *)

Module RegExpFacts.
Import EngineFacts.

Lemma latin1_cons (c : N) (s : jstring) :
  latin1 (c :: s) = true <-> (c <? 256)%N = true /\ latin1 s = true.
Proof. unfold latin1. simpl. apply andb_true_iff. Qed.

Lemma latin1_app (a b : jstring) : latin1 (a ++ b) = latin1 a && latin1 b.
Proof. unfold latin1. apply List.forallb_app. Qed.

Lemma latin1_trimStart (s : jstring) : latin1 s = true -> latin1 (trimStart s) = true.
Proof.
  induction s as [|c s IH]; simpl; intros H; [reflexivity|].
  destruct (is_space c); [|exact H].
  apply IH. now apply latin1_cons in H.
Qed.

Lemma latin1_trimEnd (s : jstring) : latin1 s = true -> latin1 (trimEnd s) = true.
Proof.
  induction s as [|c s IH]; simpl; intros H; [reflexivity|].
  apply latin1_cons in H as [Hc Hs]. specialize (IH Hs).
  destruct (trimEnd s) as [|d r].
  - destruct (is_space c); [reflexivity|]. apply latin1_cons. now split.
  - apply latin1_cons. now split.
Qed.

Lemma latin1_trim (s : jstring) : latin1 s = true -> latin1 (trim s) = true.
Proof. intros H. unfold trim. now apply latin1_trimEnd, latin1_trimStart. Qed.

Lemma latin1_collapse_spaces (in_run : bool) (s : jstring) :
  latin1 s = true -> latin1 (collapse_spaces in_run s) = true.
Proof.
  revert in_run. induction s as [|c s IH]; intros in_run H; [reflexivity|].
  apply latin1_cons in H as [Hc Hs]. simpl.
  destruct (is_space c).
  - destruct in_run; [now apply IH|]. apply latin1_cons. split; [reflexivity | now apply IH].
  - apply latin1_cons. split; [assumption | now apply IH].
Qed.

Lemma latin1_cleanText (text : jstring) :
  latin1 text = true -> latin1 (MessageFormatter.cleanText text) = true.
Proof.
  intros H. unfold MessageFormatter.cleanText.
  destruct (JsString.eqb text ""); [reflexivity|].
  now apply latin1_collapse_spaces, latin1_trim.
Qed.

Section WithEngine.
Context {EN : Engine}.




Lemma latin1_remove_all_ci (kw : jstring) (skip : nat) (s : jstring) :
  latin1 s = true -> latin1 (remove_all_ci kw skip s) = true.
Proof.
  revert skip. induction s as [|c s IH]; intros skip H; [reflexivity|].
  apply latin1_cons in H as [Hc Hs]. cbn [remove_all_ci].
  destruct skip; [|now apply IH].
  destruct (negb (JsString.eqb kw "") && starts_ci kw (c :: s)); [now apply IH|].
  apply latin1_cons. split; [assumption | now apply IH].
Qed.

(** On texts of the Latin-1 range every engine removes what the Latin-1
    engine removes. *)
Lemma starts_ci_latin1 (kw s : jstring) :
  latin1 kw = true -> latin1 s = true ->
  starts_ci kw s = starts_ci (EN := latin1_engine) kw s.
Proof.
  revert s. induction kw as [|a kw IH]; intros s Hkw Hs; [reflexivity|].
  destruct s as [|b s]; [reflexivity|].
  apply latin1_cons in Hkw as [Ha Hkw]. apply latin1_cons in Hs as [Hb Hs].
  cbn [starts_ci]. rewrite (canonicalize_latin1 a b Ha Hb), (IH s Hkw Hs). reflexivity.
Qed.

Lemma remove_all_ci_latin1 (kw : jstring) (skip : nat) (s : jstring) :
  latin1 kw = true -> latin1 s = true ->
  remove_all_ci kw skip s = remove_all_ci (EN := latin1_engine) kw skip s.
Proof.
  intros Hkw. revert skip. induction s as [|c s IH]; intros skip Hs; [reflexivity|].
  pose proof Hs as Hcs. apply latin1_cons in Hs as [Hc Hs]. cbn [remove_all_ci].
  destruct skip; [|now apply IH].
  rewrite (starts_ci_latin1 kw (c :: s) Hkw Hcs).
  destruct (negb (JsString.eqb kw "") && starts_ci (EN := latin1_engine) kw (c :: s));
    [now apply IH|].
  f_equal. now apply IH.
Qed.

End WithEngine.

End RegExpFacts.

(** ** Ticket title and description *)

Module ExtractFacts.
Import MessageFormatter TicketMessageHandler StringFacts EngineFacts RegExpFacts.

Lemma or_else_nonempty (a b : jstring) : JsString.eqb a "" = false -> or_else a b = a.
Proof. intros H. unfold or_else. now rewrite H. Qed.

Lemma or_else_same (a : jstring) : or_else a a = a.
Proof. unfold or_else. now destruct (JsString.eqb a ""). Qed.

(** Every part kept by [separated_parts] has at least one character. *)
Lemma separated_parts_nonempty (content part : jstring) :
  List.In part (separated_parts content) -> JsString.eqb part "" = false.
Proof.
  unfold separated_parts. intros H. apply List.filter_In in H as [_ H].
  apply Nat.ltb_lt in H. now apply eqb_empty_length.
Qed.

Lemma join_cons_nonempty (sep first : jstring) (rest : list jstring) :
  JsString.eqb first "" = false -> JsString.eqb (join sep (first :: rest)) "" = false.
Proof.
  intros H. apply eqb_empty_length in H. apply eqb_empty_length.
  simpl. destruct rest; [exact H|].
  rewrite List.length_app. lia.
Qed.

(** The title synthesized from the first eight words, before the
    fallback to the generic title. *)
Definition first_words_title (content : jstring) : jstring :=
  let t := join " " (firstn 8 (split is_blank content)) in
  if (50 <? List.length t)%nat then take 47 t +:+ "..." else t.

Lemma length_first_words_title (content : jstring) :
  (List.length (first_words_title content) <= 50)%nat.
Proof.
  unfold first_words_title.
  destruct (50 <? _)%nat eqn:E.
  - rewrite List.length_app, length_take.
    change (List.length "...") with 3%nat. lia.
  - apply Nat.ltb_ge in E. exact E.
Qed.

Lemma or_else_twice (a b : jstring) :
  or_else (if JsString.eqb a "" then b else a) b = or_else a b.
Proof.
  unfold or_else. destruct (JsString.eqb a "") eqn:E; [|now rewrite E].
  now destruct (JsString.eqb b "").
Qed.

Lemma generateTitleFromText_eq (content language : jstring) :
  or_else (generateTitleFromText content language) (genericTitle language)
  = or_else (first_words_title content) (genericTitle language).
Proof.
  unfold generateTitleFromText.
  destruct (JsString.eqb content "") eqn:E.
  - apply StringFacts.eqb_eq in E. subst content. simpl. apply or_else_same.
  - exact (or_else_twice (first_words_title content) (genericTitle language)).
Qed.

Section WithEngine.
Context {EN : Engine}.





(** On a text of the Latin-1 range the result does not depend on the
    engine. *)
Lemma strip_keywords_latin1 (keywords : list jstring) (content : jstring) :
  List.forallb latin1 keywords = true -> latin1 content = true ->
  strip_keywords keywords content = strip_keywords (EN := latin1_engine) keywords content
  /\ latin1 (strip_keywords keywords content) = true.
Proof.
  unfold strip_keywords. revert content.
  induction keywords as [|keyword keywords IH]; intros content Hk Hc; [now split|].
  simpl in Hk. apply andb_true_iff in Hk as [Hk Hks]. cbn [fold_left].
  rewrite <- (remove_all_ci_latin1 keyword 0 content Hk Hc).
  apply IH; [assumption|]. now apply latin1_trim, latin1_remove_all_ci.
Qed.

Lemma extractTicketInfo_latin1 (text language : jstring) :
  latin1 text = true ->
  extractTicketInfo text language = extractTicketInfo (EN := latin1_engine) text language.
Proof.
  intros Ht. unfold extractTicketInfo.
  destruct (array_by_language ticketKeywords_fr ticketKeywords_en language) as [keywords|e] eqn:E;
    [|reflexivity].
  assert (List.forallb latin1 keywords = true) as Hk.
  { unfold array_by_language in E.
    destruct (by_language ticketKeywords_fr ticketKeywords_en language) as [a| |] eqn:B;
      try discriminate.
    - unfold by_language in B.
      destruct (JsString.eqb language "fr"); [injection B as <-; injection E as <-; reflexivity|].
      destruct (JsString.eqb language "en"); [injection B as <-; injection E as <-; reflexivity|].
      destruct (is_inherited language); discriminate.
    - injection E as <-. reflexivity. }
  unfold ticket_content.
  destruct (strip_keywords_latin1 keywords (cleanText text) Hk (latin1_cleanText text Ht))
    as [-> _].
  reflexivity.
Qed.


(** The same on every engine, the text being of the Latin-1 range. *)
Lemma short_remainder_on_every_engine :
  extractTicketInfo "bug: x-y" "en"
  = Ok {| title := "bug"; description := "x y"; category := None |}.
Proof. now rewrite extractTicketInfo_latin1. Qed.


End WithEngine.


End ExtractFacts.


(** ** Keyword confidence *)

Module ConfidenceFacts.
Import KnowledgeBaseService NumberFacts.

Lemma count_nonneg (l : list jstring) : (0 <= count l)%Q.
Proof. unfold count, Qle. simpl. lia. Qed.

Section WithEngine.
Context {EN : Engine}.

Lemma raw_score_nonneg query queryWords entry : (0 <= raw_score query queryWords entry)%Q.
Proof.
  unfold raw_score.
  assert (0 <= exact_score query entry)%Q
    by (unfold exact_score; destruct (includes _ _); unfold Qle; simpl; lia).
  assert (0 <= usage_bonus entry)%Q
    by (unfold usage_bonus; destruct (10 <? _)%Z;
        [apply double_nonneg|]; unfold Qle; simpl; lia).
  pose proof (count_nonneg (matchingKeywords queryWords entry)).
  pose proof (count_nonneg (matchingWords queryWords entry)).
  repeat apply add_nonneg; try assumption; [apply Qle_refl|].
  apply mul_nonneg; [assumption | unfold Qle; simpl; lia].
Qed.

Lemma maxScore_nonneg queryWords : (0 <= maxScore queryWords)%Q.
Proof.
  unfold maxScore. apply add_nonneg; [apply count_nonneg | unfold Qle; simpl; lia].
Qed.

(** An entry whose raw score is above the denominator. *)
Definition saturating_entry : KBEntry :=
  {| id := "kb1"; question := "reset password"; answer := "Use the reset link.";
     category := "account"; language := "en"; keywords := ["password"];
     usageCount := 11; isActive := true |}.

(** C10: [calculateKeywordConfidence] lies in [0, 1] for every query,
    word list and entry, although the raw score can exceed the
    denominator (query words + 2), as it does on [saturating_entry]
    (raw score 3.7 against 3), where the result is capped at 1. *)
Theorem C10_keyword_confidence_in_unit_interval :
  (forall query queryWords entry,
      (0 <= calculateKeywordConfidence query queryWords entry)%Q
      /\ (calculateKeywordConfidence query queryWords entry <= 1)%Q)
  /\ (maxScore ["password"] < raw_score "password" ["password"] saturating_entry)%Q
  /\ (calculateKeywordConfidence "password" ["password"] saturating_entry == 1)%Q.
Proof.
  split.
  - intros query queryWords entry. unfold calculateKeywordConfidence. split.
    + apply Q.min_glb; [|unfold Qle; simpl; lia].
      apply div_nonneg; [apply raw_score_nonneg | apply maxScore_nonneg].
    + apply Q.le_min_r.
  - unfold calculateKeywordConfidence, raw_score, maxScore, exact_score, matchingKeywords,
      matchingWords, saturating_entry. cbn [question keywords List.existsb List.filter usageCount].
    lower_literals. split; vm_compute; reflexivity.
Qed.

End WithEngine.

End ConfidenceFacts.

(** ** Running programs *)

Module ProgFacts.

Lemma run_bind {E R S W} (h : Handler E W) (p : Prog E R) (f : R -> Prog E S) (w : W) :
  run h (bind p f) w = let '(r, w') := run h p w in run h (f r) w'.
Proof.
  revert w. induction p as [r | X e k IH]; intros w; simpl; [reflexivity|].
  destruct (h X e w) as [x w']. apply IH.
Qed.

Lemma run_trace_bind {E R S W} (h : Handler E W) (p : Prog E R) (f : R -> Prog E S) (w : W) :
  run_trace h (bind p f) w =
  let '(r, w', calls) := run_trace h p w in
  let '(s, w'', calls') := run_trace h (f r) w' in
  (s, w'', calls ++ calls').
Proof.
  revert w. induction p as [r | X e k IH]; intros w; simpl.
  - destruct (run_trace h (f r) w) as [[s w''] calls']. reflexivity.
  - destruct (h X e w) as [x w']. rewrite IH.
    destruct (run_trace h (k x) w') as [[r w''] calls].
    destruct (run_trace h (f r) w'') as [[s w3] calls']. reflexivity.
Qed.

(** The traced run computes the same answer and world as the plain run. *)
Lemma run_trace_run {E R W} (h : Handler E W) (p : Prog E R) (w : W) :
  fst (run_trace h p w) = run h p w.
Proof.
  revert w. induction p as [r | X e k IH]; intros w; simpl; [reflexivity|].
  destruct (h X e w) as [x w']. rewrite <- IH.
  destruct (run_trace h (k x) w') as [[r w''] calls]. reflexivity.
Qed.

End ProgFacts.

(** ** Intent analysis *)

Module IntentFacts.
Import NLPService ProgFacts EngineFacts.

Definition is_model_call (c : Call NlpE) : bool :=
  match c with
  | Called (ChatCompletion _) => true
  | Called _ => false
  end.

(** Number of invocations of the hosted model in a list of calls. *)
Definition model_invocations (calls : list (Call NlpE)) : nat :=
  List.length (List.filter is_model_call calls).

Definition unavailable : JsError := OpenAIError "Service IA temporairement indisponible" 503.

Section WithRuntime.
Context {RT : Runtime} {EN : Engine}.

(** What the [try] block makes of an answer of the hosted model, at the
    instant [now]: the normalized result, or the exception raised on the
    way. *)
Definition answer_of (response : ChatResponse) (text language : jstring) (now : Z)
  : Result IntentResult :=
  match first_content response with
  | Throw e => Throw e
  | Ok responseText =>
      match parse_answer responseText with
      | Throw e => Throw e
      | Ok result => normalizeIntentResult result text language now
      end
  end.

(** None of the exceptions raised while reading the answer carries a
    quota or rate-limit code. *)
Lemma answer_of_not_quota response text language now e :
  answer_of response text language now = Throw e -> quota_or_rate_limit e = false.
Proof.
  unfold answer_of, first_content, parse_answer, normalizeIntentResult, property.
  destruct (choices response) as [|[content|] rest]; try (intros [= <-]; reflexivity).
  destruct (JSON_parse _) as [result|]; try (intros [= <-]; reflexivity).
  destruct result; try discriminate; intros [= <-]; reflexivity.
Qed.

(** The run of [analyzeIntent] on a cache hit. *)
Lemma analyzeIntent_hit (w : World) modelName text language cached :
  cache_get w (intentCacheKey text language) = Some cached ->
  run_trace handle (analyzeIntent modelName text language) w
  = (Ok cached, w, [Called (CacheGet (intentCacheKey text language))]).
Proof.
  intros Hhit. unfold analyzeIntent, try_catch, call.
  cbn [bind run_trace handle]. rewrite Hhit. reflexivity.
Qed.

Definition after_model_call (w : World) : World :=
  {| redis_up := redis_up w; entries := entries w; clock := clock w;
     hosted := hosted w; model_calls := S (model_calls w) |}.

(** The run of [analyzeIntent] on a cache miss, by the outcome of the
    call to the hosted model. *)
Lemma analyzeIntent_miss_run (w : World) modelName text language :
  cache_get w (intentCacheKey text language) = None ->
  let key := intentCacheKey text language in
  let request := intent_request modelName text language in
  let degraded := Ok (fallbackIntentAnalysis text language (clock w)) in
  run_trace handle (analyzeIntent modelName text language) w =
  match hosted w (model_calls w) request with
  | Throw e =>
      if quota_or_rate_limit e
      then (Throw unavailable, after_model_call w,
            [Called (CacheGet key); Called (ChatCompletion request)])
      else (degraded, after_model_call w,
            [Called (CacheGet key); Called (ChatCompletion request); Called DateNow])
  | Ok response =>
      match answer_of response text language (clock w) with
      | Ok result =>
          if redis_up w
          then (Ok result, snd (cache_set (after_model_call w) key result cacheTTL),
                [Called (CacheGet key); Called (ChatCompletion request); Called DateNow;
                 Called (CacheSet key result cacheTTL)])
          else (degraded, after_model_call w,
                [Called (CacheGet key); Called (ChatCompletion request); Called DateNow;
                 Called (CacheSet key result cacheTTL); Called DateNow])
      | Throw e =>
          match first_content response with
          | Ok responseText =>
              match parse_answer responseText with
              | Ok _ =>
                  (degraded, after_model_call w,
                   [Called (CacheGet key); Called (ChatCompletion request); Called DateNow;
                    Called DateNow])
              | Throw _ =>
                  (degraded, after_model_call w,
                   [Called (CacheGet key); Called (ChatCompletion request); Called DateNow])
              end
          | Throw _ =>
              (degraded, after_model_call w,
               [Called (CacheGet key); Called (ChatCompletion request); Called DateNow])
          end
      end
  end.
Proof.
  intros Hmiss key request degraded. subst key degraded.
  unfold analyzeIntent, analyzeIntent_miss, try_catch, await, call.
  cbn [bind run_trace handle]. rewrite Hmiss.
  cbn [bind run_trace handle]. fold request.
  destruct (hosted w (model_calls w) request) as [response | e]; simpl.
  - pose proof (answer_of_not_quota response text language (clock w)) as Hnq.
    unfold answer_of in *.
    destruct (first_content response) as [responseText | e]; simpl.
    + destruct (parse_answer responseText) as [result | e]; simpl.
      * destruct (normalizeIntentResult result text language (clock w)) as [normalized | e]; simpl.
        -- unfold cache_set, after_model_call. simpl. destruct (redis_up w); reflexivity.
        -- rewrite (Hnq e eq_refl). reflexivity.
      * rewrite (Hnq e eq_refl). reflexivity.
    + rewrite (Hnq e eq_refl). reflexivity.
  - destruct (quota_or_rate_limit e); reflexivity.
Qed.

End WithRuntime.

(** *** The keyword fallback *)

Section WithEngine.
Context {EN : Engine}.

(** Some keyword of the table occurs in the lower-cased text. *)
Definition keyword_occurs (text : jstring) : Prop :=
  exists intent keywords keyword,
    List.In (intent, keywords) keywordMap /\ List.In keyword keywords
    /\ includes (toLowerCase text) keyword = true.

Lemma first_keyword_intent_some lowerText entries :
  (exists intent keywords keyword,
      List.In (intent, keywords) entries /\ List.In keyword keywords
      /\ includes lowerText keyword = true) ->
  exists intent, first_keyword_intent lowerText entries = Some intent
                 /\ List.In intent (List.map fst entries).
Proof.
  induction entries as [|[i ks] rest IH]; intros (intent & keywords & keyword & Hin & Hk & Hinc).
  - destruct Hin.
  - simpl. destruct (List.existsb _ ks) eqn:E.
    + exists i. split; [reflexivity | now left].
    + destruct Hin as [[= -> ->] | Hin].
      * assert (List.existsb (fun k => includes lowerText k) keywords = true)
          by (apply List.existsb_exists; eauto).
        congruence.
      * destruct IH as (j & Hj & Hjin); [eauto 6|]. exists j. split; [exact Hj | now right].
Qed.

Lemma first_keyword_intent_none lowerText entries :
  ~ (exists intent keywords keyword,
        List.In (intent, keywords) entries /\ List.In keyword keywords
        /\ includes lowerText keyword = true) ->
  first_keyword_intent lowerText entries = None.
Proof.
  induction entries as [|[i ks] rest IH]; intros Hno; [reflexivity|].
  simpl. destruct (List.existsb _ ks) eqn:E.
  - apply List.existsb_exists in E as (k & Hk & Hinc). exfalso. apply Hno.
    exists i, ks, k. repeat split; [now left | exact Hk | exact Hinc].
  - apply IH. intros (intent & keywords & keyword & Hin & Hk & Hinc). apply Hno.
    exists intent, keywords, keyword. repeat split; [now right | exact Hk | exact Hinc].
Qed.

(** The fallback is a total function: a match gives one of the six table
    intents with confidence 0.6, no match gives [unknown] with 0.1. *)
Lemma fallback_shape (text language : jstring) (now : Z) :
  let f := fallbackIntentAnalysis text language now in
  fallback f = true
  /\ (keyword_occurs text ->
      confidence f = (6 # 10)%Q /\ List.In (intent f) (List.map fst keywordMap))
  /\ (~ keyword_occurs text -> intent f = "unknown" /\ confidence f = (1 # 10)%Q).
Proof.
  unfold fallbackIntentAnalysis. split; [|split].
  - destruct (first_keyword_intent _ _); reflexivity.
  - intros Hk. destruct (first_keyword_intent_some _ _ Hk) as (i & -> & Hin). simpl. auto.
  - intros Hk. rewrite (first_keyword_intent_none _ _ Hk). simpl. auto.
Qed.

(** A keyword written in capitals is found, also when it carries an
    accent. *)
Example fallback_accented_capital :
  let f := fallbackIntentAnalysis "J'ai un PROBLÈME" "fr" 0 in
  intent f = "create_ticket" /\ confidence f = (6 # 10)%Q.
Proof. cbv zeta. unfold fallbackIntentAnalysis. lower_literals. split; reflexivity. Qed.

End WithEngine.

(** *** C2 *)

(** A runtime whose parser accepts nothing, and a world where the hosted
    model refuses the call for lack of quota. *)
Definition strict_runtime : Runtime :=
  {| JSON_parse := fun _ => None; parseFloat := fun _ => None |}.

Definition cold_world (outcome : Result ChatResponse) : World :=
  {| redis_up := true; entries := ∅; clock := 1000;
     hosted := fun _ _ => outcome; model_calls := 0 |}.

Definition quota_world : World :=
  cold_world (Throw (ExternalError (Some "insufficient_quota") "You exceeded your current quota")).

Definition outage_world : World :=
  cold_world (Throw (ExternalError (Some "ECONNRESET") "socket hang up")).

(** C2, as the specification words it, fails: when the hosted model
    rejects the call with the code [insufficient_quota], [analyzeIntent]
    raises the 503 service error to its caller instead of returning the
    keyword fallback. *)
Lemma C2_quota_error_is_raised :
  fst (fst (run_trace handle
              (analyzeIntent (RT := strict_runtime) (EN := latin1_engine)
                 "openai/gpt-3.5-turbo" "hello" "en")
              quota_world))
  = Throw (OpenAIError "Service IA temporairement indisponible" 503).
Proof. reflexivity. Qed.

(** C2, amended: after a cache miss, a failure of the hosted model whose
    code is neither [insufficient_quota] nor [rate_limit_exceeded], an
    answer that cannot be read or parsed, and a failure to store the
    result all give the keyword fallback; the two quota codes give the
    503 service error, the only exception [analyzeIntent] ever raises.
    The fallback has confidence 0.6 when a keyword occurs and is
    [unknown] with confidence 0.1 otherwise. *)
Theorem C2_analyzeIntent_degrades_amended {RT : Runtime} {EN : Engine}
  (w : World) (modelName text language : jstring) :
  cache_get w (intentCacheKey text language) = None ->
  let request := intent_request modelName text language in
  let outcome := fst (fst (run_trace handle (analyzeIntent modelName text language) w)) in
  let degraded := Ok (fallbackIntentAnalysis text language (clock w)) in
  (forall e, hosted w (model_calls w) request = Throw e ->
             quota_or_rate_limit e = false -> outcome = degraded)
  /\ (forall response e, hosted w (model_calls w) request = Ok response ->
             answer_of response text language (clock w) = Throw e -> outcome = degraded)
  /\ (forall response result, hosted w (model_calls w) request = Ok response ->
             answer_of response text language (clock w) = Ok result ->
             redis_up w = false -> outcome = degraded)
  /\ (forall e, hosted w (model_calls w) request = Throw e ->
             quota_or_rate_limit e = true -> outcome = Throw unavailable)
  /\ (forall e, outcome = Throw e -> e = unavailable)
  /\ (let f := fallbackIntentAnalysis text language (clock w) in
      fallback f = true
      /\ (keyword_occurs text ->
          confidence f = (6 # 10)%Q /\ List.In (intent f) (List.map fst keywordMap))
      /\ (~ keyword_occurs text -> intent f = "unknown" /\ confidence f = (1 # 10)%Q)).
Proof.
  intros Hmiss request outcome degraded.
  pose proof (analyzeIntent_miss_run w modelName text language Hmiss) as Hrun.
  cbv zeta in Hrun. fold request in Hrun.
  assert (outcome = fst (fst (run_trace handle (analyzeIntent modelName text language) w)))
    as Ho by reflexivity.
  rewrite Hrun in Ho. clear Hrun.
  refine (conj _ (conj _ (conj _ (conj _ (conj _ _))))).
  - intros e He Hq. rewrite He, Hq in Ho. exact Ho.
  - intros response e Hr Ha. rewrite Hr, Ha in Ho.
    destruct (first_content response); [destruct (parse_answer _)|]; exact Ho.
  - intros response result Hr Ha Hdown. rewrite Hr, Ha, Hdown in Ho. exact Ho.
  - intros e He Hq. rewrite He, Hq in Ho. exact Ho.
  - intros e He. rewrite Ho in He.
    destruct (hosted w (model_calls w) request) as [response | e0].
    + destruct (answer_of response text language (clock w)).
      * destruct (redis_up w); discriminate.
      * destruct (first_content response); [destruct (parse_answer _)|]; discriminate.
    + destruct (quota_or_rate_limit e0); [|discriminate].
      simpl in He. now injection He as <-.
  - apply fallback_shape.
Qed.

(** The amended statement at a network failure of the hosted model: the
    greeting keyword [hello] decides. *)
Lemma C2_analyzeIntent_degrades_witness :
  fst (fst (run_trace handle
              (analyzeIntent (RT := strict_runtime) (EN := latin1_engine)
                 "openai/gpt-3.5-turbo" "hello" "en")
              outage_world))
  = Ok (fallbackIntentAnalysis (EN := latin1_engine) "hello" "en" 1000).
Proof.
  destruct (C2_analyzeIntent_degrades_amended (RT := strict_runtime) (EN := latin1_engine)
              outage_world
              "openai/gpt-3.5-turbo" "hello" "en" eq_refl) as (Hfail & _).
  exact (Hfail (ExternalError (Some "ECONNRESET") "socket hang up") eq_refl eq_refl).
Defined.

End IntentFacts.

(** ** The intent cache *)

Module CacheFacts.
Import NLPService ProgFacts IntentFacts EngineFacts.

(** An entry stored at the instant of [w] is served until its TTL has
    elapsed. *)
Lemma cache_get_after_set (w : World) key value ttl t :
  redis_up w = true ->
  (t < clock w + ttl * 1000)%Z ->
  cache_get (at_time t (snd (cache_set w key value ttl))) key = Some value.
Proof.
  intros Hup Ht. unfold cache_set, cache_get, at_time. rewrite Hup. simpl. rewrite ?Hup.
  rewrite lookup_insert_eq.
  destruct (t <? clock w + ttl * 1000)%Z eqn:E; [reflexivity|].
  apply Z.ltb_ge in E. lia.
Qed.

(** C5: when a call of [analyzeIntent] misses the cache and the hosted
    model answers with a result that is stored, a second call with the
    same text and language made before the TTL (1800 s) has elapsed
    returns that same result and does not invoke the hosted model: one
    invocation over the two calls. *)
Theorem C5_second_call_served_from_cache {RT : Runtime} {EN : Engine}
  (w : World) (modelName text language : jstring)
  (response : ChatResponse) (result : IntentResult) (t2 : Z) :
  redis_up w = true ->
  cache_get w (intentCacheKey text language) = None ->
  hosted w (model_calls w) (intent_request modelName text language) = Ok response ->
  answer_of response text language (clock w) = Ok result ->
  (clock w <= t2 < clock w + cacheTTL * 1000)%Z ->
  let '(r1, w1, calls1) := run_trace handle (analyzeIntent modelName text language) w in
  let '(r2, w2, calls2) :=
    run_trace handle (analyzeIntent modelName text language) (at_time t2 w1) in
  r1 = Ok result
  /\ cache_get (at_time t2 w1) (intentCacheKey text language) = Some result
  /\ r2 = r1
  /\ model_invocations calls1 = 1%nat
  /\ model_invocations calls2 = 0%nat
  /\ model_invocations (calls1 ++ calls2) = 1%nat
  /\ model_calls w2 = S (model_calls w).
Proof.
  intros Hup Hmiss Hmodel Hanswer Ht.
  rewrite (analyzeIntent_miss_run w modelName text language Hmiss).
  cbv zeta. rewrite Hmodel, Hanswer, Hup.
  assert (cache_get
            (at_time t2 (snd (cache_set (after_model_call w) (intentCacheKey text language)
                                result cacheTTL)))
            (intentCacheKey text language) = Some result) as Hhit
      by (apply cache_get_after_set; [exact Hup | simpl; lia]).
  rewrite (analyzeIntent_hit _ modelName text language result Hhit).
  repeat split; try reflexivity.
  - exact Hhit.
  - unfold cache_set. simpl. rewrite Hup. reflexivity.
Qed.

(** A runtime that reads every answer as a confident greeting, and a
    world whose hosted model answers. *)
Definition greeting_runtime : Runtime :=
  {| JSON_parse := fun _ =>
       Some (JObj [("intent", JStr "greeting"); ("confidence", JNum (9 # 10))]);
     parseFloat := fun v => match v with Some (JNum q) => Some q | _ => None end |}.

Definition answering_world : World :=
  cold_world (Ok {| choices := [Some "{}"] |}).

Definition greeting_result : IntentResult :=
  {| intent := "greeting"; confidence := clamp01 (9 # 10); entities := JObj [];
     sentiment := JStr "neutral"; originalText := "Bonjour"; language := "fr";
     timestamp := 1000; fallback := false |}.

(** The statement at two calls for ["Bonjour"], ten minutes apart. *)
Lemma C5_second_call_witness :
  let '(r1, w1, calls1) :=
    run_trace handle (analyzeIntent (RT := greeting_runtime) (EN := latin1_engine) "openai/gpt-3.5-turbo" "Bonjour" "fr")
      answering_world in
  let '(r2, w2, calls2) :=
    run_trace handle (analyzeIntent (RT := greeting_runtime) (EN := latin1_engine) "openai/gpt-3.5-turbo" "Bonjour" "fr")
      (at_time 601000 w1) in
  r1 = Ok greeting_result
  /\ cache_get (at_time 601000 w1) (intentCacheKey "Bonjour" "fr") = Some greeting_result
  /\ r2 = r1
  /\ model_invocations calls1 = 1%nat
  /\ model_invocations calls2 = 0%nat
  /\ model_invocations (calls1 ++ calls2) = 1%nat
  /\ model_calls w2 = 1%nat.
Proof.
  apply (C5_second_call_served_from_cache (RT := greeting_runtime) (EN := latin1_engine)
           answering_world
           "openai/gpt-3.5-turbo" "Bonjour" "fr" {| choices := [Some "{}"] |}
           greeting_result 601000);
    [reflexivity | reflexivity | reflexivity | reflexivity
    | unfold answering_world, cold_world, cacheTTL; simpl; lia].
Defined.

(** Once the TTL has elapsed the entry is gone and the model is asked again. *)
Example expired_entry_is_a_miss :
  let '(_, w1, _) :=
    run_trace handle (analyzeIntent (RT := greeting_runtime) (EN := latin1_engine) "openai/gpt-3.5-turbo" "Bonjour" "fr")
      answering_world in
  cache_get (at_time 1801000 w1) (intentCacheKey "Bonjour" "fr") = None.
Proof. vm_compute. reflexivity. Qed.

(** Only results of the hosted model are stored: after a failed call the
    fallback result is returned and the cache stays empty. *)
Example fallback_is_not_cached :
  let '(r, w1, _) :=
    run_trace handle (analyzeIntent (RT := strict_runtime) (EN := latin1_engine) "openai/gpt-3.5-turbo" "hello" "en")
      outage_world in
  r = Ok (fallbackIntentAnalysis (EN := latin1_engine) "hello" "en" 1000)
  /\ cache_get w1 (intentCacheKey "hello" "en") = None.
Proof. vm_compute. split; reflexivity. Qed.

(** The hash stays a 32-bit integer, and the eight digits [toString36]
    allows are enough for its absolute value: more fuel changes nothing. *)
Lemma toInt32_range (z : Z) : (- 2 ^ 31 <= toInt32 z < 2 ^ 31)%Z.
Proof.
  unfold toInt32. pose proof (Z.mod_pos_bound z (2 ^ 32) eq_refl).
  destruct (z mod 2 ^ 32 <? 2 ^ 31)%Z eqn:E.
  - apply Z.ltb_lt in E. lia.
  - apply Z.ltb_ge in E. lia.
Qed.

Lemma hash_loop_range (text : jstring) (hash : Z) :
  (- 2 ^ 31 <= hash < 2 ^ 31)%Z -> (- 2 ^ 31 <= hash_loop hash text < 2 ^ 31)%Z.
Proof.
  revert hash. induction text as [|c text IH]; intros hash H; simpl; [exact H|].
  apply IH. unfold hash_step. apply toInt32_range.
Qed.

Lemma toString36_fuel_enough (fuel extra : nat) (n : Z) (acc : jstring) :
  (0 <= n < 36 ^ Z.of_nat (S fuel))%Z ->
  toString36_acc (S fuel + extra) n acc = toString36_acc (S fuel) n acc.
Proof.
  revert n acc. induction fuel as [|fuel IH]; intros n acc Hn.
  - simpl. assert (n / 36 = 0)%Z as -> by (apply Z.div_small; simpl in Hn; lia).
    reflexivity.
  - change (toString36_acc (S (S fuel) + extra) n acc)
      with (let acc' := digit36 (n mod 36) :: acc in
            if (n / 36 =? 0)%Z then acc' else toString36_acc (S fuel + extra) (n / 36) acc').
    change (toString36_acc (S (S fuel)) n acc)
      with (let acc' := digit36 (n mod 36) :: acc in
            if (n / 36 =? 0)%Z then acc' else toString36_acc (S fuel) (n / 36) acc').
    cbv zeta. destruct (n / 36 =? 0)%Z; [reflexivity|].
    apply IH. split; [apply Z.div_pos; lia|].
    apply Z.div_lt_upper_bound; [lia|].
    rewrite <- Z.pow_succ_r by lia. rewrite <- Nat2Z.inj_succ. lia.
Qed.

Lemma hashText_fuel_enough (text : jstring) (extra : nat) :
  toString36_acc (8 + extra) (Z.abs (hash_loop 0 text)) [] = hashText text.
Proof.
  unfold hashText, toString36. apply (toString36_fuel_enough 7 extra).
  pose proof (hash_loop_range text 0 ltac:(lia)). split; [lia|].
  apply (Z.le_lt_trans _ (2 ^ 31)); [lia | reflexivity].
Qed.

(** [hashText] is the 31-multiplier hash written in base 36. *)
Example hashText_abc : hashText "abc" = "22ci".
Proof. reflexivity. Qed.

(** The hash reads code units: an accented letter is one of them. *)
Example hashText_accent : hashText "é" = "6h".
Proof. reflexivity. Qed.

End CacheFacts.

(** ** Ticket status updates *)

Module TicketFacts.
Import TicketStore ProgFacts.

Lemma valid_status_of_string (s : jstring) :
  List.existsb (JsString.eqb s) validStatuses = true -> exists st, status_of_string s = Some st.
Proof.
  unfold validStatuses, status_of_string. simpl.
  destruct (JsString.eqb s "OPEN"); [eauto|].
  destruct (JsString.eqb s "IN_PROGRESS"); [eauto|].
  destruct (JsString.eqb s "WAITING_CUSTOMER"); [eauto|].
  destruct (JsString.eqb s "RESOLVED"); [eauto|].
  destruct (JsString.eqb s "CLOSED"); [eauto|]. discriminate.
Qed.

Definition status_name (st : TicketStatus) : jstring :=
  match st with
  | OPEN => "OPEN"
  | IN_PROGRESS => "IN_PROGRESS"
  | WAITING_CUSTOMER => "WAITING_CUSTOMER"
  | RESOLVED => "RESOLVED"
  | CLOSED => "CLOSED"
  end.

Lemma status_of_string_name (s : jstring) (st : TicketStatus) :
  status_of_string s = Some st -> s = status_name st.
Proof.
  unfold status_of_string.
  repeat match goal with
         | |- context [JsString.eqb s ?name] =>
             destruct (StringFacts.eqb_spec s name) as [-> | _]; [intros [= <-]; reflexivity|]
         end.
  discriminate.
Qed.

Definition stamps (newStatus : jstring) : bool :=
  JsString.eqb newStatus "RESOLVED" || JsString.eqb newStatus "CLOSED".

(** The database part of a valid update: the stored ticket after the
    call, whatever happens to the cache afterwards. *)
Lemma update_reaches_store (w : World) ticketId newStatus resolution agentId t st :
  prisma_ready w = true -> db_up w = true ->
  tickets w !! ticketId = Some t ->
  status_of_string newStatus = Some st ->
  List.existsb (JsString.eqb newStatus) validStatuses = true ->
  tickets (snd (run handle (updateTicketStatus ticketId newStatus resolution agentId) w))
    !! ticketId
  = Some (apply_update st
            {| data_status := newStatus; data_updatedAt := clock w;
               data_resolution := if_given resolution; data_assignedAgent := if_given agentId;
               data_resolvedAt := if stamps newStatus then Some (clock w) else None |} t).
Proof.
  intros Hready Hdb Ht Hst Hvalid.
  unfold updateTicketStatus, await, call.
  cbn [bind run handle]. rewrite Hready, Hvalid. cbn [negb bind run handle].
  fold (stamps newStatus).
  destruct (stamps newStatus); cbn [bind run handle];
    unfold ticket_update; rewrite Hdb, Ht; cbn [data_status]; rewrite Hst;
    cbn [bind run handle]; unfold cache_del; cbn [redis_up];
    destruct (redis_up w); cbn [bind run handle tickets redis_up];
    apply lookup_insert_eq.
Qed.

(** C6: with the store initialised, [updateTicketStatus] called with a
    status outside the five enum values raises [ValidationError] and
    leaves tickets and cache as they were, making no database or cache
    call; called with RESOLVED or CLOSED on an existing ticket it stores
    that status and stamps [resolvedAt] with the current time, and with
    another valid status it leaves [resolvedAt] as it was. *)
Theorem C6_updateTicketStatus_validates_and_stamps
  (w : World) (ticketId newStatus : jstring) (resolution agentId : option jstring) :
  prisma_ready w = true ->
  let '(r, w', calls) :=
    run_trace handle (updateTicketStatus ticketId newStatus resolution agentId) w in
  (List.existsb (JsString.eqb newStatus) validStatuses = false ->
     r = Throw (ValidationError ("Statut invalide: " +:+ newStatus))
     /\ w' = w
     /\ calls = [Called Initialize])
  /\ (forall t st,
        db_up w = true -> tickets w !! ticketId = Some t ->
        status_of_string newStatus = Some st ->
        exists t', tickets w' !! ticketId = Some t'
                   /\ status t' = st
                   /\ (st = RESOLVED \/ st = CLOSED -> resolvedAt t' = Some (clock w))
                   /\ (st <> RESOLVED -> st <> CLOSED -> resolvedAt t' = resolvedAt t)).
Proof.
  intros Hready.
  pose proof (run_trace_run handle (updateTicketStatus ticketId newStatus resolution agentId) w)
    as Hrun.
  destruct (run_trace handle (updateTicketStatus ticketId newStatus resolution agentId) w)
    as [[r w'] calls] eqn:Htrace.
  split.
  - intros Hinvalid. revert Htrace.
    unfold updateTicketStatus, await, call. cbn [bind run_trace handle].
    rewrite Hready, Hinvalid. cbn [negb bind run_trace]. intros [= <- <- <-]. auto.
  - intros t st Hdb Ht Hst.
    assert (List.existsb (JsString.eqb newStatus) validStatuses = true) as Hvalid.
    { revert Hst. unfold status_of_string, validStatuses. simpl.
      repeat (destruct (JsString.eqb newStatus _); [reflexivity|]). discriminate. }
    pose proof (update_reaches_store w ticketId newStatus resolution agentId t st
                  Hready Hdb Ht Hst Hvalid) as Hstore.
    rewrite <- Hrun in Hstore. cbn [fst snd] in Hstore.
    eexists. split; [exact Hstore|]. cbn [apply_update status resolvedAt data_resolvedAt].
    rewrite (status_of_string_name _ _ Hst).
    destruct st; cbn; repeat split; intros; try reflexivity;
      try congruence; intuition discriminate.
Qed.

(** A store with one open ticket. *)
Definition login_ticket : Ticket :=
  {| id := "t1"; userId := 7; title := "Login broken";
     description := "cannot sign in since yesterday"; category := Some "account";
     priority := TicketPriority.NORMAL; status := OPEN; assignedAgent := None;
     resolution := None; createdAt := 1000; resolvedAt := None; updatedAt := 1000 |}.

Definition one_ticket_world : World :=
  {| prisma_ready := true; db_up := true; tickets := {[ "t1" := login_ticket ]};
     redis_up := true; cached := {[ "ticket:t1" := "cached" ]}; clock := 5000 |}.

(** The statement at the status ["FOO"] of the specification. *)
Lemma C6_updateTicketStatus_witness :
  let '(r, w', calls) :=
    run_trace handle (updateTicketStatus "t1" "FOO" None None) one_ticket_world in
  r = Throw (ValidationError "Statut invalide: FOO") /\ w' = one_ticket_world.
Proof.
  pose proof (C6_updateTicketStatus_validates_and_stamps one_ticket_world "t1" "FOO" None None
                eq_refl) as H.
  destruct (run_trace handle (updateTicketStatus "t1" "FOO" None None) one_ticket_world)
    as [[r w'] calls].
  destruct H as [H _]. destruct (H eq_refl) as (Hr & Hw & _). split; assumption.
Defined.

(** Resolving the ticket stamps it with the clock of the store. *)
Example resolve_stamps :
  let w' := snd (run handle (updateTicketStatus "t1" "RESOLVED" (Some "fixed") None)
                   one_ticket_world) in
  (resolvedAt <$> tickets w' !! "t1") = Some (Some 5000%Z)
  /\ (status <$> tickets w' !! "t1") = Some RESOLVED
  /\ cached w' !! "ticket:t1" = None.
Proof. vm_compute. repeat split. Qed.

End TicketFacts.

(** ** Knowledge base search *)

Module SearchFacts.
Import KnowledgeBaseService ProgFacts EngineFacts.

Lemma sort_desc_nil {A} (ge : A -> A -> bool) : sort_desc ge [] = [].
Proof. reflexivity. Qed.

Lemma filter_none {A} (f : A -> bool) (l : list A) :
  (forall x, List.In x l -> f x = false) -> List.filter f l = [].
Proof.
  induction l as [|x l IH]; intros H; [reflexivity|]. simpl.
  rewrite (H x (or_introl eq_refl)). apply IH. intros y Hy. apply H. now right.
Qed.

Section WithEngine.
Context {EN : Engine}.

(** With no active entry in the language, both database queries of the
    search come back empty. *)
Lemma find_by_keywords_empty table query queryWords lang n :
  (forall entry, List.In entry table -> active_in lang entry = false) ->
  find_by_keywords table query queryWords lang n = [].
Proof.
  intros H. unfold find_by_keywords. rewrite filter_none; [now destruct n|].
  intros entry Hin. now rewrite (H entry Hin).
Qed.

Lemma find_most_used_empty table lang n :
  (forall entry, List.In entry table -> active_in lang entry = false) ->
  find_most_used table lang n = [].
Proof. intros H. unfold find_most_used. rewrite (filter_none _ _ H). now destruct n. Qed.

(** A cached list is coherent with the table when each of its results
    is an active entry of the table in the language searched. *)
Definition coherent (w : World) (key lang : jstring) : Prop :=
  forall results r,
    cache_get w key = Some results -> List.In r results ->
    exists entry, List.In entry (table w) /\ id entry = r_id r /\ active_in lang entry = true.

(** The keyword tier finds nothing. *)
Lemma searchByKeywords_empty (w : World) query lang limit :
  (forall entry, List.In entry (table w) -> active_in lang entry = false) ->
  exists w', run handle (searchByKeywords query lang limit) w = ([], w')
             /\ table w' = table w /\ redis_up w' = redis_up w /\ cached w' = cached w
             /\ clock w' = clock w /\ nlp w' = nlp w /\ scorer w' = scorer w
             /\ db_fails w' = db_fails w.
Proof.
  intros Hnone. unfold searchByKeywords.
  destruct (List.filter _ (split is_blank query)) as [|word words].
  - exists w. simpl. auto 10.
  - unfold call. cbn [bind run handle]. unfold query_db.
    rewrite (find_by_keywords_empty _ _ _ _ _ Hnone).
    exists (after_query w). destruct (db_fails w (db_queries w)); simpl; destruct limit; auto 10.
Qed.

(** The semantic tier finds nothing. *)
Lemma searchSemantic_empty (w : World) query lang limit :
  (forall entry, List.In entry (table w) -> active_in lang entry = false) ->
  exists w', run handle (searchSemantic query lang limit) w = ([], w')
             /\ redis_up w' = redis_up w /\ cached w' = cached w /\ clock w' = clock w.
Proof.
  intros Hnone. unfold searchSemantic, call. cbn [bind run handle].
  destruct (nlp w query lang) as [nlpResult | e]; [|exists w; simpl; auto].
  cbn [bind run handle]. unfold query_db.
  rewrite (find_most_used_empty _ _ _ Hnone).
  exists (after_query w). destruct (db_fails w (db_queries w)); simpl; destruct limit; auto.
Qed.

(** C9, amended: for every query, when the table holds no active entry
    in the requested language and the cache holds no live list for the
    query, or a list whose results are all active entries of the table,
    [search] returns [null]: both tiers come back empty and there is no
    first result.  [search] has no exceptional outcome at all: a blank
    query, a database, cache or classifier failure inside it also end in
    [null]. *)
Theorem C9_search_null_amended
  (w : World) (query lang : jstring) (limit : nat) :
  (forall entry, List.In entry (table w) -> active_in lang entry = false) ->
  coherent w (searchCacheKey (toLowerCase (trim query)) lang limit) lang ->
  fst (run handle (search query lang limit) w) = None.
Proof.
  intros Hnone Hcoherent.
  unfold search. rewrite run_bind.
  destruct (run handle (search_body query lang limit) w) as [outcome w'] eqn:Hbody.
  destruct outcome as [[best|] | e]; try reflexivity. exfalso.
  revert Hbody. unfold search_body, await, call. cbn [bind run handle].
  destruct (prisma_ready w); cbn [bind run handle]; [|discriminate].
  destruct (JsString.eqb query "" || (List.length (trim query) =? 0)%nat);
    [cbn [run]; discriminate|].
  cbn [bind run handle].
  destruct (cache_get w _) as [results|] eqn:Hcache.
  - cbn [run]. intros [= Hhead <-].
    destruct results as [|r results]; [discriminate|]. simpl in Hhead.
    destruct (Hcoherent (r :: results) r Hcache (or_introl eq_refl)) as (entry & Hin & _ & Hact).
    rewrite (Hnone entry Hin) in Hact. discriminate.
  - rewrite run_bind.
    destruct (searchByKeywords_empty w (toLowerCase (trim query)) lang limit Hnone)
      as (w1 & -> & Htable & Hredis & Hcached & Hclock & _).
    cbv beta iota. rewrite run_bind.
    assert (forall entry, List.In entry (table w1) -> active_in lang entry = false) as Hnone1
        by (rewrite Htable; exact Hnone).
    destruct (searchSemantic_empty w1 (toLowerCase (trim query)) lang limit Hnone1)
      as (w2 & -> & Hredis2 & _).
    cbv beta iota. simpl app. rewrite sort_desc_nil.
    replace (firstn limit (@nil SearchResult)) with (@nil SearchResult) by now destruct limit.
    cbn [bind run handle]. unfold cache_set.
    destruct (redis_up w2); cbn [run]; discriminate.
Qed.

End WithEngine.

(** A knowledge base whose only French entry is inactive. *)
Definition retired_entry : KBEntry :=
  {| id := "kb7"; question := "Comment créer un ticket ?"; answer := "Décrivez votre problème.";
     category := "technique"; language := "fr"; keywords := ["ticket"; "créer"];
     usageCount := 12; isActive := false |}.

Definition english_entry : KBEntry :=
  {| id := "kb8"; question := "How do I create a support ticket?";
     answer := "Describe your problem in this chat."; category := "technical";
     language := "en"; keywords := ["ticket"; "support"]; usageCount := 3; isActive := true |}.

Definition quiet_world : World :=
  {| prisma_ready := true; table := [retired_entry; english_entry];
     db_fails := fun _ => false; db_queries := 0; redis_up := true; cached := ∅;
     clock := 1000;
     nlp := fun _ _ => Throw (OpenAIError "Service IA temporairement indisponible" 503);
     scorer := fun _ _ _ => Throw (TypeError "generateContent is not a function") |}.

(** The statement at a French query against that knowledge base. *)
Lemma C9_search_null_witness :
  fst (run (handle (EN := latin1_engine))
         (search (EN := latin1_engine) "créer un ticket" "fr" 5) quiet_world) = None.
Proof.
  apply (C9_search_null_amended (EN := latin1_engine) quiet_world "créer un ticket" "fr" 5).
  - intros entry [<- | [<- | []]]; reflexivity.
  - intros results r Hget. vm_compute in Hget. discriminate.
Defined.

(** A blank query is rejected inside [search] and ends in [null] too. *)
Example search_blank_query :
  fst (run (handle (EN := latin1_engine)) (search (EN := latin1_engine) "   " "en" 5)
         quiet_world) = None.
Proof. vm_compute. reflexivity. Qed.

(** The same query in English finds the active entry. *)
Example search_finds_active_entry :
  r_id <$> fst (run (handle (EN := latin1_engine))
                  (search (EN := latin1_engine) "support ticket" "en" 5) quiet_world)
  = Some "kb8".
Proof. vm_compute. reflexivity. Qed.

(** *** A list outlives its entry *)

(** The run of [deleteEntry]: the row is deleted first, and the search
    cache is cleared only if Redis answers. *)
Lemma deleteEntry_run (w : World) (target : jstring) (entry : KBEntry) :
  prisma_ready w = true -> db_fails w (db_queries w) = false ->
  List.find (KnowledgeBaseWrites.has_id target) (table w) = Some entry ->
  let removed := List.filter (fun e => negb (KnowledgeBaseWrites.has_id target e)) (table w) in
  run KnowledgeBaseWrites.handle (KnowledgeBaseWrites.deleteEntry target) w
  = if redis_up w
    then (Ok tt,
          KnowledgeBaseWrites.with_cache (KnowledgeBaseWrites.with_table w removed)
            (delete ("kb:entry:" +:+ target)
               (filter (fun kv => startsWith "kb:search:" (fst kv) = false) (cached w))))
    else (Throw (ExternalError None "Redis"), KnowledgeBaseWrites.with_table w removed).
Proof.
  intros Hready Hdb Hfind removed.
  unfold KnowledgeBaseWrites.deleteEntry, await, call.
  cbn [bind run KnowledgeBaseWrites.handle]. rewrite Hready. cbn [bind run KnowledgeBaseWrites.handle].
  unfold KnowledgeBaseWrites.entry_delete. rewrite Hdb, Hfind.
  cbn [bind run KnowledgeBaseWrites.handle].
  unfold KnowledgeBaseWrites.cache_delete_pattern.
  cbn [redis_up KnowledgeBaseWrites.with_table].
  destruct (redis_up w) eqn:Hup; cbn [bind run KnowledgeBaseWrites.handle]; [|reflexivity].
  unfold KnowledgeBaseWrites.cache_del.
  cbn [redis_up KnowledgeBaseWrites.with_table KnowledgeBaseWrites.with_cache].
  rewrite Hup. reflexivity.
Qed.

(** A knowledge base with one active French entry, and an empty cache. *)
Definition published_entry : KBEntry :=
  {| id := "kb7"; question := "Comment créer un ticket ?"; answer := "Décrivez votre problème.";
     category := "technique"; language := "fr"; keywords := ["ticket"; "créer"];
     usageCount := 12; isActive := true |}.

Definition stocked_world : World :=
  {| prisma_ready := true; table := [published_entry];
     db_fails := fun _ => false; db_queries := 0; redis_up := true; cached := ∅;
     clock := 1000;
     nlp := fun _ _ => Throw (OpenAIError "Service IA temporairement indisponible" 503);
     scorer := fun _ _ _ => Throw (TypeError "generateContent is not a function") |}.

(** C9, as the specification words it, fails.  A search finds the only
    entry and stores its result list; [deleteEntry] then deletes the row
    while Redis is unreachable, so that [deletePattern] raises and the
    list stays; once Redis is back, the same search answers with the
    deleted entry although the table holds no entry at all. *)
Lemma C9_deleted_entry_is_still_served :
  let '(first, w1) :=
    run (handle (EN := latin1_engine)) (search (EN := latin1_engine) "créer un ticket" "fr" 5)
      stocked_world in
  let '(deleted, w2) :=
    run KnowledgeBaseWrites.handle (KnowledgeBaseWrites.deleteEntry "kb7")
      (KnowledgeBaseWrites.with_redis false w1) in
  let '(second, w3) :=
    run (handle (EN := latin1_engine)) (search (EN := latin1_engine) "créer un ticket" "fr" 5)
      (KnowledgeBaseWrites.with_redis true w2) in
  r_id <$> first = Some "kb7"
  /\ deleted = Throw (ExternalError None "Redis")
  /\ table w2 = []
  /\ r_id <$> second = Some "kb7".
Proof. vm_compute. repeat split; reflexivity. Qed.

End SearchFacts.

(** ** Hand-off keywords *)

Module HandoffFacts.
Import Orchestrator ProgFacts.

Section WithEngine.
Context {EN : Engine}.



Definition is_classifier_call (c : Call OrchE) : bool :=
  match c with
  | Called (AnalyzeIntent _ _) => true
  | Called _ => false
  end.

Definition is_conversation_write (c : Call OrchE) : bool :=
  match c with
  | Called (ConversationEnd _ _) | Called (ConversationCreate _) => true
  | Called _ => false
  end.

(** The language switch never calls the classifier nor writes a
    conversation. *)
Lemma switch_language_calls {W} (h : Handler OrchE W) (w : W) cfg text user :
  let '(_, _, calls) := run_trace h (switch_language cfg text user) w in
  List.forallb (fun c => negb (is_classifier_call c) && negb (is_conversation_write c)) calls
  = true.
Proof.
  unfold switch_language, call. cbn [bind run_trace].
  destruct (h _ (DetectLanguage text) w) as [[detected|] w1]; [|reflexivity].
  destruct (_ && _ && _); cbn [bind run_trace]; [|reflexivity].
  destruct (h _ (UserUpdateLanguage (user_id user) detected) w1) as [? w2]. reflexivity.
Qed.


End WithEngine.

End HandoffFacts.

(** ** The goodbye intent *)

Module GoodbyeFacts.
Import Orchestrator ProgFacts HandoffFacts EngineFacts.

(** A user with one conversation under way, and collaborators that
    classify every text as a confident goodbye. *)
Definition ongoing : Conversation :=
  {| id := 1; userId := 7; status := ACTIVE; startedAt := 1000; endedAt := None |}.

Definition goodbye_result (text : jstring) : NLPService.IntentResult :=
  {| NLPService.intent := "goodbye"; NLPService.confidence := (9 # 10)%Q;
     NLPService.entities := NLPService.JObj []; NLPService.sentiment := NLPService.JStr "neutral";
     NLPService.originalText := text; NLPService.language := "en";
     NLPService.timestamp := 60000; NLPService.fallback := false |}.

Definition goodbye_world : World :=
  {| conversations := [ongoing]; next_id := 2; journal := []; db_fails := fun _ => false;
     db_ops := 0; clock := 60000; hours := 10;
     detect := fun _ => None;
     classify := fun text _ => Ok (goodbye_result text);
     kb := fun _ _ => None;
     chat := fun _ => Throw (ExternalError None "unreachable");
     create_ticket := fun _ _ => TextResponse "";
     ticket_status := fun _ => TextResponse "" |}.

Definition alice : User :=
  {| user_id := 7; phoneNumber := "+221700000000"; name := Some "Alice"; user_language := "en" |}.

Definition fresh_session : Session :=
  {| conversationId := 1; session_language := "en"; context := ∅; lastActivity := 1000;
     session_status := None |}.

(** C3, as the specification words it, fails: after the goodbye message
    has been handled the conversation record of the user is still ACTIVE
    with no end time stamp, and nothing was written to the database; only
    the session object was marked. *)
Lemma C3_goodbye_leaves_conversation_active :
  let '(_, session', response, w') :=
    run handle (processTextMessage (EN := latin1_engine) default_config "bye, see you" alice fresh_session)
      goodbye_world in
  response = Ok (TextResponse
    "Thank you for using our service. Feel free to come back if you have any other questions. Have a great day!")
  /\ conversations w' = [ongoing]
  /\ status ongoing = ACTIVE /\ endedAt ongoing = None
  /\ journal w' = []
  /\ session_status session' = Some "ENDED".
Proof. vm_compute. repeat split. Qed.

Section WithEngine.
Context {EN : Engine}.

Lemma shouldTransferToHuman_any_language cfg text l1 l2 :
  shouldTransferToHuman cfg text l1 = shouldTransferToHuman cfg text l2.
Proof. reflexivity. Qed.

(** The language switch leaves the conversation table, the clock and
    the classifier as they are. *)
Lemma switch_language_world (w : World) cfg text user :
  let '(_, w1, _) := run_trace handle (switch_language cfg text user) w in
  conversations w1 = conversations w /\ clock w1 = clock w /\ classify w1 = classify w.
Proof.
  unfold switch_language, call. cbn [bind run_trace handle].
  destruct (detect w text) as [detected|]; [|simpl; auto].
  destruct (_ && _ && _); cbn [bind run_trace handle]; [|simpl; auto].
  unfold language_op. destruct (db_fails w (db_ops w)); simpl; auto.
Qed.

(** C3, amended: when the text holds no hand-off keyword and the
    classifier returns the goodbye intent with a confidence at or above
    the threshold, handling the message sets the [status] of the session
    object to [ENDED], stores the current time as [endedAt] in the
    session context and returns the goodbye message; the conversation
    table is left as it was and no conversation record is ended or
    created. *)
Theorem C3_goodbye_marks_session_amended (w : World)
  (cfg : Config) (text : jstring) (user : User) (session : Session)
  (nlpResult : NLPService.IntentResult) :
  shouldTransferToHuman cfg text (user_language user) = false ->
  (forall language, classify w text language = Ok nlpResult) ->
  NLPService.intent nlpResult = "goodbye" ->
  Qle_bool (confidenceThreshold cfg) (NLPService.confidence nlpResult) = true ->
  let '(user', session', response, w', calls) :=
    run_trace handle (processTextMessage cfg text user session) w in
  session_status session' = Some "ENDED"
  /\ context session' !! "endedAt" = Some (NLPService.JNum (inject_Z (clock w)))
  /\ response = Ok (TextResponse (localized cfg "goodbye.message" (user_language user')))
  /\ conversations w' = conversations w
  /\ List.existsb is_conversation_write calls = false.
Proof.
  intros Hno Hclassifier Hintent Hconfident.
  unfold processTextMessage. rewrite run_trace_bind.
  pose proof (switch_language_calls handle w cfg text user) as Hcalls.
  pose proof (switch_language_world w cfg text user) as Hworld.
  destruct (run_trace handle (switch_language cfg text user) w) as [[user1 w1] calls1].
  destruct Hworld as (Hconv & Hclock & Hclassify).
  rewrite (shouldTransferToHuman_any_language cfg text (user_language user1) (user_language user)).
  rewrite Hno. unfold call. cbn [bind run_trace handle].
  rewrite Hclassify, Hclassifier, Hconfident.
  unfold handleIntent. rewrite Hintent. cbn [JsString.eqb N.eqb Pos.eqb andb].
  unfold handleGoodbye, call. cbn [bind run_trace handle session_status context].
  split; [reflexivity|]. split; [rewrite Hclock; apply lookup_insert_eq|].
  split; [reflexivity|]. split; [exact Hconv|].
  rewrite List.existsb_app. simpl. rewrite orb_false_r.
  clear -Hcalls. induction calls1 as [|c calls1 IH]; [reflexivity|].
  simpl in *. apply andb_true_iff in Hcalls as [Hc Hrest].
  apply andb_true_iff in Hc as [_ Hc]. apply negb_true_iff in Hc.
  rewrite Hc. exact (IH Hrest).
Qed.

End WithEngine.

(** The amended statement in the world of the counterexample. *)
Lemma C3_goodbye_marks_session_witness :
  let '(user', session', response, w', calls) :=
    run_trace handle (processTextMessage (EN := latin1_engine) default_config "bye, see you" alice fresh_session)
      goodbye_world in
  session_status session' = Some "ENDED"
  /\ context session' !! "endedAt" = Some (NLPService.JNum (inject_Z 60000))
  /\ response = Ok (TextResponse (localized (EN := latin1_engine) default_config "goodbye.message" (user_language user')))
  /\ conversations w' = [ongoing]
  /\ List.existsb is_conversation_write calls = false.
Proof.
  apply (C3_goodbye_marks_session_amended (EN := latin1_engine) goodbye_world default_config "bye, see you"
           alice fresh_session (goodbye_result "bye, see you"));
    [reflexivity | intros language; reflexivity | reflexivity | reflexivity].
Defined.


Example handoff_message_text :
  localized (EN := latin1_engine) default_config "handoff.initiated" "en"
  = "I'm connecting you with a human agent. Please wait...".
Proof. reflexivity. Qed.

End GoodbyeFacts.

(** ** One active conversation per user *)

Module ConversationFacts.
Import Orchestrator ProgFacts.

Definition active_count (user : nat) (table : list Conversation) : nat :=
  List.length (List.filter (active_of user) table).

Lemma active_count_app user a b :
  active_count user (a ++ b) = (active_count user a + active_count user b)%nat.
Proof. unfold active_count. now rewrite List.filter_app, List.length_app. Qed.

Lemma newest_in (l : list Conversation) (c : Conversation) :
  newest l = Some c -> List.In c l.
Proof.
  revert c. induction l as [|x l IH]; intros c; simpl; [discriminate|].
  destruct (newest l) as [d|].
  - destruct (startedAt x <? startedAt d)%Z; intros [= <-]; auto.
  - intros [= <-]. auto.
Qed.

Lemma newest_none (l : list Conversation) : newest l = None -> l = [].
Proof.
  destruct l as [|x l]; [reflexivity|]. simpl.
  destruct (newest l) as [d|]; [destruct (_ <? _)%Z|]; discriminate.
Qed.

(** [newest] started last. *)
Lemma newest_latest (l : list Conversation) (d : Conversation) :
  newest l = Some d -> forall c, List.In c l -> (startedAt c <= startedAt d)%Z.
Proof.
  revert d. induction l as [|x l IH]; intros d; simpl; [discriminate|].
  destruct (newest l) as [e|] eqn:E.
  - destruct (startedAt x <? startedAt e)%Z eqn:Hlt; intros [= <-] c [<- | Hin].
    + apply Z.ltb_lt in Hlt. lia.
    + exact (IH e eq_refl c Hin).
    + lia.
    + apply Z.ltb_ge in Hlt. pose proof (IH e eq_refl c Hin). lia.
  - intros [= <-] c [<- | Hin]; [lia|]. apply newest_none in E. subst l. destruct Hin.
Qed.

(** Ending a conversation never adds an active one. *)
Lemma ending_does_not_add user target t (l : list Conversation) :
  (active_count user (List.map (end_conversation target t) l) <= active_count user l)%nat.
Proof.
  unfold active_count. induction l as [|x l IH]; simpl; [lia|].
  unfold end_conversation at 1. destruct (id x =? target)%nat.
  - unfold active_of at 1. simpl. rewrite andb_false_r.
    destruct (active_of user x); simpl; lia.
  - destruct (active_of user x); simpl; lia.
Qed.

(** Ending an active conversation of the user removes one. *)
Lemma ending_removes user t (l : list Conversation) (c : Conversation) :
  List.In c l -> active_of user c = true ->
  (active_count user (List.map (end_conversation (id c) t) l) < active_count user l)%nat.
Proof.
  unfold active_count. induction l as [|x l IH]; [intros []|].
  intros [<- | Hin] Hact; simpl.
  - unfold end_conversation at 1. rewrite Nat.eqb_refl.
    unfold active_of at 1. simpl. rewrite andb_false_r. rewrite Hact. simpl.
    pose proof (ending_does_not_add user (id x) t l) as H. unfold active_count in H. lia.
  - specialize (IH Hin Hact).
    unfold end_conversation at 1. destruct (id x =? id c)%nat.
    + unfold active_of at 1. simpl. rewrite andb_false_r.
      destruct (active_of user x); simpl; lia.
    + destruct (active_of user x); simpl; lia.
Qed.

Lemma find_in_table (l : list Conversation) (c : Conversation) :
  List.In c l -> exists d, List.find (fun x => (id x =? id c)%nat) l = Some d /\ id d = id c.
Proof.
  induction l as [|x l IH]; [intros []|]. intros [<- | Hin]; simpl.
  - rewrite Nat.eqb_refl. eauto.
  - destruct (id x =? id c)%nat eqn:E; [apply Nat.eqb_eq in E; eauto|]. exact (IH Hin).
Qed.

(** A conversation is stale at [now] when it started more than
    [maxConversationDuration] seconds before. *)
Definition stale (cfg : Config) (now : Z) (c : Conversation) : Prop :=
  (maxConversationDuration cfg * 1000 < now - startedAt c)%Z.

Definition new_conversation (w : World) (key user : nat) : Conversation :=
  {| id := key; userId := user; status := ACTIVE; startedAt := clock w; endedAt := None |}.

(** The run of [getOrCreateConversation] when the database answers
    every call. *)
Lemma getOrCreateConversation_run (cfg : Config) (w : World) (user : nat) :
  db_fails w (db_ops w) = false ->
  db_fails w (S (db_ops w)) = false ->
  db_fails w (S (S (db_ops w))) = false ->
  let '(r, w') := run handle (getOrCreateConversation cfg user) w in
  match find_first_active user (conversations w) with
  | None =>
      r = Ok (new_conversation w (next_id w) user)
      /\ conversations w' = conversations w ++ [new_conversation w (next_id w) user]
      /\ journal w' = journal w ++ [Created (next_id w) user]
  | Some c =>
      if (maxConversationDuration cfg * 1000 <? clock w - startedAt c)%Z
      then r = Ok (new_conversation w (next_id w) user)
           /\ conversations w'
              = List.map (end_conversation (id c) (clock w)) (conversations w)
                ++ [new_conversation w (next_id w) user]
           /\ journal w' = journal w ++ [Ended (id c) (clock w); Created (next_id w) user]
      else r = Ok c /\ conversations w' = conversations w /\ journal w' = journal w
  end.
Proof.
  intros H0 H1 H2.
  unfold getOrCreateConversation, await, call. cbn [bind run handle].
  unfold find_op. rewrite H0. cbn [bind run handle].
  destruct (find_first_active user (conversations w)) as [c|] eqn:Hfind.
  - cbn [bind run handle clock set_table].
    destruct (_ <? _)%Z.
    + cbn [bind run handle]. unfold end_op. cbn [db_fails db_ops set_table conversations].
      rewrite H1.
      assert (List.In c (conversations w)) as Hin.
      { apply newest_in in Hfind. apply List.filter_In in Hfind. tauto. }
      destruct (find_in_table _ _ Hin) as (d & -> & _).
      cbn [bind run handle]. unfold create_op. cbn [db_fails db_ops set_table conversations].
      rewrite H2. cbn. rewrite List.app_nil_r, <- List.app_assoc. auto.
    + cbn. rewrite List.app_nil_r. auto.
  - cbn [bind run handle]. unfold create_op. cbn [db_fails db_ops set_table conversations].
    rewrite H1. cbn. rewrite List.app_nil_r. auto.
Qed.

(** Whatever the database does, the table after the call is the table
    before, possibly with the newest active conversation of the user
    ended, possibly with one conversation of the user added; the
    addition happens only after that ending or when the user had no
    active conversation, and only when no active conversation of the
    user is still within the maximum duration. *)
Lemma getOrCreateConversation_table (cfg : Config) (w : World) (user : nat) :
  let w' := snd (run handle (getOrCreateConversation cfg user) w) in
  conversations w' = conversations w
  \/ (exists c fresh,
        find_first_active user (conversations w) = Some c
        /\ stale cfg (clock w) c
        /\ (conversations w' = List.map (end_conversation (id c) (clock w)) (conversations w)
            \/ conversations w' = List.map (end_conversation (id c) (clock w)) (conversations w)
                                  ++ [new_conversation w fresh user]))
  \/ (exists fresh,
        find_first_active user (conversations w) = None
        /\ conversations w' = conversations w ++ [new_conversation w fresh user]).
Proof.
  unfold getOrCreateConversation, await, call. cbn [bind run handle].
  unfold find_op. destruct (db_fails w (db_ops w)); [left; reflexivity|].
  cbn [bind run handle].
  destruct (find_first_active user (conversations w)) as [c|] eqn:Hfind.
  - cbn [bind run handle clock set_table].
    destruct (_ <? _)%Z eqn:Hstale; [|left; reflexivity].
    apply Z.ltb_lt in Hstale.
    cbn [bind run handle]. unfold end_op. cbn [db_fails db_ops set_table conversations].
    destruct (db_fails w (S (db_ops w))); [left; reflexivity|].
    destruct (List.find _ (conversations w)); [|left; reflexivity].
    cbn [bind run handle]. unfold create_op. cbn [db_fails db_ops set_table conversations next_id].
    right. left. exists c, (next_id w). split; [reflexivity|]. split; [exact Hstale|].
    destruct (db_fails w (S (S (db_ops w)))); cbn; auto.
  - cbn [bind run handle]. unfold create_op. cbn [db_fails db_ops set_table conversations next_id].
    destruct (db_fails w (S (db_ops w))); [left; reflexivity|].
    right. right. exists (next_id w). cbn. auto.
Qed.

Lemma active_count_new w fresh user other :
  active_count other [new_conversation w fresh user] = if (user =? other)%nat then 1%nat else 0%nat.
Proof. unfold active_count, active_of. simpl. destruct (user =? other)%nat; reflexivity. Qed.

(** The table after the call keeps the invariant. *)
Lemma invariant_preserved (cfg : Config) (w : World) (user : nat) :
  at_most_one_active (conversations w) ->
  let '(_, w') := run handle (getOrCreateConversation cfg user) w in
  at_most_one_active (conversations w').
Proof.
  intros Hinv.
  pose proof (getOrCreateConversation_table cfg w user) as Htable.
  destruct (run handle (getOrCreateConversation cfg user) w) as [r w'].
  cbn [snd] in Htable.
  intros other. fold (active_count other (conversations w')).
  pose proof (Hinv other) as Hother. fold (active_count other (conversations w)) in Hother.
  destruct Htable as [-> | [(c & fresh & Hfind & _ & Hshape) | (fresh & Hfind & ->)]].
  - exact Hother.
  - assert (List.In c (conversations w) /\ active_of user c = true) as [Hin Hact].
    { apply newest_in in Hfind. apply List.filter_In in Hfind. exact Hfind. }
    pose proof (ending_does_not_add other (id c) (clock w) (conversations w)) as Hle.
    destruct Hshape as [-> | ->]; [lia|].
    rewrite active_count_app, active_count_new.
    destruct (Nat.eqb_spec user other) as [<- | _]; [|lia].
    pose proof (ending_removes user (clock w) (conversations w) c Hin Hact). lia.
  - rewrite active_count_app, active_count_new.
    destruct (Nat.eqb_spec user other) as [<- | _]; [|lia].
    unfold find_first_active in Hfind. apply newest_none in Hfind.
    unfold active_count. rewrite Hfind. simpl. lia.
Qed.

(** C1, amended: for calls of [getOrCreateConversation] that do not
    overlap, (1) if every user has at most one ACTIVE conversation before
    a call, every user has at most one after it, whatever the database
    answers; (2) when the user's ACTIVE
    conversation is older than [maxConversationDuration] seconds and the
    database answers, that conversation is first written as ENDED with
    the current time as end time stamp and only then a new ACTIVE
    conversation is created and returned; (3) when any ACTIVE
    conversation of the user is not older than that, nothing is ended and
    nothing is created.  The default maximum duration is 3600 s. *)
Theorem C1_at_most_one_active_amended (cfg : Config) (w : World) (user : nat) :
  at_most_one_active (conversations w) ->
  let '(r, w') := run handle (getOrCreateConversation cfg user) w in
  at_most_one_active (conversations w')
  /\ (forall c,
        find_first_active user (conversations w) = Some c ->
        stale cfg (clock w) c ->
        db_fails w (db_ops w) = false ->
        db_fails w (S (db_ops w)) = false ->
        db_fails w (S (S (db_ops w))) = false ->
        exists fresh,
          r = Ok fresh
          /\ status fresh = ACTIVE /\ userId fresh = user /\ List.In fresh (conversations w')
          /\ journal w' = journal w ++ [Ended (id c) (clock w); Created (id fresh) user]
          /\ List.In (end_conversation (id c) (clock w) c) (conversations w')
          /\ status (end_conversation (id c) (clock w) c) = ENDED
          /\ endedAt (end_conversation (id c) (clock w) c) = Some (clock w)
          /\ active_count user (conversations w') = 1%nat)
  /\ (forall c,
        List.In c (conversations w) -> active_of user c = true ->
        ~ stale cfg (clock w) c ->
        conversations w' = conversations w /\ journal w' = journal w)
  /\ maxConversationDuration default_config = 3600%Z.
Proof.
  intros Hinv.
  pose proof (getOrCreateConversation_table cfg w user) as Htable.
  pose proof (getOrCreateConversation_run cfg w user) as Hrun.
  destruct (run handle (getOrCreateConversation cfg user) w) as [r w'] eqn:Hrw.
  cbn [snd] in Htable.
  assert (forall c, find_first_active user (conversations w) = Some c ->
                    List.In c (conversations w) /\ active_of user c = true) as Hfound.
  { intros c Hc. apply newest_in in Hc. apply List.filter_In in Hc. exact Hc. }
  split; [|split; [|split; [|reflexivity]]].
  - (* the invariant *)
    pose proof (invariant_preserved cfg w user Hinv) as Hkept.
    rewrite Hrw in Hkept. exact Hkept.
  - (* a stale conversation is ended, then a new one is created *)
    intros c Hfind Hstale H0 H1 H2. specialize (Hrun H0 H1 H2).
    rewrite Hfind in Hrun. unfold stale in Hstale. apply Z.ltb_lt in Hstale.
    rewrite Hstale in Hrun. destruct Hrun as (-> & Hconv & Hjournal).
    destruct (Hfound c Hfind) as [Hin Hact].
    exists (new_conversation w (next_id w) user).
    repeat split; try reflexivity.
    + rewrite Hconv. apply List.in_or_app. right. now left.
    + exact Hjournal.
    + rewrite Hconv. apply List.in_or_app. left. now apply List.in_map.
    + unfold end_conversation. now rewrite Nat.eqb_refl.
    + unfold end_conversation. now rewrite Nat.eqb_refl.
    + rewrite Hconv, active_count_app, active_count_new, Nat.eqb_refl.
      pose proof (ending_removes user (clock w) (conversations w) c Hin Hact) as Hlt.
      pose proof (Hinv user) as Hone. fold (active_count user (conversations w)) in Hone. lia.
  - (* an unexpired conversation blocks any change *)
    intros c Hin Hact Hfresh.
    assert (exists d, find_first_active user (conversations w) = Some d
                      /\ ~ stale cfg (clock w) d) as (d & Hd & Hdfresh).
    { unfold find_first_active.
      assert (List.In c (List.filter (active_of user) (conversations w))) as Hc
          by (apply List.filter_In; auto).
      destruct (newest (List.filter (active_of user) (conversations w))) as [d|] eqn:E.
      - exists d. split; [reflexivity|].
        pose proof (newest_latest _ _ E c Hc). unfold stale in *. lia.
      - apply newest_none in E. rewrite E in Hc. destruct Hc. }
    clear Hrun Htable. revert Hrw.
    unfold getOrCreateConversation, await, call. cbn [bind run handle].
    unfold find_op.
    destruct (db_fails w (db_ops w));
      [intros [= <- <-]; cbn; rewrite List.app_nil_r; auto|].
    cbn [bind run handle]. rewrite Hd. cbn [bind run handle clock set_table].
    destruct (_ <? _)%Z eqn:Hlt; [apply Z.ltb_lt in Hlt; exfalso; exact (Hdfresh Hlt)|].
    cbn. intros [= <- <-]. cbn. rewrite List.app_nil_r. auto.
Qed.

(** A table with one conversation started at instant 0, read more than
    an hour later and again within the hour. *)
Definition old_conversation : Conversation :=
  {| id := 1; userId := 7; status := ACTIVE; startedAt := 0; endedAt := None |}.

Definition table_world (now : Z) : World :=
  {| conversations := [old_conversation]; next_id := 2; journal := [];
     db_fails := fun _ => false; db_ops := 0; clock := now; hours := 10;
     detect := fun _ => None;
     classify := fun _ _ => Throw (ExternalError None "unused");
     kb := fun _ _ => None;
     chat := fun _ => Throw (ExternalError None "unused");
     create_ticket := fun _ _ => TextResponse "";
     ticket_status := fun _ => TextResponse "" |}.

Lemma one_row_invariant : at_most_one_active [old_conversation].
Proof.
  intros user.
  change (List.filter (active_of user) [old_conversation])
    with (if active_of user old_conversation then [old_conversation] else []).
  destruct (active_of user old_conversation); simpl; lia.
Qed.

(** The statement for a second message 3601 s after the first. *)
Lemma C1_at_most_one_active_witness :
  let '(r, w') := run handle (getOrCreateConversation default_config 7) (table_world 3601000) in
  at_most_one_active (conversations w')
  /\ exists fresh, journal w' = [Ended 1 3601000; Created fresh 7].
Proof.
  pose proof (C1_at_most_one_active_amended default_config (table_world 3601000) 7
                one_row_invariant) as H.
  destruct (run handle (getOrCreateConversation default_config 7) (table_world 3601000))
    as [r w'].
  destruct H as (Hinv & Hstale & _). split; [exact Hinv|].
  destruct (Hstale old_conversation eq_refl) as (fresh & _ & _ & _ & _ & Hj & _);
    try reflexivity.
  exists (id fresh). exact Hj.
Defined.

(** Exactly at the maximum duration the conversation is kept; one
    millisecond later it is replaced. *)
Example kept_at_the_limit :
  conversations (snd (run handle (getOrCreateConversation default_config 7) (table_world 3600000)))
  = [old_conversation].
Proof. reflexivity. Qed.

Example replaced_after_the_limit :
  conversations (snd (run handle (getOrCreateConversation default_config 7) (table_world 3600001)))
  = [ {| id := 1; userId := 7; status := ENDED; startedAt := 0; endedAt := Some 3600001%Z |};
      {| id := 2; userId := 7; status := ACTIVE; startedAt := 3600001; endedAt := None |} ].
Proof. reflexivity. Qed.

(** The invariant holds in every table reached from the empty one by
    calls of [getOrCreateConversation] made one after the other, for any
    users, instants and database failures. *)
Inductive reachable (cfg : Config) : World -> Prop :=
| reachable_start w : conversations w = [] -> reachable cfg w
| reachable_call w user :
    reachable cfg w ->
    reachable cfg (snd (run handle (getOrCreateConversation cfg user) w))
| reachable_later w now fails :
    reachable cfg w ->
    reachable cfg
      {| conversations := conversations w; next_id := next_id w; journal := journal w;
         db_fails := fails; db_ops := db_ops w; clock := now; hours := hours w;
         detect := detect w; classify := classify w; kb := kb w; chat := chat w;
         create_ticket := create_ticket w; ticket_status := ticket_status w |}.

Lemma reachable_at_most_one_active cfg w :
  reachable cfg w -> at_most_one_active (conversations w).
Proof.
  induction 1 as [w Hempty | w user _ IH | w now fails _ IH].
  - rewrite Hempty. intros user. simpl. lia.
  - pose proof (invariant_preserved cfg w user IH) as H.
    destruct (run handle (getOrCreateConversation cfg user) w) as [r w']. exact H.
  - exact IH.
Qed.

(** *** Two calls at once *)

(** A user without any conversation. *)
Definition empty_world : World :=
  {| conversations := []; next_id := 1; journal := [];
     db_fails := fun _ => false; db_ops := 0; clock := 5000; hours := 10;
     detect := fun _ => None;
     classify := fun _ _ => Throw (ExternalError None "unused");
     kb := fun _ _ => None;
     chat := fun _ => Throw (ExternalError None "unused");
     create_ticket := fun _ _ => TextResponse "";
     ticket_status := fun _ => TextResponse "" |}.

Definition first_row : Conversation :=
  {| id := 1; userId := 7; status := ACTIVE; startedAt := 5000; endedAt := None |}.
Definition second_row : Conversation :=
  {| id := 2; userId := 7; status := ACTIVE; startedAt := 5000; endedAt := None |}.

(** C1, as the specification words it, fails.  Two messages of one user
    are handled at once: both calls of [getOrCreateConversation] look
    for an ACTIVE conversation before either has created one, both find
    none, and both create one.  The table, empty before, then holds two
    ACTIVE conversations of the user. *)
Lemma C1_overlapping_calls_create_two :
  let '(first, second, w') :=
    interleave handle [true; false; true; false]
      (getOrCreateConversation default_config 7) (getOrCreateConversation default_config 7)
      empty_world in
  first = Ret (Ok first_row)
  /\ second = Ret (Ok second_row)
  /\ conversations w' = [first_row; second_row]
  /\ journal w' = [Created 1 7; Created 2 7]
  /\ at_most_one_active (conversations empty_world)
  /\ ~ at_most_one_active (conversations w').
Proof.
  repeat split.
  - intros user. simpl. lia.
  - intros H. specialize (H 7%nat). simpl in H. lia.
Qed.

(** Any schedule in which the first call has returned before the second
    starts gives one conversation. *)
Example calls_in_turn_share_a_conversation :
  let '(first, second, w') :=
    interleave handle [true; true; false; false]
      (getOrCreateConversation default_config 7) (getOrCreateConversation default_config 7)
      empty_world in
  first = Ret (Ok first_row) /\ second = Ret (Ok first_row)
  /\ conversations w' = [first_row].
Proof. repeat split. Qed.

End ConversationFacts.

(** ** More facts about strings *)

Module SubstringFacts.

Lemma startsWith_app (p rest : jstring) : startsWith p (p +:+ rest) = true.
Proof. induction p as [|c p IH]; simpl; [reflexivity|]. now rewrite N.eqb_refl. Qed.

Lemma startsWith_split (p s : jstring) :
  startsWith p s = true -> exists rest, s = p +:+ rest.
Proof.
  revert s. induction p as [|c p IH]; intros s H; simpl in *; [now exists s|].
  destruct s as [|d s]; [discriminate|].
  destruct (N.eqb_spec c d) as [-> | _]; [|discriminate].
  destruct (IH s H) as [rest ->]. now exists rest.
Qed.

Lemma includes_startsWith (s k : jstring) : startsWith k s = true -> includes s k = true.
Proof. intros H. destruct s; simpl; now rewrite H. Qed.

(** [s.includes(k)] holds exactly when [s] is some text, then [k], then
    some text. *)
Lemma includes_split (s k : jstring) :
  includes s k = true <-> exists before after, s = before +:+ k +:+ after.
Proof.
  split.
  - induction s as [|c s IH]; simpl; intros H.
    + rewrite orb_false_r in H. destruct (startsWith_split _ _ H) as [rest ->].
      now exists "", rest.
    + apply orb_true_iff in H as [H | H].
      * destruct (startsWith_split _ _ H) as [rest ->]. now exists "", rest.
      * destruct (IH H) as (before & after & ->). now exists (c :: before), after.
  - intros (before & after & ->). induction before as [|c before IH].
    + change ("" +:+ k +:+ after) with (k +:+ after).
      apply includes_startsWith, startsWith_app.
    + change ((c :: before) +:+ k +:+ after) with (c :: (before +:+ k +:+ after)).
      simpl. rewrite IH. apply orb_true_r.
Qed.

(** A part of a part is a part. *)
Lemma includes_trans (s k j : jstring) :
  includes s k = true -> includes k j = true -> includes s j = true.
Proof.
  intros Hs Hk. apply includes_split in Hs as (b1 & a1 & ->).
  apply includes_split in Hk as (b2 & a2 & ->). apply includes_split.
  exists (b1 +:+ b2), (a2 +:+ a1).
  repeat rewrite <- List.app_assoc. reflexivity.
Qed.

Lemma includes_refl (s : jstring) : includes s s = true.
Proof. apply includes_startsWith. rewrite <- (List.app_nil_r s) at 2. apply startsWith_app. Qed.

Lemma toLowerCase_idempotent {EN : Engine} (s : jstring) :
  toLowerCase (toLowerCase s) = toLowerCase s.
Proof. apply (toLowerCase_fixed s). apply includes_refl. Qed.

End SubstringFacts.

(** ** The message formatter *)

Module FormatterFacts.
Import MessageFormatter StringFacts.

(** X1: [truncateText] returns a short text unchanged and never returns
    more than [max(maxLength, 3)] code units; for [maxLength >= 3] a
    longer text is cut to exactly [maxLength] code units that end with
    the ellipsis.  Lengths are counted as [length] counts them: an
    accented letter is one code unit. *)
Theorem X1_truncateText_bounds (text : jstring) (maxLength : nat) :
  (List.length (truncateText text maxLength) <= Nat.max maxLength 3)%nat
  /\ ((List.length text <= maxLength)%nat -> truncateText text maxLength = text)
  /\ ((maxLength < List.length text)%nat ->
      truncateText text maxLength = take (maxLength - 3) text +:+ "..."
      /\ ((3 <= maxLength)%nat -> List.length (truncateText text maxLength) = maxLength))
  /\ truncateText "ééé" 4 = "ééé"
  /\ truncateText "ééééé" 4 = "é...".
Proof.
  unfold truncateText. split; [|split; [|split; [|split; reflexivity]]].
  - destruct (JsString.eqb text "") eqn:He.
    + apply StringFacts.eqb_eq in He. subst. simpl. lia.
    + simpl. destruct (List.length text <=? maxLength)%nat eqn:Hl.
      * apply Nat.leb_le in Hl. lia.
      * rewrite List.length_app, length_take. change (List.length "...") with 3%nat. lia.
  - intros Hl. apply Nat.leb_le in Hl. rewrite Hl, orb_true_r. reflexivity.
  - intros Hl. assert (JsString.eqb text "" = false) as ->
        by (destruct text; [simpl in Hl; lia | reflexivity]).
    assert ((List.length text <=? maxLength)%nat = false) as -> by (apply Nat.leb_gt; lia).
    simpl. split; [reflexivity|]. intros H3.
    rewrite List.length_app, length_take. change (List.length "...") with 3%nat. lia.
Qed.

(** *** [cleanText] *)

(** A tidy text: its white space is single blanks (U+0020) between
    other code units.  [after_blank] tells that the previous code unit
    was a blank (or that the text starts here). *)
Fixpoint tidy_from (after_blank : bool) (s : jstring) : bool :=
  match s with
  | [] => negb after_blank
  | c :: r =>
      if is_space c
      then (c =? 32)%N && negb after_blank && tidy_from true r
      else tidy_from false r
  end.

Definition tidy (s : jstring) : bool :=
  match s with
  | [] => true
  | _ => tidy_from true s
  end.

Lemma trimEnd_cons_fixed (c : N) (r : jstring) :
  trimEnd (c :: r) = c :: r -> r <> "" -> trimEnd r = r /\ trimEnd r <> "".
Proof.
  simpl. destruct (trimEnd r) as [|d r'] eqn:E.
  - destruct (is_space c); [discriminate|]. intros [= <-]. congruence.
  - intros [= <-]. split; [reflexivity | discriminate].
Qed.

Lemma trimEnd_idempotent (s : jstring) : trimEnd (trimEnd s) = trimEnd s.
Proof.
  induction s as [|c s IH]; simpl; [reflexivity|].
  destruct (trimEnd s) as [|d s'] eqn:E.
  - destruct (is_space c) eqn:Hc; simpl; [reflexivity|]. now rewrite Hc.
  - change (trimEnd (c :: d :: s')) with
      (match trimEnd (d :: s') with
       | [] => if is_space c then [] else [c]
       | r' => c :: r'
       end).
    rewrite IH. reflexivity.
Qed.

Lemma trimEnd_keeps_head (c : N) (r : jstring) :
  is_space c = false -> exists r', trimEnd (c :: r) = c :: r'.
Proof.
  intros Hc. simpl. destruct (trimEnd r); [rewrite Hc|]; eauto.
Qed.

Lemma trimStart_head (s : jstring) :
  trimStart s = "" \/ exists c r, trimStart s = c :: r /\ is_space c = false.
Proof.
  induction s as [|c s IH]; simpl; [now left|].
  destruct (is_space c) eqn:Hc; [exact IH|]. right. eauto.
Qed.

(** [trim] leaves a text that is empty or begins and ends with a
    character that is not white space. *)
Lemma trim_shape (s : jstring) :
  trim s = "" \/ exists c r, trim s = c :: r /\ is_space c = false
                            /\ trimEnd (c :: r) = c :: r.
Proof.
  unfold trim. destruct (trimStart_head s) as [-> | (c & r & -> & Hc)]; [now left|].
  right. destruct (trimEnd_keeps_head c r Hc) as [r' Hr']. exists c, r'.
  split; [exact Hr'|]. split; [exact Hc|]. rewrite <- Hr'. apply trimEnd_idempotent.
Qed.

(** Collapsing the white space of a text that ends on a visible
    character gives a tidy text. *)
Lemma collapse_tidy (s : jstring) (in_run after_blank : bool) :
  s <> "" -> trimEnd s = s ->
  (after_blank = true -> in_run = true \/ exists c r, s = c :: r /\ is_space c = false) ->
  tidy_from after_blank (collapse_spaces in_run s) = true.
Proof.
  revert in_run after_blank. induction s as [|c s IH]; intros in_run after_blank Hne Hend Hinv;
    [congruence|].
  simpl. destruct (is_space c) eqn:Hc.
  - assert (s <> "") as Hs.
    { intros ->. simpl in Hend. rewrite Hc in Hend. discriminate. }
    destruct (trimEnd_cons_fixed c s Hend Hs) as [Hend' _].
    destruct in_run.
    + apply IH; auto.
    + assert (after_blank = false) as ->.
      { destruct after_blank; [|reflexivity].
        destruct (Hinv eq_refl) as [? | (c' & r' & [= <- <-] & Hc')]; congruence. }
      simpl. apply IH; auto.
  - simpl. rewrite Hc. destruct s as [|d s'] eqn:Es; [reflexivity|].
    rewrite <- Es in *. assert (s <> "") as Hs by (rewrite Es; discriminate).
    destruct (trimEnd_cons_fixed c s Hend Hs) as [Hend' _].
    apply IH; auto.
Qed.

Lemma tidy_from_trimEnd (s : jstring) (after_blank : bool) :
  tidy_from after_blank s = true -> s <> "" -> trimEnd s = s.
Proof.
  revert after_blank. induction s as [|c s IH]; intros after_blank H Hne; [congruence|].
  simpl in H. destruct s as [|d s'] eqn:Es.
  - simpl in *. destruct (is_space c); [|reflexivity].
    rewrite andb_false_r in H. discriminate.
  - rewrite <- Es in *. assert (s <> "") as Hs by (rewrite Es; discriminate).
    assert (trimEnd s = s) as Hfix.
    { destruct (is_space c).
      - apply andb_true_iff in H as [_ H]. exact (IH true H Hs).
      - exact (IH false H Hs). }
    simpl. rewrite Hfix. rewrite Es. reflexivity.
Qed.

Lemma tidy_from_collapse (s : jstring) (after_blank in_run : bool) :
  tidy_from after_blank s = true -> (after_blank = false -> in_run = false) ->
  collapse_spaces in_run s = s.
Proof.
  revert after_blank in_run. induction s as [|c s IH]; intros after_blank in_run H Hrun;
    [reflexivity|].
  simpl in *. destruct (is_space c) eqn:Hc.
  - apply andb_true_iff in H as [H Htail]. apply andb_true_iff in H as [Hblank Hafter].
    apply negb_true_iff in Hafter. subst after_blank. rewrite (Hrun eq_refl).
    apply N.eqb_eq in Hblank. subst c. f_equal. apply (IH true true Htail). discriminate.
  - f_equal. apply (IH false false H). reflexivity.
Qed.

Lemma tidy_head (s : jstring) :
  s <> "" -> tidy_from true s = true -> trimStart s = s.
Proof.
  destruct s as [|c r]; [congruence|]. intros _ H. simpl in *.
  destruct (is_space c); [|reflexivity]. rewrite andb_false_r in H. discriminate.
Qed.

Lemma cleanText_tidy (text : jstring) : tidy (cleanText text) = true.
Proof.
  unfold cleanText. destruct (JsString.eqb text ""); [reflexivity|].
  destruct (trim_shape text) as [-> | (c & r & -> & Hc & Hend)]; [reflexivity|].
  assert (tidy_from true (collapse_spaces false (c :: r)) = true) as H.
  { apply collapse_tidy; [discriminate | exact Hend |]. intros _. right. eauto. }
  unfold tidy. destruct (collapse_spaces false (c :: r)); [reflexivity | exact H].
Qed.

Lemma tidy_fixed (s : jstring) : tidy s = true -> cleanText s = s.
Proof.
  unfold tidy, cleanText. destruct s as [|c r] eqn:Es; [reflexivity|].
  rewrite <- Es. intros H. assert (s <> "") as Hne by (rewrite Es; discriminate).
  assert (JsString.eqb s "" = false) as -> by (rewrite Es; reflexivity).
  unfold trim. rewrite (tidy_head s Hne H), (tidy_from_trimEnd s true H Hne).
  apply (tidy_from_collapse s true false H). discriminate.
Qed.

(** X2: [cleanText] returns a tidy text (no leading or trailing white
    space, every white space a single blank) and is idempotent: cleaning
    a cleaned text changes nothing.  White space is what [trim] and
    [\s] take for it, the no-break space and the line separators
    included. *)
Theorem X2_cleanText_normalizes (text : jstring) :
  tidy (cleanText text) = true /\ cleanText (cleanText text) = cleanText text
  /\ cleanText [160; 97; 160; 8232; 98; 65279]%N = "a b".
Proof.
  split; [apply cleanText_tidy | split; [apply tidy_fixed, cleanText_tidy | reflexivity]].
Qed.

End FormatterFacts.

(** ** Extracted ticket information *)

Module TicketInfoFacts.
Import MessageFormatter TicketMessageHandler TicketRequests StringFacts SubstringFacts
  FormatterFacts ExtractFacts EngineFacts.

(** A text with a character that is not white space. *)
Fixpoint visible (s : jstring) : bool :=
  match s with
  | [] => false
  | c :: r => negb (is_space c) || visible r
  end.

Lemma visible_append (a b : jstring) : visible (a +:+ b) = visible a || visible b.
Proof.
  induction a as [|c a IH]; [reflexivity|].
  change (visible (c :: (a +:+ b)) = visible (c :: a) || visible b).
  simpl. rewrite IH. apply orb_assoc.
Qed.

Lemma visible_trimStart (s : jstring) : visible s = true -> trimStart s <> "".
Proof.
  induction s as [|c s IH]; simpl; [discriminate|].
  destruct (is_space c); simpl; [exact IH | discriminate].
Qed.

Lemma visible_not_blank (s : jstring) : visible s = true -> blank s = false.
Proof.
  intros Hv. unfold blank. destruct s as [|c s]; [discriminate|]. simpl JsString.eqb.
  apply Nat.eqb_neq. unfold trim.
  pose proof (visible_trimStart _ Hv) as Hne.
  destruct (trimStart_head (c :: s)) as [E | (d & r & E & Hd)]; [congruence|].
  rewrite E. destruct (trimEnd_keeps_head d r Hd) as [r' ->]. simpl. lia.
Qed.

Lemma head_visible (c : N) (r : jstring) : is_space c = false -> visible (c :: r) = true.
Proof. intros H. simpl. now rewrite H. Qed.

Lemma trim_visible (s : jstring) : trim s <> "" -> visible (trim s) = true.
Proof.
  intros Hne. destruct (trim_shape s) as [E | (c & r & -> & Hc & _)]; [congruence|].
  now apply head_visible.
Qed.

Lemma visible_rev (s : jstring) : visible (List.rev s) = visible s.
Proof.
  induction s as [|c s IH]; [reflexivity|].
  simpl List.rev. rewrite visible_append, IH. simpl.
  destruct (is_space c), (visible s); reflexivity.
Qed.

(** The first piece of a split holds what was read before it. *)
Lemma split_acc_first_visible (sep : N -> bool) (s cur : jstring) :
  visible cur = true ->
  exists piece rest, split_acc sep cur s = piece :: rest /\ visible piece = true.
Proof.
  revert cur. induction s as [|c s IH]; intros cur Hv; simpl.
  - eexists _, _. split; [reflexivity|]. now rewrite visible_rev.
  - destruct (sep c).
    + eexists _, _. split; [reflexivity|]. now rewrite visible_rev.
    + apply IH. simpl. rewrite Hv. apply orb_true_r.
Qed.

Lemma join_first_visible (piece : jstring) (rest : list jstring) :
  visible piece = true -> visible (join " " (piece :: rest)) = true.
Proof.
  intros Hv. simpl. destruct rest; [exact Hv|].
  rewrite visible_append, Hv. reflexivity.
Qed.

(** The title made of the first words of a text that starts with a
    visible character is visible. *)
Lemma first_words_title_visible (c : N) (r : jstring) :
  is_space c = false -> visible (first_words_title (c :: r)) = true.
Proof.
  intros Hc. unfold first_words_title.
  assert (is_blank c = false) as Hb.
  { unfold is_blank. destruct (N.eqb_spec c 32) as [-> | _]; [discriminate | reflexivity]. }
  unfold split. simpl split_acc. rewrite Hb.
  destruct (split_acc_first_visible is_blank r [c]) as (piece & rest & -> & Hv);
    [now apply head_visible|].
  change (firstn 8 (piece :: rest)) with (piece :: firstn 7 rest).
  pose proof (join_first_visible piece (firstn 7 rest) Hv) as Hj.
  cbv zeta. destruct (50 <? _)%nat; [|exact Hj].
  rewrite visible_append. apply orb_true_r.
Qed.

Lemma truncateText_visible (text : jstring) (n : nat) :
  visible text = true -> visible (truncateText text n) = true.
Proof.
  intros Hv. unfold truncateText.
  destruct (JsString.eqb text "" || (List.length text <=? n)%nat); [exact Hv|].
  rewrite visible_append. apply orb_true_r.
Qed.

Section WithEngine.
Context {EN : Engine}.

Lemma remove_all_ci_empty (kw : jstring) (skip : nat) : remove_all_ci kw skip "" = "".
Proof. reflexivity. Qed.

Lemma strip_keywords_empty (keywords : list jstring) : strip_keywords keywords "" = "".
Proof. unfold strip_keywords. induction keywords as [|k ks IH]; simpl; [reflexivity | exact IH]. Qed.

(** After the last keyword the stripped text has been trimmed. *)
Lemma strip_keywords_last (keywords : list jstring) (k : jstring) (cleaned : jstring) :
  exists s, strip_keywords (keywords ++ [k]) cleaned = trim s.
Proof. unfold strip_keywords. rewrite List.fold_left_app. simpl. eauto. Qed.

Lemma ticket_keywords_last (language : jstring) (keywords : list jstring) :
  array_by_language ticketKeywords_fr ticketKeywords_en language = Ok keywords ->
  exists front k, keywords = front ++ [k].
Proof.
  unfold array_by_language, by_language.
  destruct (JsString.eqb language "fr");
    [intros [= <-]; now exists (removelast ticketKeywords_fr), "aide"|].
  destruct (JsString.eqb language "en");
    [intros [= <-]; now exists (removelast ticketKeywords_en), "help"|].
  destruct (is_inherited language); [discriminate|].
  intros [= <-]. now exists (removelast ticketKeywords_fr), "aide".
Qed.

(** The content the title and description are taken from is empty or
    starts with a visible character. *)
Lemma ticket_content_head (language text : jstring) (keywords : list jstring) :
  array_by_language ticketKeywords_fr ticketKeywords_en language = Ok keywords ->
  let content := ticket_content keywords (cleanText text) in
  content = "" \/ exists c r, content = c :: r /\ is_space c = false.
Proof.
  intros Hk. unfold ticket_content.
  destruct (List.length _ <? 10)%nat.
  - pose proof (cleanText_tidy text) as Ht. unfold tidy in Ht.
    destruct (cleanText text) as [|c r]; [now left|]. right. exists c, r. split; [reflexivity|].
    simpl in Ht. destruct (is_space c); [|reflexivity].
    rewrite andb_false_r in Ht. discriminate.
  - destruct (ticket_keywords_last language keywords Hk) as (front & k & ->).
    destruct (strip_keywords_last front k (cleanText text)) as [s ->].
    destruct (trim_shape s) as [-> | (c & r & -> & Hc & _)]; [now left | right; eauto].
Qed.

Lemma ticket_content_empty (keywords : list jstring) (cleaned : jstring) :
  ticket_content keywords cleaned = "" <-> cleaned = "".
Proof.
  unfold ticket_content. split.
  - destruct (List.length _ <? 10)%nat eqn:E; [auto|].
    intros H. rewrite H in E. discriminate.
  - intros ->. rewrite strip_keywords_empty. reflexivity.
Qed.

Lemma genericTitle_visible (language : jstring) :
  visible (genericTitle language) = true /\ (List.length (genericTitle language) <= 100)%nat.
Proof. unfold genericTitle. destruct (JsString.eqb language "fr"); split; simpl; try reflexivity; lia. Qed.

Lemma has_separator_nonempty (content : jstring) : has_separator content = true -> content <> "".
Proof. intros H ->. discriminate. Qed.

(** The outcome of [title_and_description], by branch. *)
Lemma title_and_description_cases (content language : jstring) :
  (exists first second rest,
      List.In first (separated_parts content) /\ List.In second (separated_parts content)
      /\ has_separator content = true
      /\ title_and_description content language
         = {| title := truncateText first 100; description := join " " (second :: rest);
              category := None |}
      /\ JsString.eqb second "" = false)
  \/ title_and_description content language
     = {| title := or_else (first_words_title content) (genericTitle language);
          description := content; category := None |}.
Proof.
  unfold title_and_description.
  assert ((let '(t, d) := (generateTitleFromText content language, content) in
           {| title := or_else t (genericTitle language);
              description := or_else d content; category := None |})
          = {| title := or_else (first_words_title content) (genericTitle language);
               description := content; category := None |}) as Hfall.
  { cbv beta iota. rewrite generateTitleFromText_eq, or_else_same. reflexivity. }
  destruct (has_separator content) eqn:Hsep; [|right; exact Hfall].
  destruct (separated_parts content) as [|first [|second rest]] eqn:Hparts;
    [right; exact Hfall | right; exact Hfall |].
  left. exists first, second, rest.
  assert (JsString.eqb first "" = false) as Hf
      by (apply (separated_parts_nonempty content); rewrite Hparts; simpl; auto).
  assert (JsString.eqb second "" = false) as Hs
      by (apply (separated_parts_nonempty content); rewrite Hparts; simpl; auto).
  repeat split; simpl; auto.
  rewrite (or_else_nonempty _ _ (truncateText_nonempty first 100 Hf)).
  rewrite (or_else_nonempty _ _ (join_cons_nonempty " " second rest Hs)). reflexivity.
Qed.

Lemma separated_part_visible (content part : jstring) :
  List.In part (separated_parts content) -> visible part = true.
Proof.
  unfold separated_parts. intros H. apply List.filter_In in H as [Hin Hlen].
  apply List.in_map_iff in Hin as (x & <- & _). apply trim_visible.
  intros E. rewrite E in Hlen. discriminate.
Qed.

(** What every extraction satisfies. *)
Lemma extracted_info (text language : jstring) (info : TicketInfo) :
  extractTicketInfo text language = Ok info ->
  visible (title info) = true
  /\ (List.length (title info) <= 100)%nat
  /\ (description info = "" <-> cleanText text = "")
  /\ category info = None.
Proof.
  unfold extractTicketInfo.
  destruct (array_by_language ticketKeywords_fr ticketKeywords_en language) as [keywords|e] eqn:Hk;
    [|discriminate].
  intros [= <-].
  pose proof (ticket_content_head language text keywords Hk) as Hhead. cbv zeta in Hhead.
  pose proof (ticket_content_empty keywords (cleanText text)) as Hempty.
  set (content := ticket_content keywords (cleanText text)) in *.
  destruct (title_and_description_cases content language)
    as [(first & second & rest & Hin1 & Hin2 & Hsep & -> & Hs) | ->];
    cbn [title description category].
  - split; [apply truncateText_visible, (separated_part_visible content), Hin1|].
    split; [apply length_truncateText; lia|].
    split; [|reflexivity]. split.
    + intros E. pose proof (join_cons_nonempty " " second rest Hs) as Hj.
      rewrite E in Hj. discriminate.
    + intros E. apply Hempty in E. apply has_separator_nonempty in Hsep. congruence.
  - split; [|split; [|split; [exact Hempty | reflexivity]]].
    + unfold or_else. destruct (JsString.eqb (first_words_title content) "") eqn:E.
      * apply genericTitle_visible.
      * destruct Hhead as [Hc | (c & r & Hc & Hvis)].
        -- rewrite Hc in E. discriminate.
        -- rewrite Hc. now apply first_words_title_visible.
    + unfold or_else. destruct (JsString.eqb (first_words_title content) "").
      * apply genericTitle_visible.
      * pose proof (length_first_words_title content). lia.
Qed.

(** The description of a message that is not empty has a visible
    character. *)
Lemma extracted_description_visible (text language : jstring) (info : TicketInfo) :
  extractTicketInfo text language = Ok info ->
  cleanText text <> "" ->
  visible (description info) = true.
Proof.
  unfold extractTicketInfo.
  destruct (array_by_language ticketKeywords_fr ticketKeywords_en language) as [keywords|e] eqn:Hk;
    [|discriminate].
  intros [= <-] Hne.
  pose proof (ticket_content_head language text keywords Hk) as Hhead. cbv zeta in Hhead.
  pose proof (ticket_content_empty keywords (cleanText text)) as Hempty.
  set (content := ticket_content keywords (cleanText text)) in *.
  destruct (title_and_description_cases content language)
    as [(first & second & rest & Hin1 & Hin2 & Hsep & -> & Hs) | ->];
    cbn [title description category].
  - apply join_first_visible, (separated_part_visible content), Hin2.
  - destruct Hhead as [Hc | (c & r & -> & Hvis)]; [apply Hempty in Hc; contradiction|].
    now apply head_visible.
Qed.

(** X3: whatever the text, the ticket information [extractTicketInfo]
    returns has a title that is not blank and has at most 100
    characters, no category, and a description that is empty exactly
    when the cleaned text is empty; so [validateTicketInfo] can only
    complain about its description. *)
Theorem X3_extracted_title_is_valid (text language : jstring) (info : TicketInfo) :
  extractTicketInfo text language = Ok info ->
  blank (title info) = false
  /\ (List.length (title info) <= 100)%nat
  /\ category info = None
  /\ (description info = "" <-> cleanText text = "")
  /\ (forall message, List.In message (validateTicketInfo info) ->
        message = "Description is required"
        \/ message = "Description is too long (max 2000 characters)").
Proof.
  intros H. destruct (extracted_info text language info H) as (Hv & Hl & Hd & Hc).
  pose proof (visible_not_blank _ Hv) as Hb.
  repeat split; auto; try apply Hd.
  intros message. unfold validateTicketInfo. rewrite Hb.
  assert ((200 <? List.length (title info))%nat = false) as -> by (apply Nat.ltb_ge; lia).
  rewrite andb_false_r. simpl.
  destruct (blank (description info)); destruct (_ && _); simpl; intuition.
Qed.

End WithEngine.

Lemma X3_extracted_title_witness :
  exists info,
    extractTicketInfo (EN := latin1_engine) "   " "fr" = Ok info
    /\ blank (title info) = false /\ description info = "".
Proof.
  exists {| title := "Demande d'assistance"; description := ""; category := None |}.
  destruct (X3_extracted_title_is_valid (EN := latin1_engine) "   " "fr"
              {| title := "Demande d'assistance"; description := ""; category := None |} eq_refl)
    as (Hb & _).
  split; [reflexivity | split; [exact Hb | reflexivity]].
Defined.

(** *** [handleCreateTicket] *)

Definition is_create_call (c : Call HandlerE) : bool :=
  match c with
  | Called (CreateTicket _ _ _ _ _) => true
  | Called _ => false
  end.

Section WithEngine.
Context {EN : Engine}.

(** X4: [handleCreateTicket] asks for more information, without calling
    the ticket service, exactly when the cleaned message is empty;
    otherwise it calls [createTicket] once, with the extracted title and
    description and no category, and answers with the confirmation or,
    when the service raises, with the creation-error message.  For a
    language code naming an inherited member the extraction raises and
    the answer is the creation-error message, with no call. *)
Theorem X4_handleCreateTicket_outcomes {W} (h : Handler HandlerE W) (w : W)
  (defaultLanguage : jstring) (user : nat) (language text : jstring) :
  let '(answer, _, calls) :=
    run_trace h (handleCreateTicket defaultLanguage user language text) w in
  match extractTicketInfo text language with
  | Throw _ => answer = message defaultLanguage "ticket.creation_error" language /\ calls = []
  | Ok info =>
      if JsString.eqb (cleanText text) ""
      then answer = message defaultLanguage "ticket.need_more_info" language /\ calls = []
      else
        calls = [Called (CreateTicket user (title info) (description info) None language)]
        /\ match fst (h _ (CreateTicket user (title info) (description info) None language) w) with
           | Ok ticket => answer = formatTicketConfirmation defaultLanguage ticket language
           | Throw _ => answer = message defaultLanguage "ticket.creation_error" language
           end
  end.
Proof.
  unfold handleCreateTicket.
  destruct (extractTicketInfo text language) as [info|e] eqn:Hx; [|simpl; auto].
  destruct (extracted_info text language info Hx) as (Hv & _ & Hd & Hc).
  assert (JsString.eqb (title info) "" = false) as ->
      by (destruct (title info); [discriminate | reflexivity]).
  rewrite Hc. simpl orb.
  destruct (StringFacts.eqb_spec (cleanText text) "") as [E | E].
  - apply Hd in E. rewrite E. simpl. auto.
  - assert (JsString.eqb (description info) "" = false) as ->.
    { destruct (StringFacts.eqb_spec (description info) "") as [E' | _]; [|reflexivity].
      apply Hd in E'. congruence. }
    unfold call. cbn [bind run_trace].
    destruct (h _ (CreateTicket user (title info) (description info) None language) w)
      as [[ticket|e] w']; simpl; auto.
Qed.

(** *** [analyzeTicketIntent] *)

Lemma status_keywords_name_ticket :
  List.forallb (fun k => includes (toLowerCase k) "ticket") statusKeywords_fr = true
  /\ List.forallb (fun k => includes (toLowerCase k) "ticket") statusKeywords_en = true.
Proof. cbn [List.forallb statusKeywords_fr statusKeywords_en]. lower_literals. split; reflexivity. Qed.

Lemma some_keyword_ticket (text : jstring) (status creation : list jstring) :
  List.forallb (fun k => includes (toLowerCase k) "ticket") status = true ->
  List.In "ticket" creation ->
  some_keyword text status = true -> some_keyword text creation = true.
Proof.
  intros Hall Hin Hs. unfold some_keyword in *.
  apply List.existsb_exists in Hs as (k & Hk & Hinc).
  apply List.existsb_exists. exists "ticket". split; [exact Hin|].
  rewrite List.forallb_forall in Hall.
  rewrite (toLowerCase_latin1 "ticket" eq_refl).
  exact (includes_trans _ _ _ Hinc (Hall k Hk)).
Qed.

(** A status request is always a creation request as well. *)
Lemma status_request_is_creation_request (text language : jstring) :
  isTicketStatusRequest text language = Ok true ->
  isTicketCreationRequest text language = Ok true.
Proof.
  destruct status_keywords_name_ticket as [Hfr Hen].
  unfold isTicketStatusRequest, isTicketCreationRequest, array_by_language, by_language.
  destruct (JsString.eqb language "fr").
  - intros [= H]. f_equal. apply (some_keyword_ticket _ _ _ Hfr); [simpl; auto 10 | exact H].
  - destruct (JsString.eqb language "en").
    + intros [= H]. f_equal. apply (some_keyword_ticket _ _ _ Hen); [simpl; auto 10 | exact H].
    + destruct (is_inherited language); [discriminate|].
      intros [= H]. f_equal. apply (some_keyword_ticket _ _ _ Hfr); [simpl; auto 10 | exact H].
Qed.

(** X5: [analyzeTicketIntent] never returns the intent
    [check_ticket_status]: every status keyword contains the word
    [ticket], which is itself a creation keyword, and the creation test
    comes first.  Whatever it returns is a [create_ticket] intent with
    confidence 0.8 carrying the extracted ticket information. *)
Theorem X5_analyzeTicketIntent_never_status (text language : jstring) (found : TicketIntent) :
  analyzeTicketIntent text language = Ok (Some found) ->
  intent found = "create_ticket"
  /\ confidence found = (8 # 10)%Q
  /\ exists info, entities found = Some info /\ extractTicketInfo text language = Ok info.
Proof.
  unfold analyzeTicketIntent.
  destruct (isTicketCreationRequest text language) as [[|]|e] eqn:Hc; [| |discriminate].
  - destruct (extractTicketInfo text language) as [info|e]; [|discriminate].
    intros [= <-]. simpl. eauto.
  - destruct (isTicketStatusRequest text language) as [[|]|e] eqn:Hs; try discriminate.
    apply status_request_is_creation_request in Hs. congruence.
Qed.

End WithEngine.

Lemma X5_analyzeTicketIntent_witness :
  exists found,
    analyzeTicketIntent (EN := latin1_engine) "what is my ticket status please" "en"
      = Ok (Some found)
    /\ intent found = "create_ticket".
Proof.
  eexists. split; [reflexivity|].
  exact (proj1 (X5_analyzeTicketIntent_never_status (EN := latin1_engine)
                  "what is my ticket status please" "en" _ eq_refl)).
Defined.

End TicketInfoFacts.

(** ** Ticket categories *)

Module CategoryFacts.
Import TicketCategory.

Section WithEngine.
Context {EN : Engine}.




Example determineCategory_english_default :
  determineCategory "just wondering" "en" = "général".
Proof. unfold determineCategory. now lower_literals. Qed.

Example determineCategory_connexion :
  determineCategory "Problème de connexion à mon compte" "fr" = "technique".
Proof. unfold determineCategory. now lower_literals. Qed.

(** A word written in capitals is found, also when it carries an
    accent. *)
Example determineCategory_accented_capital :
  determineCategory "Quel est le COÛT ?" "fr" = "facturation".
Proof. unfold determineCategory. now lower_literals. Qed.

End WithEngine.

End CategoryFacts.

(** ** More on the intent analysis *)

Module AnalysisFacts.
Import NLPService ProgFacts IntentFacts CacheFacts StringFacts EngineFacts.

Lemma first_keyword_intent_found lowerText entries intent :
  first_keyword_intent lowerText entries = Some intent ->
  exists before keywords after keyword,
    entries = before ++ (intent, keywords) :: after
    /\ List.In keyword keywords /\ includes lowerText keyword = true
    /\ (forall i ks k, List.In (i, ks) before -> List.In k ks -> includes lowerText k = false).
Proof.
  induction entries as [|[i ks] rest IH]; simpl; [discriminate|].
  destruct (List.existsb _ ks) eqn:E.
  - intros [= <-]. apply List.existsb_exists in E as (keyword & Hin & Hk).
    exists [], ks, rest, keyword. repeat split; auto. intros ? ? ? [].
  - intros H. destruct (IH H) as (before & keywords & after & keyword & -> & Hin & Hk & Hnone).
    exists ((i, ks) :: before), keywords, after, keyword. repeat split; auto.
    intros i' ks' k' [[= <- <-] | Hb] Hk'.
    + destruct (includes lowerText k') eqn:Ek; [|reflexivity].
      assert (List.existsb (fun keyword => includes lowerText keyword) ks = true)
        by (apply List.existsb_exists; eauto).
      congruence.
    + exact (Hnone i' ks' k' Hb Hk').
Qed.

Lemma first_keyword_intent_first lowerText before intent keywords after keyword :
  List.In keyword keywords -> includes lowerText keyword = true ->
  (forall i ks k, List.In (i, ks) before -> List.In k ks -> includes lowerText k = false) ->
  first_keyword_intent lowerText (before ++ (intent, keywords) :: after) = Some intent.
Proof.
  intros Hin Hk. induction before as [|[i ks] before IH]; intros Hnone; simpl.
  - assert (List.existsb (fun keyword => includes lowerText keyword) keywords = true) as ->
        by (apply List.existsb_exists; eauto).
    reflexivity.
  - destruct (List.existsb _ ks) eqn:E.
    + apply List.existsb_exists in E as (k & Hk1 & Hk2).
      rewrite (Hnone i ks k (or_introl eq_refl) Hk1) in Hk2. discriminate.
    + apply IH. intros i' ks' k' Hb. apply (Hnone i' ks' k'). now right.
Qed.

Section WithEngine.
Context {EN : Engine}.

(** X7: the keyword fallback decides by table order, not by position in
    the text: the intent is that of the first table row one of whose
    keywords occurs, as a substring, in the lower-cased text, whatever
    later rows match; the result keeps at most the first 200 code units
    of the text and is marked as a fallback. *)
Theorem X7_fallback_first_table_row (text language : jstring) (now : Z) :
  let f := fallbackIntentAnalysis text language now in
  (forall before intent keywords after keyword,
      keywordMap = before ++ (intent, keywords) :: after ->
      List.In keyword keywords -> includes (toLowerCase text) keyword = true ->
      (forall i ks k, List.In (i, ks) before -> List.In k ks ->
                      includes (toLowerCase text) k = false) ->
      NLPService.intent f = intent /\ confidence f = (6 # 10)%Q)
  /\ (NLPService.intent f = "unknown"
      \/ exists before keywords after keyword,
           keywordMap = before ++ (NLPService.intent f, keywords) :: after
           /\ List.In keyword keywords /\ includes (toLowerCase text) keyword = true
           /\ (forall i ks k, List.In (i, ks) before -> List.In k ks ->
                              includes (toLowerCase text) k = false))
  /\ (List.length (originalText f) <= 200)%nat
  /\ fallback f = true /\ NLPService.language f = language /\ timestamp f = now.
Proof.
  unfold fallbackIntentAnalysis. split; [|split].
  - intros before intent keywords after keyword Hmap Hin Hk Hnone.
    rewrite Hmap.
    rewrite (first_keyword_intent_first _ before intent keywords after keyword Hin Hk Hnone).
    simpl. auto.
  - destruct (first_keyword_intent _ _) as [intent|] eqn:E; [|now left].
    right. exact (first_keyword_intent_found _ _ _ E).
  - destruct (first_keyword_intent _ _);
      cbn [originalText fallback NLPService.language timestamp];
      (split; [pose proof (length_take 200 text); lia | auto]).
Qed.

(** A thank-you that mentions help is read as a request for help, and
    [hi] inside another word as a greeting. *)
Example fallback_help_before_goodbye :
  NLPService.intent (fallbackIntentAnalysis "Merci pour votre aide, au revoir" "fr" 0) = "help".
Proof. unfold fallbackIntentAnalysis. now lower_literals. Qed.

Example fallback_substring_greeting :
  NLPService.intent (fallbackIntentAnalysis "nothing works" "en" 0) = "greeting".
Proof. unfold fallbackIntentAnalysis. now lower_literals. Qed.

End WithEngine.

Lemma clamp01_range (x : Q) : (0 <= clamp01 x <= 1)%Q.
Proof.
  unfold clamp01. split; [apply Q.le_max_l|].
  apply Q.max_lub; [discriminate | apply Q.le_min_l].
Qed.

Section WithRuntime.
Context {RT : Runtime} {EN : Engine}.

(** What a normalized answer looks like. *)
Lemma normalized_shape (result : Json) (text language : jstring) (now : Z) :
  match normalizeIntentResult result text language now with
  | Ok r =>
      result <> JNull
      /\ (List.In (NLPService.intent r) supportedIntents \/ NLPService.intent r = "unknown")
      /\ (0 <= confidence r <= 1)%Q
      /\ originalText r = take 200 text
      /\ NLPService.language r = language /\ timestamp r = now /\ fallback r = false
  | Throw e => result = JNull
  end.
Proof.
  unfold normalizeIntentResult.
  assert (forall v : option Json,
             let i := match v with
                      | Some (JStr s) =>
                          if List.existsb (JsString.eqb s) supportedIntents then s else "unknown"
                      | _ => "unknown"
                      end in
             List.In i supportedIntents \/ i = "unknown") as Hintent.
  { intros [[| | |s| |]|]; cbv zeta; auto.
    destruct (List.existsb _ _) eqn:E; [|now right].
    left. apply List.existsb_exists in E as (x & Hx & Hs).
    apply StringFacts.eqb_eq in Hs. now subst. }
  unfold property.
  destruct result; cbv beta iota;
    cbn [NLPService.intent confidence originalText NLPService.language timestamp fallback];
    try reflexivity;
    (split; [discriminate|]); (split; [first [now right | apply Hintent]|]);
    (split; [apply clamp01_range|]); auto.
Qed.


Lemma answer_of_shape response text language now result :
  answer_of response text language now = Ok result ->
  fallback result = false /\ originalText result = take 200 text
  /\ (0 <= confidence result <= 1)%Q.
Proof.
  unfold answer_of. destruct (first_content response); [|discriminate].
  destruct (parse_answer _) as [parsed|]; [|discriminate].
  pose proof (normalized_shape parsed text language now) as H.
  intros E. rewrite E in H. tauto.
Qed.

(** X9: one call of [analyzeIntent] invokes the hosted model at most
    once and not at all on a cache hit, leaves the clock and every cache
    entry under another key as they were, and stores a result under its
    own key exactly when the result came from the hosted model: a
    keyword fallback is never stored. *)
Theorem X9_analyzeIntent_effects (w : World) (modelName text language : jstring) :
  let key := intentCacheKey text language in
  let '(r, w', calls) := run_trace handle (analyzeIntent modelName text language) w in
  (model_invocations calls <= 1)%nat
  /\ model_calls w' = (model_calls w + model_invocations calls)%nat
  /\ clock w' = clock w /\ redis_up w' = redis_up w
  /\ (forall k, k <> key -> entries w' !! k = entries w !! k)
  /\ (forall cached, cache_get w key = Some cached ->
        r = Ok cached /\ model_invocations calls = 0%nat /\ w' = w)
  /\ (cache_get w key = None ->
      model_invocations calls = 1%nat
      /\ forall result, r = Ok result ->
           (0 <= confidence result <= 1)%Q
           /\ if fallback result
              then entries w' = entries w
              else entries w' !! key = Some ((clock w + cacheTTL * 1000)%Z, result)).
Proof.
  intros key.
  destruct (cache_get w key) as [cached|] eqn:Hget.
  - rewrite (analyzeIntent_hit w modelName text language cached Hget).
    split; [unfold model_invocations; simpl; lia|].
    split; [unfold model_invocations; simpl; lia|].
    split; [reflexivity|]. split; [reflexivity|]. split; [reflexivity|].
    split; [intros ? [= <-]; auto | discriminate].
  - pose proof (analyzeIntent_miss_run w modelName text language Hget) as Hrun.
    cbv zeta in Hrun. rewrite Hrun. clear Hrun. fold key.
    assert (forall now, (0 <= confidence (fallbackIntentAnalysis text language now) <= 1)%Q
                        /\ fallback (fallbackIntentAnalysis text language now) = true) as Hfb.
    { intros now. unfold fallbackIntentAnalysis.
      destruct (first_keyword_intent _ _); simpl; repeat split; discriminate. }
    assert (forall (calls : list (Call NlpE)),
               model_invocations calls = 1%nat ->
               (model_invocations calls <= 1)%nat
               /\ model_calls (after_model_call w) = (model_calls w + model_invocations calls)%nat
               /\ clock (after_model_call w) = clock w
               /\ redis_up (after_model_call w) = redis_up w
               /\ (forall k, k <> key ->
                     entries (after_model_call w) !! k = entries w !! k)
               /\ (forall cached : IntentResult, @None IntentResult = Some cached ->
                     Ok (fallbackIntentAnalysis text language (clock w)) = Ok cached
                     /\ model_invocations calls = 0%nat /\ after_model_call w = w)
               /\ (@None IntentResult = None ->
                   model_invocations calls = 1%nat
                   /\ forall result0, Ok (fallbackIntentAnalysis text language (clock w)) = Ok result0 ->
                        (0 <= confidence result0 <= 1)%Q
                        /\ if fallback result0
                           then entries (after_model_call w) = entries w
                           else entries (after_model_call w) !! key
                                = Some ((clock w + cacheTTL * 1000)%Z, result0))) as Hdegraded.
    { intros calls Hc. rewrite Hc.
      split; [lia|]. split; [simpl; lia|]. split; [reflexivity|]. split; [reflexivity|].
      split; [reflexivity|]. split; [discriminate|]. intros _.
      split; [reflexivity|]. intros result0 [= <-]. split; [apply Hfb|].
      rewrite (proj2 (Hfb (clock w))). reflexivity. }
    destruct (hosted w (model_calls w) (intent_request modelName text language))
      as [response|e].
    + destruct (answer_of response text language (clock w)) as [result|e] eqn:Ha.
      * destruct (answer_of_shape _ _ _ _ _ Ha) as (Hf & _ & Hconf).
        destruct (redis_up w) eqn:Hup.
        -- unfold cache_set. simpl. rewrite Hup. simpl.
           split; [unfold model_invocations; simpl; lia|].
           split; [unfold model_invocations; simpl; lia|].
           split; [reflexivity|]. split; [reflexivity|].
           split; [intros k Hk; now rewrite lookup_insert_ne|].
           split; [discriminate|]. intros _.
           split; [reflexivity|]. intros result0 [= <-]. split; [exact Hconf|].
           rewrite Hf. now rewrite lookup_insert_eq.
        -- apply Hdegraded. reflexivity.
      * destruct (first_content response); [destruct (parse_answer _)|];
          apply Hdegraded; reflexivity.
    + destruct (quota_or_rate_limit e).
      * split; [unfold model_invocations; simpl; lia|].
        split; [unfold model_invocations; simpl; lia|].
        split; [reflexivity|]. split; [reflexivity|].
        split; [reflexivity|]. split; [discriminate|]. intros _.
        split; [reflexivity|]. discriminate.
      * apply Hdegraded. reflexivity.
Qed.

(** X10: the cache key of an analysis holds only the 32-bit hash of the
    code units of the text, so two texts with the same hash share one
    entry: after the analysis of the first is stored, the analysis of
    the second, asked for within the TTL, is the stored analysis of the
    first, with the first text as its original text, and the hosted
    model is not asked. *)
Theorem X10_texts_with_one_hash_share_analysis
  (w : World) (modelName text1 text2 language : jstring)
  (response : ChatResponse) (result : IntentResult) (t2 : Z) :
  hashText text1 = hashText text2 ->
  redis_up w = true ->
  cache_get w (intentCacheKey text1 language) = None ->
  hosted w (model_calls w) (intent_request modelName text1 language) = Ok response ->
  answer_of response text1 language (clock w) = Ok result ->
  (clock w <= t2 < clock w + cacheTTL * 1000)%Z ->
  let '(r1, w1, _) := run_trace handle (analyzeIntent modelName text1 language) w in
  let '(r2, _, calls2) :=
    run_trace handle (analyzeIntent modelName text2 language) (at_time t2 w1) in
  r1 = Ok result /\ r2 = Ok result
  /\ originalText result = take 200 text1
  /\ model_invocations calls2 = 0%nat.
Proof.
  intros Hhash Hup Hmiss Hmodel Hanswer Ht.
  rewrite (analyzeIntent_miss_run w modelName text1 language Hmiss).
  cbv zeta. rewrite Hmodel, Hanswer, Hup.
  assert (intentCacheKey text2 language = intentCacheKey text1 language) as Hkey
      by (unfold intentCacheKey; now rewrite Hhash).
  assert (cache_get
            (at_time t2 (snd (cache_set (after_model_call w) (intentCacheKey text1 language)
                                result cacheTTL)))
            (intentCacheKey text2 language) = Some result) as Hhit
      by (rewrite Hkey; apply cache_get_after_set; [exact Hup | simpl; lia]).
  rewrite (analyzeIntent_hit _ modelName text2 language result Hhit).
  repeat split. apply (answer_of_shape _ _ _ _ _ Hanswer).
Qed.

End WithRuntime.

(** The statement at the texts [Aa] and [BB], whose hashes are equal. *)
Lemma X10_shared_analysis_witness :
  let '(r1, w1, _) :=
    run_trace handle (analyzeIntent (RT := greeting_runtime) (EN := latin1_engine)
                        "openai/gpt-3.5-turbo" "Aa" "fr")
      answering_world in
  let '(r2, _, calls2) :=
    run_trace handle (analyzeIntent (RT := greeting_runtime) (EN := latin1_engine)
                        "openai/gpt-3.5-turbo" "BB" "fr")
      (at_time 601000 w1) in
  exists result,
    r1 = Ok result /\ r2 = Ok result /\ originalText result = "Aa"
    /\ model_invocations calls2 = 0%nat.
Proof.
  pose proof (X10_texts_with_one_hash_share_analysis (RT := greeting_runtime)
           (EN := latin1_engine) answering_world
           "openai/gpt-3.5-turbo" "Aa" "BB" "fr" {| choices := [Some "{}"] |}
           {| intent := "greeting"; confidence := clamp01 (9 # 10); entities := JObj [];
              sentiment := JStr "neutral"; originalText := "Aa"; language := "fr";
              timestamp := 1000; fallback := false |} 601000
           eq_refl eq_refl eq_refl eq_refl eq_refl
           ltac:(unfold answering_world, cold_world, cacheTTL; simpl; lia)) as H.
  destruct (run_trace handle (analyzeIntent (RT := greeting_runtime) (EN := latin1_engine)
                                "openai/gpt-3.5-turbo" "Aa" "fr") answering_world)
    as [[r1 w1] calls1].
  destruct (run_trace handle (analyzeIntent (RT := greeting_runtime) (EN := latin1_engine)
                                "openai/gpt-3.5-turbo" "BB" "fr") (at_time 601000 w1))
    as [[r2 w2] calls2].
  eexists. exact H.
Defined.

End AnalysisFacts.

(** ** Language detection *)

Module DetectionFacts.
Import NLPService LanguageDetection ProgFacts EngineFacts.

Definition is_model_request (c : Call LangE) : bool :=
  match c with
  | Called (ChatCompletion _) => true
  | Called _ => false
  end.

Definition model_requests (calls : list (Call LangE)) : nat :=
  List.length (List.filter is_model_request calls).

Section WithEngine.
Context {EN : Engine}.

Lemma quickLanguageDetection_supported (text language : jstring) :
  quickLanguageDetection text = Some language -> language = "fr" \/ language = "en".
Proof.
  unfold quickLanguageDetection. cbv zeta.
  destruct (_ && _); [intros [= <-]; now left|].
  destruct (_ && _); [intros [= <-]; now right | discriminate].
Qed.

Lemma validated_language (detected : jstring) :
  List.existsb (JsString.eqb detected) supportedLanguages = true ->
  detected = "fr" \/ detected = "en".
Proof.
  unfold supportedLanguages. simpl.
  destruct (StringFacts.eqb_spec detected "fr"); [now left|].
  destruct (StringFacts.eqb_spec detected "en"); [now right | discriminate].
Qed.

(** A supported language stored at the instant of [w] is served back. *)
Lemma stored_language_is_served (w : World) (key language : jstring) :
  LanguageDetection.redis_up w = true ->
  language = "fr" \/ language = "en" ->
  cache_get (snd (cache_set w key (Some language) cacheTTL)) key = Some language.
Proof.
  intros Hup Hl. unfold cache_set, cache_get. rewrite Hup. cbn [snd redis_up languages clock].
  rewrite lookup_insert_eq.
  assert ((LanguageDetection.clock w <? LanguageDetection.clock w + cacheTTL * 1000)%Z = true)
    as -> by (apply Z.ltb_lt; unfold cacheTTL; lia).
  destruct Hl as [-> | ->]; reflexivity.
Qed.

(** X11: [detectLanguage] asks the hosted model at most once, and not at
    all on a cache hit or when the keyword count decides.  After a miss
    it returns [fr], [en] or [null]; a language it returns is stored and
    served to the next call, a [null] is never served from the cache;
    and while Redis is down it returns [null] for every text, because
    the failed store is caught by the same handler. *)
Theorem X11_detectLanguage_outcomes (w : World) (modelName text : jstring) :
  let key := languageCacheKey text in
  let '(r, w', calls) := run_trace handle (detectLanguage modelName text) w in
  (model_requests calls <= 1)%nat
  /\ (forall cached, cache_get w key = Some cached ->
        r = Some cached /\ w' = w /\ model_requests calls = 0%nat)
  /\ (cache_get w key = None ->
      (forall language, r = Some language ->
         (language = "fr" \/ language = "en") /\ cache_get w' key = Some language)
      /\ (r = None -> cache_get w' key = None)
      /\ (LanguageDetection.redis_up w = false -> r = None)
      /\ (forall language, quickLanguageDetection text = Some language ->
            model_requests calls = 0%nat
            /\ (LanguageDetection.redis_up w = true -> r = Some language))).
Proof.
  intros key. unfold detectLanguage, detectLanguage_body, await, call.
  cbn [bind run_trace handle]. fold key.
  destruct (cache_get w key) as [cached|] eqn:Hget.
  - cbn. split; [unfold model_requests; simpl; lia|].
    split; [intros ? [= <-]; auto | discriminate].
  - destruct (quickLanguageDetection text) as [quick|] eqn:Hq.
    + pose proof (quickLanguageDetection_supported _ _ Hq) as Hsupported.
      cbn [bind run_trace handle].
      pose proof (stored_language_is_served w key quick) as Hserved.
      unfold cache_set in *. destruct (LanguageDetection.redis_up w) eqn:Hup.
      * cbn. split; [unfold model_requests; simpl; lia|]. split; [discriminate|].
        intros _. split; [intros ? [= <-]; split; [exact Hsupported | now apply Hserved]|].
        split; [discriminate|]. split; [discriminate|].
        intros ? [= <-]. split; [reflexivity | reflexivity].
      * cbn. split; [unfold model_requests; simpl; lia|]. split; [discriminate|].
        intros _. split; [discriminate|]. split; [intros _; exact Hget|].
        split; [reflexivity|]. intros ? _. split; [reflexivity | discriminate].
    + cbn [bind run_trace handle].
      destruct (hosted w (language_request modelName text)) as [response|e].
      * cbn [bind run_trace handle].
        destruct (first_content response) as [content|e].
        -- cbn [bind run_trace handle].
           set (detected := toLowerCase (trim content)).
           pose proof (validated_language detected) as Hvalid.
           pose proof (stored_language_is_served w key detected) as Hserved.
           unfold cache_set, cache_get in *.
           destruct (LanguageDetection.redis_up w) eqn:Hup.
           ++ destruct (List.existsb (JsString.eqb detected) supportedLanguages).
              ** cbn. rewrite ?Hup.
                 split; [unfold model_requests; simpl; lia|]. split; [discriminate|].
                 intros _. split; [intros ? [= <-]; split; [now apply Hvalid|]|].
                 { specialize (Hserved eq_refl (Hvalid eq_refl)). cbn in Hserved.
                   rewrite ?Hup in Hserved. exact Hserved. }
                 split; [discriminate|]. split; [discriminate|]. discriminate.
              ** cbn. rewrite ?Hup. rewrite lookup_insert_eq.
                 split; [unfold model_requests; simpl; lia|]. split; [discriminate|].
                 intros _. split; [discriminate|]. split; [reflexivity|].
                 split; [discriminate | discriminate].
           ++ destruct (List.existsb (JsString.eqb detected) supportedLanguages);
                cbn; rewrite ?Hup;
                (split; [unfold model_requests; simpl; lia|]); (split; [discriminate|]);
                intros _; (split; [discriminate|]); (split; [reflexivity|]);
                (split; [reflexivity | discriminate]).
        -- cbn. split; [unfold model_requests; simpl; lia|]. split; [discriminate|].
           intros _. split; [discriminate|]. split; [intros _; exact Hget|].
           split; [reflexivity | discriminate].
      * cbn. split; [unfold model_requests; simpl; lia|]. split; [discriminate|].
        intros _. split; [discriminate|]. split; [intros _; exact Hget|].
        split; [reflexivity | discriminate].
Qed.

(** A French word in capitals counts like any other: one word of each
    language is a tie, which the keyword count leaves to the hosted
    model. *)
Example quickLanguageDetection_tie :
  quickLanguageDetection "hello PROBLÈME" = None
  /\ quickLanguageDetection "hello problem" = Some "en".
Proof. unfold quickLanguageDetection. lower_literals. split; reflexivity. Qed.

End WithEngine.

(** With Redis down even [Bonjour] is not recognized. *)
Example detectLanguage_redis_down :
  fst (fst (run_trace handle
              (detectLanguage (EN := latin1_engine) "openai/gpt-3.5-turbo" "Bonjour, merci")
              {| LanguageDetection.redis_up := false; languages := ∅;
                 LanguageDetection.clock := 0;
                 LanguageDetection.hosted := fun _ => Ok {| choices := [Some "fr"] |} |}))
  = None
  /\ quickLanguageDetection (EN := latin1_engine) "Bonjour, merci" = Some "fr".
Proof. split; reflexivity. Qed.

End DetectionFacts.

(** ** Replies of the orchestrator *)

Module ReplyFacts.
Import Orchestrator ProgFacts HandoffFacts EngineFacts.

Definition is_chat_call (c : Call OrchE) : bool :=
  match c with
  | Called (ChatCompletion _) => true
  | Called _ => false
  end.

Definition reply_request (cfg : Config) (text language : jstring) : NLPService.ChatRequest :=
  NLPService.Build_ChatRequest (modelName cfg) text language 200%Z (7 # 10)%Q.

Section WithEngine.
Context {EN : Engine}.

(** The filter of [generateAIResponse]: at least 15 code units, and
    none of the phrases that mark an unhelpful answer. *)
Definition passes_filter (answer : jstring) : bool :=
  negb (List.existsb (fun phrase => includes (toLowerCase answer) (toLowerCase phrase))
          veryUnhelpfulPhrases)
  && (15 <=? List.length answer)%nat.

(** The answer generated from what the hosted model returns in [w]:
    the trimmed content of the first choice when it passes the filter. *)
Definition generated_answer {W} (h : Handler OrchE W) (w : W) (cfg : Config)
  (text language : jstring) : option jstring :=
  match fst (h _ (ChatCompletion (reply_request cfg text language)) w) with
  | Ok response =>
      match NLPService.first_content response with
      | Ok content => if passes_filter (trim content) then Some (trim content) else None
      | Throw _ => None
      end
  | Throw _ => None
  end.

(** The run of [generateAIResponse]: one call, and the generated
    answer. *)
Lemma generateAIResponse_run {W} (h : Handler OrchE W) (w : W) (cfg : Config)
  (text language : jstring) :
  run_trace h (generateAIResponse cfg text language) w
  = (generated_answer h w cfg text language,
     snd (h _ (ChatCompletion (reply_request cfg text language)) w),
     [Called (ChatCompletion (reply_request cfg text language))]).
Proof.
  unfold generateAIResponse, generated_answer, passes_filter, call.
  fold (reply_request cfg text language). cbn [bind run_trace].
  destruct (h _ (ChatCompletion (reply_request cfg text language)) w) as [[response|e] w'];
    cbn [fst snd]; [|reflexivity].
  destruct (NLPService.first_content response) as [content|e]; [|reflexivity].
  cbv zeta.
  destruct (List.existsb _ veryUnhelpfulPhrases); [reflexivity|].
  cbn [negb andb orb].
  destruct (Nat.ltb_spec (List.length (trim content)) 15) as [Hl | Hl].
  - assert ((15 <=? List.length (trim content))%nat = false) as -> by (apply Nat.leb_gt; lia).
    reflexivity.
  - assert ((15 <=? List.length (trim content))%nat = true) as -> by (apply Nat.leb_le; lia).
    reflexivity.
Qed.

Lemma generated_answer_filtered {W} (h : Handler OrchE W) (w : W) (cfg : Config)
  (text language answer : jstring) :
  generated_answer h w cfg text language = Some answer ->
  (15 <= List.length answer)%nat
  /\ (forall phrase, List.In phrase veryUnhelpfulPhrases ->
        includes (toLowerCase answer) (toLowerCase phrase) = false)
  /\ exists response content,
       fst (h _ (ChatCompletion (reply_request cfg text language)) w) = Ok response
       /\ NLPService.first_content response = Ok content /\ answer = trim content.
Proof.
  unfold generated_answer, passes_filter.
  destruct (fst (h _ (ChatCompletion (reply_request cfg text language)) w)) as [response|e];
    [|discriminate].
  destruct (NLPService.first_content response) as [content|e] eqn:Hc; [|discriminate].
  destruct (List.existsb _ veryUnhelpfulPhrases) eqn:Hu; [discriminate|].
  cbn [negb andb].
  destruct (15 <=? List.length (trim content))%nat eqn:Hl; [|discriminate].
  intros [= <-]. split; [now apply Nat.leb_le|].
  split; [|exists response, content; repeat split; assumption].
  intros phrase Hin.
  destruct (includes (toLowerCase (trim content)) (toLowerCase phrase)) eqn:E; [|reflexivity].
  assert (List.existsb
            (fun phrase => includes (toLowerCase (trim content)) (toLowerCase phrase))
            veryUnhelpfulPhrases = true)
    by (apply List.existsb_exists; exists phrase; split; assumption).
  congruence.
Qed.

(** The reply of [ai_or]: the generated answer when there is one, what
    [otherwise] replies if not. *)
Lemma ai_or_run {W} (h : Handler OrchE W) (w : W) (cfg : Config) (text : jstring)
  (user : User) (session : Session) (otherwise : Prog OrchE (Session * Response)) :
  let request := reply_request cfg text (user_language user) in
  run_trace h (ai_or cfg text user session otherwise) w =
  match generated_answer h w cfg text (user_language user) with
  | Some answer => ((session, TextResponse answer), snd (h _ (ChatCompletion request) w),
                    [Called (ChatCompletion request)])
  | None =>
      let '(s, w'', calls') := run_trace h otherwise (snd (h _ (ChatCompletion request) w)) in
      (s, w'', Called (ChatCompletion request) :: calls')
  end.
Proof.
  cbv zeta. unfold ai_or. rewrite run_trace_bind, generateAIResponse_run.
  destruct (generated_answer h w cfg text (user_language user)) as [answer|] eqn:Hg;
    [|reflexivity].
  destruct (generated_answer_filtered h w cfg text (user_language user) answer Hg) as (Hlen & _).
  assert ((10 <? List.length answer)%nat = true) as -> by (apply Nat.ltb_lt; lia).
  reflexivity.
Qed.

(** X12: [generateAIResponse] asks the hosted model once and returns an
    answer exactly when the trimmed content of the first choice has at
    least 15 code units and contains none of the phrases that mark an
    unhelpful answer; so the callers' test that the answer is longer
    than 10 code units never fails: the reply of [ai_or] is the
    generated answer whenever there is one, and the fallback of the
    caller otherwise. *)
Theorem X12_generated_answer_is_filtered {W} (h : Handler OrchE W) (w : W) (cfg : Config)
  (text : jstring) (user : User) (session : Session)
  (otherwise : Prog OrchE (Session * Response)) :
  let '(r, w', calls) := run_trace h (generateAIResponse cfg text (user_language user)) w in
  calls = [Called (ChatCompletion (reply_request cfg text (user_language user)))]
  /\ r = match fst (h _ (ChatCompletion (reply_request cfg text (user_language user))) w) with
         | Ok response =>
             match NLPService.first_content response with
             | Ok content => if passes_filter (trim content) then Some (trim content) else None
             | Throw _ => None
             end
         | Throw _ => None
         end
  /\ (forall answer, passes_filter answer = true <->
         (15 <= List.length answer)%nat
         /\ forall phrase, List.In phrase veryUnhelpfulPhrases ->
               includes (toLowerCase answer) (toLowerCase phrase) = false)
  /\ fst (fst (run_trace h (ai_or cfg text user session otherwise) w))
     = match r with
       | Some answer => (session, TextResponse answer)
       | None => fst (fst (run_trace h otherwise w'))
       end.
Proof.
  pose proof (ai_or_run h w cfg text user session otherwise) as Hor. cbv zeta in Hor.
  rewrite generateAIResponse_run, Hor.
  split; [reflexivity|]. split; [reflexivity|]. split.
  - intros answer. unfold passes_filter. rewrite andb_true_iff, negb_true_iff, Nat.leb_le.
    split.
    + intros [Hu Hl]. split; [exact Hl|]. intros phrase Hin.
      destruct (includes (toLowerCase answer) (toLowerCase phrase)) eqn:E; [|reflexivity].
      assert (List.existsb (fun phrase => includes (toLowerCase answer) (toLowerCase phrase))
                veryUnhelpfulPhrases = true)
        by (apply List.existsb_exists; exists phrase; split; assumption).
      congruence.
    + intros [Hl Hu]. split; [|exact Hl].
      destruct (List.existsb _ veryUnhelpfulPhrases) eqn:E; [|reflexivity].
      apply List.existsb_exists in E as (phrase & Hin & Hp).
      rewrite (Hu phrase Hin) in Hp. discriminate.
  - destruct (generated_answer h w cfg text (user_language user)); [reflexivity|].
    destruct (run_trace h otherwise _) as [[s w''] calls']. reflexivity.
Qed.

End WithEngine.

(** An answer of 13 letters, two of them accented, is too short. *)
Example short_accented_answer_is_dropped :
  fst (fst (run_trace handle
              (generateAIResponse (EN := latin1_engine) default_config "Bonjour" "fr")
              {| conversations := []; next_id := 1; journal := []; db_fails := fun _ => false;
                 db_ops := 0; clock := 0; hours := 10; detect := fun _ => None;
                 classify := fun _ _ => Throw (ExternalError None "unused");
                 kb := fun _ _ => None;
                 chat := fun _ => Ok {| NLPService.choices := [Some "Réessayez là."] |};
                 create_ticket := fun _ _ => TextResponse "";
                 ticket_status := fun _ => TextResponse "" |}))
  = None
  /\ List.length ("Réessayez là." : jstring) = 13%nat.
Proof. split; reflexivity. Qed.

(** *** What [handleIntent] does to the session *)

Definition handler_keys : list jstring :=
  ["pendingHandoff"; "handoffReason"; "handoffTimestamp"; "endedAt"].

(** The part of a session no intent handler touches. *)
Definition same_session_frame (before after : Session) : Prop :=
  conversationId after = conversationId before
  /\ session_language after = session_language before
  /\ lastActivity after = lastActivity before
  /\ forall key, ~ List.In key handler_keys -> context after !! key = context before !! key.

Lemma same_session_frame_refl (session : Session) : same_session_frame session session.
Proof. repeat split. Qed.

Section WithEngine.
Context {EN : Engine}.

Lemma ai_or_session {W} (h : Handler OrchE W) (w : W) (cfg : Config) (text : jstring)
  (user : User) (session : Session) (otherwise : Prog OrchE (Session * Response)) :
  (forall w', fst (fst (fst (run_trace h otherwise w'))) = session) ->
  fst (fst (fst (run_trace h (ai_or cfg text user session otherwise) w))) = session.
Proof.
  intros Hother. pose proof (ai_or_run h w cfg text user session otherwise) as Hor.
  cbv zeta in Hor. rewrite Hor.
  destruct (generated_answer h w cfg text (user_language user)); [reflexivity|].
  specialize (Hother (snd (h _ (ChatCompletion (reply_request cfg text (user_language user))) w))).
  destruct (run_trace h otherwise _) as [[s w''] calls']. exact Hother.
Qed.

(** X13: [handleIntent] changes the session only for the intents
    [contact_agent] and [goodbye]: for every other intent, known or not,
    the session comes back as it was; the [status] of the session is set
    only by [goodbye]; and no handler touches the conversation id, the
    language, the last activity or a context key other than the three
    hand-off keys and [endedAt]. *)
Theorem X13_handleIntent_session_effects {W} (h : Handler OrchE W) (w : W) (cfg : Config)
  (nlpResult : NLPService.IntentResult) (user : User) (session : Session) (text : jstring) :
  let session' :=
    fst (fst (fst (run_trace h (handleIntent cfg nlpResult user session text) w))) in
  same_session_frame session session'
  /\ (NLPService.intent nlpResult <> "contact_agent" ->
      NLPService.intent nlpResult <> "goodbye" -> session' = session)
  /\ (NLPService.intent nlpResult <> "goodbye" ->
      session_status session' = session_status session)
  /\ (NLPService.intent nlpResult <> "contact_agent" ->
      context session' !! "pendingHandoff" = context session !! "pendingHandoff").
Proof.
  cbv zeta.
  assert (forall s, s = session ->
            same_session_frame session s
            /\ (NLPService.intent nlpResult <> "contact_agent" ->
                NLPService.intent nlpResult <> "goodbye" -> s = session)
            /\ (NLPService.intent nlpResult <> "goodbye" ->
                session_status s = session_status session)
            /\ (NLPService.intent nlpResult <> "contact_agent" ->
                context s !! "pendingHandoff" = context session !! "pendingHandoff"))
    as Hsame.
  { intros s ->. split; [apply same_session_frame_refl | auto]. }
  assert (forall w', fst (fst (fst (run_trace h (getFallbackResponse cfg user session) w')))
                     = session) as Hfallback by reflexivity.
  assert (forall w', fst (fst (fst (run_trace h (handleHelp cfg user session) w')))
                     = session) as Hhelp by reflexivity.
  unfold handleIntent. cbv zeta.
  destruct (JsString.eqb (NLPService.intent nlpResult) "greeting").
  { apply Hsame. unfold handleGreeting, getTimeOfDay, call. cbn [bind run_trace].
    destruct (h _ GetHours w) as [hour w']. reflexivity. }
  destruct (JsString.eqb (NLPService.intent nlpResult) "help").
  { apply Hsame. destruct (asks_who text); [reflexivity|]. now apply ai_or_session. }
  destruct (JsString.eqb (NLPService.intent nlpResult) "create_ticket").
  { apply Hsame. unfold call. cbn [bind run_trace].
    destruct (h _ (HandleCreateTicket _ _ _) w) as [response w']. reflexivity. }
  destruct (JsString.eqb (NLPService.intent nlpResult) "check_ticket_status").
  { apply Hsame. unfold call. cbn [bind run_trace].
    destruct (h _ (HandleCheckTicketStatus _) w) as [response w']. reflexivity. }
  destruct (JsString.eqb (NLPService.intent nlpResult) "faq").
  { apply Hsame. unfold handleFAQ, call. cbv zeta.
    destruct (JsString.eqb text ""); [reflexivity|]. cbn [bind run_trace].
    destruct (h _ (KbSearch _ _) w) as [[found|] w']; [|reflexivity].
    destruct (KnowledgeBaseService.Qgt_bool _ _); reflexivity. }
  destruct (StringFacts.eqb_spec (NLPService.intent nlpResult) "contact_agent") as [Hagent|Hagent].
  { unfold initiateHumanHandoff, call. cbn [bind run_trace].
    destruct (h _ DateNow w) as [now w']. cbn [fst].
    split; [|split; [|split]].
    - repeat split. cbn [context]. intros key Hkey. unfold handler_keys in Hkey. simpl in Hkey.
      rewrite !lookup_insert_ne; [reflexivity | | |]; intros <-; tauto.
    - intros Hno. now destruct Hno.
    - reflexivity.
    - intros Hno. now destruct Hno. }
  destruct (StringFacts.eqb_spec (NLPService.intent nlpResult) "goodbye") as [Hbye|Hbye].
  { unfold handleGoodbye, call. cbn [bind run_trace].
    destruct (h _ DateNow w) as [now w']. cbn [fst].
    split; [|split; [|split]].
    - repeat split. cbn [context]. intros key Hkey. unfold handler_keys in Hkey. simpl in Hkey.
      rewrite lookup_insert_ne; [reflexivity|]. intros <-. tauto.
    - intros _ Hno. now destruct Hno.
    - intros Hno. now destruct Hno.
    - intros _. cbn [context]. now rewrite lookup_insert_ne. }
  destruct (JsString.eqb (NLPService.intent nlpResult) "technical_support").
  { apply Hsame. now apply ai_or_session. }
  destruct (JsString.eqb (NLPService.intent nlpResult) "product_inquiry").
  { apply Hsame. destruct (asks_capabilities text); [reflexivity|]. now apply ai_or_session. }
  apply Hsame. now apply ai_or_session.
Qed.

End WithEngine.

End ReplyFacts.

(** ** Messages without a confident intent *)

Module LowConfidenceFacts.
Import Orchestrator ProgFacts HandoffFacts ReplyFacts EngineFacts.

Section WithEngine.
Context {EN : Engine}.

Lemma switch_language_no_chat {W} (h : Handler OrchE W) (w : W) cfg text user :
  let '(_, _, calls) := run_trace h (switch_language cfg text user) w in
  List.existsb is_chat_call calls = false.
Proof.
  unfold switch_language, call. cbn [bind run_trace].
  destruct (h _ (DetectLanguage text) w) as [[detected|] w1]; [|reflexivity].
  destruct (_ && _ && _); cbn [bind run_trace]; [|reflexivity].
  destruct (h _ (UserUpdateLanguage (user_id user) detected) w1) as [? w2]. reflexivity.
Qed.

(** The reply when neither the classifier nor the knowledge base
    decides: the answer generated from what the hosted model returns,
    or the conversational fallback with the main buttons when no answer
    passes the filter. *)
Definition generated_or_fallback (cfg : Config) (user : User) (generated : option jstring)
  : Response :=
  match generated with
  | Some answer => TextResponse answer
  | None =>
      InteractiveResponse (Localization.getFallbackConversationalMessage (user_language user))
        (main_buttons cfg (user_language user))
  end.

Lemma ai_or_fallback_run {W} (h : Handler OrchE W) (w : W) cfg text user session :
  let request := reply_request cfg text (user_language user) in
  run_trace h (ai_or cfg text user session (getFallbackResponse cfg user session)) w
  = ((session, generated_or_fallback cfg user
                 (generated_answer h w cfg text (user_language user))),
     snd (h _ (ChatCompletion request) w), [Called (ChatCompletion request)]).
Proof.
  pose proof (ai_or_run h w cfg text user session (getFallbackResponse cfg user session)) as Hor.
  cbv zeta in Hor |- *. rewrite Hor. unfold generated_or_fallback.
  destruct (generated_answer h w cfg text (user_language user)); reflexivity.
Qed.

(** X14: for a text without a hand-off keyword, after the language
    switch, [processTextMessage] asks the classifier once.  If the
    classifier raises, the exception goes to the caller and neither the
    knowledge base nor the hosted model is asked.  If its confidence is
    below the threshold, the knowledge base is searched: an answer whose
    confidence exceeds the knowledge base threshold is sent as it is,
    without asking the hosted model; otherwise the hosted model is asked
    once and the reply is the trimmed content of its first choice when
    that has at least 15 code units and no unhelpful phrase, and the
    conversational fallback with the main buttons when it has not or
    when the call fails.  In all these cases the session is left as it
    was. *)
Theorem X14_processTextMessage_without_confident_intent {W} (h : Handler OrchE W) (w : W)
  (cfg : Config) (text : jstring) (user : User) (session : Session) :
  shouldTransferToHuman cfg text (user_language user) = false ->
  let '(user1, w1, calls1) := run_trace h (switch_language cfg text user) w in
  let '(analysed, w2) := h _ (AnalyzeIntent text (user_language user1)) w1 in
  let '(user', session', response, _, calls) :=
    run_trace h (processTextMessage cfg text user session) w in
  user' = user1
  /\ match analysed with
     | Throw e =>
         response = Throw e /\ session' = session
         /\ calls = calls1 ++ [Called (AnalyzeIntent text (user_language user1))]
     | Ok nlpResult =>
         Qle_bool (confidenceThreshold cfg) (NLPService.confidence nlpResult) = false ->
         let '(kbResult, w3) := h _ (KbSearch text (user_language user1)) w2 in
         let generated :=
           response
           = Ok (generated_or_fallback cfg user1
                   (generated_answer h w3 cfg text (user_language user1)))
           /\ calls = calls1 ++ [Called (AnalyzeIntent text (user_language user1));
                                 Called (KbSearch text (user_language user1));
                                 Called (ChatCompletion
                                           (reply_request cfg text (user_language user1)))] in
         session' = session
         /\ match kbResult with
            | Some found =>
                if KnowledgeBaseService.Qgt_bool (KnowledgeBaseService.r_confidence found)
                     (knowledgeBaseThreshold cfg)
                then response = Ok (TextResponse (KnowledgeBaseService.r_answer found))
                     /\ List.existsb is_chat_call calls = false
                else generated
            | None => generated
            end
     end.
Proof.
  intros Hno. unfold processTextMessage. rewrite run_trace_bind.
  pose proof (switch_language_no_chat h w cfg text user) as Hchat.
  destruct (run_trace h (switch_language cfg text user) w) as [[user1 w1] calls1].
  rewrite (GoodbyeFacts.shouldTransferToHuman_any_language
             cfg text (user_language user1) (user_language user)).
  rewrite Hno. unfold call. cbn [bind run_trace].
  destruct (h _ (AnalyzeIntent text (user_language user1)) w1) as [[nlpResult|e] w2];
    [|cbn; auto].
  destruct (Qle_bool (confidenceThreshold cfg) (NLPService.confidence nlpResult)) eqn:Hconf.
  { rewrite run_trace_bind.
    destruct (run_trace h (handleIntent cfg nlpResult user1 session text) w2)
      as [[[session' response] w3] calls2].
    cbn. split; [reflexivity | discriminate]. }
  cbn [bind run_trace].
  pose proof (ai_or_fallback_run h) as Hai.
  destruct (h _ (KbSearch text (user_language user1)) w2) as [[found|] w3]; cbn [fst].
  - destruct (KnowledgeBaseService.Qgt_bool _ _).
    + cbn. split; [reflexivity|].
      intros _. split; [reflexivity|]. split; [reflexivity|].
      rewrite List.existsb_app, Hchat. reflexivity.
    + rewrite run_trace_bind. specialize (Hai w3 cfg text user1 session).
      cbv zeta in Hai. rewrite Hai. cbn.
      split; [reflexivity|].
      intros _. split; [reflexivity|]. split; reflexivity.
  - rewrite run_trace_bind. specialize (Hai w3 cfg text user1 session).
    cbv zeta in Hai. rewrite Hai. cbn.
    split; [reflexivity|].
    intros _. split; [reflexivity|]. split; reflexivity.
Qed.

End WithEngine.

(** A world whose classifier is unsure and whose knowledge base knows
    the opening hours. *)
Definition unsure_result (text : jstring) : NLPService.IntentResult :=
  {| NLPService.intent := "faq"; NLPService.confidence := (2 # 10)%Q;
     NLPService.entities := NLPService.JObj []; NLPService.sentiment := NLPService.JStr "neutral";
     NLPService.originalText := text; NLPService.language := "en";
     NLPService.timestamp := 60000; NLPService.fallback := false |}.

Definition opening_hours : KnowledgeBaseService.SearchResult :=
  {| KnowledgeBaseService.r_id := "kb1";
     KnowledgeBaseService.r_question := "What are your opening hours?";
     KnowledgeBaseService.r_answer := "We are open from 8am to 6pm, Monday to Friday.";
     KnowledgeBaseService.r_category := "general";
     KnowledgeBaseService.r_confidence := (9 # 10)%Q;
     KnowledgeBaseService.r_source := KnowledgeBaseService.keyword |}.

Definition unsure_world : World :=
  {| conversations := []; next_id := 1; journal := []; db_fails := fun _ => false;
     db_ops := 0; clock := 60000; hours := 10;
     detect := fun _ => None;
     classify := fun text _ => Ok (unsure_result text);
     kb := fun _ _ => Some opening_hours;
     chat := fun _ => Throw (ExternalError None "unreachable");
     create_ticket := fun _ _ => TextResponse "";
     ticket_status := fun _ => TextResponse "" |}.

Lemma X14_knowledge_base_answer_witness :
  let '(_, session', response, _, calls) :=
    run_trace handle
      (processTextMessage (EN := latin1_engine) default_config "when are you open"
         GoodbyeFacts.alice
         GoodbyeFacts.fresh_session)
      unsure_world in
  session' = GoodbyeFacts.fresh_session
  /\ response = Ok (TextResponse "We are open from 8am to 6pm, Monday to Friday.")
  /\ List.existsb is_chat_call calls = false.
Proof.
  pose proof (X14_processTextMessage_without_confident_intent (EN := latin1_engine) handle
                unsure_world
                default_config "when are you open" GoodbyeFacts.alice
                GoodbyeFacts.fresh_session eq_refl) as H.
  vm_compute in H. destruct H as (_ & H). specialize (H eq_refl).
  vm_compute. exact H.
Defined.

End LowConfidenceFacts.

(** ** Results of the knowledge base search *)

Module ResultFacts.
Import KnowledgeBaseService ProgFacts SearchFacts ConfidenceFacts EngineFacts.

Lemma insert_desc_in {A} (ge : A -> A -> bool) (a x : A) (l : list A) :
  List.In x (insert_desc ge a l) <-> x = a \/ List.In x l.
Proof.
  induction l as [|y l IH]; simpl; [intuition|].
  destruct (ge a y); simpl; [intuition|]. rewrite IH. intuition.
Qed.

Lemma sort_desc_in {A} (ge : A -> A -> bool) (x : A) (l : list A) :
  List.In x (sort_desc ge l) <-> List.In x l.
Proof.
  induction l as [|a l IH]; simpl; [reflexivity|].
  rewrite insert_desc_in, IH. intuition.
Qed.

Lemma firstn_in {A} (n : nat) (x : A) (l : list A) : List.In x (firstn n l) -> List.In x l.
Proof.
  revert n. induction l as [|a l IH]; intros [|n]; simpl; try tauto.
  intros [-> | H]; [now left | right; exact (IH n H)].
Qed.

(** A list in descending order of confidence. *)
Fixpoint descending (l : list SearchResult) : Prop :=
  match l with
  | [] => True
  | a :: rest =>
      List.Forall (fun b => (r_confidence b <= r_confidence a)%Q) rest /\ descending rest
  end.

Lemma by_confidence_false (a b : SearchResult) :
  by_confidence a b = false -> (r_confidence a <= r_confidence b)%Q.
Proof.
  unfold by_confidence. intros H.
  destruct (Qlt_le_dec (r_confidence a) (r_confidence b)) as [Hlt | Hle]; [now apply Qlt_le_weak|].
  apply Qle_bool_iff in Hle. congruence.
Qed.

Lemma insert_desc_descending (a : SearchResult) (l : list SearchResult) :
  descending l -> descending (insert_desc by_confidence a l).
Proof.
  induction l as [|y l IH]; simpl; [auto|].
  intros [Hy Hl]. destruct (by_confidence a y) eqn:E.
  - unfold by_confidence in E. apply Qle_bool_iff in E. simpl. split; [|auto].
    constructor; [exact E|]. eapply List.Forall_impl; [|exact Hy].
    intros b Hb. simpl in Hb. now apply (Qle_trans _ (r_confidence y)).
  - apply by_confidence_false in E. simpl. split; [|now apply IH].
    apply List.Forall_forall. intros b Hb. apply insert_desc_in in Hb as [-> | Hb]; [exact E|].
    rewrite List.Forall_forall in Hy. now apply Hy.
Qed.

Lemma sort_desc_descending (l : list SearchResult) : descending (sort_desc by_confidence l).
Proof.
  induction l as [|a l IH]; simpl; [exact I|]. now apply insert_desc_descending.
Qed.

Lemma firstn_descending (n : nat) (l : list SearchResult) :
  descending l -> descending (firstn n l).
Proof.
  revert n. induction l as [|a l IH]; intros [|n]; simpl; auto.
  intros [Ha Hl]. split; [|now apply IH].
  apply List.Forall_forall. intros b Hb. apply firstn_in in Hb.
  rewrite List.Forall_forall in Ha. now apply Ha.
Qed.

Lemma Qgt_bool_lt (a b : Q) : Qgt_bool a b = true -> (b < a)%Q.
Proof.
  unfold Qgt_bool. intros H. apply negb_true_iff in H.
  destruct (Qlt_le_dec b a) as [Hlt | Hle]; [exact Hlt|].
  apply Qle_bool_iff in Hle. congruence.
Qed.

Section WithEngine.
Context {EN : Engine}.

Lemma calculateKeywordConfidence_le_1 query queryWords entry :
  (calculateKeywordConfidence query queryWords entry <= 1)%Q.
Proof. unfold calculateKeywordConfidence. apply Q.le_min_r. Qed.

(** X15: whatever the database returns, [searchByKeywords] gives at most
    [limit] results, in descending order of confidence, each from the
    keyword tier with a confidence above 0.3 and at most 1; and it does
    not query the database at all when no word of the query has more
    than two code units.  The confidences are binary64 numbers and 0.3
    stands for the double nearest to it, [JsNumber.double (3 # 10)]. *)
Theorem X15_searchByKeywords_results {W} (h : Handler KbE W) (w : W)
  (query language : jstring) (limit : nat) :
  let '(results, _, calls) := run_trace h (searchByKeywords query language limit) w in
  (List.length results <= limit)%nat
  /\ descending results
  /\ (forall r, List.In r results ->
        r_source r = keyword /\ (JsNumber.double (3 # 10) < r_confidence r)%Q
        /\ (r_confidence r <= 1)%Q)
  /\ ((forall word, List.In word (split is_blank query) -> (List.length word <= 2)%nat) ->
      results = [] /\ calls = []).
Proof.
  unfold searchByKeywords. cbv zeta.
  destruct (List.filter _ (split is_blank query)) as [|word words] eqn:Hwords.
  - simpl. repeat split; auto; try lia; tauto.
  - unfold call. cbn [bind run_trace].
    destruct (h _ (FindByKeywords query (word :: words) language (limit * 2)) w)
      as [[entries|e] w'].
    + cbn [run_trace]. split; [rewrite length_firstn; lia|].
      split; [apply firstn_descending, sort_desc_descending|]. split.
      * intros r Hr. apply firstn_in in Hr. apply sort_desc_in in Hr.
        apply List.filter_In in Hr as [Hin Hconf]. apply Qgt_bool_lt in Hconf.
        apply List.in_map_iff in Hin as (entry & <- & _).
        split; [reflexivity|]. split; [exact Hconf|]. apply calculateKeywordConfidence_le_1.
      * intros Hshort. exfalso.
        assert (List.In word (word :: words)) as Hin by now left.
        rewrite <- Hwords in Hin.
        apply List.filter_In in Hin as [Hin Hlen]. apply Nat.ltb_lt in Hlen.
        specialize (Hshort word Hin). lia.
    + cbn [run_trace]. split; [simpl; lia|]. split; [exact I|]. split; [intros r []|].
      intros Hshort. exfalso.
      assert (List.In word (word :: words)) as Hin by now left.
      rewrite <- Hwords in Hin.
      apply List.filter_In in Hin as [Hin Hlen]. apply Nat.ltb_lt in Hlen.
      specialize (Hshort word Hin). lia.
Qed.

(** *** What [search] can return *)

(** A result that presents an active entry of the table in the language. *)
Definition presents (t : list KBEntry) (lang : jstring) (r : SearchResult) : Prop :=
  exists entry,
    List.In entry t /\ active_in lang entry = true
    /\ r_id r = id entry /\ r_question r = question entry
    /\ r_answer r = answer entry /\ r_category r = category entry.

Definition sound (t : list KBEntry) (lang : jstring) (results : list SearchResult) : Prop :=
  forall r, List.In r results ->
    presents t lang r /\ (JsNumber.double (3 # 10) < r_confidence r)%Q.

Lemma find_by_keywords_active t query queryWords lang n entry :
  List.In entry (find_by_keywords t query queryWords lang n) ->
  List.In entry t /\ active_in lang entry = true.
Proof.
  unfold find_by_keywords. intros H. apply firstn_in in H. apply sort_desc_in in H.
  apply List.filter_In in H as [Hin Hact]. apply andb_true_iff in Hact as [Hact _]. auto.
Qed.

Lemma find_most_used_active t lang n entry :
  List.In entry (find_most_used t lang n) -> List.In entry t /\ active_in lang entry = true.
Proof.
  unfold find_most_used. intros H. apply firstn_in in H. apply sort_desc_in in H.
  apply List.filter_In in H as [Hin Hact]. auto.
Qed.

Lemma with_scores_in entries scores r :
  List.In r (with_scores entries scores) ->
  exists entry s, List.In entry entries /\ r = to_result semantic s entry.
Proof.
  revert scores. induction entries as [|entry entries IH]; intros scores; simpl; [tauto|].
  intros [<- | H].
  - eexists _, _. split; [now left | reflexivity].
  - destruct (IH _ H) as (e & s & Hin & ->). exists e, s. split; [now right | reflexivity].
Qed.

(** The worlds reached by the queries of a search. *)
Definition same_stores (w w' : World) : Prop :=
  table w' = table w /\ redis_up w' = redis_up w /\ cached w' = cached w
  /\ clock w' = clock w /\ prisma_ready w' = prisma_ready w.

Lemma same_stores_refl w : same_stores w w.
Proof. repeat split. Qed.

Lemma same_stores_query w : same_stores w (after_query w).
Proof. repeat split. Qed.

Lemma searchByKeywords_sound (w : World) query lang limit :
  let '(results, w') := run handle (searchByKeywords query lang limit) w in
  same_stores w w' /\ sound (table w) lang results.
Proof.
  unfold searchByKeywords. cbv zeta.
  destruct (List.filter _ (split is_blank query)) as [|word words].
  - simpl. split; [apply same_stores_refl | intros r []].
  - unfold call. cbn [bind run handle]. unfold query_db.
    destruct (db_fails w (db_queries w)); cbn [run].
    + split; [apply same_stores_query | intros r []].
    + split; [apply same_stores_query|]. intros r Hr.
      apply firstn_in in Hr. apply sort_desc_in in Hr.
      apply List.filter_In in Hr as [Hin Hconf]. apply Qgt_bool_lt in Hconf.
      apply List.in_map_iff in Hin as (entry & <- & Hentry).
      apply find_by_keywords_active in Hentry as [Hin Hact].
      split; [exists entry; repeat split; auto | exact Hconf].
Qed.

Lemma searchSemantic_sound (w : World) query lang limit :
  let '(results, w') := run handle (searchSemantic query lang limit) w in
  same_stores w w' /\ sound (table w) lang results.
Proof.
  unfold searchSemantic, call. cbn [bind run handle].
  destruct (nlp w query lang) as [nlpResult|e];
    [|cbn [run]; split; [apply same_stores_refl | intros r []]].
  cbn [bind run handle]. unfold query_db.
  destruct (db_fails w (db_queries w)); cbn [run].
  { split; [apply same_stores_query | intros r []]. }
  rewrite run_bind.
  assert (exists scores,
             run handle (evaluateSemanticRelevance query
                           (find_most_used (table w) lang 20) lang) (after_query w)
             = (scores, after_query w)) as [scores ->].
  { unfold evaluateSemanticRelevance.
    destruct (find_most_used (table w) lang 20) as [|entry entries]; [now eexists|].
    unfold call. cbn [bind run handle]. destruct (scorer _ _ _ _); now eexists. }
  cbn [run]. split; [apply same_stores_query|]. intros r Hr.
  apply firstn_in in Hr. apply sort_desc_in in Hr.
  apply List.filter_In in Hr as [Hin Hconf]. apply Qgt_bool_lt in Hconf.
  apply with_scores_in in Hin as (entry & s & Hentry & ->).
  apply find_most_used_active in Hentry as [Hin Hact].
  split; [exists entry; repeat split; auto|].
  simpl in Hconf |- *. apply (Qlt_trans _ similarityThreshold); [now vm_compute | exact Hconf].
Qed.

Lemma head_in {A} (l : list A) (x : A) : head l = Some x -> List.In x l.
Proof. destruct l; [discriminate|]. intros [= ->]. now left. Qed.

(** X16: on a cache miss, a result returned by [search] presents an
    active entry of the table in the language asked for, with a
    confidence above 0.3 (the double nearest to it); and a result is returned only when the query
    is not blank, the database is initialized and Redis is up, since the
    failed store of the results ends the search in [null]. *)
Theorem X16_search_returns_active_entry
  (w : World) (query lang : jstring) (limit : nat) (best : SearchResult) :
  cache_get w (searchCacheKey (toLowerCase (trim query)) lang limit) = None ->
  fst (run handle (search query lang limit) w) = Some best ->
  presents (table w) lang best
  /\ (JsNumber.double (3 # 10) < r_confidence best)%Q
  /\ trim query <> "" /\ prisma_ready w = true /\ redis_up w = true.
Proof.
  intros Hmiss. unfold search. rewrite run_bind.
  destruct (run handle (search_body query lang limit) w) as [outcome w'] eqn:Hbody.
  destruct outcome as [[found|] | e]; try discriminate. cbn [run fst]. intros [= ->].
  revert Hbody. unfold search_body, await, call. cbn [bind run handle].
  destruct (prisma_ready w) eqn:Hready; cbn [bind run handle]; [|discriminate].
  destruct (JsString.eqb query "" || (List.length (trim query) =? 0)%nat) eqn:Hblank;
    [cbn [run]; discriminate|].
  assert (trim query <> "") as Hquery.
  { intros E. rewrite E in Hblank. simpl in Hblank. rewrite orb_true_r in Hblank. discriminate. }
  cbn [bind run handle]. rewrite Hmiss. rewrite run_bind.
  pose proof (searchByKeywords_sound w (toLowerCase (trim query)) lang limit) as Hkw.
  destruct (run handle (searchByKeywords (toLowerCase (trim query)) lang limit) w)
    as [keywordResults w1].
  destruct Hkw as ((Htable1 & Hredis1 & _) & Hsound1). cbv zeta beta iota.
  set (shortcut := match keywordResults with
                   | [] => None
                   | first :: _ =>
                       if Qgt_bool (r_confidence first) (JsNumber.double (8 # 10))
                       then Some first else None
                   end).
  assert (forall r, shortcut = Some r -> List.In r keywordResults) as Hshort.
  { unfold shortcut. destruct keywordResults as [|first rest]; [discriminate|].
    destruct (Qgt_bool _ _); [|discriminate]. intros r [= <-]. now left. }
  destruct shortcut as [first|].
  - cbn [bind run handle]. unfold cache_set. rewrite Hredis1.
    destruct (redis_up w) eqn:Hup; cbn [run]; [|discriminate].
    intros [= -> _]. destruct (Hsound1 best (Hshort best eq_refl)). auto.
  - rewrite run_bind.
    pose proof (searchSemantic_sound w1 (toLowerCase (trim query)) lang limit) as Hsem.
    destruct (run handle (searchSemantic (toLowerCase (trim query)) lang limit) w1)
      as [semanticResults w2].
    destruct Hsem as ((Htable2 & Hredis2 & _) & Hsound2). rewrite Htable1 in Hsound2.
    cbn [bind run handle]. unfold cache_set. rewrite Hredis2, Hredis1.
    destruct (redis_up w) eqn:Hup; cbn [run]; [|discriminate].
    intros [= Hhead _]. apply head_in in Hhead. apply firstn_in in Hhead.
    apply sort_desc_in in Hhead. apply List.in_app_iff in Hhead as [Hin | Hin].
    + destruct (Hsound1 best Hin). auto.
    + destruct (Hsound2 best Hin). auto.
Qed.

End WithEngine.

(** Five of seven query words in the question of an entry used more than
    ten times: the raw score is [2.5 + 0.2], the maximum [7 + 2], and the
    quotient of the doubles is above the double [0.3], though 2.7 / 9 is
    not above 3 / 10.  The entry passes the filter. *)
Definition five_of_seven : KBEntry :=
  {| id := "kb3"; question := "eee ddd ccc bbb aaa"; answer := "ok"; category := "general";
     language := "fr"; keywords := []; usageCount := 11; isActive := true |}.

Example confidence_just_above_the_threshold :
  let c := calculateKeywordConfidence (EN := latin1_engine) "aaa bbb ccc ddd eee fff ggg"
             (split is_blank "aaa bbb ccc ddd eee fff ggg") five_of_seven in
  Qgt_bool c (JsNumber.double (3 # 10)) = true
  /\ Qgt_bool (((5 # 2) + (2 # 10)) / 9) (3 # 10) = false.
Proof. now vm_compute. Qed.

Lemma X16_search_returns_active_witness :
  presents (table quiet_world) "en"
    {| r_id := "kb8"; r_question := "How do I create a support ticket?";
       r_answer := "Describe your problem in this chat."; r_category := "technical";
       r_confidence := 1; r_source := keyword |}.
Proof.
  refine (proj1 (X16_search_returns_active_entry (EN := latin1_engine) quiet_world "support ticket" "en" 5 _ _ _)).
  - reflexivity.
  - vm_compute. reflexivity.
Defined.

End ResultFacts.

(** ** Failures of a status update *)

Module StatusUpdateFacts.
Import TicketStore ProgFacts TicketFacts.

(** The part of a ticket a status update never touches. *)
Definition same_request (t t' : Ticket) : Prop :=
  id t' = id t /\ userId t' = userId t /\ title t' = title t
  /\ description t' = description t /\ category t' = category t
  /\ priority t' = priority t /\ createdAt t' = createdAt t.

Lemma ticket_update_frame (w : World) ticketId data :
  let '(r, w') := ticket_update w ticketId data in
  (forall other, other <> ticketId -> tickets w' !! other = tickets w !! other)
  /\ cached w' = cached w /\ redis_up w' = redis_up w
  /\ match r with
     | Ok t' =>
         tickets w' !! ticketId = Some t'
         /\ exists t st, tickets w !! ticketId = Some t
                         /\ status_of_string (data_status data) = Some st
                         /\ t' = apply_update st data t
     | Throw _ =>
         w' = w
         /\ (db_up w = true -> status_of_string (data_status data) <> None ->
             tickets w !! ticketId = None)
     end.
Proof.
  unfold ticket_update. destruct (db_up w).
  - destruct (tickets w !! ticketId) as [t|] eqn:Ht.
    + destruct (status_of_string (data_status data)) as [st|] eqn:Hst.
      * cbn [tickets cached redis_up].
        split; [intros other Ho; now rewrite lookup_insert_ne|].
        split; [reflexivity|]. split; [reflexivity|].
        split; [apply lookup_insert_eq|]. exists t, st. auto.
      * repeat split. intros _ H. now destruct H.
    + repeat split.
  - repeat split. discriminate.
Qed.

Lemma cache_del_frame (w : World) key :
  let '(r, w') := cache_del w key in
  tickets w' = tickets w /\ redis_up w' = redis_up w
  /\ match r with
     | Ok _ => redis_up w = true /\ cached w' = delete key (cached w)
     | Throw e => redis_up w = false /\ w' = w /\ e = ExternalError None "Redis"
     end.
Proof.
  unfold cache_del. destruct (redis_up w) eqn:Hup; cbn [tickets redis_up cached];
    repeat split; assumption.
Qed.

(** The data of the update, at the instant of the world. *)
Definition status_data (w : World) (newStatus : jstring) (resolution agentId : option jstring)
  : UpdateData :=
  {| data_status := newStatus; data_updatedAt := clock w;
     data_resolution := if_given resolution; data_assignedAgent := if_given agentId;
     data_resolvedAt := if stamps newStatus then Some (clock w) else None |}.

(** The run of a valid update: the database call, then the two cache
    deletions, each ending the call when it fails. *)
Lemma updateTicketStatus_run (w : World) ticketId newStatus resolution agentId :
  prisma_ready w = true ->
  List.existsb (JsString.eqb newStatus) validStatuses = true ->
  run handle (updateTicketStatus ticketId newStatus resolution agentId) w =
  let '(r, w1) := ticket_update w ticketId (status_data w newStatus resolution agentId) in
  match r with
  | Ok ticket =>
      let '(r1, w2) := cache_del w1 ("ticket:" +:+ ticketId) in
      match r1 with
      | Ok _ =>
          let '(r2, w3) := cache_del w2 ("tickets:user:" +:+ decimal (userId ticket)) in
          match r2 with
          | Ok _ => (Ok ticket, w3)
          | Throw e => (Throw e, w3)
          end
      | Throw e => (Throw e, w2)
      end
  | Throw e => (Throw e, w1)
  end.
Proof.
  intros Hready Hvalid. unfold updateTicketStatus, await, call, status_data.
  cbn [bind run handle]. rewrite Hready, Hvalid. cbn [negb bind run handle].
  fold (stamps newStatus).
  destruct (stamps newStatus); cbn [bind run handle];
    destruct (ticket_update w ticketId _) as [[ticket|e] w1]; cbn [bind run handle];
      try reflexivity;
    destruct (cache_del w1 _) as [[u|e] w2]; cbn [bind run handle]; try reflexivity;
    destruct (cache_del w2 _) as [[u'|e] w3]; cbn [bind run handle]; reflexivity.
Qed.

Lemma updateTicketStatus_rejected (w : World) ticketId newStatus resolution agentId :
  prisma_ready w = false \/ List.existsb (JsString.eqb newStatus) validStatuses = false ->
  exists e, run handle (updateTicketStatus ticketId newStatus resolution agentId) w
            = (Throw e, w).
Proof.
  unfold updateTicketStatus, await, call. cbn [bind run handle].
  destruct (prisma_ready w); cbn [bind run handle]; [|eauto].
  intros [H | ->]; [discriminate|]. cbn [negb run]. eauto.
Qed.

Lemma same_request_update st data t : same_request t (apply_update st data t).
Proof. repeat split. Qed.

(** X17: [updateTicketStatus] is not atomic.  Whatever its outcome, it
    leaves every other ticket alone and changes nothing of the ticket
    but its status, agent, resolution and the two time stamps.  When it
    returns a ticket, that ticket is the stored one and both cache keys
    have been deleted.  But when the database accepts the update and
    Redis is down, the call raises the Redis error although the new
    status is already stored. *)
Theorem X17_updateTicketStatus_is_not_atomic
  (w : World) (ticketId newStatus : jstring) (resolution agentId : option jstring) :
  let '(r, w') := run handle (updateTicketStatus ticketId newStatus resolution agentId) w in
  (forall other, other <> ticketId -> tickets w' !! other = tickets w !! other)
  /\ (forall t t', tickets w !! ticketId = Some t -> tickets w' !! ticketId = Some t' ->
        same_request t t')
  /\ (tickets w !! ticketId = None -> tickets w' !! ticketId = None)
  /\ (forall ticket, r = Ok ticket ->
        tickets w' !! ticketId = Some ticket
        /\ cached w' !! ("ticket:" +:+ ticketId) = None
        /\ cached w' !! ("tickets:user:" +:+ decimal (userId ticket)) = None)
  /\ (forall t st,
        prisma_ready w = true -> db_up w = true -> redis_up w = false ->
        tickets w !! ticketId = Some t -> status_of_string newStatus = Some st ->
        r = Throw (ExternalError None "Redis")
        /\ (status <$> tickets w' !! ticketId) = Some st).
Proof.
  assert (forall e,
            (forall other, other <> ticketId -> tickets w !! other = tickets w !! other)
            /\ (forall t t', tickets w !! ticketId = Some t -> tickets w !! ticketId = Some t' ->
                  same_request t t')
            /\ (tickets w !! ticketId = None -> tickets w !! ticketId = None)
            /\ (forall ticket, @Throw Ticket e = Ok ticket ->
                  tickets w !! ticketId = Some ticket
                  /\ cached w !! ("ticket:" +:+ ticketId) = None
                  /\ cached w !! ("tickets:user:" +:+ decimal (userId ticket)) = None))
    as Hunchanged.
  { intros e. split; [auto|]. split; [|split; [auto | discriminate]].
    intros t t' Ht Ht'. rewrite Ht in Ht'. injection Ht' as <-. repeat split. }
  destruct (prisma_ready w) eqn:Hready.
  2:{ destruct (updateTicketStatus_rejected w ticketId newStatus resolution agentId
                  (or_introl Hready)) as [e ->].
      destruct (Hunchanged e) as (H1 & H2 & H3 & H4).
      repeat (split; [assumption|]). discriminate. }
  destruct (List.existsb (JsString.eqb newStatus) validStatuses) eqn:Hvalid.
  2:{ destruct (updateTicketStatus_rejected w ticketId newStatus resolution agentId
                  (or_intror Hvalid)) as [e ->].
      destruct (Hunchanged e) as (H1 & H2 & H3 & H4).
      repeat (split; [assumption|]).
      intros t st _ _ _ _ Hst. exfalso. revert Hst Hvalid.
      unfold status_of_string, validStatuses. simpl.
      repeat (destruct (JsString.eqb newStatus _); [discriminate|]). discriminate. }
  rewrite (updateTicketStatus_run w ticketId newStatus resolution agentId Hready Hvalid).
  pose proof (ticket_update_frame w ticketId (status_data w newStatus resolution agentId))
    as Hupdate.
  destruct (ticket_update w ticketId _) as [[ticket|e] w1].
  2:{ destruct Hupdate as (_ & _ & _ & -> & Hmissing).
      destruct (Hunchanged e) as (H1 & H2 & H3 & H4).
      repeat (split; [assumption|]).
      intros t st _ Hdb _ Ht Hst. exfalso.
      rewrite Hmissing in Ht; [discriminate | exact Hdb |].
      cbn [status_data data_status]. congruence. }
  destruct Hupdate as (Hothers & Hcached1 & Hredis1 & Hstored & t0 & st0 & Ht0 & Hst0 & ->).
  cbn [status_data data_status] in Hst0.
  pose proof (cache_del_frame w1 ("ticket:" +:+ ticketId)) as Hdel1.
  destruct (cache_del w1 _) as [[u|e] w2].
  - destruct Hdel1 as (Htickets2 & Hredis2 & Hup & Hcached2).
    pose proof (cache_del_frame w2
                  ("tickets:user:" +:+
                   decimal (userId (apply_update st0 (status_data w newStatus resolution agentId) t0))))
      as Hdel2.
    destruct (cache_del w2 _) as [[u'|e] w3].
    + destruct Hdel2 as (Htickets3 & _ & _ & Hcached3).
      rewrite Htickets3, Htickets2.
      split; [exact Hothers|]. split.
      { intros t t' Ht Ht'. rewrite Hstored in Ht'. injection Ht' as <-.
        rewrite Ht0 in Ht. injection Ht as <-. apply same_request_update. }
      split; [intros Hnone; congruence|]. split.
      { intros ticket [= <-]. split; [exact Hstored|]. rewrite Hcached3. split.
        - destruct (StringFacts.eqb_spec
                      ("tickets:user:" +:+
                       decimal (userId (apply_update st0
                                         (status_data w newStatus resolution agentId) t0)))
                      ("ticket:" +:+ ticketId)) as [E | E].
          + rewrite E. apply lookup_delete_eq.
          + rewrite lookup_delete_ne by exact E. rewrite Hcached2. apply lookup_delete_eq.
        - apply lookup_delete_eq. }
      intros t st _ _ Hdown. congruence.
    + destruct Hdel2 as (_ & Hredis3 & Hdown & _). congruence.
  - destruct Hdel1 as (Htickets2 & _ & Hdown & -> & ->).
    split; [exact Hothers|]. split.
    { intros t t' Ht Ht'. rewrite Hstored in Ht'. injection Ht' as <-.
      rewrite Ht0 in Ht. injection Ht as <-. apply same_request_update. }
    split; [intros Hnone; congruence|]. split; [discriminate|].
    intros t st _ _ _ Ht Hst. split; [reflexivity|].
    rewrite Hstored. cbn [fmap option_fmap option_map apply_update status]. congruence.
Qed.

(** A store whose ticket exists while Redis is down. *)
Example update_stored_but_raised :
  let '(r, w') :=
    run handle (updateTicketStatus "t1" "RESOLVED" None None)
      {| prisma_ready := true; db_up := true; tickets := {[ "t1" := login_ticket ]};
         redis_up := false; cached := ∅; clock := 5000 |} in
  r = Throw (ExternalError None "Redis")
  /\ (status <$> tickets w' !! "t1") = Some RESOLVED.
Proof. vm_compute. split; reflexivity. Qed.

End StatusUpdateFacts.

(** ** Creating tickets *)

Module CreationFacts.
Import TicketPriority TicketCategory TicketService ProgFacts.

(** The rows a run asked the database to create, and the cache keys it
    deleted. *)
Fixpoint created (calls : list (Call SvcE)) : list NewTicket :=
  match calls with
  | [] => []
  | Called (TicketCreate data) :: rest => data :: created rest
  | Called _ :: rest => created rest
  end.

Fixpoint deleted_keys (calls : list (Call SvcE)) : list jstring :=
  match calls with
  | [] => []
  | Called (CacheDel key) :: rest => key :: deleted_keys rest
  | Called _ :: rest => deleted_keys rest
  end.

Section WithEngine.
Context {EN : Engine}.

(** The row [createTicket] asks for. *)
Definition requested_row (user : nat) (title description : jstring) (category : option jstring)
  (language : jstring) (priority : Priority) : NewTicket :=
  {| new_userId := user; new_title := trim title; new_description := trim description;
     new_category := match TicketStore.if_given category with
                     | Some given => given
                     | None => determineCategory (title +:+ " " +:+ description) language
                     end;
     new_priority := priority; new_status := TicketStore.OPEN |}.

Lemma createTicket_run {W} (h : Handler SvcE W) (w : W) (user : nat)
  (title description : jstring) (category : option jstring) (language : jstring) :
  let '(r, _, calls) :=
    run_trace h (createTicket user title description category language) w in
  match fst (h _ Initialize w) with
  | Throw e => r = Throw e /\ calls = [Called Initialize]
  | Ok _ =>
      if blank title
      then r = Throw (ValidationError "Le titre du ticket est requis")
           /\ calls = [Called Initialize]
      else if blank description
      then r = Throw (ValidationError "La description du ticket est requise")
           /\ calls = [Called Initialize]
      else
        match determinePriority (title +:+ " " +:+ description) language with
        | Throw e => r = Throw e /\ calls = [Called Initialize]
        | Ok priority =>
            created calls = [requested_row user title description category language priority]
            /\ (deleted_keys calls = [] \/ deleted_keys calls = ["tickets:user:" +:+ decimal user])
            /\ (forall ticket, r = Ok ticket ->
                  deleted_keys calls = ["tickets:user:" +:+ decimal user])
        end
  end.
Proof.
  unfold createTicket, await, call. cbn [bind run_trace].
  destruct (h _ Initialize w) as [[u|e] w1]; cbn [fst bind run_trace]; [|auto].
  destruct (blank title); [cbn; auto|].
  destruct (blank description); [cbn; auto|].
  destruct (determinePriority (title +:+ " " +:+ description) language) as [priority|e];
    [|cbn; auto].
  cbv zeta. fold (requested_row user title description category language priority).
  cbn [bind run_trace].
  destruct (h _ (TicketCreate _) w1) as [[ticket|e] w2]; cbn [bind run_trace].
  - destruct (h _ (CacheDel _) w2) as [[u'|e] w3]; cbn [bind run_trace].
    + cbn. auto.
    + cbn. split; [reflexivity|]. split; [now right | discriminate].
  - cbn. split; [reflexivity|]. split; [now left | discriminate].
Qed.

(** X18: [createTicket] validates before it touches the database or the
    cache: with a blank title or a blank description it raises the
    validation error and makes no other call than the initialization.
    It asks the database for at most one row, and that row has the
    trimmed title and description, the status [OPEN], the priority
    [determinePriority] computes from the untrimmed title and
    description, and the category given or, failing that, the one
    [determineCategory] computes.  When it returns a ticket it has
    deleted the cache key of the user. *)
Theorem X18_createTicket_validates_first {W} (h : Handler SvcE W) (w : W) (user : nat)
  (title description : jstring) (category : option jstring) (language : jstring) :
  let '(r, _, calls) :=
    run_trace h (createTicket user title description category language) w in
  (blank title = true \/ blank description = true ->
   calls = [Called Initialize]
   /\ forall u, fst (h _ Initialize w) = Ok u ->
        r = Throw (ValidationError
                     (if blank title then "Le titre du ticket est requis"
                      else "La description du ticket est requise")))
  /\ (created calls = []
      \/ exists priority,
           determinePriority (title +:+ " " +:+ description) language = Ok priority
           /\ created calls
              = [requested_row user title description category language priority])
  /\ (forall ticket, r = Ok ticket ->
        List.length (created calls) = 1%nat
        /\ deleted_keys calls = ["tickets:user:" +:+ decimal user]).
Proof.
  pose proof (createTicket_run h w user title description category language) as Hrun.
  destruct (run_trace h (createTicket user title description category language) w)
    as [[r w'] calls].
  destruct (fst (h _ Initialize w)) as [u|e].
  - destruct (blank title).
    { destruct Hrun as [-> ->].
      split; [intros _; split; [reflexivity | intros; reflexivity]|].
      split; [now left | discriminate]. }
    destruct (blank description).
    { destruct Hrun as [-> ->].
      split; [intros _; split; [reflexivity | intros; reflexivity]|].
      split; [now left | discriminate]. }
    destruct (determinePriority (title +:+ " " +:+ description) language) as [priority|e].
    + destruct Hrun as (Hcreated & _ & Hdeleted).
      split; [intros [H | H]; discriminate|]. split; [right; eauto|].
      intros ticket Hr. rewrite Hcreated. split; [reflexivity | exact (Hdeleted ticket Hr)].
    + destruct Hrun as [-> ->]. split; [intros [H | H]; discriminate|].
      split; [now left | discriminate].
  - destruct Hrun as [-> ->].
    split; [intros _; split; [reflexivity | intros u Hu; discriminate]|].
    split; [now left | discriminate].
Qed.

(** *** A request from the chat *)

Lemma priority_for_known_language (text language : jstring) (keywords : list jstring) :
  array_by_language TicketMessageHandler.ticketKeywords_fr TicketMessageHandler.ticketKeywords_en
    language = Ok keywords ->
  exists priority, determinePriority text language = Ok priority.
Proof.
  unfold determinePriority, array_by_language, by_language.
  destruct (JsString.eqb language "fr");
    [intros _; destruct (some_included _ _); [|destruct (some_included _ _)]; eauto|].
  destruct (JsString.eqb language "en");
    [intros _; destruct (some_included _ _); [|destruct (some_included _ _)]; eauto|].
  destruct (is_inherited language); [discriminate|].
  intros _; destruct (some_included _ _); [|destruct (some_included _ _)]; eauto.
Qed.

(** X19: the ticket information extracted from a chat message that is
    not empty always passes the validation of [createTicket]: the title
    and the description are not blank and the priority lookup does not
    raise, so once the service is initialized the database is asked to
    create the row, whose category is the one [determineCategory]
    computes since the extraction gives none. *)
Theorem X19_chat_ticket_reaches_database {W} (h : Handler SvcE W) (w : W) (user : nat)
  (text language : jstring) (info : TicketMessageHandler.TicketInfo) :
  TicketMessageHandler.extractTicketInfo text language = Ok info ->
  MessageFormatter.cleanText text <> "" ->
  fst (h _ Initialize w) = Ok tt ->
  let title := TicketMessageHandler.title info in
  let description := TicketMessageHandler.description info in
  let '(r, _, calls) :=
    run_trace h (createTicket user title description (TicketMessageHandler.category info)
                   language) w in
  exists priority,
       determinePriority (title +:+ " " +:+ description) language = Ok priority
       /\ created calls
          = [ {| new_userId := user; new_title := trim title;
                 new_description := trim description;
                 new_category := determineCategory (title +:+ " " +:+ description) language;
                 new_priority := priority; new_status := TicketStore.OPEN |} ].
Proof.
  intros Hx Hne Hinit title description.
  destruct (TicketInfoFacts.extracted_info text language info Hx) as (Hvt & _ & _ & Hcat).
  pose proof (TicketInfoFacts.extracted_description_visible text language info Hx Hne) as Hvd.
  apply TicketInfoFacts.visible_not_blank in Hvt, Hvd.
  assert (exists priority,
             determinePriority (title +:+ " " +:+ description) language = Ok priority)
    as [priority Hp].
  { revert Hx. unfold TicketMessageHandler.extractTicketInfo.
    destruct (array_by_language _ _ language) as [keywords|e] eqn:Hk; [|discriminate].
    intros _. exact (priority_for_known_language _ _ _ Hk). }
  unfold createTicket, await, call. cbn [bind run_trace].
  destruct (h _ Initialize w) as [[[]|e] w1]; cbn [fst] in Hinit; [|discriminate].
  cbn [bind run_trace].
  change (blank title) with (TicketRequests.blank (TicketMessageHandler.title info)).
  change (blank description) with (TicketRequests.blank (TicketMessageHandler.description info)).
  rewrite Hvt, Hvd, Hp, Hcat. cbv zeta. cbn [TicketStore.if_given bind run_trace].
  destruct (h _ (TicketCreate _) w1) as [[ticket|e] w2]; cbn [bind run_trace];
    [destruct (h _ (CacheDel _) w2) as [[u'|e] w3]; cbn [bind run_trace]|];
    cbn; eauto.
Qed.

End WithEngine.

(** The statement for a message reporting a broken login. *)
Lemma X19_chat_ticket_witness :
  exists priority,
    created (snd (run_trace handle
                    (createTicket (EN := EngineFacts.latin1_engine) 7 "Login broken" "cannot sign in since yesterday" None "en")
                    {| prisma_ready := true; db_up := true; table := []; ids := decimal;
                       redis_up := true; ticket_cache := ∅; list_cache := ∅; clock := 5000 |}))
    = [ {| new_userId := 7; new_title := "Login broken";
           new_description := "cannot sign in since yesterday";
           new_category := "account"; new_priority := priority;
           new_status := TicketStore.OPEN |} ].
Proof.
  destruct (X19_chat_ticket_reaches_database (EN := EngineFacts.latin1_engine) handle
              {| prisma_ready := true; db_up := true; table := []; ids := decimal;
                 redis_up := true; ticket_cache := ∅; list_cache := ∅; clock := 5000 |}
              7 "Login broken: cannot sign in since yesterday" "en"
              {| TicketMessageHandler.title := "Login broken";
                 TicketMessageHandler.description := "cannot sign in since yesterday";
                 TicketMessageHandler.category := None |}
              eq_refl ltac:(discriminate) eq_refl) as (priority & _ & Hrow).
  exists priority. exact Hrow.
Defined.

End CreationFacts.

(** ** Cached tickets *)

Module TicketCacheFacts.
Import TicketService ProgFacts StringFacts.
Import TicketStore (Ticket, id, userId, status, resolvedAt, RESOLVED, CLOSED).

Lemma append_not_longer (a b : jstring) : a = a +:+ b -> b = "".
Proof.
  intros H. apply (f_equal List.length) in H. rewrite List.length_app in H.
  destruct b; [reflexivity | simpl in H; lia].
Qed.

(** The key [createTicket] deletes is never the key a list is cached
    under. *)
Lemma user_key_is_not_a_list_key (user : nat) (wanted : option jstring) (limit offset : nat) :
  "tickets:user:" +:+ decimal user <> userTicketsKey user wanted limit offset.
Proof.
  unfold userTicketsKey. intros H.
  assert (forall a b : jstring, "tickets:user:" +:+ a = "tickets:user:" +:+ b -> a = b) as Hinj
      by (intros a b E; cbn in E; now injection E).
  apply Hinj in H. apply append_not_longer in H. discriminate.
Qed.

Lemma fresh_at_time {A} (w : World) (m : gmap jstring (Z * A)) key expiry value t :
  redis_up w = true -> m !! key = Some (expiry, value) -> (t < expiry)%Z ->
  fresh (at_time t w) m key = Some value.
Proof.
  intros Hup Hm Ht. unfold fresh. cbn [redis_up at_time clock]. rewrite Hup, Hm.
  destruct (t <? expiry)%Z eqn:E; [reflexivity|]. apply Z.ltb_ge in E. lia.
Qed.

(** The run of [getUserTickets] that ends with a list, after a miss. *)
Lemma getUserTickets_miss (w w1 : World) user wanted limit offset listed :
  fresh w (list_cache w) (userTicketsKey user wanted limit offset) = None ->
  run handle (getUserTickets user wanted limit offset) w = (Ok listed, w1) ->
  prisma_ready w = true /\ redis_up w = true
  /\ fst (find_many w user (TicketStore.if_given wanted) limit offset) = Ok listed
  /\ w1 = with_caches w (ticket_cache w)
            (<[ userTicketsKey user wanted limit offset
                := ((clock w + cacheTTL * 1000)%Z, listed) ]> (list_cache w)).
Proof.
  intros Hmiss. unfold getUserTickets, await, call. cbn [bind run handle].
  destruct (prisma_ready w); cbn [bind run handle]; [|discriminate].
  rewrite Hmiss. cbn [bind run handle].
  assert (snd (find_many w user (TicketStore.if_given wanted) limit offset) = w) as Hw.
  { unfold find_many. destruct (db_up w); [|reflexivity].
    destruct (TicketStore.if_given wanted) as [s|]; [|reflexivity].
    destruct (TicketStore.status_of_string s); reflexivity. }
  destruct (find_many w user (TicketStore.if_given wanted) limit offset) as [[found|e] w0];
    cbn [snd] in Hw; subst w0; cbn [bind run handle]; [|discriminate].
  destruct (redis_up w); cbn [bind run]; [|discriminate].
  intros [= <- <-]. auto.
Qed.

Lemma getUserTickets_hit (w : World) user wanted limit offset listed :
  prisma_ready w = true ->
  fresh w (list_cache w) (userTicketsKey user wanted limit offset) = Some listed ->
  run handle (getUserTickets user wanted limit offset) w = (Ok listed, w).
Proof.
  intros Hready Hhit. unfold getUserTickets, await, call. cbn [bind run handle].
  rewrite Hready. cbn [bind run handle]. rewrite Hhit. reflexivity.
Qed.

Section WithEngine.
Context {EN : Engine}.

(** The run of [createTicket] that ends with a ticket. *)
Lemma createTicket_stored (w w2 : World) user title description category language ticket :
  run handle (createTicket user title description category language) w = (Ok ticket, w2) ->
  exists data,
    ticket = new_row w data /\ new_userId data = user
    /\ w2 = with_caches (with_table w (table w ++ [ticket]))
              (delete ("tickets:user:" +:+ decimal user) (ticket_cache w))
              (delete ("tickets:user:" +:+ decimal user) (list_cache w)).
Proof.
  unfold createTicket, await, call. cbn [bind run handle].
  destruct (prisma_ready w); cbn [bind run handle]; [|discriminate].
  destruct (blank title); [discriminate|]. destruct (blank description); [discriminate|].
  destruct (TicketPriority.determinePriority _ language) as [priority|e]; [|discriminate].
  cbv zeta. cbn [bind run handle]. unfold create_row.
  destruct (db_up w); cbn [bind run handle]; [|discriminate].
  cbn [redis_up with_table].
  destruct (redis_up w); cbn [bind run]; [|discriminate].
  intros [= <- <-]. eexists. split; [reflexivity|]. split; reflexivity.
Qed.

Lemma skipn_in {A} (n : nat) (x : A) (l : list A) : List.In x (skipn n l) -> List.In x l.
Proof.
  revert l. induction n as [|n IH]; intros l; [auto|].
  destruct l as [|a l]; simpl; [tauto|]. intros H. right. exact (IH l H).
Qed.

Lemma find_many_listed (w : World) user wanted limit offset listed t :
  fst (find_many w user wanted limit offset) = Ok listed ->
  List.In t listed -> List.In t (table w).
Proof.
  unfold find_many. destruct (db_up w); [|discriminate].
  destruct wanted as [name|].
  - destruct (TicketStore.status_of_string name); [|discriminate]. cbn [fst]. intros [= <-] Hin.
    apply ResultFacts.firstn_in in Hin. apply skipn_in in Hin.
    apply ResultFacts.sort_desc_in in Hin. now apply List.filter_In in Hin as [Hin _].
  - cbn [fst]. intros [= <-] Hin.
    apply ResultFacts.firstn_in in Hin. apply skipn_in in Hin.
    apply ResultFacts.sort_desc_in in Hin. now apply List.filter_In in Hin as [Hin _].
Qed.

(** X20: creating a ticket does not refresh the cached ticket lists of
    its user: [createTicket] deletes the key [tickets:user:<id>], under
    which no list is ever stored.  So when a user lists their tickets,
    creates a ticket and lists again within the TTL (300 s), the second
    list is the first one, without the ticket just stored. *)
Theorem X20_new_ticket_missing_from_cached_list
  (w : World) (user : nat) (wanted : option jstring) (limit offset : nat)
  (title description : jstring) (category : option jstring) (language : jstring)
  (listed : list Ticket) (ticket : Ticket) (t3 : Z) :
  fresh w (list_cache w) (userTicketsKey user wanted limit offset) = None ->
  (forall row, List.In row (table w) -> id row <> ids w (List.length (table w))) ->
  (clock w <= t3 < clock w + cacheTTL * 1000)%Z ->
  let '(r1, w1) := run handle (getUserTickets user wanted limit offset) w in
  let '(r2, w2) := run handle (createTicket user title description category language) w1 in
  let '(r3, _) := run handle (getUserTickets user wanted limit offset) (at_time t3 w2) in
  r1 = Ok listed -> r2 = Ok ticket ->
  r3 = Ok listed
  /\ List.In ticket (table w2) /\ userId ticket = user
  /\ ~ List.In ticket listed.
Proof.
  intros Hmiss Hfresh Ht.
  destruct (run handle (getUserTickets user wanted limit offset) w) as [r1 w1] eqn:Hrun1.
  destruct (run handle (createTicket user title description category language) w1)
    as [r2 w2] eqn:Hrun2.
  destruct (run handle (getUserTickets user wanted limit offset) (at_time t3 w2))
    as [r3 w3] eqn:Hrun3.
  intros -> ->.
  destruct (getUserTickets_miss w w1 user wanted limit offset listed Hmiss Hrun1)
    as (Hready & Hup & Hfound & ->).
  destruct (createTicket_stored _ _ _ _ _ _ _ _ Hrun2) as (data & Hticket & Huser & ->).
  rewrite (getUserTickets_hit _ user wanted limit offset listed) in Hrun3.
  - injection Hrun3 as <- _. split; [reflexivity|].
    split; [cbn; apply List.in_app_iff; right; now left|].
    split; [rewrite Hticket; exact Huser|].
    intros Hin. apply (find_many_listed w user _ limit offset listed ticket Hfound) in Hin.
    apply (Hfresh ticket Hin). rewrite Hticket. reflexivity.
  - exact Hready.
  - apply (fresh_at_time _ _ _ (clock w + cacheTTL * 1000)%Z); [exact Hup | | lia].
    cbn [list_cache with_caches with_table at_time].
    rewrite lookup_delete_ne by apply user_key_is_not_a_list_key.
    apply lookup_insert_eq.
Qed.

End WithEngine.

(** A store with one ticket of user 7. *)
Definition first_ticket : Ticket :=
  {| TicketStore.id := "0"; TicketStore.userId := 7; TicketStore.title := "Login broken";
     TicketStore.description := "cannot sign in since yesterday";
     TicketStore.category := Some "account"; TicketStore.priority := TicketPriority.NORMAL;
     TicketStore.status := TicketStore.OPEN; TicketStore.assignedAgent := None;
     TicketStore.resolution := None; TicketStore.createdAt := 1000;
     TicketStore.resolvedAt := None; TicketStore.updatedAt := 1000 |}.

Definition small_store : World :=
  {| prisma_ready := true; db_up := true; table := [first_ticket]; ids := decimal;
     redis_up := true; ticket_cache := ∅; list_cache := ∅; clock := 5000 |}.

Definition second_ticket : Ticket :=
  {| TicketStore.id := "1"; TicketStore.userId := 7; TicketStore.title := "Invoice missing";
     TicketStore.description := "I did not get my invoice";
     TicketStore.category := Some "billing"; TicketStore.priority := TicketPriority.NORMAL;
     TicketStore.status := TicketStore.OPEN; TicketStore.assignedAgent := None;
     TicketStore.resolution := None; TicketStore.createdAt := 5000;
     TicketStore.resolvedAt := None; TicketStore.updatedAt := 5000 |}.

Lemma X20_stale_list_witness :
  let '(r1, w1) := run handle (getUserTickets 7 None 10 0) small_store in
  let '(r2, w2) :=
    run handle (createTicket (EN := EngineFacts.latin1_engine) 7 "Invoice missing"
                  "I did not get my invoice" None "en") w1 in
  let '(r3, _) := run handle (getUserTickets 7 None 10 0) (at_time 65000 w2) in
  r3 = Ok [first_ticket] /\ List.In second_ticket (table w2)
  /\ ~ List.In second_ticket [first_ticket].
Proof.
  pose proof (X20_new_ticket_missing_from_cached_list (EN := EngineFacts.latin1_engine)
                small_store 7 None 10 0
                "Invoice missing" "I did not get my invoice" None "en"
                [first_ticket] second_ticket 65000 eq_refl) as H.
  assert (forall row, List.In row (table small_store) ->
                      id row <> ids small_store (List.length (table small_store))) as Hfresh
      by (intros row [<- | []]; discriminate).
  specialize (H Hfresh ltac:(unfold small_store, cacheTTL; simpl; lia)).
  destruct (run handle (getUserTickets 7 None 10 0) small_store) as [r1 w1] eqn:H1.
  destruct (run handle (createTicket 7 "Invoice missing" "I did not get my invoice" None "en")
              w1) as [r2 w2] eqn:H2.
  destruct (run handle (getUserTickets 7 None 10 0) (at_time 65000 w2)) as [r3 w3].
  vm_compute in H1. injection H1 as <- <-.
  vm_compute in H2. injection H2 as <- <-.
  destruct (H eq_refl eq_refl) as (Hr & Hin & _ & Hnot). auto.
Defined.

(** *** A cached ticket *)

Lemma getTicketById_miss (w w1 : World) ticketId owner ticket :
  fresh w (ticket_cache w) ("ticket:" +:+ ticketId) = None ->
  run handle (getTicketById ticketId owner) w = (Ok ticket, w1) ->
  prisma_ready w = true /\ redis_up w = true
  /\ List.In ticket (table w) /\ id ticket = ticketId
  /\ w1 = with_caches w
            (<[ "ticket:" +:+ ticketId := ((clock w + cacheTTL * 1000)%Z, ticket) ]>
               (ticket_cache w))
            (list_cache w).
Proof.
  intros Hmiss. unfold getTicketById, await, call. cbn [bind run handle].
  destruct (prisma_ready w); cbn [bind run handle]; [|discriminate].
  rewrite Hmiss. cbn [bind run handle]. unfold find_unique.
  destruct (db_up w); cbn [bind run handle]; [|discriminate].
  destruct (List.find _ (table w)) as [found|] eqn:Hfind; cbn [bind run handle];
    [|discriminate].
  destruct (redis_up w); cbn [bind run]; [|discriminate].
  intros [= <- <-]. apply List.find_some in Hfind as [Hin Hmatch].
  apply andb_true_iff in Hmatch as [Hid _]. apply StringFacts.eqb_eq in Hid. auto.
Qed.

Lemma getTicketById_hit (w : World) ticketId owner ticket :
  prisma_ready w = true ->
  fresh w (ticket_cache w) ("ticket:" +:+ ticketId) = Some ticket ->
  run handle (getTicketById ticketId owner) w = (Ok ticket, w).
Proof.
  intros Hready Hhit. unfold getTicketById, await, call. cbn [bind run handle].
  rewrite Hready. cbn [bind run handle]. rewrite Hhit. reflexivity.
Qed.

(** Without a cached copy, a ticket that is not the asker's is not found. *)
Lemma getTicketById_not_owner (w : World) ticketId other :
  prisma_ready w = true -> db_up w = true ->
  fresh w (ticket_cache w) ("ticket:" +:+ ticketId) = None ->
  (forall row, List.In row (table w) -> id row = ticketId -> userId row <> S other) ->
  fst (run handle (getTicketById ticketId (Some (S other))) w)
  = Throw (NotFoundError "Ticket non trouvé").
Proof.
  intros Hready Hdb Hmiss Hforeign. unfold getTicketById, await, call. cbn [bind run handle].
  rewrite Hready. cbn [bind run handle]. rewrite Hmiss. cbn [bind run handle].
  unfold find_unique. rewrite Hdb. cbn [bind run handle owner_filter].
  destruct (List.find _ (table w)) as [found|] eqn:Hfind; [|reflexivity].
  apply List.find_some in Hfind as [Hin Hmatch].
  apply andb_true_iff in Hmatch as [Hid Hown]. apply StringFacts.eqb_eq in Hid.
  cbn [owned_by] in Hown. apply Nat.eqb_eq in Hown.
  now destruct (Hforeign found Hin Hid).
Qed.

(** X21: the owner filter of [getTicketById] applies only to the
    database query.  Once a ticket has been fetched and cached, every
    call for its id within the TTL (300 s) returns it, whatever user id
    the call carries; while the same call against an empty cache raises
    [NotFoundError] for a user who does not own the ticket. *)
Theorem X21_cached_ticket_ignores_owner
  (w : World) (ticketId : jstring) (owner : option nat) (other : nat)
  (ticket : Ticket) (t2 : Z) :
  fresh w (ticket_cache w) ("ticket:" +:+ ticketId) = None ->
  fst (run handle (getTicketById ticketId owner) w) = Ok ticket ->
  (clock w <= t2 < clock w + cacheTTL * 1000)%Z ->
  db_up w = true ->
  (forall row, List.In row (table w) -> id row = ticketId -> userId row <> S other) ->
  let w1 := snd (run handle (getTicketById ticketId owner) w) in
  fst (run handle (getTicketById ticketId (Some (S other))) (at_time t2 w1)) = Ok ticket
  /\ userId ticket <> S other
  /\ fst (run handle (getTicketById ticketId (Some (S other))) (at_time t2 w))
     = Throw (NotFoundError "Ticket non trouvé").
Proof.
  intros Hmiss Hfetch Ht Hdb Hforeign.
  destruct (run handle (getTicketById ticketId owner) w) as [r1 w1] eqn:Hrun1.
  cbn [fst snd] in *. subst r1.
  destruct (getTicketById_miss w w1 ticketId owner ticket Hmiss Hrun1)
    as (Hready & Hup & Hin & Hid & ->).
  split; [|split].
  - rewrite (getTicketById_hit _ ticketId _ ticket); [reflexivity | exact Hready |].
    apply (fresh_at_time _ _ _ (clock w + cacheTTL * 1000)%Z); [exact Hup | | lia].
    cbn [ticket_cache with_caches at_time]. apply lookup_insert_eq.
  - exact (Hforeign ticket Hin Hid).
  - apply getTicketById_not_owner; [exact Hready | exact Hdb | | exact Hforeign].
    unfold fresh in *. cbn [redis_up at_time clock ticket_cache] in *.
    rewrite Hup in *. destruct (ticket_cache w !! ("ticket:" +:+ ticketId)) as [[expiry value]|];
      [|reflexivity].
    destruct (clock w <? expiry)%Z eqn:E1; [discriminate|].
    destruct (t2 <? expiry)%Z eqn:E2; [|reflexivity].
    apply Z.ltb_ge in E1. apply Z.ltb_lt in E2. lia.
Qed.

Lemma X21_cached_ticket_witness :
  fst (run handle (getTicketById "0" (Some 8%nat))
         (at_time 65000 (snd (run handle (getTicketById "0" (Some 7%nat)) small_store))))
  = Ok first_ticket
  /\ fst (run handle (getTicketById "0" (Some 8%nat)) (at_time 65000 small_store))
     = Throw (NotFoundError "Ticket non trouvé").
Proof.
  destruct (X21_cached_ticket_ignores_owner small_store "0" (Some 7%nat) 7%nat first_ticket 65000
              eq_refl eq_refl ltac:(unfold small_store, cacheTTL; simpl; lia) eq_refl)
    as (Hhit & _ & Hmiss).
  - intros row [<- | []] _. discriminate.
  - split; [exact Hhit | exact Hmiss].
Defined.

(** *** The sweep of resolved tickets *)

(** What the sweep at [now] makes of one ticket. *)
Definition swept (now : Z) (t : Ticket) : Ticket :=
  if resolved_before (now - autoCloseDelay)%Z t then close now t else t.

Lemma swept_not_resolved_before (now : Z) (t : Ticket) :
  resolved_before (now - autoCloseDelay)%Z (swept now t) = false.
Proof.
  unfold swept. destruct (resolved_before _ t) eqn:E; [reflexivity | exact E].
Qed.

Lemma filter_swept (now : Z) (l : list Ticket) :
  List.filter (resolved_before (now - autoCloseDelay)%Z) (List.map (swept now) l) = [].
Proof.
  induction l as [|t l IH]; [reflexivity|]. simpl.
  now rewrite swept_not_resolved_before.
Qed.

Lemma map_swept_fixed (now : Z) (l : list Ticket) :
  List.map (swept now) (List.map (swept now) l) = List.map (swept now) l.
Proof.
  rewrite List.map_map. apply List.map_ext. intros t. unfold swept at 1.
  now rewrite swept_not_resolved_before.
Qed.

Lemma autoClose_run (w : World) :
  run handle autoCloseResolvedTickets w =
  if prisma_ready w && db_up w
  then (List.length (List.filter (resolved_before (clock w - autoCloseDelay)%Z) (table w)),
        with_table w (List.map (swept (clock w)) (table w)))
  else (0%nat, w).
Proof.
  unfold autoCloseResolvedTickets, await, call. cbn [bind run handle].
  destruct (prisma_ready w); cbn [bind run handle andb]; [|reflexivity].
  unfold close_resolved. destruct (db_up w); reflexivity.
Qed.

Lemma swept_cases (now : Z) (t : Ticket) :
  swept now t = t
  \/ exists at_, status t = RESOLVED /\ resolvedAt t = Some at_
                 /\ (at_ < now - 7 * 86400000)%Z /\ swept now t = close now t.
Proof.
  unfold swept, resolved_before.
  destruct (status t) eqn:Hs; cbn [status_eqb andb]; try now left.
  destruct (resolvedAt t) as [at_|] eqn:Hr; [|now left].
  destruct (at_ <? now - autoCloseDelay)%Z eqn:E; [|now left].
  right. exists at_. apply Z.ltb_lt in E. unfold autoCloseDelay in E.
  repeat split; auto; lia.
Qed.

(** X22: [autoCloseResolvedTickets] never raises.  It returns the number
    of tickets that were [RESOLVED] with a resolution time more than
    seven days before now, and closes exactly those: every other ticket
    stays as it was, a closed one keeps everything but its status and
    update time, and no cache entry is touched.  Run again at the same
    instant it closes nothing more and returns 0; when the database
    cannot be reached it returns 0 and changes nothing. *)
Theorem X22_autoClose_sweeps_once (w : World) :
  let '(count, w') := run handle autoCloseResolvedTickets w in
  List.length (table w') = List.length (table w)
  /\ (forall t, List.In t (table w) -> status t <> RESOLVED \/ resolvedAt t = None ->
        List.In t (table w'))
  /\ (forall t', List.In t' (table w') ->
        List.In t' (table w)
        \/ exists t at_, List.In t (table w) /\ status t = RESOLVED
                         /\ resolvedAt t = Some at_ /\ (at_ < clock w - 7 * 86400000)%Z
                         /\ t' = close (clock w) t)
  /\ (prisma_ready w && db_up w = true ->
      count = List.length (List.filter (resolved_before (clock w - 7 * 86400000)%Z) (table w))
      /\ forall t', List.In t' (table w') ->
           resolved_before (clock w - 7 * 86400000)%Z t' = false)
  /\ (prisma_ready w && db_up w = false -> count = 0%nat /\ w' = w)
  /\ ticket_cache w' = ticket_cache w /\ list_cache w' = list_cache w
  /\ run handle autoCloseResolvedTickets w' = (0%nat, w').
Proof.
  rewrite autoClose_run.
  change (7 * 86400000)%Z with autoCloseDelay.
  destruct (prisma_ready w && db_up w) eqn:Hok.
  - cbn [table with_table ticket_cache list_cache].
    split; [apply List.length_map|]. split.
    { intros t Hin Hkeep. apply List.in_map_iff. exists t. split; [|exact Hin].
      destruct (swept_cases (clock w) t) as [E | (at_ & Hs & Hr & _)]; [exact E|].
      destruct Hkeep; congruence. }
    split.
    { intros t' Hin. apply List.in_map_iff in Hin as (t & <- & Hin).
      destruct (swept_cases (clock w) t) as [-> | (at_ & Hs & Hr & Hlt & ->)]; [now left|].
      right. exists t, at_. auto. }
    split.
    { intros _. split; [reflexivity|]. intros t' Hin.
      apply List.in_map_iff in Hin as (t & <- & _). apply swept_not_resolved_before. }
    split; [discriminate|]. split; [reflexivity|]. split; [reflexivity|].
    rewrite autoClose_run. cbn [prisma_ready db_up with_table table clock]. rewrite Hok.
    rewrite filter_swept, map_swept_fixed. reflexivity.
  - split; [reflexivity|]. split; [auto|]. split; [auto|]. split; [discriminate|].
    split; [auto|]. split; [reflexivity|]. split; [reflexivity|].
    rewrite autoClose_run, Hok. reflexivity.
Qed.

End TicketCacheFacts.

(** ** Assigning a ticket *)

Module AssignmentFacts.
Import TicketStore TicketAssignment ProgFacts StatusUpdateFacts.

(** X23: [assignTicket] on an existing ticket stores the agent and the
    status [IN_PROGRESS] whatever the status was, so a resolved or
    closed ticket is reopened while it keeps its resolution and its
    resolution time; nothing else of the ticket changes but the update
    time.  With Redis up the stored ticket is returned and its cache
    key deleted; with Redis down the call raises although the
    assignment is stored. *)
Theorem X23_assignTicket_reopens
  (w : World) (ticketId agentId : jstring) (t : Ticket) :
  prisma_ready w = true -> db_up w = true -> tickets w !! ticketId = Some t ->
  let '(r, w') := run handle (assignTicket ticketId agentId) w in
  exists t',
    tickets w' !! ticketId = Some t'
    /\ status t' = IN_PROGRESS /\ assignedAgent t' = Some agentId
    /\ resolvedAt t' = resolvedAt t /\ resolution t' = resolution t
    /\ updatedAt t' = clock w /\ same_request t t'
    /\ (forall other, other <> ticketId -> tickets w' !! other = tickets w !! other)
    /\ (if redis_up w
        then r = Ok t' /\ cached w' !! ("ticket:" +:+ ticketId) = None
        else r = Throw (ExternalError None "Redis")).
Proof.
  intros Hready Hdb Ht. unfold assignTicket, await, call. cbn [bind run handle].
  rewrite Hready. cbn [bind run handle]. unfold ticket_update. rewrite Hdb, Ht.
  cbn [data_status status_of_string JsString.eqb Ascii.eqb Bool.eqb].
  cbn [bind run handle]. unfold cache_del. cbn [redis_up].
  destruct (redis_up w) eqn:Hup; cbn [bind run handle redis_up]; rewrite ?Hup; cbn [bind run].
  - eexists. cbn [tickets cached]. split; [apply lookup_insert_eq|].
    cbn [apply_update status assignedAgent resolvedAt resolution updatedAt data_assignedAgent
           data_resolvedAt data_resolution data_updatedAt].
    repeat (split; [reflexivity|]). split; [apply same_request_update|].
    split; [intros other Ho; now rewrite lookup_insert_ne|].
    split; [reflexivity|].
    destruct (StringFacts.eqb_spec
                ("tickets:user:" +:+ decimal (userId t)) ("ticket:" +:+ ticketId)) as [E | E].
    + cbn [userId apply_update]. rewrite E. apply lookup_delete_eq.
    + cbn [userId apply_update]. rewrite lookup_delete_ne by exact E. apply lookup_delete_eq.
  - eexists. cbn [tickets]. split; [apply lookup_insert_eq|].
    cbn [apply_update status assignedAgent resolvedAt resolution updatedAt data_assignedAgent
           data_resolvedAt data_resolution data_updatedAt].
    repeat (split; [reflexivity|]). split; [apply same_request_update|].
    split; [intros other Ho; now rewrite lookup_insert_ne | reflexivity].
Qed.

(** A closed ticket, assigned again. *)
Definition closed_ticket : Ticket :=
  {| id := "t9"; userId := 7; title := "Login broken";
     description := "cannot sign in since yesterday"; category := Some "account";
     priority := TicketPriority.NORMAL; status := CLOSED; assignedAgent := Some "agent-1";
     resolution := Some "password reset"; createdAt := 1000; resolvedAt := Some 2000%Z;
     updatedAt := 3000 |}.

Lemma X23_assignTicket_witness :
  let '(r, w') :=
    run handle (assignTicket "t9" "agent-2")
      {| prisma_ready := true; db_up := true; tickets := {[ "t9" := closed_ticket ]};
         redis_up := true; cached := ∅; clock := 5000 |} in
  exists t', r = Ok t' /\ status t' = IN_PROGRESS /\ resolvedAt t' = Some 2000%Z
             /\ resolution t' = Some "password reset".
Proof.
  pose proof (X23_assignTicket_reopens
                {| prisma_ready := true; db_up := true; tickets := {[ "t9" := closed_ticket ]};
                   redis_up := true; cached := ∅; clock := 5000 |}
                "t9" "agent-2" closed_ticket eq_refl eq_refl eq_refl) as H.
  destruct (run handle (assignTicket "t9" "agent-2") _) as [r w'].
  destruct H as (t' & _ & Hs & _ & Hr & Hres & _ & _ & _ & Hok & _).
  exists t'. auto.
Defined.

End AssignmentFacts.

(** ** Free text and buttons *)

Module InputFacts.
Import Orchestrator Interactive TicketRequests ProgFacts ReplyFacts LowConfidenceFacts.

Definition is_status_call (c : Call OrchE) : bool :=
  match c with
  | Called (HandleCheckTicketStatus _) => true
  | Called _ => false
  end.

Definition is_creation_call (c : Call OrchE) : bool :=
  match c with
  | Called (HandleCreateTicket _ _ _) => true
  | Called _ => false
  end.

Section WithEngine.
Context {EN : Engine}.

Lemma creation_keywords_name_ticket :
  List.forallb (fun k => includes (toLowerCase k) "ticket") creationKeywords_fr = true
  /\ List.forallb (fun k => includes (toLowerCase k) "ticket") creationKeywords_en = true.
Proof. unfold creationKeywords_fr, creationKeywords_en. cbn [List.forallb]. now lower_literals. Qed.

(** A text holds a creation keyword exactly when it holds the word
    [ticket]. *)
Lemma some_keyword_is_ticket (text : jstring) (keywords : list jstring) :
  List.forallb (fun k => includes (toLowerCase k) "ticket") keywords = true ->
  List.In "ticket" keywords ->
  some_keyword text keywords = includes (toLowerCase text) "ticket".
Proof.
  intros Hall Hin. destruct (includes (toLowerCase text) "ticket") eqn:E.
  - apply List.existsb_exists. exists "ticket". split; [exact Hin|].
    rewrite (toLowerCase_latin1 "ticket" eq_refl). exact E.
  - destruct (some_keyword text keywords) eqn:Hs; [|reflexivity].
    apply List.existsb_exists in Hs as (k & Hk & Hinc).
    rewrite List.forallb_forall in Hall.
    rewrite (SubstringFacts.includes_trans _ _ _ Hinc (Hall k Hk)) in E. discriminate.
Qed.

Lemma isTicketCreationRequest_ticket (text language : jstring) :
  is_inherited language = false ->
  isTicketCreationRequest text language = Ok (includes (toLowerCase text) "ticket").
Proof.
  destruct creation_keywords_name_ticket as [Hfr Hen].
  intros Hn. unfold isTicketCreationRequest, array_by_language, by_language.
  destruct (JsString.eqb language "fr");
    [now rewrite (some_keyword_is_ticket _ _ Hfr) by (simpl; auto 10)|].
  destruct (JsString.eqb language "en");
    [now rewrite (some_keyword_is_ticket _ _ Hen) by (simpl; auto 10)|].
  rewrite Hn. now rewrite (some_keyword_is_ticket _ _ Hfr) by (simpl; auto 10).
Qed.

Lemma by_language_inherited {A} (fr en : list A) (language : jstring) :
  is_inherited language = true ->
  array_by_language fr en language = Throw (TypeError "is not a function").
Proof.
  intros Hi. unfold array_by_language, by_language.
  destruct (StringFacts.eqb_spec language "fr") as [-> | _]; [discriminate|].
  destruct (StringFacts.eqb_spec language "en") as [-> | _]; [discriminate|].
  now rewrite Hi.
Qed.

Lemma extractTicketInfo_known (text language : jstring) :
  is_inherited language = false ->
  exists info, TicketMessageHandler.extractTicketInfo text language = Ok info.
Proof.
  intros Hn. unfold TicketMessageHandler.extractTicketInfo.
  rewrite (PriorityFacts.array_by_language_words _ _ _ Hn). eauto.
Qed.

(** The run of [handleTextInput], by language and text. *)
Lemma handleTextInput_run {W} (h : Handler OrchE W) (w : W) (cfg : Config)
  (text : jstring) (user : User) (session : Session) :
  run_trace h (handleTextInput cfg text user session) w =
  if is_inherited (user_language user) then (Throw (TypeError "is not a function"), w, [])
  else if includes (toLowerCase text) "ticket" then
    match TicketMessageHandler.extractTicketInfo text (user_language user) with
    | Ok info =>
        let entities :=
          entities_of {| intent := "create_ticket"; confidence := 8 # 10;
                         entities := Some info |} in
        let '(response, w') := h _ (HandleCreateTicket user entities text) w in
        (Ok (session, response), w', [Called (HandleCreateTicket user entities text)])
    | Throw e => (Throw e, w, [])
    end
  else
    let '(reply, w', calls) :=
      run_trace h (ai_or cfg text user session (getFallbackResponse cfg user session)) w in
    (Ok reply, w', calls).
Proof.
  unfold handleTextInput, analyzeTicketIntent.
  destruct (is_inherited (user_language user)) eqn:Hi.
  - unfold isTicketCreationRequest. rewrite (by_language_inherited _ _ _ Hi). reflexivity.
  - rewrite (isTicketCreationRequest_ticket _ _ Hi).
    destruct (includes (toLowerCase text) "ticket") eqn:Hticket.
    + destruct (TicketMessageHandler.extractTicketInfo text (user_language user)) as [info|e];
        [|reflexivity].
      cbv zeta. cbn [TicketRequests.confidence TicketRequests.intent].
      change (KnowledgeBaseService.Qgt_bool (8 # 10) (7 # 10)) with true.
      cbn [JsString.eqb N.eqb Pos.eqb andb]. unfold call. cbn [bind run_trace].
      destruct (h _ (HandleCreateTicket _ _ _) w) as [response w']. reflexivity.
    + assert (isTicketStatusRequest text (user_language user) = Ok false) as ->.
      { destruct (isTicketStatusRequest text (user_language user)) as [[|]|e] eqn:Hs.
        - apply TicketInfoFacts.status_request_is_creation_request in Hs.
          rewrite (isTicketCreationRequest_ticket _ _ Hi), Hticket in Hs. discriminate.
        - reflexivity.
        - revert Hs. unfold isTicketStatusRequest.
          rewrite (PriorityFacts.array_by_language_words _ _ _ Hi). discriminate. }
      cbv zeta. rewrite run_trace_bind.
      destruct (run_trace h (ai_or cfg text user session _) w) as [[reply w'] calls].
      cbn. now rewrite app_nil_r.
Qed.

(** X24: [handleTextInput] opens the ticket creation flow exactly when
    the lower-cased text contains the word [ticket], and then asks
    neither the hosted model nor anything else; it never reaches the
    ticket status handler, not even for a text such as [my tickets];
    any other text gets the answer generated from what the hosted model
    returns, when that passes the filter, or else the conversational
    fallback with the main buttons.  It raises only for a language code that
    names an inherited member, before making any call. *)
Theorem X24_handleTextInput_routes {W} (h : Handler OrchE W) (w : W) (cfg : Config)
  (text : jstring) (user : User) (session : Session) :
  let '(r, _, calls) := run_trace h (handleTextInput cfg text user session) w in
  List.existsb is_status_call calls = false
  /\ (is_inherited (user_language user) = true ->
      r = Throw (TypeError "is not a function") /\ calls = [])
  /\ (is_inherited (user_language user) = false ->
      if includes (toLowerCase text) "ticket"
      then exists entities,
             calls = [Called (HandleCreateTicket user entities text)]
             /\ r = Ok (session, fst (h _ (HandleCreateTicket user entities text) w))
      else calls = [Called (ChatCompletion (reply_request cfg text (user_language user)))]
           /\ r = Ok (session,
                     generated_or_fallback cfg user
                       (generated_answer h w cfg text (user_language user)))).
Proof.
  rewrite handleTextInput_run.
  destruct (is_inherited (user_language user)) eqn:Hi.
  - repeat split; discriminate.
  - destruct (includes (toLowerCase text) "ticket").
    + destruct (extractTicketInfo_known text (user_language user) Hi) as [info ->].
      cbv zeta.
      destruct (h _ (HandleCreateTicket _ _ _) w) as [response w'] eqn:Hcall.
      split; [reflexivity|]. split; [discriminate|]. intros _.
      eexists. split; [reflexivity|]. rewrite Hcall. reflexivity.
    + pose proof (ai_or_fallback_run h w cfg text user session) as Hai.
      cbv zeta in Hai. rewrite Hai.
      split; [reflexivity|]. split; [discriminate|]. intros _. split; reflexivity.
Qed.

(** A request for the status of one's tickets, typed as text, opens the
    creation flow. *)
Example my_tickets_opens_creation :
  TicketRequests.intent
  <$> (match analyzeTicketIntent "show my tickets" "en" with Ok found => found | Throw _ => None end)
  = Some "create_ticket".
Proof.
  unfold analyzeTicketIntent. rewrite isTicketCreationRequest_ticket by reflexivity.
  rewrite (toLowerCase_latin1 "show my tickets" eq_refl).
  destruct (extractTicketInfo_known "show my tickets" "en" eq_refl) as [info Hinfo].
  change (includes (List.map lower_latin1 "show my tickets") "ticket") with true.
  cbv iota. now rewrite Hinfo.
Qed.

(** The ids with a case of their own in [handleButtonClick]. *)
Definition direct_ids : list jstring :=
  ["help"; "aide"; "faq"; "contact_agent"; "contacter_agent"; "greeting"; "salutation";
   "create_ticket"; "check_ticket"].

Definition offered_by (response : Response) : list jstring :=
  match response with
  | TextResponse _ => []
  | InteractiveResponse _ buttons => List.map button_id buttons
  | ListResponse _ _ sections =>
      List.concat (List.map (fun section => List.map row_id (rows section)) sections)
  end.

(** X25: [handleButtonClick] answers every id that has a case of its own
    without raising and without the ticket analysis; any other id is
    handled as the free text of its title.  The ids offered on the main
    buttons and in the help list all have a case of their own; the only
    button reaching the ticket status handler is [check_ticket]; and a
    click on [contact_agent] records the title of the button as the
    reason of the hand-off. *)
Theorem X25_handleButtonClick_dispatch {W} (h : Handler OrchE W) (w : W) (cfg : Config)
  (buttonId buttonTitle : jstring) (user : User) (session : Session) :
  let '(r, _, calls) := run_trace h (handleButtonClick cfg buttonId buttonTitle user session) w in
  (List.In buttonId direct_ids -> exists reply, r = Ok reply)
  /\ (~ List.In buttonId direct_ids ->
      run_trace h (handleButtonClick cfg buttonId buttonTitle user session) w
      = run_trace h (handleTextInput cfg buttonTitle user session) w)
  /\ (List.existsb is_status_call calls = true -> buttonId = "check_ticket")
  /\ (buttonId = "contact_agent" ->
      exists session' response,
        r = Ok (session', response)
        /\ context session' !! "handoffReason" = Some (NLPService.JStr buttonTitle))
  /\ (forall id, List.In id (List.map button_id (main_buttons cfg (user_language user)))
                 \/ List.In id (offered_by (snd (fst (fst (run_trace h (handleHelp cfg user session) w)))))
                 -> List.In id direct_ids).
Proof.
  assert (forall id,
             List.In id (List.map button_id (main_buttons cfg (user_language user)))
             \/ List.In id (offered_by (snd (fst (fst (run_trace h (handleHelp cfg user session) w)))))
             -> List.In id direct_ids) as Hoffered.
  { intros id [H | H]; simpl in H; unfold direct_ids; simpl; intuition (subst; auto 12). }
  assert (forall (r : Result (Session * Response)) (w' : W) (calls : list (Call OrchE)),
             (exists reply, r = Ok reply) ->
             List.In buttonId direct_ids ->
             (List.existsb is_status_call calls = true -> buttonId = "check_ticket") ->
             (buttonId = "contact_agent" ->
              exists session' response,
                r = Ok (session', response)
                /\ context session' !! "handoffReason" = Some (NLPService.JStr buttonTitle)) ->
             (List.In buttonId direct_ids -> exists reply, r = Ok reply)
             /\ (~ List.In buttonId direct_ids ->
                 (r, w', calls) = run_trace h (handleTextInput cfg buttonTitle user session) w)
             /\ (List.existsb is_status_call calls = true -> buttonId = "check_ticket")
             /\ (buttonId = "contact_agent" ->
                 exists session' response,
                   r = Ok (session', response)
                   /\ context session' !! "handoffReason" = Some (NLPService.JStr buttonTitle))
             /\ (forall id,
                   List.In id (List.map button_id (main_buttons cfg (user_language user)))
                   \/ List.In id (offered_by
                                    (snd (fst (fst (run_trace h (handleHelp cfg user session) w)))))
                   -> List.In id direct_ids)) as Hdirect.
  { intros r w' calls Hok Hin Hstatus Hagent.
    split; [auto|]. split; [intros Hn; now destruct Hn|]. auto. }
  unfold handleButtonClick.
  destruct (StringFacts.eqb_spec buttonId "help") as [-> | N1].
  { cbn [orb bind run_trace handleHelp]. apply Hdirect;
      [eauto | unfold direct_ids; simpl; auto 12 | discriminate | discriminate]. }
  destruct (StringFacts.eqb_spec buttonId "aide") as [-> | N2].
  { cbn [orb bind run_trace handleHelp]. apply Hdirect;
      [eauto | unfold direct_ids; simpl; auto 12 | discriminate | discriminate]. }
  cbn [orb].
  destruct (StringFacts.eqb_spec buttonId "faq") as [-> | N3].
  { unfold handleFAQ, call. cbv zeta.
    destruct (JsString.eqb buttonTitle "").
    - cbn [bind run_trace]. apply Hdirect;
        [eauto | unfold direct_ids; simpl; auto 12 | discriminate | discriminate].
    - cbn [bind run_trace]. destruct (h _ (KbSearch _ _) w) as [[found|] w'].
      + destruct (KnowledgeBaseService.Qgt_bool _ _); cbn [bind run_trace]; apply Hdirect;
          try (unfold direct_ids; simpl; auto 12); try discriminate; eauto.
      + cbn [bind run_trace]. apply Hdirect;
          [eauto | unfold direct_ids; simpl; auto 12 | discriminate | discriminate]. }
  destruct (StringFacts.eqb_spec buttonId "contact_agent") as [-> | N4].
  { unfold initiateHumanHandoff, call. cbn [orb bind run_trace].
    destruct (h _ DateNow w) as [now w']. cbn [bind run_trace]. apply Hdirect;
      [eauto | unfold direct_ids; simpl; auto 12 | discriminate |].
    intros _. eexists _, _. split; [reflexivity|]. cbn [context].
    rewrite lookup_insert_ne by discriminate. apply lookup_insert_eq. }
  destruct (StringFacts.eqb_spec buttonId "contacter_agent") as [-> | N5].
  { unfold initiateHumanHandoff, call. cbn [orb bind run_trace].
    destruct (h _ DateNow w) as [now w']. cbn [bind run_trace]. apply Hdirect;
      [eauto | unfold direct_ids; simpl; auto 12 | discriminate | discriminate]. }
  cbn [orb].
  destruct (StringFacts.eqb_spec buttonId "greeting") as [-> | N6].
  { unfold handleGreeting, getTimeOfDay, call. cbn [orb bind run_trace].
    destruct (h _ GetHours w) as [hour w']. cbn [bind run_trace]. apply Hdirect;
      [eauto | unfold direct_ids; simpl; auto 12 | discriminate | discriminate]. }
  destruct (StringFacts.eqb_spec buttonId "salutation") as [-> | N7].
  { unfold handleGreeting, getTimeOfDay, call. cbn [orb bind run_trace].
    destruct (h _ GetHours w) as [hour w']. cbn [bind run_trace]. apply Hdirect;
      [eauto | unfold direct_ids; simpl; auto 12 | discriminate | discriminate]. }
  cbn [orb].
  destruct (StringFacts.eqb_spec buttonId "create_ticket") as [-> | N8].
  { cbn [run_trace]. apply Hdirect;
      [eauto | unfold direct_ids; simpl; auto 12 | discriminate | discriminate]. }
  destruct (StringFacts.eqb_spec buttonId "check_ticket") as [-> | N9].
  { unfold call. cbn [bind run_trace].
    destruct (h _ (HandleCheckTicketStatus user) w) as [response w']. cbn [bind run_trace].
    apply Hdirect; [eauto | unfold direct_ids; simpl; auto 12 | reflexivity | discriminate]. }
  assert (List.existsb is_status_call
            (snd (run_trace h (handleTextInput cfg buttonTitle user session) w)) = false)
    as Hstatus.
  { rewrite handleTextInput_run.
    destruct (is_inherited (user_language user)); [reflexivity|].
    destruct (includes (toLowerCase buttonTitle) "ticket").
    - destruct (TicketMessageHandler.extractTicketInfo _ _); [|reflexivity].
      cbv zeta. destruct (h _ (HandleCreateTicket _ _ _) w). reflexivity.
    - pose proof (ai_or_fallback_run h w cfg buttonTitle user session) as Hai.
      cbv zeta in Hai. rewrite Hai. reflexivity. }
  destruct (run_trace h (handleTextInput cfg buttonTitle user session) w) as [[r w'] calls].
  cbn [snd] in Hstatus.
  split; [unfold direct_ids; simpl; intuition congruence|].
  split; [reflexivity|]. split; [rewrite Hstatus; discriminate|].
  split; [intros E; congruence | exact Hoffered].
Qed.

End WithEngine.

End InputFacts.

(** ** Incoming messages *)

Module IncomingFacts.
Import Orchestrator Incoming ProgFacts.

(** What a run sent to WhatsApp, and the sessions it saved, in order. *)
Fixpoint sent (calls : list (Call MsgE)) : list (jstring * Response) :=
  match calls with
  | [] => []
  | Called (SendText phoneNumber text) :: rest => (phoneNumber, TextResponse text) :: sent rest
  | Called (SendInteractive phoneNumber text buttons) :: rest =>
      (phoneNumber, InteractiveResponse text buttons) :: sent rest
  | Called (SendList phoneNumber text buttonText sections) :: rest =>
      (phoneNumber, ListResponse text buttonText sections) :: sent rest
  | Called _ :: rest => sent rest
  end.

Fixpoint saved_sessions (calls : list (Call MsgE)) : list (nat * Session) :=
  match calls with
  | [] => []
  | Called (SessionSet user session) :: rest => (user, session) :: saved_sessions rest
  | Called _ :: rest => saved_sessions rest
  end.

Lemma sent_app (a b : list (Call MsgE)) : sent (a ++ b) = sent a ++ sent b.
Proof.
  induction a as [|[X e] a IH]; [reflexivity|]. destruct e; simpl; now rewrite ?IH.
Qed.

Lemma saved_sessions_app (a b : list (Call MsgE)) :
  saved_sessions (a ++ b) = saved_sessions a ++ saved_sessions b.
Proof.
  induction a as [|[X e] a IH]; [reflexivity|]. destruct e; simpl; now rewrite ?IH.
Qed.

(** Calls that send nothing and save no session. *)
Definition quiet (calls : list (Call MsgE)) : Prop :=
  sent calls = [] /\ saved_sessions calls = [].

Lemma quiet_app (a b : list (Call MsgE)) : quiet a -> quiet b -> quiet (a ++ b).
Proof.
  intros [Ha1 Ha2] [Hb1 Hb2]. split.
  - now rewrite sent_app, Ha1, Hb1.
  - now rewrite saved_sessions_app, Ha2, Hb2.
Qed.

(** A program of the orchestrator sends nothing itself. *)
Lemma lift_quiet {W R} (h : Handler MsgE W) (p : Prog OrchE R) (w : W) :
  quiet (snd (run_trace h (lift p) w)).
Proof.
  revert w. induction p as [r | X e k IH]; intros w; [split; reflexivity|].
  cbn [lift run_trace]. destruct (h X (Orch e) w) as [x w'].
  specialize (IH x w'). destruct (run_trace h (lift (k x)) w') as [[r w''] calls].
  exact IH.
Qed.

Section WithConfig.
Context {EN : Engine}.
Variable cfg : Config.

Lemma getOrCreateUser_quiet {W} (h : Handler MsgE W) (m : MessageData) (w : W) :
  quiet (snd (run_trace h (getOrCreateUser cfg m) w)).
Proof.
  unfold getOrCreateUser, await, call. cbn [bind run_trace].
  destruct (h _ (UserFindUnique _) w) as [[[user|]|e] w1]; cbn [bind run_trace].
  - destruct (TicketStore.if_given (contact_name m)) as [given|]; [|split; reflexivity].
    destruct (negb _); [|split; reflexivity]. cbn [bind run_trace].
    destruct (h _ (UserUpdateName _ _) w1) as [r w2]. split; reflexivity.
  - destruct (h _ (UserCreate _ _ _) w1) as [r w2]. split; reflexivity.
  - split; reflexivity.
Qed.

Lemma saveMessage_quiet {W} (h : Handler MsgE W) (m : MessageData) (conversation : nat) (w : W) :
  quiet (snd (run_trace h (saveMessage m conversation) w)).
Proof.
  unfold saveMessage, await, call. cbn [bind run_trace].
  destruct (h _ (MessageCreate _ _) w) as [[message|e] w1]; cbn [bind run_trace];
    [|split; reflexivity].
  destruct (h _ (MessageMarkProcessed _) w1) as [[u|e] w2]; split; reflexivity.
Qed.

Lemma reply_steps_trace {W} (h : Handler MsgE W) (w : W) user session response :
  let '(r, _, calls) := run_trace h (reply_steps user session response) w in
  sent calls = [(phoneNumber user, response)]
  /\ match r with
     | Ok _ => exists now, saved_sessions calls = [(user_id user, touch session now)]
     | Throw _ => (List.length (saved_sessions calls) <= 1)%nat
     end.
Proof.
  unfold reply_steps, sendResponse, await, call.
  destruct response as [text | text buttons | text buttonText sections]; cbn [bind run_trace].
  - destruct (h _ (SendText _ _) w) as [[u|e] w1]; cbn [bind run_trace]; [|cbn; auto].
    destruct (h _ (Orch DateNow) w1) as [now w2]. cbn [bind run_trace].
    destruct (h _ (SessionSet _ _) w2) as [[u'|e] w3]; cbn [bind run_trace]; [|cbn; auto].
    destruct (h _ (Orch DateNow) w3) as [now' w4]. cbn. eauto.
  - destruct (h _ (SendInteractive _ _ _) w) as [[u|e] w1]; cbn [bind run_trace]; [|cbn; auto].
    destruct (h _ (Orch DateNow) w1) as [now w2]. cbn [bind run_trace].
    destruct (h _ (SessionSet _ _) w2) as [[u'|e] w3]; cbn [bind run_trace]; [|cbn; auto].
    destruct (h _ (Orch DateNow) w3) as [now' w4]. cbn. eauto.
  - destruct (h _ (SendList _ _ _ _) w) as [[u|e] w1]; cbn [bind run_trace]; [|cbn; auto].
    destruct (h _ (Orch DateNow) w1) as [now w2]. cbn [bind run_trace].
    destruct (h _ (SessionSet _ _) w2) as [[u'|e] w3]; cbn [bind run_trace]; [|cbn; auto].
    destruct (h _ (Orch DateNow) w3) as [now' w4]. cbn. eauto.
Qed.

(** What the [try] block of [processIncomingMessage] sent and saved, by
    its outcome. *)
Definition steps_outcome (r : Result unit) (calls : list (Call MsgE)) : Prop :=
  match r with
  | Ok _ => exists reply saved, sent calls = [reply] /\ saved_sessions calls = [saved]
  | Throw _ =>
      quiet calls
      \/ exists reply, sent calls = [reply] /\ (List.length (saved_sessions calls) <= 1)%nat
  end.

Lemma steps_outcome_after (r : Result unit) (before calls : list (Call MsgE)) :
  quiet before -> steps_outcome r calls -> steps_outcome r (before ++ calls).
Proof.
  intros [Hs Hv]. unfold steps_outcome, quiet.
  rewrite sent_app, saved_sessions_app, Hs, Hv. auto.
Qed.

Lemma steps_outcome_cons {X} (e : MsgE X) (r : Result unit) (calls : list (Call MsgE)) :
  quiet [Called e] -> steps_outcome r calls -> steps_outcome r (Called e :: calls).
Proof. intros Hq. exact (steps_outcome_after r [Called e] calls Hq). Qed.

Lemma process_steps_trace {W} (h : Handler MsgE W) (w : W) (m : MessageData) :
  let '(r, _, calls) := run_trace h (process_steps cfg m) w in steps_outcome r calls.
Proof.
  unfold process_steps, await, call. cbn [bind run_trace].
  destruct (h _ Initialize w) as [[u|e] w1]; cbn [bind run_trace];
    [|left; split; reflexivity].
  destruct (h _ (Orch DateNow) w1) as [startTime w2].
  rewrite run_trace_bind.
  pose proof (getOrCreateUser_quiet h m w2) as Huser.
  destruct (run_trace h (getOrCreateUser cfg m) w2) as [[[user|e] w3] calls3];
    cbn [snd] in Huser.
  2:{ cbn -[steps_outcome]. apply (steps_outcome_cons Initialize); [split; reflexivity|].
      apply (steps_outcome_cons (Orch DateNow)); [split; reflexivity|].
      rewrite app_nil_r. left. exact Huser. }
  rewrite run_trace_bind.
  pose proof (lift_quiet h (getOrCreateConversation cfg (user_id user)) w3) as Hconv.
  destruct (run_trace h (lift (getOrCreateConversation cfg (user_id user))) w3)
    as [[[conversation|e] w4] calls4]; cbn [snd] in Hconv.
  2:{ cbn -[steps_outcome]. apply (steps_outcome_cons Initialize); [split; reflexivity|].
      apply (steps_outcome_cons (Orch DateNow)); [split; reflexivity|].
      apply steps_outcome_after; [exact Huser|]. rewrite app_nil_r. left. exact Hconv. }
  rewrite run_trace_bind.
  pose proof (saveMessage_quiet h m (id conversation) w4) as Hsave.
  destruct (run_trace h (saveMessage m (id conversation)) w4)
    as [[[savedMessage|e] w5] calls5]; cbn [snd] in Hsave.
  2:{ cbn -[steps_outcome]. apply (steps_outcome_cons Initialize); [split; reflexivity|].
      apply (steps_outcome_cons (Orch DateNow)); [split; reflexivity|].
      apply steps_outcome_after; [exact Huser|].
      apply steps_outcome_after; [exact Hconv|]. rewrite app_nil_r. left. exact Hsave. }
  cbn [bind run_trace].
  destruct (h _ (SessionGet (user_id user)) w5) as [stored w6].
  rewrite run_trace_bind.
  assert (quiet (snd (run_trace h (session_or_new stored conversation user) w6))) as Hsession.
  { unfold session_or_new, call. destruct stored as [session|]; [split; reflexivity|].
    cbn [bind run_trace]. destruct (h _ (Orch DateNow) w6) as [now w7]. split; reflexivity. }
  destruct (run_trace h (session_or_new stored conversation user) w6)
    as [[session w7] calls7]; cbn [snd] in Hsession.
  rewrite run_trace_bind.
  pose proof (lift_quiet h (respond cfg m user session) w7) as Hrespond.
  destruct (run_trace h (lift (respond cfg m user session)) w7)
    as [[[[user' session'] response] w8] calls8]; cbn [snd] in Hrespond.
  assert (forall r calls, steps_outcome r calls ->
            steps_outcome r
              (Called Initialize :: Called (Orch DateNow)
               :: calls3 ++ calls4 ++ calls5
               ++ Called (SessionGet (user_id user)) :: calls7 ++ calls8 ++ calls)) as Hwrap.
  { intros r calls Hr.
    apply (steps_outcome_cons Initialize); [split; reflexivity|].
    apply (steps_outcome_cons (Orch DateNow)); [split; reflexivity|].
    apply steps_outcome_after; [exact Huser|].
    apply steps_outcome_after; [exact Hconv|].
    apply steps_outcome_after; [exact Hsave|].
    apply (steps_outcome_cons (SessionGet (user_id user))); [split; reflexivity|].
    apply steps_outcome_after; [exact Hsession|].
    apply steps_outcome_after; [exact Hrespond | exact Hr]. }
  destruct response as [response|e].
  - cbn [bind run_trace].
    pose proof (reply_steps_trace h w8 user' session' response) as Hreply.
    destruct (run_trace h (reply_steps user' session' response) w8) as [[r w9] calls9].
    apply Hwrap. destruct Hreply as [Hsent Hsaved]. destruct r as [u'|e].
    + destruct Hsaved as [now Hsaved]. cbn. eauto.
    + cbn. right. eauto.
  - cbn [bind run_trace]. apply Hwrap. left. split; reflexivity.
Qed.

(** X26: [processIncomingMessage] never raises, and what the user
    receives is one of three things: the generic error message alone,
    when a step before the reply failed, nothing having been saved; the
    reply alone, the session having been saved once; or the reply
    followed by the generic error message, when sending the reply or
    saving the session failed.  The error message goes to the sender of
    the message in the default language, whatever the language of the
    user. *)
Theorem X26_processIncomingMessage_notices {W} (h : Handler MsgE W) (w : W)
  (m : MessageData) :
  let '(_, _, calls) := run_trace h (processIncomingMessage cfg m) w in
  let notice :=
    (from m, TextResponse (localized cfg "error.general" (defaultLanguage cfg))) in
  (sent calls = [notice] /\ saved_sessions calls = [])
  \/ (exists reply saved, sent calls = [reply] /\ saved_sessions calls = [saved])
  \/ (exists reply, sent calls = [reply; notice]
                    /\ (List.length (saved_sessions calls) <= 1)%nat).
Proof.
  unfold processIncomingMessage. rewrite run_trace_bind.
  pose proof (process_steps_trace h w m) as Hsteps.
  destruct (run_trace h (process_steps cfg m) w) as [[[u|e] w1] calls1].
  - cbn. rewrite app_nil_r. right. left. exact Hsteps.
  - unfold error_notice, call. cbn [bind run_trace].
    destruct (h _ (SendText _ _) w1) as [r w2]. cbn [run_trace].
    rewrite sent_app, saved_sessions_app. cbn [sent saved_sessions]. rewrite app_nil_r.
    destruct Hsteps as [[-> ->] | (reply & -> & Hsaved)].
    + left. split; reflexivity.
    + right. right. exists reply. split; [reflexivity | exact Hsaved].
Qed.

End WithConfig.

End IncomingFacts.
(** ** Localized messages *)

Module LocalizationFacts.
Import Localization EngineFacts.

(** The keys of the message tables. *)
Definition known_keys : list jstring := List.map fst (messages_fr no_params).

Lemma keys_do_not_depend_on_params (params : Params) :
  List.map fst (messages_fr params) = known_keys
  /\ List.map fst (messages_en params) = known_keys.
Proof. split; reflexivity. Qed.

Lemma known_keys_dotted (key : jstring) : List.In key known_keys -> includes key "." = true.
Proof.
  assert (List.forallb (fun k => includes k ".") known_keys = true) as H by now vm_compute.
  rewrite List.forallb_forall in H. exact (H key).
Qed.

Lemma assoc_in (key : jstring) (table : list (jstring * jstring)) :
  List.In key (List.map fst table) -> exists v, assoc key table = Some v /\ List.In (key, v) table.
Proof.
  induction table as [|[k v] table IH]; simpl; [tauto|].
  destruct (StringFacts.eqb_spec k key) as [-> | Hne].
  - intros _. exists v. auto.
  - intros [E | Hin]; [congruence|]. destruct (IH Hin) as (v' & Ha & Hin'). eauto.
Qed.

Lemma assoc_not_in (key : jstring) (table : list (jstring * jstring)) :
  ~ List.In key (List.map fst table) -> assoc key table = None.
Proof.
  induction table as [|[k v] table IH]; simpl; [reflexivity|].
  intros Hn. destruct (StringFacts.eqb_spec k key) as [-> | Hne]; [tauto|]. apply IH. tauto.
Qed.

Lemma assoc_some_in (key v : jstring) (table : list (jstring * jstring)) :
  assoc key table = Some v -> List.In key (List.map fst table).
Proof.
  induction table as [|[k v'] table IH]; simpl; [discriminate|].
  destruct (StringFacts.eqb_spec k key) as [-> | Hne]; [now left | right; auto].
Qed.

(** No message of either table is the empty text, whatever the
    parameters. *)
Lemma messages_not_empty (params : Params) :
  List.Forall (fun kv => snd kv <> "") (messages_fr params)
  /\ List.Forall (fun kv => snd kv <> "") (messages_en params).
Proof.
  split; unfold messages_fr, messages_en;
    repeat (apply List.Forall_cons; [cbn; discriminate|]); apply List.Forall_nil.
Qed.

Section WithEngine.
Context {EN : Engine}.

Lemma message_in_known (language key : jstring) (params : Params) :
  language = "fr" \/ language = "en" ->
  List.In key known_keys ->
  exists v, message_in language key params = Ok (Some (Text v)) /\ v <> ""
            /\ List.In (key, v)
                 (if JsString.eqb language "fr" then messages_fr params else messages_en params).
Proof.
  destruct (keys_do_not_depend_on_params params) as [Hfr Hen].
  destruct (messages_not_empty params) as [Nfr Nen].
  intros [-> | ->] Hin; unfold message_in, by_language; cbn [JsString.eqb N.eqb Pos.eqb andb].
  - rewrite <- Hfr in Hin. destruct (assoc_in _ _ Hin) as (v & -> & Hv).
    rewrite List.Forall_forall in Nfr. pose proof (Nfr _ Hv) as Hne. cbn in Hne.
    destruct (StringFacts.eqb_spec v "") as [E | _]; [contradiction|]. eauto.
  - rewrite <- Hen in Hin. destruct (assoc_in _ _ Hin) as (v & -> & Hv).
    rewrite List.Forall_forall in Nen. pose proof (Nen _ Hv) as Hne. cbn in Hne.
    destruct (StringFacts.eqb_spec v "") as [E | _]; [contradiction|]. eauto.
Qed.

(** A table has no text for a key that is not one of its keys: the
    lookup reaches the member of [Object.prototype] the key names, if
    any. *)
Lemma message_in_unknown_key (language key : jstring) (params : Params) :
  language = "fr" \/ language = "en" ->
  ~ List.In key known_keys ->
  message_in language key params = Ok (if is_inherited key then Some (Member key) else None).
Proof.
  destruct (keys_do_not_depend_on_params params) as [Hfr Hen].
  intros [-> | ->] Hn; unfold message_in, by_language; cbn [JsString.eqb N.eqb Pos.eqb andb].
  - rewrite assoc_not_in; [reflexivity | now rewrite Hfr].
  - rewrite assoc_not_in; [reflexivity | now rewrite Hen].
Qed.

Lemma message_in_missing_language (language key : jstring) (params : Params) :
  language <> "fr" -> language <> "en" -> is_inherited language = false ->
  message_in language key params = Ok None.
Proof.
  intros Hfr Hen Hi. unfold message_in, by_language.
  destruct (StringFacts.eqb_spec language "fr"); [contradiction|].
  destruct (StringFacts.eqb_spec language "en"); [contradiction|].
  now rewrite Hi.
Qed.

Lemma message_in_inherited_language (language key : jstring) (params : Params) :
  is_inherited language = true ->
  message_in language key params
  = match member_property language key with
    | Ok Falsy => Ok None
    | Ok (TextValue s) => Ok (Some (Text s))
    | Ok OtherValue => Ok (Some (MemberProperty language key))
    | Throw e => Throw e
    end.
Proof.
  intros Hi. unfold message_in, by_language.
  destruct (StringFacts.eqb_spec language "fr") as [-> | _]; [discriminate|].
  destruct (StringFacts.eqb_spec language "en") as [-> | _]; [discriminate|].
  now rewrite Hi.
Qed.

(** For a key with a full stop no language reaches anything but the
    texts of the tables. *)
Lemma message_in_dotted (language key : jstring) (params : Params) :
  includes key "." = true ->
  message_in language key params
  = Ok (if JsString.eqb language "fr" || JsString.eqb language "en"
        then Text <$> assoc key (if JsString.eqb language "fr" then messages_fr params
                                 else messages_en params)
        else None).
Proof.
  destruct (messages_not_empty params) as [Nfr Nen].
  intros Hdot. unfold message_in, by_language.
  rewrite (dotted_is_not_inherited key Hdot).
  destruct (JsString.eqb language "fr"); cbn [orb].
  { destruct (assoc key (messages_fr params)) as [v|] eqn:Ha; [|reflexivity].
    destruct (assoc_in key (messages_fr params) (assoc_some_in _ _ _ Ha)) as (v' & Ha' & Hin).
    rewrite Ha in Ha'. injection Ha' as <-.
    rewrite List.Forall_forall in Nfr. pose proof (Nfr _ Hin) as Hne. cbn in Hne.
    destruct (StringFacts.eqb_spec v "") as [E | _]; [contradiction | reflexivity]. }
  destruct (JsString.eqb language "en").
  { destruct (assoc key (messages_en params)) as [v|] eqn:Ha; [|reflexivity].
    destruct (assoc_in key (messages_en params) (assoc_some_in _ _ _ Ha)) as (v' & Ha' & Hin).
    rewrite Ha in Ha'. injection Ha' as <-.
    rewrite List.Forall_forall in Nen. pose proof (Nen _ Hin) as Hne. cbn in Hne.
    destruct (StringFacts.eqb_spec v "") as [E | _]; [contradiction | reflexivity]. }
  destruct (is_inherited language); [|reflexivity].
  now rewrite (member_property_dotted language key Hdot).
Qed.

(** What the handlers receive is what the lookup returns. *)
Lemma message_is_the_lookup (defaultLanguage key language : jstring) (params : Params) :
  includes key "." = true ->
  getLocalizedMessage defaultLanguage key language params
  = Ok (Text (message defaultLanguage key language params)).
Proof.
  intros Hdot. unfold message, getLocalizedMessage.
  rewrite !(message_in_dotted _ key params Hdot).
  destruct (_ || _); [destruct (assoc key _); [reflexivity|] |];
    (destruct (_ || _); [destruct (assoc key _); reflexivity | reflexivity]).
Qed.

(** X27: the French and the English table have the same keys, each with
    a full stop, and no message is empty.  So for a key of the tables
    [getLocalizedMessage] returns the message of the language asked for
    when it is [fr] or [en], and for any other language code, the name
    of a member of [Object.prototype] included, the message of the
    default language if that is [fr] or [en] and the key if not.  For a
    key with a full stop that is not in the tables it returns the key.
    Other keys can reach the members every object inherits: with the
    language [fr] or [en], a key naming a member of [Object.prototype]
    gives that member, which is not a text; with a language naming such
    a member, the lookup is in that member: it gives its property if
    that is truthy, goes on to the default language if it is falsy, and
    raises if reading the property raises. *)
Theorem X27_getLocalizedMessage_resolution
  (defaultLanguage key language : jstring) (params : Params) :
  let m := getLocalizedMessage defaultLanguage key language params in
  List.map fst (messages_en params) = List.map fst (messages_fr params)
  /\ List.forallb (fun k => includes k ".") known_keys = true
  /\ (List.In key known_keys -> language = "fr" \/ language = "en" ->
      exists v, m = Ok (Text v) /\ v <> ""
                /\ List.In (key, v) (if JsString.eqb language "fr" then messages_fr params
                                     else messages_en params))
  /\ (List.In key known_keys -> language <> "fr" -> language <> "en" ->
      (defaultLanguage = "fr" \/ defaultLanguage = "en" ->
       exists v, m = Ok (Text v) /\ v <> ""
                 /\ List.In (key, v) (if JsString.eqb defaultLanguage "fr"
                                      then messages_fr params else messages_en params))
      /\ (defaultLanguage <> "fr" -> defaultLanguage <> "en" -> m = Ok (Text key)))
  /\ (includes key "." = true -> ~ List.In key known_keys -> m = Ok (Text key))
  /\ (includes key "." = true ->
      m = Ok (Text (message defaultLanguage key language params)))
  /\ (is_inherited key = true -> language = "fr" \/ language = "en" -> m = Ok (Member key))
  /\ (is_inherited language = true ->
      match member_property language key with
      | Ok (TextValue s) => m = Ok (Text s)
      | Ok OtherValue => m = Ok (MemberProperty language key)
      | Ok Falsy => m = getLocalizedMessage defaultLanguage key defaultLanguage params
      | Throw e => m = Throw e
      end).
Proof.
  cbv zeta. split; [reflexivity|]. split; [now vm_compute|].
  split; [|split; [|split; [|split; [|split]]]].
  - intros Hin Hl. unfold getLocalizedMessage.
    destruct (message_in_known language key params Hl Hin) as (v & -> & Hv & Hm). eauto.
  - intros Hin Hfr Hen. pose proof (known_keys_dotted key Hin) as Hdot.
    unfold getLocalizedMessage. rewrite (message_in_dotted language key params Hdot).
    destruct (StringFacts.eqb_spec language "fr"); [contradiction|].
    destruct (StringFacts.eqb_spec language "en"); [contradiction|]. cbn [orb].
    split.
    + intros Hd. destruct (message_in_known defaultLanguage key params Hd Hin)
        as (v & -> & Hv & Hm). eauto.
    + intros Hdfr Hden. rewrite (message_in_dotted defaultLanguage key params Hdot).
      destruct (StringFacts.eqb_spec defaultLanguage "fr"); [contradiction|].
      destruct (StringFacts.eqb_spec defaultLanguage "en"); [contradiction|]. reflexivity.
  - intros Hdot Hn. destruct (keys_do_not_depend_on_params params) as [Hfr Hen].
    assert (forall l, assoc key (if JsString.eqb l "fr" then messages_fr params
                                 else messages_en params) = None) as Hnone.
    { intros l. apply assoc_not_in. destruct (JsString.eqb l "fr"); congruence. }
    unfold getLocalizedMessage. rewrite !(message_in_dotted _ key params Hdot), !Hnone.
    destruct (_ || _); destruct (_ || _); reflexivity.
  - exact (message_is_the_lookup defaultLanguage key language params).
  - intros Hi Hl. unfold getLocalizedMessage.
    assert (~ List.In key known_keys) as Hn.
    { intros Hin. apply known_keys_dotted, dotted_is_not_inherited in Hin. congruence. }
    rewrite (message_in_unknown_key language key params Hl Hn), Hi. reflexivity.
  - intros Hi.
    assert (getLocalizedMessage defaultLanguage key language params
            = match member_property language key with
              | Ok (TextValue s) => Ok (Text s)
              | Ok OtherValue => Ok (MemberProperty language key)
              | Ok Falsy => getLocalizedMessage defaultLanguage key defaultLanguage params
              | Throw e => Throw e
              end) as ->.
    { unfold getLocalizedMessage.
      rewrite (message_in_inherited_language language key params Hi).
      destruct (member_property language key) as [[|s|]|e]; [|reflexivity..].
      destruct (message_in defaultLanguage key params) as [[v|]|e]; reflexivity. }
    destruct (member_property language key) as [[|s|]|e]; reflexivity.
Qed.

End WithEngine.

Example unknown_language_falls_back :
  getLocalizedMessage (EN := latin1_engine) "fr" "buttons.help" "es" no_params = Ok (Text "Aide")
  /\ getLocalizedMessage (EN := latin1_engine) "de" "buttons.help" "es" no_params
     = Ok (Text "buttons.help")
  /\ getLocalizedMessage (EN := latin1_engine) "fr" "buttons.help" "constructor" no_params
     = Ok (Text "Aide").
Proof. repeat split; reflexivity. Qed.

(** Keys and languages that name members of [Object.prototype]: the
    function [toString] for the key [toString]; for the language
    [constructor] the name of [Object], its method [keys], and a
    [TypeError] for its [caller]; the [length] of [toString] is zero. *)
Example inherited_members_are_reached :
  getLocalizedMessage (EN := latin1_engine) "fr" "toString" "fr" no_params
  = Ok (Member "toString")
  /\ getLocalizedMessage (EN := latin1_engine) "fr" "name" "constructor" no_params
     = Ok (Text "Object")
  /\ getLocalizedMessage (EN := latin1_engine) "fr" "keys" "constructor" no_params
     = Ok (MemberProperty "constructor" "keys")
  /\ getLocalizedMessage (EN := latin1_engine) "fr" "length" "toString" no_params
     = Ok (Text "length")
  /\ (exists e, getLocalizedMessage (EN := latin1_engine) "fr" "caller" "constructor" no_params
                = Throw e)
  /\ getLocalizedMessage (EN := latin1_engine) "fr" "name" "__proto__" no_params
     = Ok (Text "name").
Proof. repeat split; try reflexivity. eexists. reflexivity. Qed.

End LocalizationFacts.

(** ** The cache of the knowledge base search *)

Module SearchCacheFacts.
Import KnowledgeBaseService ProgFacts SearchFacts ResultFacts EngineFacts.

(** The same stores at a later instant. *)
Definition later (w : World) (now : Z) : World :=
  {| prisma_ready := prisma_ready w; table := table w; db_fails := db_fails w;
     db_queries := db_queries w; redis_up := redis_up w; cached := cached w;
     clock := now; nlp := nlp w; scorer := scorer w |}.

Definition is_db_query (c : Call KbE) : bool :=
  match c with
  | Called (FindByKeywords _ _ _ _) | Called (FindMostUsed _ _) => true
  | Called _ => false
  end.

Lemma search_key_under_prefix (normalizedQuery lang : jstring) (limit : nat) :
  startsWith "kb:search:" (searchCacheKey normalizedQuery lang limit) = true.
Proof. reflexivity. Qed.

(** Once [deletePattern] and [del] have returned, no answer of a search
    is left in the cache. *)
Lemma cleared_cache (w : World) (other key : jstring) :
  startsWith "kb:search:" key = true ->
  delete other (filter (fun kv => startsWith "kb:search:" (fst kv) = false) (cached w)) !! key
  = None.
Proof.
  intros Hkey. apply lookup_delete_None. right. apply map_lookup_filter_None. right.
  intros x _. cbn [fst]. congruence.
Qed.

Lemma deleteEntry_clears (w w3 : World) (target key : jstring) :
  run KnowledgeBaseWrites.handle (KnowledgeBaseWrites.deleteEntry target) w = (Ok tt, w3) ->
  startsWith "kb:search:" key = true -> cache_get w3 key = None.
Proof.
  unfold KnowledgeBaseWrites.deleteEntry, await, call.
  cbn [bind run KnowledgeBaseWrites.handle].
  destruct (prisma_ready w); cbn [bind run KnowledgeBaseWrites.handle]; [|discriminate].
  destruct (KnowledgeBaseWrites.entry_delete w target) as [[entry|e] w1] eqn:Hdel;
    cbn [bind run KnowledgeBaseWrites.handle]; [|discriminate].
  unfold KnowledgeBaseWrites.cache_delete_pattern.
  destruct (redis_up w1) eqn:Hup; cbn [bind run KnowledgeBaseWrites.handle]; [|discriminate].
  unfold KnowledgeBaseWrites.cache_del. cbn [redis_up KnowledgeBaseWrites.with_cache].
  rewrite Hup. cbn [bind run]. intros [= <-] Hkey.
  unfold cache_get. cbn [redis_up cached KnowledgeBaseWrites.with_cache]. rewrite Hup.
  now rewrite (cleared_cache w1 _ key Hkey).
Qed.

Lemma updateEntry_clears (w w3 : World) (target key : jstring)
  (updates : KnowledgeBaseWrites.Updates) (entry : KBEntry) :
  run KnowledgeBaseWrites.handle (KnowledgeBaseWrites.updateEntry target updates) w
  = (Ok entry, w3) ->
  startsWith "kb:search:" key = true -> cache_get w3 key = None.
Proof.
  unfold KnowledgeBaseWrites.updateEntry, await, call.
  cbn [bind run KnowledgeBaseWrites.handle].
  destruct (prisma_ready w); cbn [bind run KnowledgeBaseWrites.handle]; [|discriminate].
  destruct (KnowledgeBaseWrites.entry_update w target updates) as [[updated|e] w1] eqn:Hupd;
    cbn [bind run KnowledgeBaseWrites.handle]; [|discriminate].
  unfold KnowledgeBaseWrites.cache_delete_pattern.
  destruct (redis_up w1) eqn:Hup; cbn [bind run KnowledgeBaseWrites.handle]; [|discriminate].
  unfold KnowledgeBaseWrites.cache_del. cbn [redis_up KnowledgeBaseWrites.with_cache].
  rewrite Hup. cbn [bind run]. intros [= _ <-] Hkey.
  unfold cache_get. cbn [redis_up cached KnowledgeBaseWrites.with_cache]. rewrite Hup.
  now rewrite (cleared_cache w1 _ key Hkey).
Qed.

Section WithEngine.
Context {EN : Engine}.

(** A search that misses the cache stores the list it answers from. *)
Lemma search_miss_stores (w : World) (query lang : jstring) (limit : nat) :
  prisma_ready w = true -> redis_up w = true -> trim query <> "" ->
  cache_get w (searchCacheKey (toLowerCase (trim query)) lang limit) = None ->
  exists results w1,
    run handle (search query lang limit) w = (head results, w1)
    /\ prisma_ready w1 = true /\ redis_up w1 = true
    /\ cached w1 !! searchCacheKey (toLowerCase (trim query)) lang limit
       = Some ((clock w + searchCacheTTL * 1000)%Z, results).
Proof.
  intros Hready Hup Hquery Hmiss. unfold search. rewrite run_bind.
  unfold search_body, await, call. cbn [bind run handle]. rewrite Hready.
  cbn [bind run handle].
  assert (JsString.eqb query "" || (List.length (trim query) =? 0)%nat = false) as ->.
  { apply orb_false_iff. split.
    - destruct query; [now destruct Hquery | reflexivity].
    - destruct (trim query); [now destruct Hquery | reflexivity]. }
  cbn [bind run handle]. rewrite Hmiss. rewrite run_bind.
  pose proof (searchByKeywords_sound w (toLowerCase (trim query)) lang limit) as Hkw.
  destruct (run handle (searchByKeywords (toLowerCase (trim query)) lang limit) w)
    as [keywordResults w1].
  destruct Hkw as ((_ & Hredis1 & Hcached1 & Hclock1 & Hready1) & _). cbv zeta beta iota.
  destruct keywordResults as [|first rest].
  - rewrite run_bind.
    pose proof (searchSemantic_sound w1 (toLowerCase (trim query)) lang limit) as Hsem.
    destruct (run handle (searchSemantic (toLowerCase (trim query)) lang limit) w1)
      as [semanticResults w2].
    destruct Hsem as ((_ & Hredis2 & Hcached2 & Hclock2 & Hready2) & _).
    cbn [bind run handle]. unfold cache_set. rewrite Hredis2, Hredis1, Hup. cbn [bind run].
    eexists _, _. split; [reflexivity|]. cbn [prisma_ready redis_up cached].
    rewrite ?Hready2, ?Hready1, ?Hredis2, ?Hredis1, ?Hcached2, ?Hcached1, ?Hclock2, ?Hclock1.
    split; [first [exact Hready | reflexivity]|]. split; [first [exact Hup | reflexivity]|].
    apply lookup_insert_eq.
  - destruct (Qgt_bool (r_confidence first) (JsNumber.double (8 # 10))).
    + cbn [bind run handle]. unfold cache_set. rewrite Hredis1, Hup. cbn [bind run].
      exists (first :: rest). eexists. split; [reflexivity|]. cbn [prisma_ready redis_up cached].
      rewrite ?Hready1, ?Hredis1, ?Hcached1, ?Hclock1.
      split; [first [exact Hready | reflexivity]|]. split; [first [exact Hup | reflexivity]|].
    apply lookup_insert_eq.
    + rewrite run_bind.
      pose proof (searchSemantic_sound w1 (toLowerCase (trim query)) lang limit) as Hsem.
      destruct (run handle (searchSemantic (toLowerCase (trim query)) lang limit) w1)
        as [semanticResults w2].
      destruct Hsem as ((_ & Hredis2 & Hcached2 & Hclock2 & Hready2) & _).
      cbn [bind run handle]. unfold cache_set. rewrite Hredis2, Hredis1, Hup. cbn [bind run].
      eexists _, _. split; [reflexivity|]. cbn [prisma_ready redis_up cached].
      rewrite ?Hready2, ?Hready1, ?Hredis2, ?Hredis1, ?Hcached2, ?Hcached1, ?Hclock2, ?Hclock1.
      split; [first [exact Hready | reflexivity]|]. split; [first [exact Hup | reflexivity]|].
    apply lookup_insert_eq.
Qed.

Lemma search_hit (w : World) (query lang : jstring) (limit : nat) (results : list SearchResult) :
  prisma_ready w = true -> trim query <> "" ->
  cache_get w (searchCacheKey (toLowerCase (trim query)) lang limit) = Some results ->
  run_trace handle (search query lang limit) w
  = (head results, w,
     [Called Initialize;
      Called (CacheGet (searchCacheKey (toLowerCase (trim query)) lang limit))]).
Proof.
  intros Hready Hquery Hhit. unfold search. rewrite run_trace_bind.
  unfold search_body, await, call. cbn [bind run_trace handle]. rewrite Hready.
  cbn [bind run_trace handle].
  assert (JsString.eqb query "" || (List.length (trim query) =? 0)%nat = false) as ->.
  { apply orb_false_iff. split.
    - destruct query; [now destruct Hquery | reflexivity].
    - destruct (trim query); [now destruct Hquery | reflexivity]. }
  cbn [bind run_trace handle]. rewrite Hhit. reflexivity.
Qed.

(** X28: the answer of a search that misses the cache is stored, the
    empty answer included: while Redis is up, the same search made again
    within the TTL (1800 s) on the same stores gets the same answer
    without any database query.  The writers clear the stored answers:
    after an [updateEntry] or a [deleteEntry] that returns, the search
    misses the cache again. *)
Theorem X28_search_answer_is_kept
  (w : World) (query lang : jstring) (limit : nat) (t2 : Z) :
  prisma_ready w = true -> redis_up w = true -> trim query <> "" ->
  cache_get w (searchCacheKey (toLowerCase (trim query)) lang limit) = None ->
  (clock w <= t2 < clock w + searchCacheTTL * 1000)%Z ->
  let '(r1, w1) := run handle (search query lang limit) w in
  let '(r2, w2, calls) := run_trace handle (search query lang limit) (later w1 t2) in
  r2 = r1 /\ List.existsb is_db_query calls = false
  /\ db_queries w2 = db_queries w1
  /\ (forall target w3,
        run KnowledgeBaseWrites.handle (KnowledgeBaseWrites.deleteEntry target) (later w1 t2)
        = (Ok tt, w3) ->
        cache_get w3 (searchCacheKey (toLowerCase (trim query)) lang limit) = None)
  /\ (forall target updates entry w3,
        run KnowledgeBaseWrites.handle (KnowledgeBaseWrites.updateEntry target updates)
          (later w1 t2)
        = (Ok entry, w3) ->
        cache_get w3 (searchCacheKey (toLowerCase (trim query)) lang limit) = None).
Proof.
  intros Hready Hup Hquery Hmiss Ht.
  destruct (search_miss_stores w query lang limit Hready Hup Hquery Hmiss)
    as (results & w1 & -> & Hready1 & Hup1 & Hstored).
  rewrite (search_hit (later w1 t2) query lang limit results);
    [ | exact Hready1 | exact Hquery | ].
  - split; [reflexivity|]. split; [reflexivity|]. split; [reflexivity|]. split.
    + intros target w3 Hrun.
      exact (deleteEntry_clears _ _ _ _ Hrun (search_key_under_prefix _ _ _)).
    + intros target updates entry w3 Hrun.
      exact (updateEntry_clears _ _ _ _ _ _ Hrun (search_key_under_prefix _ _ _)).
  - unfold cache_get, later. cbn [redis_up cached clock]. rewrite Hup1, Hstored.
    destruct (t2 <? clock w + searchCacheTTL * 1000)%Z eqn:E; [reflexivity|].
    apply Z.ltb_ge in E. lia.
Qed.

End WithEngine.

(** A French search that finds nothing, made again a minute later. *)
Lemma X28_search_answer_witness :
  fst (fst (run_trace (handle (EN := latin1_engine))
              (search (EN := latin1_engine) "créer un ticket" "fr" 5)
              (later (snd (run (handle (EN := latin1_engine))
                             (search (EN := latin1_engine) "créer un ticket" "fr" 5)
                             quiet_world)) 61000)))
  = None.
Proof.
  pose proof (X28_search_answer_is_kept (EN := latin1_engine) quiet_world "créer un ticket"
                "fr" 5 61000 eq_refl eq_refl ltac:(discriminate) eq_refl
                ltac:(unfold quiet_world, searchCacheTTL; simpl; lia)) as H.
  destruct (run (handle (EN := latin1_engine))
              (search (EN := latin1_engine) "créer un ticket" "fr" 5) quiet_world)
    as [r1 w1] eqn:H1.
  cbn [snd].
  destruct (run_trace (handle (EN := latin1_engine))
              (search (EN := latin1_engine) "créer un ticket" "fr" 5) (later w1 61000))
    as [[r2 w2] calls].
  destruct H as (-> & _). vm_compute in H1. injection H1 as <- _. reflexivity.
Defined.

End SearchCacheFacts.
